(* ===== verification/_CoqProject ===== *)
-Q . S2P
Prelude.v
Log.v
GoNum.v
GoSlice.v
Nack.v
Bucket.v
Loss.v
Helper.v
Twcc.v
Sequencer.v
GoFloat.v
Rtp.v
Buffer.v
Factory.v
Pacer.v
SfuHelper.v
DownTrack.v
MediaEngine.v
Receiver.v
Resend.v
Layers.v
Pipeline.v
Simulcast.v
Peer.v
Router.v
Links.v
Session.v
Room.v
LateOffer.v
Channels.v
Signal.v
Config.v
Server.v
Main.v
