(* ===== verification/Prelude.v ===== *)
(** * MiniSFU: a verification development for the selective forwarding unit

    MiniSFU takes the audio and video tracks that the peers of a session
    publish and forwards their packets to all the other peers, without
    decoding them.  This library models the Go code under [src/] and proves
    what makes it correct, and where it is not correct, that it is not.

    ** The program, and the files that model it

    A packet's way through the SFU, and the file of each station:

    - [buffer/buffer.go] ([Buffer]): [Write] takes the packets of one SSRC,
      [calc] stores each in the packet cache, keeps the statistics, sends it
      on a channel to the receiver and reports to the publisher.  Its parts:
      [buffer/bucket.go], the packet cache ([Bucket]); [buffer/nack.go], the
      queue of missing packets ([Nack]); [buffer/helper.go], VP8 and H.264
      key frames ([Helper]); [buffer/twcc.go], transport-wide feedback
      ([Twcc]).
    - [buffer/factory.go], [rtcpreader.go] ([Factory]): one buffer and one RTCP
      reader per SSRC, shared by pion and the SFU.
    - [sfu/receiver.go] ([Receiver]): the layers of one published track;
      [writeRTP] hands the packets of a layer to its down tracks, NACKs are
      answered from the cache.
    - [sfu/downtrack.go] ([DownTrack]): one track for one subscriber: renumbering,
      key frames, simulcast layers, RTCP; [sfu/sequencer.go] ([Sequencer]) records
      what was sent, [pacer/pacer.go] ([Pacer]) sends it, [sfu/helper.go]
      ([SfuHelper]) has the clock and the codec search.  [Layers] is the
      receiver and its down tracks together.
    - [sfu/router.go] and the tracks of [sfu/subscriber.go] ([Router]): the
      receivers of a publisher, the down tracks hung on them, the RTCP loop.
    - [sfu/session.go], [sfu/sfu.go]: the table of sessions ([Session]); peers
      that join and leave, publication and subscription, tracks that end
      ([Room], on the invariant of [Links]: a down track is named by its
      receiver, by its subscriber and in the store).
    - [sfu/datachannel.go] and the channels of [session.go] and [subscriber.go]
      ([Channels]).
    - [sfu/peer.go], [publisher.go] and the connection of [subscriber.go]
      ([Peer]): negotiation and ICE candidates; [signal/signal.go] ([Signal]):
      the requests of a client.
    - [main.go]: the websocket connections with their peers, from connecting to
      disconnecting ([Server], with the constructors of [publisher.go] and
      [subscriber.go]), in the process with its flags and listeners ([Main]);
      the settings, with those of [sfu.go] ([Config]); [sfu/mediaengine.go]
      ([MediaEngine]); [internal/log] ([Log]).

    Five files are about several stations at once: [Loss] follows a gap in
    the numbers through the cache and the NACK queue; [Resend] has the task
    that answers a NACK on memory, with the pool of [sfu.go] that its buffers
    come from; [Pipeline] composes the goroutines along the way of a packet,
    [Simulcast] those of a track of several layers; [LateOffer] is about a
    track that ends while [Publish] is still offering it.

    Below them are this file, Go's integers ([GoNum]), slices and sorting
    ([GoSlice]), floating point ([GoFloat]) and RTP packets ([Rtp]).

    ** How the code is modelled

    A function of the source is a Gallina function on the state it reads and
    writes, with its branches in the order of the code.  A field of a struct
    is a field of a record of the same name (with a prefix where two structs
    share one); a nil pointer is [None]; integers carry the wrap-around of
    their Go type.  What panics, blocks for ever on a lock its own goroutine
    holds, or dereferences nil is [Panic] of the monad [go], and so is a send
    that finds the channel to the router full ([put_rtcp]): in a step relation
    the step is then not possible yet.  An error that is
    returned is a value of an option, a sum or an error type.  Objects that
    are shared (buffers, readers, down tracks, channels, sessions) are
    addresses in a store, so that aliasing is visible; callbacks are names.
    What runs concurrently is a step relation whose steps are the critical
    sections of the code ([pacer_step], [world_step], [pipe_step],
    [cast_step], [room_step], [channel_step], [loop_step], [server_step],
    [process_step]) or a list of events ([peer_run], [conn_run], [sfu_do],
    the rounds of [downTracksReports]).

    Code that is not in the repository is an argument: the RTP and RTCP
    parsers, the connections ([PeerConnection]), the codec and extension
    registration, JSON.  The receiver that a down track calls is the class
    [DownTrack.Receiver]; its instance is [Receiver.webrtc_receiver].

    ** Fuel

    The loops of the code are structural recursions on a list or on a bound
    that the code itself gives; where a loop has neither, its function takes
    fuel, and a theorem says that the fuel given is enough: the H.264
    aggregation loop ([h264_returns]: the length of the payload), the reports
    of a subscriber ([reports_run]: the number of chunks), the binary
    search ([search_loop_spec]: the length of the interval), the tail of a
    transport-wide packet ([pop_shrinking_pack]: the number of statuses).

    ** What the theorems show

    - The whole way: a subscriber of a track without simulcast is sent the
      publisher's stream, renumbered, none lost and none twice, whatever the
      goroutines do in between ([end_to_end]); with simulcast it is sent
      stretches of the layers, each whole from a key frame on, under one
      numbering without a gap ([simulcast_end_to_end]); what the buffer passes
      on is what arrived ([write_accepts]).  [writeRTP] waits at most for the
      router to take a message, until the router is stopped
      ([stop_strands_senders]).
    - Storage: the cache is a sliding window of the last packets
      ([bucket_refines_window], [addPacket_result]), and the slice it hands out
      lives as long as the slot ([stored_slice_lives]); the NACK queue is sorted
      and asks for exactly what is missing within a cycle of the numbers, but
      loses numbers across its end ([push_spec], [pairs_cover],
      [pairs_keeps_live]); a gap is asked for three times ([three_requests]) and then not even for
      a key frame ([giving_up_is_silent]); the buffer counts cycles, loss and bandwidth as
      RFC 3550 says ([calc_tracks], [reception_report_spec]) and never sends
      on a closed channel ([channel_safe]).
    - Payloads and feedback: [vp8_unmarshal_roundtrip], [vp8_unmarshal_panics],
      [h264_returns], [feedback_packet], [Push_extends], [reverse_burst_panics].
    - Forwarding: what a subscriber gets is one continuous stream
      ([simple_stream], [simulcast_switch]); what it asks for again it gets
      again ([sequencer_finds_sent], [sequencer_throttles], [nack_resends]),
      unless the pool gives its buffer away first ([resend_memory]); the
      pacer keeps the order ([pacer_fifo]); RTCP is condensed and throttled
      ([rtcp_summary], [pli_throttled]); the reports go on as long as the
      connection ([reports_run]); each down track is where it should be
      ([down_tracks_attached]), except after [early_switch_blocks] and
      [layer_settles].
    - Sessions: every peer has every other peer's tracks ([full_mesh]) and
      channels ([channel_fan_out]), except for a track that ends too early
      ([late_offer_orphans]).  The table of sessions: what holds of it however
      the calls overlap ([closed_sessions_leave]), what holds besides when
      they do not ([one_open_session]), and what overlapping calls may do:
      a peer in a session that is closed ([late_joiner_orphaned],
      [join_while_closing]), two open sessions of an id ([racing_creation]),
      an open session out of the table ([second_close_drops_open]).
    - Connections: the members of the sessions are the clients that joined and
      are connected ([membership]); those who ask for the same id meet, if
      nothing interrupts their joins and departures ([same_room]).
    - Signalling: offers alternate with answers, and none is forgotten
      ([offers_alternate], [request_served]); candidates keep their order
      ([candidates_in_order]); the replies to a client
      ([connection_protocol], [handle_replies]).
    - Set-up: [process_runs], [start_ports], [twcc_never_on],
      [every_codec_binds]; the place a log line names ([function_of_line]).

    A theorem that shows a defect says so in its comment; the others hold of
    the code as it is, under the hypotheses they state.

    ** Not modelled

    - The libraries that [main.go] and [internal/log] call: the parsing of
      flags, the reading of the file, the HTTP servers, the upgrade to a
      websocket, zerolog.  What they answer is an argument or the choice of a
      step.  Log lines of the other files, which nothing reads, are left out.
    - Of pion: when it calls the handlers, and what it makes of offers, answers
      and candidates beyond what [PeerConnection] says.
    - The Go memory model: a step is a critical section.  Data races are not
      visible in the model, except where a theorem is about the order of two
      sections ([racing_creation], [join_while_closing]).
    - A packet is a value in [pipe_step], [cast_step] and [world_step]: that
      its payload is a slice of the cache, or of a buffer of the pool, is the
      subject of [stored_slice_lives] and of [Resend].
    - [world_step] and [cast_step] leave out a second up track of a layer, and
      RTCP of a down track that still waits for its first key frame:
      [early_switch_blocks] shows what it can do.
    - In these relations [handleRTCP] is one step, though it holds no lock.
    - In [room_step] a departure is one step, and a track ends in one step,
      with its close handlers, after it was offered to everybody; [late_offer]
      is the step that this leaves out.  The parts of a departure
      are steps of [server_step]. *)

From stdpp Require Export base tactics option list numbers sets sorting.
From Stdlib Require Export ZArith Lia.

#[global] Open Scope Z_scope.

(** ** Outcomes of Go code

    A Go statement that indexes a slice or takes a sub-slice may panic; the
    model keeps that as a value, so that "does not panic" is a theorem. *)
Inductive go (A : Type) : Type :=
| Ok (a : A)
| Panic.
Arguments Ok {A} a.
Arguments Panic {A}.

#[export] Instance go_ret : MRet go := fun A a => Ok a.
#[export] Instance go_bind : MBind go := fun A B f m =>
  match m with Ok a => f a | Panic => Panic end.

Definition is_ok {A} (m : go A) : bool :=
  match m with Ok _ => true | Panic => false end.

(** The result, of an outcome that is one *)
Definition from_ok {A} (m : go A) (d : A) : A :=
  match m with Ok a => a | Panic => d end.

Lemma from_ok_eq {A} (m : go A) d : is_ok m = true -> m = Ok (from_ok m d).
Proof. by destruct m. Qed.

Lemma ok_pair_inj {A B} (a c : A) (b d : B) : Ok (a, b) = Ok (c, d) -> a = c /\ b = d.
Proof. by intros [= -> ->]. Qed.

(** ** Record update

    [r <| f := v |>] is [r] with field [f] replaced, for every record type
    with a [Settable] instance (its eta expansion). *)
Class Settable (R : Type) := eta_record : R -> R.
Class Setter {R T : Type} (proj : R -> T) := upd : (T -> T) -> R -> R.
Arguments upd {R T} proj {_} f r /.

Ltac derive_setter :=
  match goal with
  | |- @Setter ?R ?T ?proj =>
      let s := constr:(_ : Settable R) in
      let eta := eval hnf in s in
      let abstracted := eval pattern proj in eta in
      match abstracted with
      | ?body _ => exact (fun (f : T -> T) => body (fun r => f (proj r)))
      end
  end.
#[export] Hint Extern 1 (Setter _) => derive_setter : typeclass_instances.

Declare Scope go_scope.
Delimit Scope go_scope with go.
Notation "r <| f := v |>" := (upd f (fun _ => v) r)
  (at level 1, left associativity, f at next level, v at level 200).

(** ** Tactics *)

(** Linear arithmetic with [/] and [mod] by literals. *)
Ltac zlia := Z.div_mod_to_equations; lia.

(** Case analysis on the boolean tests of the code, keeping the facts as
    propositions. *)
Ltac bool_prop :=
  repeat match goal with
  | H : (_ && _)%bool = true |- _ => apply andb_true_iff in H; destruct H
  | H : (_ || _)%bool = false |- _ => apply orb_false_iff in H; destruct H
  | H : (_ && _)%bool = false |- _ => apply andb_false_iff in H
  | H : (_ || _)%bool = true |- _ => apply orb_true_iff in H
  | H : negb _ = true |- _ => apply negb_true_iff in H
  | H : negb _ = false |- _ => apply negb_false_iff in H
  | H : (_ <? _) = true |- _ => apply Z.ltb_lt in H
  | H : (_ <? _) = false |- _ => apply Z.ltb_ge in H
  | H : (_ <=? _) = true |- _ => apply Z.leb_le in H
  | H : (_ <=? _) = false |- _ => apply Z.leb_gt in H
  | H : (_ >=? _) = true |- _ => apply Z.geb_le in H
  | H : (_ >? _) = true |- _ => apply Z.gtb_gt in H
  | H : (_ =? _) = true |- _ => apply Z.eqb_eq in H
  | H : (_ =? _) = false |- _ => apply Z.eqb_neq in H
  | H : (_ >=? _) = false |- _ => rewrite Z.geb_leb in H
  | H : (_ >? _) = false |- _ => rewrite Z.gtb_ltb in H
  end.

(** Split on the next boolean test of the goal. *)
Ltac case_test :=
  match goal with
  | |- context [if ?b then _ else _] =>
      lazymatch b with
      | context [if _ then _ else _] => fail
      | _ => let E := fresh "E" in destruct b eqn:E; bool_prop
      end
  end.

(** Invert a monadic computation known to return. *)
Ltac go_inv :=
  repeat match goal with
  | H : mbind ?f ?m = Ok _ |- _ =>
      let E := fresh "E" in destruct m eqn:E; cbn [mbind go_bind] in H;
      [|discriminate H]
  | H : Ok _ = Ok _ |- _ => injection H as H
  | H : Panic = Ok _ |- _ => discriminate H
  end.

(** Evaluate a boolean test whose value follows by arithmetic. *)
Ltac test_true :=
  match goal with
  | |- context [if ?b then _ else _] =>
      let H := fresh in
      assert (b = true) as H by (rewrite ?andb_true_iff, ?orb_true_iff; lia);
      rewrite H; clear H
  end.
Ltac test_false :=
  match goal with
  | |- context [if ?b then _ else _] =>
      let H := fresh in
      assert (b = false) as H by (rewrite ?andb_false_iff, ?orb_false_iff; lia);
      rewrite H; clear H
  end.

(** ** Generic lemmas on lists *)

Definition len {A} (l : list A) : Z := Z.of_nat (length l).

Lemma len_nonneg {A} (l : list A) : 0 <= len l.
Proof. unfold len. lia. Qed.

Lemma len_app {A} (l k : list A) : len (l ++ k) = len l + len k.
Proof. unfold len. rewrite length_app. lia. Qed.

Lemma len_cons {A} (x : A) l : len (x :: l) = len l + 1.
Proof. unfold len. cbn [length]. lia. Qed.

Lemma len_nil {A} : len (@nil A) = 0.
Proof. reflexivity. Qed.

Lemma len_0_inv {A} (l : list A) : len l = 0 -> l = [].
Proof. destruct l; [done|]. rewrite len_cons. pose proof (len_nonneg l). lia. Qed.

Create Rewrite HintDb go_len.
#[export] Hint Rewrite @len_app @len_cons @len_nil : go_len.

(** [sub l a n]: the [n] elements of [l] from position [a]. *)
Definition sub {A} (l : list A) (a n : nat) : list A := take n (drop a l).

Lemma length_sub {A} (l : list A) a n :
  (a + n <= length l)%nat -> length (sub l a n) = n.
Proof. intros H. unfold sub. rewrite length_take, length_drop. lia. Qed.

Lemma lookup_sub {A} (l : list A) a n i :
  (i < n)%nat -> sub l a n !! i = l !! (a + i)%nat.
Proof. intros H. unfold sub. rewrite lookup_take_lt by done. apply lookup_drop. Qed.

Lemma sub_ext {A} (l k : list A) a b n :
  (a + n <= length l)%nat -> (b + n <= length k)%nat ->
  (forall i, (i < n)%nat -> l !! (a + i)%nat = k !! (b + i)%nat) ->
  sub l a n = sub k b n.
Proof.
  intros Hl Hk H. apply list_eq. intros i. destruct (decide (i < n)%nat).
  - rewrite !lookup_sub by done. auto.
  - rewrite !lookup_ge_None_2; [done| |]; rewrite length_sub; lia.
Qed.

Lemma sub_sub {A} (l : list A) a n b m :
  (b + m <= n)%nat -> sub (sub l a n) b m = sub l (a + b) m.
Proof.
  intros H. unfold sub. rewrite skipn_firstn_comm, take_take, drop_drop.
  f_equal. lia.
Qed.

Lemma Forall_sub {A} (P : A -> Prop) l a n : Forall P l -> Forall P (sub l a n).
Proof. intros H. apply Forall_take, Forall_drop, H. Qed.

Lemma filter_all {A} (P : A -> Prop) `{!forall x, Decision (P x)} l :
  Forall P l -> filter P l = l.
Proof.
  induction 1 as [|x l Hx _ IH]; [done|]. by rewrite filter_cons_True, IH.
Qed.

Lemma filter_none {A} (P : A -> Prop) `{!forall x, Decision (P x)} l :
  Forall (fun x => ~ P x) l -> filter P l = [].
Proof.
  induction 1 as [|x l Hx _ IH]; [done|]. by rewrite filter_cons_False.
Qed.

Lemma take_snoc {A} (l : list A) k x :
  l !! k = Some x -> take (S k) l = take k l ++ [x].
Proof. intros. by apply take_S_r. Qed.

Lemma drop_lookup_eq {A} (l k : list A) n i :
  drop n l = drop n k -> (n <= i)%nat -> l !! i = k !! i.
Proof.
  intros H Hi. replace i with (n + (i - n))%nat by lia.
  by rewrite <-!lookup_drop, H.
Qed.

Lemma filter_take_S {A} (P : A -> Prop) `{!forall x, Decision (P x)} l k x :
  l !! k = Some x ->
  filter P (take (S k) l) = filter P (take k l) ++ (if decide (P x) then [x] else []).
Proof.
  intros Hx. rewrite (take_snoc l k x Hx), filter_app.
  by rewrite filter_singleton.
Qed.

Lemma Forall_map_filter {A B} (P : A -> Prop) `{!forall x, Decision (P x)}
    (f : A -> B) (Q : B -> Prop) l :
  (forall x, x ∈ l -> P x -> Q (f x)) -> Forall Q (map f (filter P l)).
Proof.
  intros HQ. apply List.Forall_map, Forall_forall.
  intros x [? ?]%list_elem_of_filter. auto.
Qed.

Lemma StronglySorted_filter {A} (R : A -> A -> Prop) (P : A -> Prop)
    `{!forall x, Decision (P x)} l :
  StronglySorted R l -> StronglySorted R (filter P l).
Proof.
  induction 1 as [|x l Hs IH Hx]; [constructor|]. rewrite filter_cons.
  case_decide; [|done]. constructor; [done|].
  apply Forall_forall. intros y [_ Hy]%list_elem_of_filter.
  exact (proj1 (Forall_forall _ _) Hx y Hy).
Qed.

Lemma StronglySorted_map {A B} (R : A -> A -> Prop) (R' : B -> B -> Prop)
    (f : A -> B) (P : A -> Prop) l :
  (forall x y, P x -> P y -> R x y -> R' (f x) (f y)) -> Forall P l ->
  StronglySorted R l -> StronglySorted R' (map f l).
Proof.
  intros Hf HP Hs. induction Hs as [|x l Hs IH Hx]; [constructor|].
  apply Forall_cons in HP as [HPx HP]. cbn [map]. constructor; [auto|].
  apply List.Forall_map, Forall_forall. intros y Hy.
  apply Hf; [done| |exact (proj1 (Forall_forall _ _) Hx y Hy)].
  exact (proj1 (Forall_forall _ _) HP y Hy).
Qed.
