(* ===== verification/Log.v ===== *)
(** * Logging ([internal/log/log.go])

    A wrapper of zerolog: [Init] picks a level and the layout of a line, the
    other functions print.  The layout is text processing of its own: the
    place of the call is looked up in the stack and cut to the base name of
    the file and the last part of the function's name.  What zerolog does
    with levels and the stack of the caller are arguments. *)

From Stdlib Require Import Ascii.
From stdpp Require Import strings pretty.
From S2P Require Import Prelude.
#[local] Open Scope Z_scope.

(** ** Data *)

(** [zerolog.Level], as far as it is used *)
Inductive Level := TraceLevel | DebugLevel | InfoLevel | WarnLevel | ErrorLevel | PanicLevel.
#[export] Instance level_eq_dec : EqDecision Level.
Proof. solve_decision. Defined.

(** What [runtime.Caller] and [FuncForPC] know of a call *)
Record frame := Frame { fr_func : string; fr_file : string; fr_line : Z }.

(** ** Paths ([path/filepath] on Unix) *)

Abbreviation chars := String.list_ascii_of_string.
Abbreviation text := String.string_of_list_ascii.

Definition slash : Ascii.ascii := "/"%char.
Definition dot : Ascii.ascii := "."%char.

(** The loop of [Ext]: from the end, to a dot or a separator *)
Fixpoint ext_loop (rev acc : list Ascii.ascii) : list Ascii.ascii :=
  match rev with
  | [] => []
  | c :: rev => if Ascii.eqb c slash then []
                else if Ascii.eqb c dot then c :: acc
                else ext_loop rev (c :: acc)
  end.
Definition Ext (path : string) : string := text (ext_loop (reverse (chars path)) []).

Fixpoint drop_slashes (rev : list Ascii.ascii) : list Ascii.ascii :=
  match rev with c :: rest => if Ascii.eqb c slash then drop_slashes rest else rev | [] => [] end.
Fixpoint base_loop (rev acc : list Ascii.ascii) : list Ascii.ascii :=
  match rev with c :: rev => if Ascii.eqb c slash then acc else base_loop rev (c :: acc) | [] => acc end.
(** Trailing separators are removed, then all up to the last one. *)
Definition Base (path : string) : string :=
  if String.eqb path EmptyString then "."
  else match base_loop (drop_slashes (reverse (chars path))) [] with
       | [] => "/"
       | l => text l
       end.

Definition TrimPrefix (s prefix : string) : string :=
  if String.prefix prefix s then String.substring (String.length prefix) (String.length s) s else s.

(** ** The layout of a line *)

(** [FormatMessage], with the frames at depth 9 and 8 *)
Definition FormatMessage (c9 c8 : frame) (msg : string) : string :=
  let fileName := Base (fr_file c9) in
  let c := if (String.eqb fileName "asm_amd64.s" || String.eqb fileName "proc.go")%bool then c8 else c9 in
  let funcName := TrimPrefix (Ext (fr_func c)) "." in
  ("[" +:+ pretty (fr_line c) +:+ "][" +:+ Base (fr_file c) +:+ "][" +:+ funcName +:+ "] => " +:+ msg)%string.

Definition FormatTimestamp (t : string) : string := ("[" +:+ t +:+ "]")%string.

Definition upper (c : Ascii.ascii) : Ascii.ascii :=
  let n := Ascii.nat_of_ascii c in
  if (Nat.leb 97 n && Nat.leb n 122)%bool then Ascii.ascii_of_nat (n - 32) else c.

(** [strings.ToUpper(fmt.Sprintf("[%-3s]", i))], for ASCII text *)
Definition FormatLevel (l : string) : string :=
  text (map upper (chars ("[" +:+ l +:+ text (replicate (3 - String.length l) " "%char) +:+ "]")%string)).

(** ** Levels *)

(** [Init]; [global] is [zerolog.GlobalLevel()]. *)
Definition Init (global : Level) (level : string) : Level :=
  if String.eqb level "trace" then TraceLevel
  else if String.eqb level "debug" then DebugLevel
  else if String.eqb level "info" then InfoLevel
  else if String.eqb level "warn" then WarnLevel
  else if String.eqb level "error" then ErrorLevel
  else global.

Section printing.
(** zerolog: whether a logger of the first level writes an event of the second *)
Context (writes : Level -> Level -> bool).

(** A line with the formatted message, on a logger of level [l] *)
Definition printf (l : Level) (ev : Level) (c9 c8 : frame) (msg : string) : list string :=
  if writes l ev then [FormatMessage c9 c8 msg] else [].

Definition Tracef l := printf l TraceLevel.
Definition Debugf l := printf l DebugLevel.
Definition Infof l := printf l InfoLevel.
Definition Warnf l := printf l WarnLevel.
Definition Errorf l := printf l ErrorLevel.
(** zerolog panics once the line is written; the lock is released on the
    way. *)
Definition Panicf (l : Level) (c9 c8 : frame) (msg : string) : list string * go unit :=
  (printf l PanicLevel c9 c8 msg, Panic).
End printing.

(** ** Properties *)

Lemma ext_loop_spec l acc :
  Forall (fun c => c <> slash /\ c <> dot) acc ->
  ext_loop l acc = [] \/ exists r, ext_loop l acc = dot :: r /\ Forall (fun c => c <> slash /\ c <> dot) r
    /\ exists p, reverse l ++ acc = p ++ dot :: r.
Proof.
  revert acc. induction l as [|c l IH]; intros acc Hacc; cbn [ext_loop]; [by left|].
  destruct (Ascii.eqb_spec c slash) as [_|Hs]; [by left|].
  destruct (Ascii.eqb_spec c dot) as [->|Hd].
  - right. exists acc. split; [done|]. split; [done|]. exists (reverse l). by rewrite reverse_cons, <-app_assoc.
  - destruct (IH (c :: acc)) as [H|(r & H1 & H2 & p & H3)]; [by constructor|by left|].
    right. exists r. split; [done|]. split; [done|]. exists p. by rewrite reverse_cons, <-app_assoc.
Qed.

Lemma trim_dot s : TrimPrefix (String dot s) "." = s.
Proof.
  unfold TrimPrefix, dot. change (String.prefix "." (String "." s)) with (String.prefix EmptyString s).
  assert (String.prefix EmptyString s = true) as -> by (by destruct s). cbn [String.length String.substring].
  induction s as [|c s IH]; [done|]. cbn [String.substring String.length]. f_equal.
  exact IH.
Qed.

(** The function named in a line is what follows the last dot of its full
    name, without the path of its package and its receiver; it is empty if
    there is no dot after the last separator. *)
Theorem function_of_line name :
  TrimPrefix (Ext name) "." = EmptyString
  \/ exists pre, name = (pre +:+ "." +:+ TrimPrefix (Ext name) ".")%string
       /\ Forall (fun c => c <> slash /\ c <> dot) (chars (TrimPrefix (Ext name) ".")).
Proof.
  unfold Ext. destruct (ext_loop_spec (reverse (chars name)) []) as [->|(r & -> & Hr & p & Hp)]; [done|by left|].
  right. cbn [String.string_of_list_ascii]. rewrite trim_dot, String.list_ascii_of_string_of_list_ascii.
  exists (text p). split; [|done]. rewrite reverse_involutive, app_nil_r in Hp.
  rewrite <-(String.string_of_list_ascii_of_string name), Hp. clear. induction p as [|c p IH]; [done|]. cbn. by rewrite IH.
Qed.

Example ex_line :
  FormatMessage (Frame "runtime.goexit" "/usr/lib/go/src/runtime/asm_amd64.s" 1)
    (Frame "mini-sfu/internal/sfu.(*Peer).Join" "/src/internal/sfu/peer.go" 143) "joined"
  = "[143][peer.go][Join] => joined"%string.
Proof. vm_compute. reflexivity. Qed.
