(* ===== verification/GoNum.v ===== *)
(** * Go's fixed-width integers

    Unsigned values are integers in [0, 2^w), signed ones in [-2^(w-1),
    2^(w-1)); every Go operation that can leave the range is written with the
    wrap-around of its type.  Also here: the serial-number arithmetic on
    16-bit sequence numbers that all components share. *)

From S2P Require Import Prelude.
#[local] Open Scope Z_scope.

Definition u8 (z : Z) : Z := z mod 256.
Definition u16 (z : Z) : Z := z mod 65536.
Definition u32 (z : Z) : Z := z mod 4294967296.
Definition u64 (z : Z) : Z := z mod 18446744073709551616.
Definition i16 (z : Z) : Z := (z + 32768) mod 65536 - 32768.
Definition i32 (z : Z) : Z := (z + 2147483648) mod 4294967296 - 2147483648.
Definition i64 (z : Z) : Z :=
  (z + 9223372036854775808) mod 18446744073709551616 - 9223372036854775808.

Abbreviation is_u8 z := (0 <= z < 256) (only parsing).
Abbreviation is_u16 z := (0 <= z < 65536) (only parsing).
Abbreviation is_u32 z := (0 <= z < 4294967296) (only parsing).
Abbreviation is_u64 z := (0 <= z < 18446744073709551616) (only parsing).
Abbreviation is_i32 z := (-2147483648 <= z < 2147483648) (only parsing).
Abbreviation is_i64 z := (-9223372036854775808 <= z < 9223372036854775808) (only parsing).

(** Go's integer division truncates towards zero. *)
Definition go_div (a b : Z) : Z := Z.quot a b.
Definition go_rem (a b : Z) : Z := Z.rem a b.

(** The test [x & 0x8000 == 0] of the code on a 16-bit [x]. *)
Definition top_bit_clear (x : Z) : bool := Z.land x 32768 =? 0.

(** ** Lemmas *)

Ltac unfold_wraps := unfold u8, u16, u32, u64, i16, i32, i64 in *.

(** Linear arithmetic through the wrap-arounds. *)
Ltac wrap_lia := unfold_wraps; zlia.

Create HintDb go_range.

Lemma u8_range z : is_u8 (u8 z).
Proof. wrap_lia. Qed.
Lemma u16_range z : is_u16 (u16 z).
Proof. wrap_lia. Qed.
Lemma u32_range z : is_u32 (u32 z).
Proof. wrap_lia. Qed.
Lemma u64_range z : is_u64 (u64 z).
Proof. wrap_lia. Qed.
Lemma i32_range z : is_i32 (i32 z).
Proof. wrap_lia. Qed.
Lemma i64_range z : is_i64 (i64 z).
Proof. wrap_lia. Qed.
#[export] Hint Resolve u8_range u16_range u32_range u64_range i32_range i64_range : go_range.

Lemma u8_small z : is_u8 z -> u8 z = z.
Proof. apply Z.mod_small. Qed.
Lemma u16_small z : is_u16 z -> u16 z = z.
Proof. apply Z.mod_small. Qed.
Lemma u32_small z : is_u32 z -> u32 z = z.
Proof. apply Z.mod_small. Qed.
Lemma u64_small z : is_u64 z -> u64 z = z.
Proof. apply Z.mod_small. Qed.
Lemma i16_small z : -32768 <= z < 32768 -> i16 z = z.
Proof. intros. wrap_lia. Qed.
Lemma i64_small z :
  -9223372036854775808 <= z < 9223372036854775808 -> i64 z = z.
Proof. intros. wrap_lia. Qed.

Lemma u16_sub_inj_r a b c :
  is_u16 b -> is_u16 c -> u16 (a - b) = u16 (a - c) -> b = c.
Proof. intros. wrap_lia. Qed.

Lemma u16_sub_sub a k : is_u16 k -> u16 (a - u16 (a - k)) = k.
Proof. intros. wrap_lia. Qed.

(** Bit operations as arithmetic. *)
Lemma land_pow2_eqb x n :
  0 <= n -> (Z.land x (2 ^ n) =? 0) = negb (Z.testbit x n).
Proof.
  intros Hn. destruct (Z.testbit x n) eqn:E; cbn [negb].
  - apply Z.eqb_neq. intros H0. apply (f_equal (fun z => Z.testbit z n)) in H0.
    rewrite Z.land_spec, E, Z.pow2_bits_true, Z.testbit_0_l in H0 by lia.
    discriminate.
  - apply Z.eqb_eq, Z.bits_inj_0. intros m. rewrite Z.land_spec.
    destruct (decide (m = n)) as [->|Hne]; [by rewrite E|].
    rewrite Z.pow2_bits_false by congruence. apply andb_false_r.
Qed.

Lemma testbit_15 x : is_u16 x -> Z.testbit x 15 = (32768 <=? x).
Proof.
  intros Hx. rewrite Z.testbit_eqb by lia. change (2 ^ 15) with 32768.
  destruct (32768 <=? x) eqn:E; bool_prop.
  - apply Z.eqb_eq. zlia.
  - apply Z.eqb_neq. zlia.
Qed.

Lemma top_bit_clear_spec x : is_u16 x -> top_bit_clear x = (x <? 32768).
Proof.
  intros Hx. unfold top_bit_clear. change 32768 with (2 ^ 15) at 1.
  rewrite land_pow2_eqb, testbit_15 by lia.
  destruct (32768 <=? x) eqn:E1, (x <? 32768) eqn:E2; bool_prop; (done || lia).
Qed.

Lemma land_low_high_0 a b n :
  0 <= n -> a mod 2 ^ n = 0 -> 0 <= b < 2 ^ n -> Z.land a b = 0.
Proof.
  intros Hn Ha Hb. apply Z.bits_inj_0. intros m. rewrite Z.land_spec.
  destruct (decide (0 <= m)); [|by rewrite Z.testbit_neg_r by lia].
  destruct (decide (m < n)).
  - by rewrite <-(Z.mod_pow2_bits_low a n m), Ha, Z.testbit_0_l by lia.
  - rewrite <-(Z.mod_small b (2 ^ n)), Z.mod_pow2_bits_high by lia.
    apply andb_false_r.
Qed.

Lemma lor_add_low a b n :
  0 <= n -> a mod 2 ^ n = 0 -> 0 <= b < 2 ^ n -> Z.lor a b = a + b.
Proof.
  intros Hn Ha Hb. pose proof (land_low_high_0 a b n Hn Ha Hb) as H0.
  rewrite <-Z.lxor_lor by done. symmetry. by apply Z.add_nocarry_lxor.
Qed.

(** A boolean fact about bytes, by checking all of them *)
Definition all_bytes : list Z := map Z.of_nat (seq 0 256).

Lemma all_bytes_spec (f : Z -> bool) :
  forallb f all_bytes = true -> forall b, is_u8 b -> f b = true.
Proof.
  intros H b Hb. rewrite forallb_forall in H. apply H. unfold all_bytes.
  apply in_map_iff. exists (Z.to_nat b). split; [lia|]. apply in_seq. lia.
Qed.

Lemma all_bytes_Z (f g : Z -> Z) :
  forallb (fun b => f b =? g b) all_bytes = true -> forall b, is_u8 b -> f b = g b.
Proof. intros H b Hb. by apply Z.eqb_eq, (all_bytes_spec _ H). Qed.

Lemma all_bytes_bool (f g : Z -> bool) :
  forallb (fun b => Bool.eqb (f b) (g b)) all_bytes = true ->
  forall b, is_u8 b -> f b = g b.
Proof. intros H b Hb. by apply Bool.eqb_prop, (all_bytes_spec _ H). Qed.

(** Decide [f b = g b] for all bytes by computation. *)
Ltac byte_cases b Hb :=
  pattern b;
  match goal with
  | |- (fun x => @eq Z (@?l x) (@?r x)) _ =>
      exact (all_bytes_Z l r ltac:(vm_compute; reflexivity) b Hb)
  | |- (fun x => @eq bool (@?l x) (@?r x)) _ =>
      exact (all_bytes_bool l r ltac:(vm_compute; reflexivity) b Hb)
  end.
