(* ===== verification/GoSlice.v ===== *)
(** * Go slices, [encoding/binary] and [sort]

    A slice is the list of its elements; every slice of the modelled code
    has its capacity equal to its length where the code reslices it, so the
    bound of a slice expression is the length.  Reads, writes and reslicing
    out of range are [Panic]. *)

From S2P Require Import Prelude GoNum.
From stdpp Require Import sorting.
#[local] Open Scope Z_scope.

Abbreviation bytes := (list Z).
Definition byte_ok (b : Z) : Prop := is_u8 b.

(** [l[i]] *)
Definition go_index {A} (l : list A) (i : Z) : go A :=
  if 0 <=? i then
    match l !! Z.to_nat i with Some x => Ok x | None => Panic end
  else Panic.

(** [l[lo:hi]] *)
Definition go_slice {A} (l : list A) (lo hi : Z) : go (list A) :=
  if ((0 <=? lo) && (lo <=? hi) && (hi <=? len l))%bool
  then Ok (sub l (Z.to_nat lo) (Z.to_nat (hi - lo))) else Panic.

(** Overwrite [l] from position [off] by as much of [src] as fits. *)
Definition blit {A} (l : list A) (off : nat) (src : list A) : list A :=
  let src' := take (length l - off) src in
  take off l ++ src' ++ drop (off + length src') l.

(** [copy(l[off:], src)], and the array [l] afterwards *)
Definition go_copy {A} (l : list A) (off : Z) (src : list A) : go (list A) :=
  if ((0 <=? off) && (off <=? len l))%bool
  then Ok (blit l (Z.to_nat off) src) else Panic.

(** [binary.BigEndian] *)
Definition be16 (v : Z) : bytes := [Z.shiftr v 8; u8 v].
Definition be32 (v : Z) : bytes :=
  [Z.shiftr v 24; u8 (Z.shiftr v 16); u8 (Z.shiftr v 8); u8 v].
Definition of_be16 (hi lo : Z) : Z := Z.lor lo (Z.shiftl hi 8).

Definition put_u16 (l : bytes) (off v : Z) : go bytes :=
  if ((0 <=? off) && (off + 2 <=? len l))%bool
  then Ok (blit l (Z.to_nat off) (be16 v)) else Panic.

Definition put_u32 (l : bytes) (off v : Z) : go bytes :=
  if ((0 <=? off) && (off + 4 <=? len l))%bool
  then Ok (blit l (Z.to_nat off) (be32 v)) else Panic.

(** [binary.BigEndian.Uint16(l)] *)
Definition get_u16 (l : bytes) : go Z :=
  match l with
  | hi :: lo :: _ => Ok (of_be16 hi lo)
  | _ => Panic
  end.

(** [sort.Search(n, f)]: the standard library's binary search.  The fuel is
    one more than [n]; the interval halves at each step. *)
Fixpoint search_loop (fuel : nat) (f : Z -> bool) (i j : Z) : Z :=
  match fuel with
  | O => i
  | S fuel =>
      if i <? j then
        let h := Z.shiftr (i + j) 1 in
        if negb (f h) then search_loop fuel f (h + 1) j
        else search_loop fuel f i h
      else i
  end.
Definition sort_search (n : Z) (f : Z -> bool) : Z :=
  search_loop (S (Z.to_nat n)) f 0 n.

(** [sort.Slice(l, less)] with [less i j := key l[i] < key l[j]].  Go's sort
    promises a permutation in key order; the order of equal keys is left
    open there, and here it is the original one. *)
Definition key_le {A} (key : A -> Z) (x y : A) : Prop := key x <= key y.
#[export] Instance key_le_dec {A} (key : A -> Z) : RelDecision (key_le key) :=
  fun x y => decide (key x <= key y).
Definition sort_by {A} (key : A -> Z) (l : list A) : list A :=
  merge_sort (key_le key) l.

(** ** Lemmas *)

(** *** Reads *)

Lemma go_index_ok {A} (l : list A) i :
  0 <= i < len l -> exists x, go_index l i = Ok x /\ l !! Z.to_nat i = Some x.
Proof.
  intros [H0 H1]. unfold go_index, len in *. test_true.
  destruct (lookup_lt_is_Some_2 l (Z.to_nat i)) as [x Hx]; [lia|].
  rewrite Hx. eauto.
Qed.

Lemma go_index_panic {A} (l : list A) i :
  i < 0 \/ len l <= i -> go_index l i = Panic.
Proof.
  intros H. unfold go_index, len in *. case_test; [|done].
  rewrite lookup_ge_None_2; [done|lia].
Qed.

Lemma go_index_Some {A} (l : list A) i x :
  0 <= i -> l !! Z.to_nat i = Some x -> go_index l i = Ok x.
Proof. intros H Hx. unfold go_index. test_true. by rewrite Hx. Qed.

Lemma go_slice_ok {A} (l : list A) lo hi :
  0 <= lo -> lo <= hi -> hi <= len l ->
  go_slice l lo hi = Ok (sub l (Z.to_nat lo) (Z.to_nat (hi - lo))).
Proof. intros. unfold go_slice. by test_true. Qed.

Lemma go_slice_sub {A} (l : list A) a n lo hi :
  lo = Z.of_nat a -> hi = lo + Z.of_nat n -> (a + n <= length l)%nat ->
  go_slice l lo hi = Ok (sub l a n).
Proof.
  intros -> -> H. rewrite go_slice_ok by (unfold len; lia). do 2 f_equal; lia.
Qed.

(** *** Writes *)

Lemma length_blit {A} (l : list A) off src :
  (off <= length l)%nat -> length (blit l off src) = length l.
Proof.
  intros H. unfold blit. rewrite !length_app, !length_take, length_drop.
  lia.
Qed.

Lemma len_blit {A} (l : list A) off src :
  (off <= length l)%nat -> len (blit l off src) = len l.
Proof. intros H. unfold len. by rewrite length_blit. Qed.

Lemma blit_eq {A} (l : list A) off src :
  (off + length src <= length l)%nat ->
  blit l off src = take off l ++ src ++ drop (off + length src) l.
Proof. intros H. unfold blit. rewrite (take_ge src); [done|lia]. Qed.

Lemma lookup_blit_out {A} (l : list A) off src i :
  (off + length src <= length l)%nat ->
  (i < off \/ off + length src <= i)%nat -> blit l off src !! i = l !! i.
Proof.
  intros Hf [Hi|Hi]; rewrite blit_eq by done.
  - rewrite lookup_app_l by (rewrite length_take; lia).
    by rewrite lookup_take_lt.
  - rewrite lookup_app_r by (rewrite length_take; lia).
    rewrite length_take, Nat.min_l by lia.
    rewrite lookup_app_r, lookup_drop by lia. f_equal. lia.
Qed.

Lemma lookup_blit_in {A} (l : list A) off src i :
  (off + length src <= length l)%nat -> (i < length src)%nat ->
  blit l off src !! (off + i)%nat = src !! i.
Proof.
  intros Hf Hi. rewrite blit_eq by done.
  rewrite lookup_app_r by (rewrite length_take; lia).
  rewrite length_take, Nat.min_l by lia. rewrite lookup_app_l by lia.
  f_equal. lia.
Qed.

Lemma sub_blit_out {A} (l : list A) off src a n :
  (off + length src <= length l)%nat -> (a + n <= length l)%nat ->
  (a + n <= off \/ off + length src <= a)%nat ->
  sub (blit l off src) a n = sub l a n.
Proof.
  intros Hf Ha Hd. apply sub_ext; [rewrite length_blit; lia|done|].
  intros i Hi. apply lookup_blit_out; lia.
Qed.

Lemma sub_blit_in {A} (l : list A) off src a n :
  (off + length src <= length l)%nat -> (a + n <= length src)%nat ->
  sub (blit l off src) (off + a) n = sub src a n.
Proof.
  intros Hf Ha. apply sub_ext; [rewrite length_blit; lia|lia|].
  intros i Hi. replace (off + a + i)%nat with (off + (a + i))%nat by lia.
  apply lookup_blit_in; lia.
Qed.

(** Appending a slot, shifting the tail right with an overlapping [copy] and
    storing into the gap is insertion. *)
Lemma append_shift_store {A} (l : list A) (z x : A) i :
  (i <= length l)%nat ->
  <[i := x]> (blit (l ++ [z]) (i + 1) (drop i (l ++ [z])))
  = take i l ++ x :: drop i l.
Proof.
  intros Hi. unfold blit. rewrite length_app. cbn [length].
  rewrite drop_app_le by done.
  assert (take (length l + 1 - (i + 1)) (drop i l ++ [z]) = drop i l) as ->.
  { rewrite take_app_le by (rewrite length_drop; lia).
    apply take_ge. rewrite length_drop. lia. }
  rewrite (drop_ge (l ++ [z])) by (rewrite length_app, length_drop; cbn; lia).
  rewrite app_nil_r.
  assert (exists y, take (i + 1) (l ++ [z]) = take i l ++ [y]) as [y ->].
  { destruct (lookup_lt_is_Some_2 (l ++ [z]) i) as [y Hy].
    { rewrite length_app. cbn. lia. }
    exists y. rewrite Nat.add_1_r, (take_S_r _ _ y) by done.
    by rewrite take_app_le. }
  rewrite <-app_assoc. cbn [app].
  replace i with (length (take i l) + 0)%nat at 1
    by (rewrite length_take; lia).
  by rewrite insert_app_r.
Qed.

(** Closing the gap at [i] with an overlapping [copy] and dropping the last
    element is deletion. *)
Lemma shift_truncate {A} (l : list A) i :
  (i < length l)%nat ->
  take (length l - 1) (blit l i (drop (i + 1) l)) = take i l ++ drop (i + 1) l.
Proof.
  intros Hi. rewrite blit_eq by (rewrite length_drop; lia).
  rewrite app_assoc, take_app_le
    by (rewrite length_app, length_take, length_drop; lia).
  apply take_ge. rewrite length_app, length_take, length_drop. lia.
Qed.

(** *** Big endian *)

Lemma of_be16_add hi lo : is_u8 lo -> of_be16 hi lo = hi * 256 + lo.
Proof.
  intros H. unfold of_be16. rewrite Z.shiftl_mul_pow2 by lia.
  change (2 ^ 8) with 256. rewrite Z.lor_comm. apply (lor_add_low _ _ 8);
    [lia|by apply Z.mod_mul|lia].
Qed.

Lemma of_be16_range hi lo : is_u8 hi -> is_u8 lo -> is_u16 (of_be16 hi lo).
Proof. intros. rewrite of_be16_add by done. lia. Qed.

Lemma be16_roundtrip v : get_u16 (be16 v) = Ok v.
Proof.
  unfold be16, get_u16. f_equal. rewrite of_be16_add by apply u8_range.
  rewrite Z.shiftr_div_pow2 by lia. change (2 ^ 8) with 256. wrap_lia.
Qed.

Lemma be16_bytes v : is_u16 v -> Forall byte_ok (be16 v).
Proof.
  intros H. unfold be16, byte_ok. rewrite Z.shiftr_div_pow2 by lia.
  change (2 ^ 8) with 256.
  repeat constructor; (apply u8_range || zlia).
Qed.

Lemma length_be16 v : length (be16 v) = 2%nat.
Proof. done. Qed.
#[global] Arguments be16 : simpl never.

(** *** Search *)

Section search.
Context (f : Z -> bool) (n : Z).
Hypothesis Hmono : forall a b, 0 <= a -> a <= b -> b < n -> f a = true -> f b = true.

Lemma search_loop_spec fuel i j :
  (Z.to_nat (j - i) < fuel)%nat -> 0 <= i <= j -> j <= n ->
  (forall k, 0 <= k < i -> f k = false) ->
  (forall k, j <= k < n -> f k = true) ->
  let r := search_loop fuel f i j in
  0 <= r <= n /\ (forall k, 0 <= k < r -> f k = false)
  /\ (forall k, r <= k < n -> f k = true).
Proof.
  revert i j. induction fuel as [|fuel IH]; intros i j Hfu Hij Hj Hlo Hhi;
    [lia|].
  cbn [search_loop]. case_test; [|split_and!; try lia; auto].
  - rewrite Z.shiftr_div_pow2 by lia. change (2 ^ 1) with 2.
    assert (i <= (i + j) / 2 < j) as Hh by zlia.
    case_test.
    + apply IH; try lia; auto. intros k Hk.
      destruct (f k) eqn:Ek; [|done].
      rewrite (Hmono k ((i + j) / 2)) in E0; (done || lia).
    + apply IH; try lia; auto. intros k Hk.
      apply (Hmono ((i + j) / 2)); (done || lia).
  - intros k Hk. apply Hhi. lia.
Qed.

Lemma sort_search_spec :
  0 <= n ->
  let r := sort_search n f in
  0 <= r <= n /\ (forall k, 0 <= k < r -> f k = false)
  /\ (forall k, r <= k < n -> f k = true).
Proof. intros Hn. apply search_loop_spec; intros; lia. Qed.
End search.

(** *** Sorting *)

Section sort_by.
Context {A : Type} (key : A -> Z).

Lemma sort_by_perm l : sort_by key l ≡ₚ l.
Proof. apply merge_sort_Permutation. Qed.

Lemma sort_by_sorted l : StronglySorted (key_le key) (sort_by key l).
Proof.
  apply StronglySorted_merge_sort.
  - intros x y z. unfold key_le. lia.
  - intros x y. unfold key_le. lia.
Qed.
End sort_by.
