(* ===== verification/Nack.v ===== *)
(** * The NACK queue ([internal/buffer/nack.go])

    [nackQueue] keeps the extended sequence numbers of the packets the SFU is
    missing, in increasing order; [push] records a loss, [remove] forgets one
    that arrived late, [pairs] packs the queue into RTCP NACK pairs and
    decides whether to ask for a key frame instead. *)

From S2P Require Import Prelude GoNum GoSlice.
From stdpp Require Import sorting.
#[local] Open Scope Z_scope.

(** ** Data *)

Definition maxNackTimes : Z := 3.
Definition maxNackCache : Z := 100.
(** [maxSN = 1 << 16] of buffer.go *)
Definition maxSN : Z := Z.shiftl 1 16.

Record nack := Nack { n_sn : Z; n_nacked : Z }.
#[export] Instance nack_eq_dec : EqDecision nack.
Proof. solve_decision. Defined.

Record nackQueue := NackQueue {
  q_nacks : list nack;
  q_counter : Z;
  q_maxSN : Z;
  q_kfSN : Z;
  q_cycles : Z }.
#[export] Instance settable_nackQueue : Settable nackQueue := fun q =>
  NackQueue (q_nacks q) (q_counter q) (q_maxSN q) (q_kfSN q) (q_cycles q).

(** [rtcp.NackPair]: the first lost number and the bitmask of the following
    sixteen. *)
Record NackPair := MkPair { PacketID : Z; LostPackets : Z }.

(** ** Operations *)

(** [make([]nack, maxNackCache+1)] is a slice of 101 zero entries. *)
Definition newNACKQueue : nackQueue :=
  NackQueue (replicate (Z.to_nat (maxNackCache + 1)) (Nack 0 0)) 0 0 0 0.

(** The predicate both binary searches use: [n.nacks[i].sn >= extSN]. *)
Definition sn_ge (l : list nack) (extSN : Z) (i : Z) : bool :=
  match l !! Z.to_nat i with
  | Some x => extSN <=? n_sn x
  | None => true
  end.

Definition find_sn (l : list nack) (extSN : Z) : Z :=
  sort_search (len l) (sn_ge l extSN).

(** [n.nacks[i].sn == extSN], with the bounds test before it *)
Definition found_at (l : list nack) (i extSN : Z) : bool :=
  match l !! Z.to_nat i with
  | Some x => n_sn x =? extSN
  | None => false
  end.

(** The head of [push]: follow the highest number and count the wraps. *)
Definition advance (n : nackQueue) (sn : Z) : nackQueue :=
  if q_maxSN n =? 0 then n <| q_maxSN := sn |>
  else if top_bit_clear (u16 (sn - q_maxSN n)) then
    (if sn <? q_maxSN n
     then n <| q_cycles := u32 (q_cycles n + maxSN) |> else n)
      <| q_maxSN := sn |>
  else n.

Definition push (n : nackQueue) (sn : Z) : nackQueue :=
  let n := advance n sn in
  let extSN := Z.lor (q_cycles n) sn in
  let i := find_sn (q_nacks n) extSN in
  if found_at (q_nacks n) i extSN then n
  else
    let l := q_nacks n ++ [Nack 0 0] in
    let l := blit l (Z.to_nat i + 1) (drop (Z.to_nat i) l) in
    let l := <[Z.to_nat i := Nack extSN 0]> l in
    let l := if maxNackCache <? len l then drop 1 l else l in
    n <| q_nacks := l |> <| q_counter := u8 (q_counter n + 1) |>.

Definition remove (n : nackQueue) (sn : Z) : nackQueue :=
  let extSN := Z.lor (q_cycles n) sn in
  let i := find_sn (q_nacks n) extSN in
  if negb (found_at (q_nacks n) i extSN) then n
  else
    let l := blit (q_nacks n) (Z.to_nat i) (drop (Z.to_nat i + 1) (q_nacks n)) in
    n <| q_nacks := take (length l - 1) l |>.

(** The loop of [pairs] compacts [n.nacks] in place while it reads it: [k] is
    the read index of the [range], [p_i] the write index. *)
Record pairs_state := PairsState {
  p_nacks : list nack;
  p_i : nat;
  p_np : NackPair;
  p_nps : list NackPair;
  p_ask : bool;
  p_kfSN : Z }.
#[export] Instance settable_pairs_state : Settable pairs_state := fun s =>
  PairsState (p_nacks s) (p_i s) (p_np s) (p_nps s) (p_ask s) (p_kfSN s).

(** [np.LostPackets |= 1 << (uint16(nck.sn) - np.PacketID - 1)] in 16 bits *)
Definition add_lost (np : NackPair) (sn16 : Z) : NackPair :=
  MkPair (PacketID np)
    (Z.lor (LostPackets np) (u16 (Z.shiftl 1 (u16 (sn16 - PacketID np - 1))))).

Definition pairs_step (s : pairs_state) (k : nat) : pairs_state :=
  match p_nacks s !! k with
  | None => s
  | Some nck =>
      if maxNackTimes <=? n_nacked nck then
        if p_kfSN s <? n_sn nck
        then s <| p_kfSN := n_sn nck |> <| p_ask := true |>
        else s
      else
        let s := s <| p_nacks := <[p_i s := Nack (n_sn nck) (u8 (n_nacked nck + 1))]>
                                   (p_nacks s) |>
                   <| p_i := S (p_i s) |> in
        let np := p_np s in
        let sn16 := u16 (n_sn nck) in
        if ((PacketID np =? 0) || (u16 (PacketID np + 16) <? sn16))%bool then
          s <| p_nps := if PacketID np =? 0 then p_nps s else p_nps s ++ [np] |>
            <| p_np := MkPair sn16 0 |>
        else s <| p_np := add_lost np sn16 |>
  end.

Definition pairs (n : nackQueue) : list NackPair * bool * nackQueue :=
  if q_counter n <? 2 then
    ([], false, n <| q_counter := u8 (q_counter n + 1) |>)
  else
    let s0 := PairsState (q_nacks n) 0 (MkPair 0 0) [] false (q_kfSN n) in
    let s := foldl pairs_step s0 (seq 0 (length (q_nacks n))) in
    let nps := if PacketID (p_np s) =? 0 then p_nps s else p_nps s ++ [p_np s] in
    (nps, p_ask s,
     n <| q_counter := 0 |> <| q_nacks := take (p_i s) (p_nacks s) |>
       <| q_kfSN := p_kfSN s |>).

(** ** Specification vocabulary *)

(** The extended number [push] and [remove] look for. *)
Definition ext_sn (n : nackQueue) (sn : Z) : Z := Z.lor (q_cycles n) sn.

(** Entries in order: strictly by number, except for the zero entries the
    queue starts with. *)
Definition before (x y : nack) : Prop :=
  n_sn x < n_sn y \/ (n_sn x = 0 /\ n_sn y = 0).

Record queue_wf (q : nackQueue) : Prop := {
  wf_sorted : StronglySorted before (q_nacks q);
  wf_sn : Forall (fun x => is_u32 (n_sn x)) (q_nacks q);
  wf_nacked : Forall (fun x => 0 <= n_nacked x <= maxNackTimes) (q_nacks q);
  wf_cycles : is_u32 (q_cycles q) /\ q_cycles q mod 65536 = 0;
  wf_maxSN : is_u16 (q_maxSN q);
  wf_len : len (q_nacks q) <= maxNackCache + 1 }.

(** The entries that are asked for again, and those given up. *)
Definition live (x : nack) : Prop := n_nacked x < maxNackTimes.
#[export] Instance live_dec x : Decision (live x) :=
  decide (n_nacked x < maxNackTimes).
Definition bump (x : nack) : nack := Nack (n_sn x) (n_nacked x + 1).

(** The sequence numbers a NACK pair asks for (RFC 4585, 6.2.1). *)
Definition pair_sns (p : NackPair) : list Z :=
  PacketID p ::
  map (fun j => u16 (PacketID p + Z.of_nat j + 1))
    (List.filter (fun j => Z.testbit (LostPackets p) (Z.of_nat j)) (seq 0 16)).

(** ** Lemmas: search *)

Lemma before_le x y : before x y -> n_sn x <= n_sn y.
Proof. unfold before. lia. Qed.

Lemma sorted_lookup_le l a b x y :
  StronglySorted before l -> (a <= b)%nat -> l !! a = Some x -> l !! b = Some y ->
  n_sn x <= n_sn y.
Proof.
  intros Hs Hab Hx Hy. destruct (decide (a = b)) as [->|Hne]; [simplify_eq; lia|].
  apply before_le. apply (StronglySorted_app_1_elem_of before (take b l) (drop b l)).
  - by rewrite take_drop.
  - apply list_elem_of_lookup. exists a. rewrite lookup_take_lt; [done|lia].
  - apply list_elem_of_lookup. exists 0%nat.
    by rewrite lookup_drop, Nat.add_0_r.
Qed.

Lemma find_sn_spec l e :
  StronglySorted before l ->
  let r := Z.to_nat (find_sn l e) in
  0 <= find_sn l e /\ (r <= length l)%nat
  /\ Forall (fun x => n_sn x < e) (take r l)
  /\ Forall (fun x => e <= n_sn x) (drop r l).
Proof.
  intros Hs. unfold find_sn.
  destruct (sort_search_spec (sn_ge l e) (len l)) as (Hr & Hlo & Hhi).
  { unfold sn_ge, len. intros a b Ha Hab Hb.
    destruct (lookup_lt_is_Some_2 l (Z.to_nat a)) as [x Hx]; [lia|].
    destruct (lookup_lt_is_Some_2 l (Z.to_nat b)) as [y Hy]; [lia|].
    rewrite Hx, Hy. intros. bool_prop. apply Z.leb_le.
    pose proof (sorted_lookup_le l (Z.to_nat a) (Z.to_nat b) x y Hs). 
    assert (n_sn x <= n_sn y) by (apply H0; (done || lia)). lia. }
  { apply len_nonneg. }
  set (r := sort_search _ _) in *. unfold len in *. split_and!; [lia|lia| |].
  - apply Forall_lookup. intros i x Hx.
    apply lookup_take_Some in Hx as [Hx Hi].
    specialize (Hlo (Z.of_nat i)). unfold sn_ge in Hlo.
    rewrite Nat2Z.id, Hx in Hlo. apply Z.leb_gt, Hlo. lia.
  - apply Forall_lookup. intros i x Hx. rewrite lookup_drop in Hx.
    pose proof (lookup_lt_Some _ _ _ Hx).
    specialize (Hhi (Z.of_nat (Z.to_nat r + i))). unfold sn_ge in Hhi.
    rewrite Nat2Z.id, Hx in Hhi. apply Z.leb_le, Hhi. lia.
Qed.

(** [found_at] at the search's result decides membership, and a hit splits
    the queue at the entry found. *)
Lemma found_at_hit l e i :
  found_at l i e = true ->
  exists x, l = take (Z.to_nat i) l ++ x :: drop (Z.to_nat i + 1) l /\ n_sn x = e.
Proof.
  unfold found_at. destruct (l !! Z.to_nat i) as [x|] eqn:E; [|done].
  intros. bool_prop. exists x. split; [|done].
  rewrite Nat.add_1_r. symmetry. by apply take_drop_middle.
Qed.

Lemma found_at_miss l e :
  StronglySorted before l -> found_at l (find_sn l e) e = false ->
  Forall (fun x => e < n_sn x) (drop (Z.to_nat (find_sn l e)) l).
Proof.
  intros Hs Hf. destruct (find_sn_spec l e Hs) as (_ & Hr & _ & Hhi).
  set (r := Z.to_nat (find_sn l e)) in *. unfold found_at in Hf. fold r in Hf.
  destruct (drop r l) as [|x k] eqn:E; [constructor|].
  assert (l !! r = Some x) as Hx.
  { rewrite <-(Nat.add_0_r r), <-lookup_drop, E. done. }
  rewrite Hx in Hf. bool_prop. inversion Hhi as [|? ? Hxe Hk]; subst.
  constructor; [lia|].
  assert (StronglySorted before (x :: k)) as Hsk.
  { rewrite <-E. rewrite <-(take_drop r l) in Hs.
    by apply (StronglySorted_app_1_r before) in Hs. }
  apply StronglySorted_cons in Hsk as [Hxk _].
  eapply Forall_impl; [exact Hxk|]. intros y Hy%before_le. lia.
Qed.

Lemma not_found l e :
  StronglySorted before l -> found_at l (find_sn l e) e = false ->
  Forall (fun x => n_sn x <> e) l.
Proof.
  intros Hs Hf. rewrite <-(take_drop (Z.to_nat (find_sn l e)) l).
  apply Forall_app. split.
  - eapply Forall_impl; [apply (find_sn_spec l e Hs)|]. cbn. lia.
  - eapply Forall_impl; [apply (found_at_miss l e Hs Hf)|]. cbn. lia.
Qed.

(** ** Lemmas: push *)

Lemma advance_wf q sn :
  is_u16 sn -> queue_wf q ->
  queue_wf (advance q sn) /\ q_nacks (advance q sn) = q_nacks q
  /\ q_counter (advance q sn) = q_counter q.
Proof.
  intros Hsn [? ? ? [Hc1 Hc2] ? ?]. unfold advance, maxSN.
  change (Z.shiftl 1 16) with 65536.
  assert (is_u32 (u32 (q_cycles q + 65536))
          /\ u32 (q_cycles q + 65536) mod 65536 = 0) by (wrap_lia).
  repeat case_test; (split; [constructor|]); cbn; auto.
Qed.

Lemma ext_sn_range q sn :
  is_u16 sn -> queue_wf q ->
  ext_sn q sn = q_cycles q + sn /\ is_u32 (ext_sn q sn).
Proof.
  intros Hsn Hq. destruct (wf_cycles q Hq) as [Hc1 Hc2].
  assert (ext_sn q sn = q_cycles q + sn) as ->
    by (apply (lor_add_low _ _ 16); (lia || done)).
  split; [done|]. zlia.
Qed.

Definition trim (l : list nack) : list nack :=
  if maxNackCache <? len l then drop 1 l else l.

Definition insert_at (l : list nack) (e : Z) : list nack :=
  take (Z.to_nat (find_sn l e)) l ++ Nack e 0 :: drop (Z.to_nat (find_sn l e)) l.

Lemma insert_at_perm l e : insert_at l e ≡ₚ Nack e 0 :: l.
Proof.
  unfold insert_at. rewrite <-Permutation_middle. by rewrite take_drop.
Qed.

Lemma insert_at_sorted l e :
  StronglySorted before l -> found_at l (find_sn l e) e = false ->
  StronglySorted before (insert_at l e).
Proof.
  intros Hs Hf. destruct (find_sn_spec l e Hs) as (_ & _ & Hlo & _).
  pose proof (found_at_miss l e Hs Hf) as Hhi. unfold insert_at.
  set (r := Z.to_nat _) in *. rewrite <-(take_drop r l) in Hs.
  apply StronglySorted_app in Hs as (Hx & Hs1 & Hs2).
  apply StronglySorted_app. split_and!; [|done|].
  - intros x y Hxin [->|Hy]%elem_of_cons; [|auto].
    left. cbn. by apply (proj1 (Forall_forall _ _) Hlo).
  - apply StronglySorted_cons. split; [|done].
    eapply Forall_impl; [exact Hhi|]. intros y Hy. left. exact Hy.
Qed.

(** What [push] does, without the array shifting. *)
Lemma push_unfold q sn :
  queue_wf (advance q sn) ->
  push q sn =
    let n := advance q sn in
    let e := ext_sn n sn in
    if found_at (q_nacks n) (find_sn (q_nacks n) e) e then n
    else
      n <| q_nacks := trim (insert_at (q_nacks n) e) |>
        <| q_counter := u8 (q_counter n + 1) |>.
Proof.
  intros Hq. unfold push. fold (ext_sn (advance q sn) sn). cbv zeta.
  case_test; [done|]. unfold trim, insert_at.
  rewrite append_shift_store; [done|].
  apply (find_sn_spec _ _ (wf_sorted _ Hq)).
Qed.

Lemma trim_sub_perm (l : list nack) :
  StronglySorted before l ->
  let l' := trim l in
  exists evicted,
    evicted ++ l' = l /\ StronglySorted before l'
    /\ (len l <= maxNackCache -> evicted = []) /\ len evicted <= 1
    /\ Forall (fun x => Forall (fun y => n_sn x <= n_sn y) l') evicted.
Proof.
  intros Hs. unfold trim. cbv zeta. case_test.
  - destruct l as [|x l]; [done|]. exists [x].
    apply StronglySorted_cons in Hs as [Hx Hs].
    split_and!; try done; [unfold maxNackCache in *; lia|].
    constructor; [|constructor].
    eapply Forall_impl; [exact Hx|]. apply before_le.
  - exists []. split_and!; done.
Qed.

Lemma elem_of_sns l e : e ∈ map n_sn l <-> exists x, x ∈ l /\ n_sn x = e.
Proof. rewrite list_elem_of_fmap. naive_solver. Qed.

(** The two outcomes of a [push]. *)
Lemma push_cases q sn :
  queue_wf q -> is_u16 sn ->
  let e := ext_sn (advance q sn) sn in
  (e ∈ map n_sn (q_nacks q) /\ push q sn = advance q sn)
  \/ (e ∉ map n_sn (q_nacks q)
      /\ found_at (q_nacks q) (find_sn (q_nacks q) e) e = false
      /\ push q sn = (advance q sn) <| q_nacks := trim (insert_at (q_nacks q) e) |>
                       <| q_counter := u8 (q_counter q + 1) |>).
Proof.
  intros Hq Hsn e. destruct (advance_wf q sn Hsn Hq) as (Hq1 & Hn & Hc).
  rewrite push_unfold by done. cbv zeta. fold e. rewrite Hn, Hc.
  pose proof (wf_sorted _ Hq) as Hs.
  destruct (found_at (q_nacks q) (find_sn (q_nacks q) e) e) eqn:Ef; [left|right].
  - destruct (found_at_hit _ _ _ Ef) as (x & Hx & Hxe). split; [|done].
    apply elem_of_sns. exists x. split; [|done]. rewrite Hx. set_solver.
  - split_and!; [|done..]. intros (x & Hx & Hxe)%elem_of_sns.
    by apply (proj1 (Forall_forall _ _) (not_found _ e Hs Ef) x Hx).
Qed.

Lemma push_wf q sn : queue_wf q -> is_u16 sn -> queue_wf (push q sn).
Proof.
  intros Hq Hsn. destruct (advance_wf q sn Hsn Hq) as (Hq1 & Hn & _).
  destruct (ext_sn_range _ sn Hsn Hq1) as [_ He].
  destruct (push_cases q sn Hq Hsn) as [[_ ->]|(_ & Ef & ->)]; [done|].
  set (e := ext_sn _ _) in *. pose proof (insert_at_perm (q_nacks q) e) as Hp.
  destruct (trim_sub_perm _ (insert_at_sorted _ e (wf_sorted _ Hq) Ef))
    as (ev & Hev & Hs' & _).
  assert (forall P : nack -> Prop, P (Nack e 0) -> Forall P (q_nacks q) ->
            Forall P (trim (insert_at (q_nacks q) e))) as HF.
  { intros P H1 H2.
    enough (Forall P (ev ++ trim (insert_at (q_nacks q) e)))
      as [_ ?]%Forall_app by done.
    rewrite Hev, Hp. by constructor. }
  destruct Hq, Hq1. constructor; cbn [q_nacks q_cycles q_maxSN upd eta_record]; auto.
  - apply HF; [cbn; unfold maxNackTimes; lia|done].
  - apply Permutation_length in Hp. cbn in Hp. unfold trim, len, maxNackCache in *.
    case_test; rewrite ?length_drop; lia.
Qed.

(** C29. [push] keeps the queue well formed; a number already queued changes
    nothing, a new one is inserted in order, and at most one entry, the
    oldest, makes room for it, and only when the queue is full. *)
Theorem push_spec q sn :
  queue_wf q -> is_u16 sn ->
  let e := ext_sn (advance q sn) sn in
  queue_wf (push q sn)
  /\ (e ∈ map n_sn (q_nacks q) -> q_nacks (push q sn) = q_nacks q)
  /\ (e ∉ map n_sn (q_nacks q) ->
      exists evicted,
        evicted ++ q_nacks (push q sn) ≡ₚ Nack e 0 :: q_nacks q
        /\ len evicted <= 1
        /\ (len (q_nacks q) < maxNackCache -> evicted = [])
        /\ Forall (fun x => Forall (fun y => n_sn x <= n_sn y)
                              (q_nacks (push q sn))) evicted).
Proof.
  intros Hq Hsn e. split; [by apply push_wf|].
  destruct (push_cases q sn Hq Hsn) as [[Hin ->]|(Hin & Ef & ->)]; fold e in Hin.
  - split; [intros _; apply advance_wf; done|done].
  - split; [done|]. intros _. fold e in Ef |- *.
    destruct (trim_sub_perm _ (insert_at_sorted _ e (wf_sorted _ Hq) Ef))
      as (ev & Hev & _ & Hnil & Hlen & Hmin).
    pose proof (insert_at_perm (q_nacks q) e) as Hp.
    exists ev. cbn [q_nacks upd eta_record]. rewrite Hev. split_and!; try done.
    intros Hlt. apply Hnil. unfold len in *. rewrite Hp. cbn. lia.
Qed.

(** ** Lemmas: remove *)

Lemma remove_unfold q sn :
  queue_wf q ->
  let e := ext_sn q sn in
  let i := find_sn (q_nacks q) e in
  remove q sn =
    if found_at (q_nacks q) i e
    then q <| q_nacks := take (Z.to_nat i) (q_nacks q)
                           ++ drop (Z.to_nat i + 1) (q_nacks q) |>
    else q.
Proof.
  intros Hq e i. unfold remove. fold (ext_sn q sn). fold e. fold i.
  destruct (found_at (q_nacks q) i e) eqn:Ef; [|done].
  assert (Z.to_nat i < length (q_nacks q))%nat as Hi.
  { unfold found_at in Ef. destruct (_ !! _) eqn:E; [|done].
    by eapply lookup_lt_Some. }
  cbn [negb]. rewrite length_blit by lia. by rewrite shift_truncate.
Qed.

Lemma hit_split l e :
  StronglySorted before l -> found_at l (find_sn l e) e = true ->
  let i := Z.to_nat (find_sn l e) in
  exists x, l = take i l ++ x :: drop (i + 1) l /\ n_sn x = e
    /\ Forall (fun y => n_sn y < e) (take i l)
    /\ (e <> 0 -> Forall (fun y => e < n_sn y) (drop (i + 1) l)).
Proof.
  intros Hs Hf i. destruct (found_at_hit _ _ _ Hf) as (x & Hl & Hx).
  fold i in Hl. exists x. split_and!; [done|done|apply (find_sn_spec l e Hs)|].
  intros Hne. rewrite Hl in Hs.
  apply (StronglySorted_app_1_r before), StronglySorted_cons in Hs as [Hxs _].
  eapply Forall_impl; [exact Hxs|]. unfold before. intros; lia.
Qed.

Lemma remove_hit_wf q i x :
  queue_wf q -> q_nacks q = take i (q_nacks q) ++ x :: drop (i + 1) (q_nacks q) ->
  queue_wf (q <| q_nacks := take i (q_nacks q) ++ drop (i + 1) (q_nacks q) |>).
Proof.
  intros [Hs Hsn Hnk ? ? Hlen] Hl. rewrite Hl in Hs, Hsn, Hnk, Hlen.
  set (a := take i _) in *. set (b := drop _ _) in *.
  apply Forall_app in Hsn as [? [? ?]%Forall_cons].
  apply Forall_app in Hnk as [? [? ?]%Forall_cons].
  apply StronglySorted_app in Hs as (Hab & ? & [? ?]%StronglySorted_cons).
  constructor; cbn; auto.
  - apply StronglySorted_app. split_and!; auto.
    intros. apply Hab; set_solver.
  - by apply Forall_app.
  - by apply Forall_app.
  - autorewrite with go_len in *. lia.
Qed.

Lemma remove_wf q sn : queue_wf q -> queue_wf (remove q sn).
Proof.
  intros Hq. rewrite remove_unfold by done. cbv zeta. case_test; [|done].
  destruct (hit_split _ _ (wf_sorted _ Hq) E) as (x & Hl & _).
  by eapply remove_hit_wf.
Qed.

(** [remove] keeps the queue well formed and deletes the entry of the number
    that arrived, and no other; without such an entry it does nothing. *)
Theorem remove_spec q sn :
  queue_wf q ->
  let e := ext_sn q sn in
  queue_wf (remove q sn)
  /\ (e ∉ map n_sn (q_nacks q) -> remove q sn = q)
  /\ (e <> 0 ->
      q_nacks (remove q sn) = filter (fun x => n_sn x <> e) (q_nacks q)).
Proof.
  intros Hq e. split; [by apply remove_wf|]. rewrite remove_unfold by done.
  cbv zeta. fold e. pose proof (wf_sorted _ Hq) as Hs.
  destruct (found_at _ _ e) eqn:Ef; split; [intros []|intros Hne|done|intros _].
  - destruct (hit_split _ _ Hs Ef) as (x & Hl & Hx & _).
    apply elem_of_sns. exists x. split; [|done]. rewrite Hl. set_solver.
  - destruct (hit_split _ _ Hs Ef) as (x & Hl & Hx & Hlo & Hhi).
    cbn [q_nacks upd eta_record]. symmetry. rewrite Hl at 1.
    rewrite filter_app, filter_cons_False by (rewrite Hx; tauto).
    f_equal; apply filter_all; (eapply Forall_impl;
      [first [exact Hlo | exact (Hhi Hne)]|]); cbn; lia.
  - symmetry. by apply filter_all, not_found.
Qed.

(** ** Lemmas: pairs *)

(** The packing of the live numbers, on its own. *)
Definition pack_step (acc : NackPair * list NackPair) (sn16 : Z) :=
  let '(np, nps) := acc in
  if ((PacketID np =? 0) || (u16 (PacketID np + 16) <? sn16))%bool
  then (MkPair sn16 0, if PacketID np =? 0 then nps else nps ++ [np])
  else (add_lost np sn16, nps).

(** The key-frame decision, on its own. *)
Definition ask_step (acc : Z * bool) (x : nack) : Z * bool :=
  if fst acc <? n_sn x then (n_sn x, true) else acc.

Record pairs_inv (l : list nack) (kf : Z) (k : nat) (s : pairs_state) : Prop := {
  pi_i : (p_i s <= k)%nat;
  pi_len : length (p_nacks s) = length l;
  pi_rest : drop k (p_nacks s) = drop k l;
  pi_kept : take (p_i s) (p_nacks s) = map bump (filter live (take k l));
  pi_np : (p_np s, p_nps s) =
    foldl pack_step (MkPair 0 0, [])
      (map (fun x => u16 (n_sn x)) (filter live (take k l)));
  pi_ask : (p_kfSN s, p_ask s) =
    foldl ask_step (kf, false) (filter (fun x => ~ live x) (take k l)) }.

(** One step, live and dead entry. *)
Lemma pairs_step_dead s k x :
  p_nacks s !! k = Some x -> ~ live x ->
  pairs_step s k =
    let r := ask_step (p_kfSN s, p_ask s) x in
    PairsState (p_nacks s) (p_i s) (p_np s) (p_nps s) r.2 r.1.
Proof.
  intros Hx Hd. unfold pairs_step, ask_step, live in *. rewrite Hx. test_true.
  destruct s. cbn. by case_test.
Qed.

Lemma pairs_step_live s k x :
  p_nacks s !! k = Some x -> live x -> 0 <= n_nacked x ->
  pairs_step s k =
    let r := pack_step (p_np s, p_nps s) (u16 (n_sn x)) in
    PairsState (<[p_i s := bump x]> (p_nacks s)) (S (p_i s)) r.1 r.2
      (p_ask s) (p_kfSN s).
Proof.
  intros Hx Hd Hn. unfold pairs_step, pack_step, bump, live, maxNackTimes in *.
  rewrite Hx. test_false. rewrite u8_small by lia.
  destruct s. cbn -[Z.add]. by case_test.
Qed.

Lemma pairs_step_inv l kf k s :
  Forall (fun x => 0 <= n_nacked x <= maxNackTimes) l -> (k < length l)%nat ->
  pairs_inv l kf k s -> pairs_inv l kf (S k) (pairs_step s k).
Proof.
  intros Hl Hk [Hi Hlen Hrest Hkept Hnp Hask].
  destruct (lookup_lt_is_Some_2 l k Hk) as [x Hx].
  assert (p_nacks s !! k = Some x) as Hsx
    by (rewrite (drop_lookup_eq _ l k k); done).
  assert (drop (S k) (p_nacks s) = drop (S k) l) as Hrest'.
  { replace (S k) with (k + 1)%nat by lia. by rewrite <-!drop_drop, Hrest. }
  pose proof (Forall_lookup_1 _ _ _ _ Hl Hx) as Hxn. cbn beta in Hxn.
  pose proof (filter_take_S live l k x Hx) as HL.
  pose proof (filter_take_S (fun x => ~ live x) l k x Hx) as HD.
  destruct (decide (live x)) as [Hd|Hd].
  - rewrite decide_False in HD by tauto. rewrite app_nil_r in HD.
    rewrite (pairs_step_live s k x) by (done || lia).
    constructor; cbn [p_i p_nacks p_np p_nps p_kfSN p_ask]; rewrite ?HL, ?HD.
    + lia.
    + by rewrite length_insert.
    + by rewrite drop_insert_lt by lia.
    + rewrite (take_snoc _ _ (bump x)) by (apply list_lookup_insert_eq; lia).
      rewrite take_insert_ge by lia. by rewrite Hkept, map_app.
    + rewrite map_app, foldl_app, <-Hnp. symmetry. apply surjective_pairing.
    + done.
  - rewrite decide_True in HD by tauto. rewrite app_nil_r in HL.
    rewrite (pairs_step_dead s k x) by done.
    constructor; cbn [p_i p_nacks p_np p_nps p_kfSN p_ask]; rewrite ?HL, ?HD.
    + lia.
    + done.
    + done.
    + done.
    + done.
    + rewrite foldl_app, <-Hask. symmetry. apply surjective_pairing.
Qed.

Lemma pairs_loop_inv l kf n :
  Forall (fun x => 0 <= n_nacked x <= maxNackTimes) l -> (n <= length l)%nat ->
  pairs_inv l kf n
    (foldl pairs_step (PairsState l 0 (MkPair 0 0) [] false kf) (seq 0 n)).
Proof.
  intros Hl. induction n as [|n IH]; intros Hn.
  - by constructor.
  - rewrite seq_S, foldl_app. apply pairs_step_inv; [done|lia|]. apply IH. lia.
Qed.

(** [pairs] without the in-place loop. *)
Lemma pairs_unfold q :
  queue_wf q -> 2 <= q_counter q ->
  let live_l := filter live (q_nacks q) in
  let packed := foldl pack_step (MkPair 0 0, []) (map (fun x => u16 (n_sn x)) live_l) in
  let asked := foldl ask_step (q_kfSN q, false)
                 (filter (fun x => ~ live x) (q_nacks q)) in
  pairs q =
    (if PacketID packed.1 =? 0 then packed.2 else packed.2 ++ [packed.1],
     asked.2,
     q <| q_counter := 0 |> <| q_nacks := map bump live_l |>
       <| q_kfSN := asked.1 |>).
Proof.
  intros Hq Hc. unfold pairs. test_false.
  destruct (pairs_loop_inv (q_nacks q) (q_kfSN q) (length (q_nacks q))
              (wf_nacked _ Hq) ltac:(done)) as [_ _ _ Hkept Hnp Hask].
  rewrite (take_ge (q_nacks q)) in Hkept, Hnp, Hask by done.
  cbv zeta. by rewrite <-Hnp, <-Hask, Hkept.
Qed.

Lemma ask_steps l kf b :
  let r := foldl ask_step (kf, b) l in
  kf <= r.1 /\ Forall (fun x => n_sn x <= r.1) l
  /\ (r.1 = kf \/ exists x, x ∈ l /\ n_sn x = r.1)
  /\ (r.2 = true <-> b = true \/ exists x, x ∈ l /\ kf < n_sn x).
Proof.
  revert kf b. induction l as [|x l IH]; intros kf b; cbn.
  - split; [lia|]. split; [constructor|]. split; [by left|]. split; [by left|].
    intros [?|(x & Hx & _)]; [done|]. by apply elem_of_nil in Hx.
  - change (ask_step (kf, b) x) with (if kf <? n_sn x then (n_sn x, true) else (kf, b)).
    destruct (kf <? n_sn x) eqn:E; bool_prop.
    + destruct (IH (n_sn x) true) as (H1 & H2 & H3 & H4).
      set (r := foldl _ _ l) in *. split_and!.
      * lia.
      * by constructor.
      * right. destruct H3 as [->|(y & ? & ?)]; [exists x|exists y]; set_solver.
      * split; [intros _; right; exists x; set_solver|intros _; apply H4; by left].
    + destruct (IH kf b) as (H1 & H2 & H3 & H4).
      set (r := foldl _ _ l) in *. split_and!.
      * lia.
      * constructor; [lia|done].
      * destruct H3 as [->|(y & ? & ?)]; [by left|right; exists y; set_solver].
      * rewrite H4. split; (intros [?|(y & Hy & ?)]; [by left|right; exists y]).
        { set_solver. }
        { apply elem_of_cons in Hy as [->|?]; [lia|done]. }
Qed.

Lemma bump_live_wf q kf c :
  queue_wf q ->
  queue_wf (q <| q_counter := c |> <| q_nacks := map bump (filter live (q_nacks q)) |>
              <| q_kfSN := kf |>).
Proof.
  intros [Hs Hsn Hnk ? ? Hlen]. constructor; cbn [q_nacks q_cycles q_maxSN upd eta_record];
    try done.
  - apply (StronglySorted_map before _ _ (fun _ => True)); [by intros|by apply Forall_true|].
    by apply StronglySorted_filter.
  - apply Forall_map_filter. intros x Hx _.
    exact (proj1 (Forall_forall _ _) Hsn x Hx).
  - apply Forall_map_filter. intros x Hx Hl.
    pose proof (proj1 (Forall_forall _ _) Hnk x Hx). unfold live in Hl. cbn in *. lia.
  - unfold len in *. rewrite length_map.
    pose proof (length_filter live (q_nacks q)). lia.
Qed.

Lemma pairs_wf q : queue_wf q -> queue_wf (pairs q).2.
Proof.
  intros Hq. destruct (decide (q_counter q < 2)).
  - unfold pairs. test_true. destruct Hq. by constructor.
  - rewrite pairs_unfold by (done || lia). by apply bump_live_wf.
Qed.

(** C28. Every third call at the latest examines the queue: the in-place compaction keeps
    exactly the entries asked for less than three times, each counted once
    more; a key frame is asked for exactly when a given-up entry is newer
    than the last one that caused such a request. *)
Theorem pairs_keeps_live q :
  queue_wf q -> 2 <= q_counter q ->
  let '(_, ask, q') := pairs q in
  queue_wf q'
  /\ q_nacks q' = map bump (filter live (q_nacks q))
  /\ q_counter q' = 0
  /\ (ask = true <-> exists x, x ∈ q_nacks q /\ ~ live x /\ q_kfSN q < n_sn x)
  /\ q_kfSN q <= q_kfSN q'
  /\ Forall (fun x => ~ live x -> n_sn x <= q_kfSN q') (q_nacks q).
Proof.
  intros Hq Hc. rewrite pairs_unfold by done. cbv zeta.
  destruct (ask_steps (filter (fun x => ~ live x) (q_nacks q)) (q_kfSN q) false)
    as (H1 & H2 & _ & H4).
  split_and!; cbn [q_nacks q_counter q_kfSN upd eta_record]; try done.
  - by apply bump_live_wf.
  - rewrite H4. split.
    + intros [?|(x & [? ?]%list_elem_of_filter & ?)]; [done|eauto].
    + intros (x & ? & ? & ?). right. exists x. by rewrite list_elem_of_filter.
  - apply Forall_forall. intros x Hx Hd.
    apply (proj1 (Forall_forall _ _) H2). by rewrite list_elem_of_filter.
Qed.

(** ** Lemmas: the packing of NACK pairs *)

Lemma lost_bits_add L j :
  0 <= L < 2 ^ Z.of_nat j -> (j < 16)%nat ->
  List.filter (fun i => Z.testbit (Z.lor L (2 ^ Z.of_nat j)) (Z.of_nat i)) (seq 0 16)
  = List.filter (fun i => Z.testbit L (Z.of_nat i)) (seq 0 16) ++ [j].
Proof.
  intros HL Hj. replace 16%nat with (j + S (15 - j))%nat by lia.
  rewrite seq_app. cbn [seq Nat.add]. rewrite !List.filter_app. cbn [List.filter].
  assert (forall i, (j <= i)%nat -> Z.testbit L (Z.of_nat i) = false) as Hhi.
  { intros i Hi. rewrite <-(Z.mod_small L (2 ^ Z.of_nat j)) by done.
    apply Z.mod_pow2_bits_high. lia. }
  rewrite Z.lor_spec, Z.pow2_bits_true, orb_true_r, (Hhi j) by lia.
  assert (forall g k, (forall i, In i (seq (S j) k) -> g i = false) ->
            List.filter g (seq (S j) k) = []) as Hnil.
  { intros g k Hg. induction (seq (S j) k) as [|i r IH]; [done|].
    cbn. rewrite Hg by (by left). apply IH. intros; apply Hg. by right. }
  rewrite !Hnil, app_nil_r.
  - f_equal. apply List.filter_ext_in. intros i [_ Hi]%List.in_seq.
    rewrite Z.lor_spec, Z.pow2_bits_false by lia. apply orb_false_r.
  - intros i [Hi _]%List.in_seq. apply Hhi. lia.
  - intros i [Hi _]%List.in_seq.
    rewrite Z.lor_spec, Z.pow2_bits_false, (Hhi i) by lia. done.
Qed.

Lemma pair_sns_add np s :
  0 <= PacketID np -> s < 65536 -> PacketID np < s <= PacketID np + 16 ->
  0 <= LostPackets np < 2 ^ (s - PacketID np - 1) ->
  pair_sns (add_lost np s) = pair_sns np ++ [s]
  /\ 0 <= LostPackets (add_lost np s) < 2 ^ (s - PacketID np).
Proof.
  intros HP Hs Hd HL. destruct np as [P L]. cbn [PacketID LostPackets] in *.
  set (j := Z.to_nat (s - P - 1)).
  assert (s - P - 1 = Z.of_nat j) as Hj by lia.
  assert (u16 (Z.shiftl 1 (u16 (s - P - 1))) = 2 ^ Z.of_nat j) as Hbit.
  { rewrite (u16_small (s - P - 1)) by lia. rewrite Hj, Z.shiftl_1_l.
    apply u16_small. split; [lia|]. change 65536 with (2 ^ 16).
    apply Z.pow_lt_mono_r; lia. }
  unfold add_lost, pair_sns. cbn [PacketID LostPackets]. rewrite Hbit.
  rewrite Hj in HL. split.
  - rewrite lost_bits_add by lia. rewrite map_app. cbn [map app].
    do 3 f_equal. rewrite u16_small; lia.
  - replace (s - P) with (Z.of_nat j + 1) by lia.
    rewrite Z.pow_add_r by lia.
    rewrite <-Z.lxor_lor, <-Z.add_nocarry_lxor; [lia| |].
    all: rewrite Z.land_comm; apply (land_low_high_0 _ _ (Z.of_nat j));
      [lia|by apply Z_mod_same_full|lia].
Qed.

(** The state of the packing: [sns] numbers are covered, the last is
    [prev]. *)
Definition pack_inv (prev : Z) (sns : list Z) (acc : NackPair * list NackPair) : Prop :=
  let '(np, nps) := acc in
  (PacketID np = 0 /\ nps = [] /\ sns = [] /\ prev = 0)
  \/ (0 < PacketID np <= prev /\ prev - PacketID np <= 16
      /\ 0 <= LostPackets np < 2 ^ (prev - PacketID np)
      /\ sns = concat (map pair_sns nps) ++ pair_sns np).

Lemma pack_step_inv prev sns acc s :
  is_u16 s -> prev < s \/ (prev = 0 /\ s = 0) -> pack_inv prev sns acc ->
  pack_inv s (if s =? 0 then sns else sns ++ [s]) (pack_step acc s).
Proof.
  intros Hs Hps. destruct acc as [np nps]. cbn [pack_inv].
  intros [(HP & -> & -> & ->)|(HP & Hd & HL & ->)]; unfold pack_step.
  - rewrite HP. cbn -[u16]. destruct (s =? 0) eqn:E; bool_prop.
    + left. by split_and!.
    + right. cbn. replace (s - s) with 0 by lia. split_and!; (done || lia).
  - assert (s =? 0 = false) as -> by lia.
    assert (PacketID np =? 0 = false) as -> by lia. cbn [orb].
    destruct (u16 (PacketID np + 16) <? s) eqn:E; bool_prop; right.
    + cbn [PacketID LostPackets]. replace (s - s) with 0 by lia.
      split_and!; try lia. rewrite map_app, concat_app.
      cbn [map concat]. by rewrite app_nil_r.
    + assert (s <= PacketID np + 16) as Hs16 by wrap_lia.
      destruct (pair_sns_add np s) as [Hp HL']; try lia.
      { split; [lia|]. eapply Z.lt_le_trans; [apply HL|].
        apply Z.pow_le_mono_r; lia. }
      rewrite Hp. cbn [add_lost PacketID] in *. split_and!; try lia.
      by rewrite app_assoc.
Qed.

(** Increasing 16-bit numbers, with any number of zeros in front. *)
Definition incr (a b : Z) : Prop := a < b \/ (a = 0 /\ b = 0).

Lemma pack_all prev sns acc l :
  Forall (fun s => is_u16 s) l -> StronglySorted incr (prev :: l) ->
  pack_inv prev sns acc ->
  exists prev', pack_inv prev' (sns ++ filter (fun s => s <> 0) l)
                  (foldl pack_step acc l).
Proof.
  revert prev sns acc. induction l as [|s l IH]; intros prev sns acc Hl Hs Hinv.
  - exists prev. rewrite filter_nil, app_nil_r. done.
  - apply Forall_cons in Hl as [Hsr Hl].
    apply StronglySorted_cons in Hs as [[Hps _]%Forall_cons Hs].
    pose proof (pack_step_inv prev sns acc s Hsr Hps Hinv) as Hinv'.
    destruct (IH _ _ _ Hl Hs Hinv') as (prev' & Hfin). exists prev'.
    cbn [foldl]. rewrite filter_cons. case_decide as Hd.
    + rewrite (proj2 (Z.eqb_neq s 0) Hd), <-app_assoc in Hfin. exact Hfin.
    + rewrite (proj2 (Z.eqb_eq s 0)) in Hfin by lia. exact Hfin.
Qed.

(** All live numbers lie in one cycle of the 16-bit counter. *)
Definition same_cycle (c : Z) (l : list nack) : Prop :=
  c mod 65536 = 0 /\ Forall (fun x => c <= n_sn x < c + 65536) l.

Lemma same_cycle_sorted c l :
  StronglySorted before l -> same_cycle c l ->
  StronglySorted incr (0 :: map (fun x => u16 (n_sn x)) l)
  /\ Forall (fun s => is_u16 s) (map (fun x => u16 (n_sn x)) l).
Proof.
  intros Hs [Hc Hl]. split; [apply StronglySorted_cons; split|].
  - apply List.Forall_map, Forall_forall. intros x _. unfold incr.
    pose proof (u16_range (n_sn x)). lia.
  - apply (StronglySorted_map before _ _ (fun x => c <= n_sn x < c + 65536)); [|done..].
    unfold before, incr. intros x y ? ? ?. wrap_lia.
  - apply List.Forall_map, Forall_forall. intros x _. apply u16_range.
Qed.

Lemma pairs_in_cycle q c :
  queue_wf q -> 2 <= q_counter q ->
  same_cycle c (filter live (q_nacks q)) ->
  let '(nps, _, _) := pairs q in
  concat (map pair_sns nps)
  = filter (fun s => s <> 0)
      (map (fun x => u16 (n_sn x)) (filter live (q_nacks q))).
Proof.
  intros Hq Hc Hcyc. rewrite pairs_unfold by done. cbv zeta.
  assert (StronglySorted before (filter live (q_nacks q))) as Hs.
  { by apply StronglySorted_filter, Hq. }
  destruct (same_cycle_sorted c _ Hs Hcyc) as [Hinc Hr].
  destruct (pack_all 0 [] (MkPair 0 0, []) _ Hr Hinc) as (prev & Hinv).
  { by left. }
  set (acc := foldl _ _ _) in *. destruct acc as [np nps]. cbn [fst snd].
  destruct Hinv as [(-> & -> & Hsns & _)|(HP & _ & _ & Hsns)]; rewrite app_nil_l in Hsns.
  - by rewrite Hsns.
  - assert (PacketID np =? 0 = false) as -> by lia.
    rewrite Hsns, map_app, concat_app. cbn [map concat]. by rewrite app_nil_r.
Qed.

(** Two numbers, the second below the first as 16 bits *)
Lemma packed_across x y :
  0 < x -> x < 65520 -> 0 <= y <= x ->
  foldl pack_step (MkPair 0 0, []) [x; y] = (MkPair x 0, []).
Proof.
  intros Hx Hx' Hy. cbn [foldl]. unfold pack_step at 2. cbn [PacketID Z.eqb orb].
  unfold pack_step. cbn [PacketID]. assert (x =? 0 = false) as -> by lia.
  rewrite (u16_small (x + 16)) by lia. assert (x + 16 <? y = false) as -> by lia. cbn [orb].
  unfold add_lost. cbn [PacketID LostPackets]. do 2 f_equal. rewrite Z.lor_0_l.
  replace (u16 (y - x - 1)) with (65536 + (y - x - 1)) by wrap_lia.
  set (n := 65536 + (y - x - 1) - 16). replace (65536 + (y - x - 1)) with (n + 16) by lia.
  rewrite Z.shiftl_1_l, Z.pow_add_r by lia. change (2 ^ 16) with 65536. apply Z.mod_mul. lia.
Qed.

(** C8. The NACK pairs of a report, read back as RFC 4585 defines them.  When the
    entries that are not given up lie in one cycle of the 16-bit numbers, they
    are the numbers of these entries, in order and without repetition; only
    the number 0 cannot be asked for.  Across the end of a cycle numbers are
    lost: of two entries, the first not within 16 of the end of its cycle and
    the second with a smaller number in the next one, only the first is asked
    for, though both are counted as asked once more. *)
Theorem pairs_cover q :
  queue_wf q -> 2 <= q_counter q ->
  let '(nps, _, q') := pairs q in
  (forall c, same_cycle c (filter live (q_nacks q)) ->
     concat (map pair_sns nps)
     = filter (fun s => s <> 0) (map (fun x => u16 (n_sn x)) (filter live (q_nacks q))))
  /\ (forall x y, filter live (q_nacks q) = [x; y] ->
       0 < u16 (n_sn x) < 65520 -> u16 (n_sn y) <= u16 (n_sn x) ->
       concat (map pair_sns nps) = [u16 (n_sn x)] /\ q_nacks q' = [bump x; bump y]).
Proof.
  intros Hq Hc. pose proof (pairs_in_cycle q) as Hin. pose proof (pairs_unfold q Hq Hc) as Hp. cbv zeta in Hp.
  destruct (pairs q) as [[nps ask] q']. split; [intros c Hcyc; by apply (Hin c)|].
  intros x y Hl Hx Hy. rewrite Hl in Hp. cbn [map] in Hp.
  rewrite packed_across in Hp; [|lia|lia|pose proof (u16_range (n_sn y)); lia].
  cbn [fst snd PacketID] in Hp. assert (u16 (n_sn x) =? 0 = false) as E by lia. rewrite E in Hp.
  injection Hp as -> _ ->. done.
Qed.

Lemma new_wf : queue_wf newNACKQueue.
Proof.
  constructor; cbn [newNACKQueue q_nacks q_cycles q_maxSN]; try done.
  - generalize (Z.to_nat (maxNackCache + 1)). intros n.
    induction n as [|n IH]; [constructor|]. cbn [replicate].
    apply StronglySorted_cons. split; [|done].
    apply Forall_replicate. right. done.
  - by apply Forall_replicate.
  - by apply Forall_replicate.
Qed.
#[export] Hint Resolve new_wf push_wf remove_wf pairs_wf : go_range.

(** A gap that crosses the wrap of the 16-bit numbers: once a number past the
    wrap is queued, the lost numbers before the wrap are queued one whole
    cycle too high. *)
Theorem push_across_wrap q sn1 sn2 :
  queue_wf q -> is_u16 sn1 -> is_u16 sn2 -> q_maxSN q <> 0 ->
  0 < sn1 < q_maxSN q -> u16 (sn1 - q_maxSN q) < 32768 ->
  32768 <= u16 (sn2 - sn1) -> sn1 < sn2 ->
  q_cycles q + 65536 < 4294967296 ->
  let q1 := push q sn1 in
  ext_sn q sn2 = q_cycles q + sn2
  /\ ext_sn (advance q1 sn2) sn2 = q_cycles q + sn2 + 65536.
Proof.
  intros Hq H1 H2 Hm Hsn1 Hfwd Hback Hlt Hc q1.
  destruct (advance_wf q sn1 H1 Hq) as (Hqa & _ & _).
  assert (advance q sn1 = q <| q_cycles := q_cycles q + 65536 |> <| q_maxSN := sn1 |>)
    as Hadv.
  { unfold advance. rewrite top_bit_clear_spec by apply u16_range.
    test_false. test_true. test_true. rewrite u32_small; [done|].
    pose proof (wf_cycles q Hq). change maxSN with 65536. lia. }
  assert (q_cycles q1 = q_cycles q + 65536 /\ q_maxSN q1 = sn1) as [Hc1 Hm1].
  { unfold q1. destruct (push_cases q sn1 Hq H1) as [[_ ->]|(_ & _ & ->)];
      by rewrite Hadv. }
  split; [apply ext_sn_range; done|].
  assert (advance q1 sn2 = q1) as ->.
  { unfold advance. rewrite Hm1, top_bit_clear_spec by apply u16_range.
    test_false. by test_false. }
  assert (queue_wf q1) as Hq1 by (by apply push_wf).
  destruct (ext_sn_range q1 sn2 H2 Hq1) as [-> _]. lia.
Qed.

(** ** Witnesses *)

Definition q57 : nackQueue := push (push newNACKQueue 7) 5.

Lemma q57_wf : queue_wf q57.
Proof. unfold q57. auto 6 using new_wf, push_wf with lia. Qed.

Lemma push_spec_witness :
  queue_wf q57 /\ queue_wf (push q57 6).
Proof. split; [apply q57_wf|]. apply (push_spec q57 6); [apply q57_wf|lia]. Defined.

Lemma remove_spec_witness :
  5 ∈ map n_sn (q_nacks q57) /\ 5 ∉ map n_sn (q_nacks (remove q57 5)).
Proof.
  split; [by apply (bool_decide_unpack _); vm_compute|].
  destruct (remove_spec q57 5 q57_wf) as (_ & _ & H).
  change (ext_sn q57 5) with 5 in H. rewrite H by done.
  intros (x & [? _]%list_elem_of_filter & ?)%elem_of_sns. lia.
Defined.

Lemma pairs_keeps_live_witness :
  let '(_, ask, q') := pairs q57 in q_counter q' = 0.
Proof.
  assert (2 <= q_counter q57) as Hc by by vm_compute.
  pose proof (pairs_keeps_live q57 q57_wf Hc) as H. revert H.
  destruct (pairs q57) as [[nps ask] q']. intros (_ & _ & H & _). exact H.
Defined.

(** Numbers 5 and 7; and numbers 65510 and 65541, of which 5 is lost *)
Definition q_wrap : nackQueue :=
  newNACKQueue <| q_counter := 2 |> <| q_nacks := [Nack 65510 0; Nack 65541 0] |>.

Lemma q_wrap_wf : queue_wf q_wrap.
Proof.
  split; cbn.
  - repeat constructor; unfold before; cbn; lia.
  - repeat constructor; cbn; lia.
  - unfold maxNackTimes. repeat constructor; cbn; lia.
  - done.
  - lia.
  - unfold maxNackCache, len. cbn. lia.
Qed.

Lemma pairs_cover_witness :
  (let '(nps, _, _) := pairs q57 in concat (map pair_sns nps) = [5; 7])
  /\ (let '(nps, _, _) := pairs q_wrap in concat (map pair_sns nps) = [65510]).
Proof.
  split.
  - assert (2 <= q_counter q57) as Hc by by vm_compute.
    assert (same_cycle 0 (filter live (q_nacks q57))) as Hs.
    { split; [done|]. apply (bool_decide_unpack _). by vm_compute. }
    pose proof (pairs_cover q57 q57_wf Hc) as H. revert H.
    destruct (pairs q57) as [[nps ask] q']. intros [H _]. rewrite (H 0 Hs). by vm_compute.
  - assert (2 <= q_counter q_wrap) as Hc by by vm_compute.
    pose proof (pairs_cover q_wrap q_wrap_wf Hc) as H. revert H.
    destruct (pairs q_wrap) as [[nps ask] q']. intros [_ H].
    destruct (H (Nack 65510 0) (Nack 65541 0)) as [-> _]; (vm_compute; done).
Defined.

Lemma push_across_wrap_witness :
  let q := push newNACKQueue 65530 in
  ext_sn q 65532 = 65532 /\ ext_sn (advance (push q 4) 65532) 65532 = 131068.
Proof.
  apply (push_across_wrap (push newNACKQueue 65530) 4 65532); try (vm_compute; done).
  apply push_wf; [apply new_wf|lia].
Defined.
