(* ===== verification/Bucket.v ===== *)
(** * The packet cache ([internal/buffer/bucket.go])

    [Bucket] is a ring of [maxSteps] slots of [maxPktSize] bytes in one byte
    slice; a slot holds a two-byte length and an RTP packet.  [addPacket]
    stores a packet and feeds the NACK queue, [getPacket] reads one back for
    retransmission.  The contract is the sliding window of section "Abstract
    window": the packets of the last [maxSteps] sequence numbers. *)

From S2P Require Import Prelude GoNum GoSlice Nack.
#[local] Open Scope Z_scope.

(** ** Data *)

Definition maxPktSize : Z := 1460.

Record Bucket := MkBucket {
  buf : bytes;
  nacker : option nackQueue;
  headSN : Z;
  step : Z;
  maxSteps : Z;
  init : bool }.
#[export] Instance settable_Bucket : Settable Bucket := fun b =>
  MkBucket (buf b) (nacker b) (headSN b) (step b) (maxSteps b) (init b).

(** The call of [b.onLost], when there is one *)
Abbreviation lost_call := (option (list NackPair * bool)).

Inductive bucket_error := errPacketNotFound | errBufferTooSmall.

(** ** Operations *)

(** [math.Floor(float64(len(buf))/float64(maxPktSize))] is the integer
    quotient for every length a slice can have in practice (below 2^40). *)
Definition NewBucket (buf : bytes) (nack : bool) : Bucket :=
  MkBucket buf (if nack then Some newNACKQueue else None)
    0 0 (len buf / maxPktSize - 1) false.

(** [b.step++; if b.step >= b.maxSteps { b.step = 0 }] *)
Definition next_step (step maxSteps : Z) : Z :=
  if maxSteps <=? step + 1 then 0 else step + 1.

(** [push] for packets in order: write at [step] and advance it.  The second
    component is the slice [b.buf[off:off+len(pkt)]]. *)
Definition push (b : Bucket) (pkt : bytes) : go (Bucket * option bytes) :=
  buf1 ← put_u16 (buf b) (step b * maxPktSize) (u16 (len pkt));
  let off := step b * maxPktSize + 2 in
  buf2 ← go_copy buf1 off pkt;
  out ← go_slice buf2 off (off + len pkt);
  mret (b <| buf := buf2 |> <| step := next_step (step b) (maxSteps b) |>, Some out).

(** [set] for packets out of order *)
Definition set (b : Bucket) (sn : Z) (pkt : bytes) : go (Bucket * option bytes) :=
  if u16 (maxSteps b + 1) <=? u16 (headSN b - sn) then mret (b, None)
  else
    let pos := step b - u16 (u16 (headSN b - sn) + 1) in
    let pos := if pos <? 0 then pos + maxSteps b else pos in
    let off := pos * maxPktSize in
    if ((len (buf b) <? off) || (off <? 0))%bool then mret (b, None)
    else
      buf1 ← put_u16 (buf b) off (u16 (len pkt));
      buf2 ← go_copy buf1 (off + 2) pkt;
      out ← go_slice buf2 (off + 2) (off + 2 + len pkt);
      mret (b <| buf := buf2 |>, Some out).

(** The loop over the missing numbers [sn-1, ..., headSN+1]: one slot and
    one NACK entry for each. *)
Fixpoint skip_gap (n : nat) (i : Z) (sn : Z) (b : Bucket) : Bucket :=
  match n with
  | O => b
  | S n =>
      skip_gap n (i + 1) sn
        (b <| step := next_step (step b) (maxSteps b) |>
           <| nacker := (fun q => Nack.push q (u16 (sn - i))) <$> nacker b |>)
  end.

(** [addPacket]: the new bucket, the stored slice and the [onLost] call *)
Definition addPacket (b : Bucket) (pkt : bytes) (sn : Z) (latest : bool)
  : go (Bucket * option bytes * lost_call) :=
  let b := if init b then b else b <| headSN := u16 (sn - 1) |> <| init := true |> in
  if negb latest then
    let b := b <| nacker := (fun q => remove q sn) <$> nacker b |> in
    r ← set b sn pkt;
    mret (r, None)
  else
    let diff := u16 (sn - headSN b) in
    let b := b <| headSN := sn |> in
    let b := skip_gap (Z.to_nat (diff - 1)) 1 sn b in
    match nacker b with
    | Some q =>
        let '(np, akf, q) := pairs q in
        let b := b <| nacker := Some q |> in
        r ← push b pkt;
        mret (r, if 0 <? len np then Some (np, akf) else None)
    | None =>
        r ← push b pkt;
        mret (r, None)
    end.

Definition get (b : Bucket) (sn : Z) : go (option bytes) :=
  let pos := step b - u16 (u16 (headSN b - sn) + 1) in
  if ((pos <? 0) && (maxSteps b <? pos * -1))%bool then mret None
  else
    let pos := if pos <? 0 then maxSteps b + pos else pos in
    let off := pos * maxPktSize in
    if len (buf b) <? off then mret None
    else
      hd ← go_slice (buf b) (off + 4) (off + 6);
      n ← get_u16 hd;
      if negb (n =? sn) then mret None
      else
        szb ← go_slice (buf b) off (off + 2);
        sz ← get_u16 szb;
        p ← go_slice (buf b) (off + 2) (off + 2 + sz);
        mret (Some p).

(** [getPacket] into a buffer of length [length dst] and capacity [dcap]: the
    bytes copied to the front of it, or an error *)
Definition getPacket (b : Bucket) (dcap : Z) (sn : Z)
  : go (Z * bytes * option bucket_error) :=
  p ← get b sn;
  let err := match p with None => Some errPacketNotFound | Some _ => None end in
  let data := default [] p in
  let i := len data in
  if dcap <? i then mret (i, [], Some errBufferTooSmall)
  else mret (i, data, err).

(** ** The abstract window

    The contract: the packets of the last [n] sequence numbers, the newest
    first, [None] for a number that has not arrived. *)
Abbreviation window := (list (option bytes)).

Definition win_new (n : nat) : window := replicate n None.

(** A packet [d] numbers ahead of the newest *)
Definition win_push (n d : nat) (pkt : bytes) (w : window) : window :=
  take n (Some pkt :: replicate (d - 1) None ++ w).

(** A late packet, [k] numbers behind the newest *)
Definition win_set (k : nat) (pkt : bytes) (w : window) : window :=
  <[k := Some pkt]> w.

(** A packet the cache is meant for: it fits a slot beside its length, and
    its header carries its sequence number. *)
Record rtp_bytes (pkt : bytes) (sn : Z) : Prop := {
  rb_len : 4 <= len pkt <= maxPktSize - 2;
  rb_sn : get_u16 (sub pkt 2 2) = Ok sn }.

(** Slot of the packet [k] numbers behind the newest *)
Definition slot_of (b : Bucket) (k : Z) : Z := (step b - 1 - k) mod maxSteps b.

(** The bytes of a slot, as [get] reads them *)
Definition slot_holds (buf : bytes) (s : Z) (pkt : bytes) : Prop :=
  let off := Z.to_nat (s * maxPktSize) in
  get_u16 (sub buf off 2) = Ok (len pkt)
  /\ sub buf (off + 2) (length pkt) = pkt.

Record bucket_wf (b : Bucket) : Prop := {
  bw_steps : 0 < maxSteps b < 65535;
  bw_buf : (maxSteps b + 1) * maxPktSize <= len (buf b);
  bw_step : 0 <= step b < maxSteps b;
  bw_head : is_u16 (headSN b);
  bw_nacker : forall q, nacker b = Some q -> queue_wf q }.

(** The cache represents the window: every packet of the window sits in its
    slot, under its number. *)
Definition represents (b : Bucket) (w : window) : Prop :=
  length w = Z.to_nat (maxSteps b)
  /\ forall k pkt, w !! k = Some (Some pkt) ->
       rtp_bytes pkt (u16 (headSN b - Z.of_nat k))
       /\ slot_holds (buf b) (slot_of b (Z.of_nat k)) pkt.

(** The window together with the number it ends in *)
Record awindow := AWindow { aw_init : bool; aw_head : Z; aw_win : window }.

Definition aw_new (n : nat) : awindow := AWindow false 0 (win_new n).

(** One call of [addPacket] *)
Record add_op := AddOp { op_pkt : bytes; op_sn : Z; op_latest : bool }.

Definition aw_start (a : awindow) (sn : Z) : awindow :=
  if aw_init a then a else AWindow true (u16 (sn - 1)) (aw_win a).

Definition aw_add (a : awindow) (o : add_op) : awindow :=
  let a := aw_start a (op_sn o) in
  let n := length (aw_win a) in
  if op_latest o then
    AWindow true (op_sn o)
      (win_push n (Z.to_nat (u16 (op_sn o - aw_head a))) (op_pkt o) (aw_win a))
  else
    let k := u16 (aw_head a - op_sn o) in
    if k <? Z.of_nat n
    then AWindow true (aw_head a) (win_set (Z.to_nat k) (op_pkt o) (aw_win a))
    else a.

(** The calls the contract covers: a newest packet is newer than the last
    one, a late one is not exactly [maxSteps] numbers late. *)
Definition admissible (a : awindow) (o : add_op) : Prop :=
  rtp_bytes (op_pkt o) (op_sn o) /\ is_u16 (op_sn o) /\
  let a := aw_start a (op_sn o) in
  if op_latest o then u16 (op_sn o - aw_head a) <> 0
  else u16 (aw_head a - op_sn o) <> Z.of_nat (length (aw_win a)).

Fixpoint aw_run (a : awindow) (ops : list add_op) : awindow :=
  match ops with [] => a | o :: ops => aw_run (aw_add a o) ops end.

Fixpoint admissible_run (a : awindow) (ops : list add_op) : Prop :=
  match ops with
  | [] => True
  | o :: ops => admissible a o /\ admissible_run (aw_add a o) ops
  end.

Fixpoint run (b : Bucket) (ops : list add_op) : go Bucket :=
  match ops with
  | [] => mret b
  | o :: ops =>
      r ← addPacket b (op_pkt o) (op_sn o) (op_latest o);
      run r.1.1 ops
  end.

(** ** Lemmas: slots *)

Definition write_slot (buf : bytes) (s : Z) (pkt : bytes) : bytes :=
  blit (blit buf (Z.to_nat (s * maxPktSize)) (be16 (len pkt)))
    (Z.to_nat (s * maxPktSize) + 2) pkt.

Definition slot_in (buf : bytes) (s : Z) : Prop :=
  0 <= s /\ (s + 1) * maxPktSize <= len buf.

Lemma length_write_slot buf s pkt :
  slot_in buf s -> len pkt <= maxPktSize - 2 ->
  length (write_slot buf s pkt) = length buf.
Proof.
  unfold slot_in, write_slot, len, maxPktSize. intros Hs Hp.
  rewrite (length_blit (blit _ _ _)); rewrite length_blit; lia.
Qed.

Lemma write_slot_holds buf s pkt :
  slot_in buf s -> len pkt <= maxPktSize - 2 ->
  slot_holds (write_slot buf s pkt) s pkt.
Proof.
  unfold slot_in, write_slot, slot_holds, len, maxPktSize. intros Hs Hp.
  set (off := Z.to_nat (s * 1460)).
  assert (off + 2 <= length (blit buf off (be16 (Z.of_nat (length pkt)))))%nat.
  { rewrite length_blit; lia. }
  pose proof (length_be16 (Z.of_nat (length pkt))) as Hbe.
  assert (length (blit buf off (be16 (Z.of_nat (length pkt)))) = length buf) as Hl
    by (rewrite length_blit; lia).
  split.
  - rewrite sub_blit_out by lia.
    replace off with (off + 0)%nat at 2 by lia.
    rewrite sub_blit_in by lia. unfold sub. rewrite drop_0, take_ge by lia.
    apply be16_roundtrip.
  - replace (off + 2)%nat with (off + 2 + 0)%nat at 2 by lia.
    rewrite sub_blit_in by lia. unfold sub. rewrite drop_0. by apply take_ge.
Qed.

Lemma write_slot_other buf s s' pkt p :
  slot_in buf s -> slot_in buf s' -> s <> s' ->
  len pkt <= maxPktSize - 2 -> len p <= maxPktSize - 2 ->
  slot_holds buf s' p -> slot_holds (write_slot buf s pkt) s' p.
Proof.
  unfold slot_in, write_slot, slot_holds, len, maxPktSize. intros Hs Hs' Hne Hp Hp'.
  set (off := Z.to_nat (s * 1460)). set (off' := Z.to_nat (s' * 1460)).
  pose proof (length_be16 (Z.of_nat (length pkt))) as Hbe.
  assert (length (blit buf off (be16 (Z.of_nat (length pkt)))) = length buf) as Hl
    by (rewrite length_blit; lia).
  rewrite !sub_blit_out by lia. done.
Qed.

(** The writes of [push] and [set] *)
Lemma slot_write_ok buf s pkt :
  slot_in buf s -> len pkt <= maxPktSize - 2 ->
  (buf1 ← put_u16 buf (s * maxPktSize) (u16 (len pkt));
   go_copy buf1 (s * maxPktSize + 2) pkt) = Ok (write_slot buf s pkt)
  /\ go_slice (write_slot buf s pkt) (s * maxPktSize + 2)
       (s * maxPktSize + 2 + len pkt) = Ok pkt.
Proof.
  intros Hs Hp. pose proof (length_write_slot buf s pkt Hs Hp) as Hl.
  pose proof (write_slot_holds buf s pkt Hs Hp) as [_ Hsub].
  pose proof (len_nonneg pkt). destruct Hs as [Hs0 Hs1]. unfold maxPktSize in *.
  assert (u16 (len pkt) = len pkt) as -> by (apply u16_small; lia).
  split.
  - unfold put_u16. test_true. cbn [mbind go_bind]. unfold go_copy.
    rewrite len_blit by (unfold len in *; lia). test_true. unfold write_slot, maxPktSize. do 2 f_equal. lia.
  - assert (len (write_slot buf s pkt) = len buf) as Hl' by (unfold len; by rewrite Hl).
    rewrite (go_slice_sub _ (Z.to_nat (s * 1460) + 2) (length pkt))
      by (unfold len in *; lia). by rewrite Hsub.
Qed.

(** Reading a slot *)
Lemma slot_read_ok buf s pkt sn sn' :
  slot_in buf s -> slot_holds buf s pkt -> rtp_bytes pkt sn' ->
  let off := s * maxPktSize in
  (hd ← go_slice buf (off + 4) (off + 6);
   n ← get_u16 hd;
   if negb (n =? sn) then mret None
   else
     szb ← go_slice buf off (off + 2);
     sz ← get_u16 szb;
     p ← go_slice buf (off + 2) (off + 2 + sz);
     mret (Some p)) = Ok (if sn' =? sn then Some pkt else None).
Proof.
  intros [Hs0 Hs1] [Hsz Hsub] [Hlen Hsn] off. unfold maxPktSize in *.
  subst off. assert (Z.of_nat (Z.to_nat (s * 1460)) = s * 1460) as Ho by lia.
  set (o := Z.to_nat (s * 1460)) in *. clearbody o.
  assert (sub buf (o + 4) 2 = sub pkt 2 2) as Hhd.
  { rewrite <-Hsub. rewrite sub_sub by (unfold len in *; lia). f_equal. lia. }
  rewrite (go_slice_sub buf (o + 4) 2 (s * 1460 + 4) (s * 1460 + 6)) by (unfold len in *; lia).
  cbn [mbind go_bind]. rewrite Hhd, Hsn.
  cbn [mbind go_bind]. destruct (sn' =? sn); cbn [negb]; [|done].
  rewrite (go_slice_sub buf o 2 (s * 1460) (s * 1460 + 2)) by (unfold len in *; lia).
  cbn [mbind go_bind]. rewrite Hsz. cbn [mbind go_bind].
  rewrite (go_slice_sub buf (o + 2) (length pkt)) by (unfold len in *; lia).
  cbn [mbind go_bind mret go_ret]. by rewrite Hsub.
Qed.

(** ** Lemmas: the ring *)

Lemma next_step_mod s m : 0 <= s < m -> next_step s m = (s + 1) mod m.
Proof.
  intros H. unfold next_step. case_test.
  - replace (s + 1) with m by lia. symmetry. apply Z.mod_same. lia.
  - symmetry. apply Z.mod_small. lia.
Qed.

Lemma skip_gap_spec n i sn b :
  bucket_wf b ->
  let b' := skip_gap n i sn b in
  bucket_wf b' /\ buf b' = buf b /\ headSN b' = headSN b
  /\ maxSteps b' = maxSteps b /\ init b' = init b
  /\ step b' = (step b + Z.of_nat n) mod maxSteps b
  /\ (nacker b = None -> nacker b' = None).
Proof.
  revert i b. induction n as [|n IH]; intros i b Hb.
  - cbn. split_and!; try done. rewrite Z.add_0_r, Z.mod_small; [done|apply Hb].
  - cbn [skip_gap]. destruct Hb as [Hm Hbuf Hs Hh Hn]. edestruct IH as (H1 & H2 & H3 & H4 & H5 & H6 & H7).
    2:{ split_and!; [exact H1|exact H2|exact H3|exact H4|exact H5| |].
        - rewrite H6. cbn [step maxSteps upd eta_record]. rewrite next_step_mod by done.
          rewrite Zplus_mod_idemp_l. f_equal. lia.
        - intros Hnone. apply H7. cbn. by rewrite Hnone. }
    constructor; cbn [step maxSteps buf headSN nacker upd eta_record]; try done.
    + rewrite next_step_mod by done. apply Z.mod_pos_bound. lia.
    + intros q Hq. destruct (nacker b) as [q0|] eqn:E; [|done].
      cbn in Hq. injection Hq as <-. apply push_wf; [by apply Hn|apply u16_range].
Qed.

Lemma slot_of_range b k : bucket_wf b -> 0 <= slot_of b k < maxSteps b.
Proof. intros Hb. apply Z.mod_pos_bound, Hb. Qed.

Lemma slot_of_in b k : bucket_wf b -> slot_in (buf b) (slot_of b k).
Proof.
  intros Hb. pose proof (slot_of_range b k Hb). destruct Hb as [_ Hbuf _ _ _].
  unfold slot_in, maxPktSize in *. split; [lia|]. nia.
Qed.

Lemma slot_of_inj b j k :
  bucket_wf b -> 0 <= j < maxSteps b -> 0 <= k < maxSteps b ->
  slot_of b j = slot_of b k -> j = k.
Proof.
  intros Hb Hj Hk Heq. unfold slot_of in Heq.
  assert ((k - j) mod maxSteps b = 0) as H.
  { replace (k - j) with (step b - 1 - j - (step b - 1 - k)) by lia.
    rewrite Zminus_mod, Heq, Z.sub_diag. apply Z.mod_0_l. lia. }
  apply Z.mod_divide in H as [c Hc]; [|lia].
  destruct (Z.lt_trichotomy c 0) as [?|[->|?]]; [nia|lia|nia].
Qed.

(** The position [set] and [get] compute for a number [k] behind the head *)
Lemma pos_slot_of b k :
  bucket_wf b -> 0 <= k < maxSteps b ->
  let pos := step b - (k + 1) in
  (if pos <? 0 then pos + maxSteps b else pos) = slot_of b k
  /\ - maxSteps b <= pos.
Proof.
  intros Hb Hk pos. pose proof (bw_step b Hb). unfold slot_of, pos.
  split; [|lia]. case_test.
  - symmetry. replace (step b - 1 - k) with (step b - (k + 1) + maxSteps b + (-1) * maxSteps b) by lia.
    rewrite Z_mod_plus_full. apply Z.mod_small. lia.
  - replace (step b - 1 - k) with (step b - (k + 1)) by lia.
    symmetry. apply Z.mod_small. lia.
Qed.

(** *** The three operations on a well-formed bucket *)

Lemma push_ok b pkt :
  bucket_wf b -> len pkt <= maxPktSize - 2 ->
  push b pkt = Ok (b <| buf := write_slot (buf b) (step b) pkt |>
                     <| step := next_step (step b) (maxSteps b) |>, Some pkt).
Proof.
  intros Hb Hp. assert (slot_in (buf b) (step b)) as Hin.
  { destruct Hb as [_ Hbuf Hs _ _]. unfold slot_in, maxPktSize in *. split; [lia|nia]. }
  destruct (slot_write_ok (buf b) (step b) pkt Hin Hp) as [Hw Hr]. unfold push.
  destruct (put_u16 _ _ _) as [buf1|]; [|done]. cbn [mbind go_bind] in Hw |- *.
  rewrite Hw. cbn [mbind go_bind]. by rewrite Hr.
Qed.

Lemma set_ok b sn pkt :
  bucket_wf b -> len pkt <= maxPktSize - 2 ->
  let k := u16 (headSN b - sn) in
  k < maxSteps b ->
  set b sn pkt = Ok (b <| buf := write_slot (buf b) (slot_of b k) pkt |>, Some pkt).
Proof.
  intros Hb Hp k Hk. pose proof (u16_range (headSN b - sn)) as Hkr. fold k in Hkr.
  pose proof (bw_steps b Hb) as Hm. unfold set. fold k.
  rewrite (u16_small (maxSteps b + 1)) by lia. test_false.
  rewrite (u16_small (k + 1)) by lia.
  destruct (pos_slot_of b k Hb ltac:(lia)) as [-> _].
  pose proof (slot_of_in b k Hb) as Hin. pose proof Hin as [Hi1 Hi2].
  assert (((len (buf b) <? slot_of b k * maxPktSize)
            || (slot_of b k * maxPktSize <? 0))%bool = false) as ->
    by (unfold maxPktSize in *; lia).
  destruct (slot_write_ok (buf b) (slot_of b k) pkt Hin Hp) as [Hw Hr].
  destruct (put_u16 _ _ _) as [buf1|]; [|done]. cbn [mbind go_bind] in Hw |- *.
  rewrite Hw. cbn [mbind go_bind]. by rewrite Hr.
Qed.

Lemma set_too_old b sn pkt :
  bucket_wf b -> maxSteps b < u16 (headSN b - sn) -> set b sn pkt = Ok (b, None).
Proof.
  intros Hb Hk. pose proof (bw_steps b Hb). unfold set.
  rewrite (u16_small (maxSteps b + 1)) by lia. by test_true.
Qed.

Lemma get_slot b k pkt sn :
  bucket_wf b -> 0 <= k < maxSteps b ->
  slot_holds (buf b) (slot_of b k) pkt -> rtp_bytes pkt sn ->
  get b (u16 (headSN b - k))
  = Ok (if sn =? u16 (headSN b - k) then Some pkt else None).
Proof.
  intros Hb Hk Hh Hr. pose proof (bw_steps b Hb) as Hm. unfold get.
  rewrite (u16_sub_sub (headSN b) k), (u16_small (k + 1)) by lia.
  destruct (pos_slot_of b k Hb Hk) as [Hpos Hlo].
  rewrite (Z.add_comm (maxSteps b)), Hpos. test_false.
  pose proof (slot_of_in b k Hb) as Hin. pose proof Hin as [Hi1 Hi2].
  assert (len (buf b) <? slot_of b k * maxPktSize = false) as ->
    by (unfold maxPktSize in *; lia). by apply slot_read_ok.
Qed.

Lemma get_ok b k pkt :
  bucket_wf b -> 0 <= k < maxSteps b ->
  slot_holds (buf b) (slot_of b k) pkt -> rtp_bytes pkt (u16 (headSN b - k)) ->
  get b (u16 (headSN b - k)) = Ok (Some pkt).
Proof. intros. erewrite get_slot by done. by rewrite Z.eqb_refl. Qed.

(** ** Lemmas: simulation *)

Lemma win_push_length n d pkt w :
  length w = n -> length (win_push n d pkt w) = n.
Proof.
  intros Hw. unfold win_push. rewrite length_take. cbn [length].
  rewrite length_app, length_replicate. lia.
Qed.

Lemma win_push_lookup n d pkt w j p :
  (0 < d)%nat -> win_push n d pkt w !! j = Some (Some p) ->
  (j < n)%nat /\ ((j = 0%nat /\ p = pkt)
  \/ ((d <= j)%nat /\ w !! (j - d)%nat = Some (Some p))).
Proof.
  intros Hd H. unfold win_push in H. apply lookup_take_Some in H as [H Hj].
  split; [done|]. destruct j as [|j]; [left; cbn in H; naive_solver|]. right.
  change ((replicate (d - 1) None ++ w) !! j = Some (Some p)) in H.
  destruct (decide (j < d - 1)%nat) as [Hlt|Hge].
  - rewrite lookup_app_l in H by (rewrite length_replicate; lia).
    apply lookup_replicate in H as [? _]. done.
  - rewrite lookup_app_r in H by (rewrite length_replicate; lia).
    rewrite length_replicate in H. split; [lia|].
    by replace (S j - d)%nat with (j - (d - 1))%nat by lia.
Qed.

Lemma write_wf b s pkt st :
  bucket_wf b -> slot_in (buf b) s -> len pkt <= maxPktSize - 2 ->
  0 <= st < maxSteps b ->
  bucket_wf (b <| buf := write_slot (buf b) s pkt |> <| step := st |>).
Proof.
  intros [? Hbuf ? ? ?] Hs Hp Hst.
  constructor; cbn [buf step maxSteps headSN nacker upd eta_record]; try done.
  unfold len in *. by rewrite length_write_slot.
Qed.

Lemma push_represents b w b2 d pkt sn :
  bucket_wf b -> represents b w -> bucket_wf b2 ->
  buf b2 = buf b -> headSN b2 = sn -> maxSteps b2 = maxSteps b ->
  0 < d -> d = u16 (sn - headSN b) -> is_u16 sn ->
  step b2 = (step b + (d - 1)) mod maxSteps b -> rtp_bytes pkt sn ->
  let b3 := b2 <| buf := write_slot (buf b2) (step b2) pkt |>
               <| step := next_step (step b2) (maxSteps b2) |> in
  bucket_wf b3 /\ represents b3 (win_push (length w) (Z.to_nat d) pkt w).
Proof.
  intros Hb [Hlen Hrep] Hb2 Hbuf Hhead Hm Hd0 Hd Hsn Hst Hr b3.
  pose proof (bw_steps b Hb) as Hms. pose proof (bw_step b Hb) as Hs0.
  pose proof (bw_step b2 Hb2) as Hs2.
  assert (0 <= next_step (step b2) (maxSteps b2) < maxSteps b2) as Hnx.
  { rewrite next_step_mod by done. apply Z.mod_pos_bound. lia. }
  assert (slot_in (buf b2) (step b2)) as Hin.
  { pose proof (bw_buf b2 Hb2). unfold slot_in, maxPktSize in *. split; [lia|nia]. }
  destruct (rb_len pkt sn Hr) as [Hl4 HlM].
  assert (bucket_wf b3) as Hb3 by (by apply write_wf).
  split; [done|].
  assert (forall k, slot_of b3 k = (step b2 - k) mod maxSteps b) as Hslot.
  { intros k. unfold slot_of, b3. cbn [step maxSteps upd eta_record].
    rewrite next_step_mod, Hm by lia.
    replace ((step b2 + 1) mod maxSteps b - 1 - k)
      with ((step b2 + 1) mod maxSteps b - (1 + k)) by lia.
    rewrite Zminus_mod_idemp_l. f_equal. lia. }
  assert (forall k, slot_of b3 (k + d) = slot_of b k) as Hold.
  { intros k. rewrite Hslot, Hst, Zminus_mod_idemp_l. unfold slot_of. f_equal. lia. }
  split; [rewrite win_push_length by done; cbn; by rewrite Hm|].
  intros j p [Hj [[-> ->]|[Hdj Hp]]]%win_push_lookup; [| |lia].
  - cbn [headSN buf b3 upd eta_record]. rewrite Hhead, Z.sub_0_r, u16_small by done.
    split; [done|]. rewrite Hslot, Z.sub_0_r, Z.mod_small by lia.
    by apply write_slot_holds.
  - apply Hrep in Hp as [Hpr Hph]. cbn [headSN buf b3 upd eta_record].
    replace (u16 (headSN b2 - Z.of_nat j))
      with (u16 (headSN b - Z.of_nat (j - Z.to_nat d))).
    2:{ rewrite Hhead. rewrite Nat2Z.inj_sub by done. rewrite Z2Nat.id by lia.
        rewrite Hd. wrap_lia. }
    split; [done|].
    replace (Z.of_nat j) with (Z.of_nat (j - Z.to_nat d) + d) by lia.
    rewrite Hold. rewrite Hbuf.
    apply write_slot_other; try (apply Hpr || done).
    + by rewrite <-Hbuf.
    + by apply slot_of_in.
    + rewrite <-(Hold (Z.of_nat (j - Z.to_nat d))).
      replace (step b2) with (slot_of b3 0)
        by (rewrite Hslot, Z.sub_0_r; apply Z.mod_small; lia).
      intros Heq%slot_of_inj; [lia|done|cbn [maxSteps b3 upd eta_record]; lia..].
Qed.

Lemma set_represents b w k pkt :
  bucket_wf b -> represents b w -> 0 <= k < maxSteps b ->
  rtp_bytes pkt (u16 (headSN b - k)) ->
  let b' := b <| buf := write_slot (buf b) (slot_of b k) pkt |> in
  bucket_wf b' /\ represents b' (win_set (Z.to_nat k) pkt w).
Proof.
  intros Hb [Hlen Hrep] Hk Hr b'. pose proof (slot_of_in b k Hb) as Hin.
  destruct (rb_len _ _ Hr) as [Hl4 HlM].
  split; [apply (write_wf b _ pkt (step b)); (done || apply Hb)|].
  split; [unfold win_set; rewrite length_insert; exact Hlen|].
  intros j p Hj. change (slot_of b' (Z.of_nat j)) with (slot_of b (Z.of_nat j)).
  cbn [headSN buf b' upd eta_record]. unfold win_set in Hj.
  apply list_lookup_insert_Some in Hj as [(<- & [= ->] & _)|[Hne Hj]].
  - rewrite Z2Nat.id by lia. split; [done|]. by apply write_slot_holds.
  - pose proof (lookup_lt_Some _ _ _ Hj). apply Hrep in Hj as [Hpr Hph]. split; [done|].
    apply write_slot_other; try (apply Hpr || done); [by apply slot_of_in|].
    intros Heq%slot_of_inj; [lia|done|lia..].
Qed.

(** The refinement relation *)
Record refines (b : Bucket) (a : awindow) : Prop := {
  rf_wf : bucket_wf b;
  rf_rep : represents b (aw_win a);
  rf_head : headSN b = aw_head a;
  rf_init : init b = aw_init a;
  rf_fresh : init b = false -> aw_win a = win_new (Z.to_nat (maxSteps b)) }.

Lemma refines_new buf nack :
  2 * maxPktSize <= len buf < 65535 * maxPktSize ->
  refines (NewBucket buf nack) (aw_new (Z.to_nat (len buf / maxPktSize - 1))).
Proof.
  intros Hl. assert (1 < len buf / maxPktSize + 1 < 65536 + 1 /\ 2 <= len buf / maxPktSize < 65536
    /\ (len buf / maxPktSize - 1 + 1) * maxPktSize <= len buf) as (? & ? & ?).
  { unfold maxPktSize in *. zlia. }
  constructor; try done.
  - constructor; cbn [NewBucket maxSteps step headSN nacker Bucket.buf]; try lia.
    intros q. destruct nack; [|done]. intros [= <-]. apply new_wf.
  - split; [apply length_replicate|]. intros k p Hk.
    by apply lookup_replicate in Hk as [? _].
Qed.

(** First call: the head is set just below the first number. *)
Definition start (b : Bucket) (sn : Z) : Bucket :=
  if init b then b else b <| headSN := u16 (sn - 1) |> <| init := true |>.

Lemma refines_start b a sn :
  refines b a -> refines (start b sn) (aw_start a sn)
                 /\ init (start b sn) = true /\ aw_init (aw_start a sn) = true.
Proof.
  intros [Hwf [Hlen Hrep] Hhead Hinit Hfresh]. unfold start, aw_start.
  rewrite <-Hinit. destruct (init b) eqn:Ei.
  - split_and!; [|done|by rewrite <-Hinit]. by constructor; try rewrite Ei.
  - split_and!; [|done..]. constructor; try done.
    + destruct Hwf. constructor; cbn [headSN upd eta_record maxSteps step buf nacker];
        try done. apply u16_range.
    + split; [done|]. intros k p Hk. cbn [aw_win] in Hk. rewrite (Hfresh eq_refl) in Hk.
      by apply lookup_replicate in Hk as [? _].
Qed.

Lemma add_latest b a pkt sn :
  refines b a -> init b = true -> rtp_bytes pkt sn -> is_u16 sn ->
  u16 (sn - headSN b) <> 0 ->
  exists b' lost, addPacket b pkt sn true = Ok (b', Some pkt, lost)
    /\ refines b' (AWindow true sn
         (win_push (length (aw_win a)) (Z.to_nat (u16 (sn - headSN b))) pkt (aw_win a))).
Proof.
  intros [Hwf Hrep Hhead Hinit _] Hi Hr Hsn Hd. unfold addPacket. rewrite Hi. cbn [negb].
  set (d := u16 (sn - headSN b)) in *. pose proof (u16_range (sn - headSN b)) as Hdr.
  fold d in Hdr. set (b1 := b <| headSN := sn |>).
  assert (bucket_wf b1) as Hb1 by (destruct Hwf; by constructor).
  destruct (skip_gap_spec (Z.to_nat (d - 1)) 1 sn b1 Hb1)
    as (Hb2 & Hbuf & Hh & Hm & Hin & Hst & _).
  set (b2 := skip_gap _ _ _ _) in *. rewrite Z2Nat.id in Hst by lia.
  destruct (rb_len _ _ Hr) as [_ Hmax].
  assert (forall b3, bucket_wf b3 -> buf b3 = buf b2 -> headSN b3 = headSN b2 ->
    maxSteps b3 = maxSteps b2 -> step b3 = step b2 -> init b3 = init b2 ->
    exists b', push b3 pkt = Ok (b', Some pkt) /\ refines b' (AWindow true sn
      (win_push (length (aw_win a)) (Z.to_nat d) pkt (aw_win a)))) as Hpush.
  { intros b3 Hb3 E1 E2 E3 E4 E5. eexists. split; [by apply push_ok|].
    destruct (push_represents b (aw_win a) b3 d pkt sn) as [Hw Hp];
      try done; try (congruence || lia).
    all: try (rewrite ?E1, ?E2, ?E3, ?E4, ?Hbuf, ?Hh, ?Hm, ?Hst; done).
    constructor; try done.
    - by cbn; rewrite E2, Hh.
    - cbn. by rewrite E5, Hin.
    - cbn [init upd eta_record]. rewrite E5, Hin. cbn. by rewrite Hi. }
  cbv zeta. destruct (nacker b2) as [q|] eqn:Eq.
  - pose proof (pairs_wf q (bw_nacker b2 Hb2 q Eq)) as Hq.
    destruct (pairs q) as [[np akf] q'] eqn:Ep. cbn [snd] in Hq.
    destruct (Hpush (b2 <| nacker := Some q' |>)) as (b' & -> & Href); try done.
    { destruct Hb2. constructor; try done. by intros ? [= <-]. }
    do 2 eexists. split; [cbn [mbind go_bind]; reflexivity|done].
  - destruct (Hpush b2) as (b' & -> & Href); try done.
    do 2 eexists. split; [cbn [mbind go_bind]; reflexivity|done].
Qed.

Lemma refines_nacker b a f :
  (forall q, queue_wf q -> queue_wf (f q)) ->
  refines b a -> refines (b <| nacker := f <$> nacker b |>) a.
Proof.
  intros Hf [Hwf Hrep Hhead Hinit Hfresh]. constructor; try done.
  destruct Hwf as [? ? ? ? Hn]. constructor; try done. cbn.
  intros q Hq. destruct (nacker b) as [q0|]; [|done]. cbn in Hq.
  injection Hq as <-. auto.
Qed.

Lemma add_late b a pkt sn :
  refines b a -> init b = true -> rtp_bytes pkt sn -> is_u16 sn ->
  let k := u16 (headSN b - sn) in
  k <> maxSteps b ->
  exists b', addPacket b pkt sn false
             = Ok (b', if k <? maxSteps b then Some pkt else None, None)
    /\ refines b' (AWindow true (headSN b)
         (if k <? maxSteps b then win_set (Z.to_nat k) pkt (aw_win a) else aw_win a)).
Proof.
  intros Hrf0 Hi Hr Hsn k Hk. unfold addPacket. rewrite Hi. cbn [negb].
  pose proof (refines_nacker b a (fun q => remove q sn)
    (fun q => remove_wf q sn) Hrf0) as [Hwf Hrep Hhead Hinit _].
  set (b1 := b <| nacker := _ |>) in *.
  pose proof (u16_range (headSN b - sn)) as Hkr. fold k in Hkr.
  change (headSN b) with (headSN b1) in k |- *.
  change (maxSteps b) with (maxSteps b1) in Hk |- *.
  case_test.
  - rewrite set_ok by (done || apply Hr). fold k. cbn [mbind go_bind mret go_ret].
    eexists. split; [reflexivity|].
    destruct (set_represents b1 (aw_win a) k pkt) as [Hw Hp]; try done; try lia.
    { replace (u16 (headSN b1 - k)) with sn; [done|]. unfold k. wrap_lia. }
    constructor; try done. cbn. by rewrite Hi.
  - rewrite set_too_old by (done || lia). cbn [mbind go_bind mret go_ret].
    eexists. split; [reflexivity|]. constructor; try done. cbn. by rewrite Hi.
Qed.

Lemma start_add b pkt sn latest :
  addPacket b pkt sn latest = addPacket (start b sn) pkt sn latest.
Proof. unfold addPacket, start. by destruct (init b) eqn:Ei; rewrite ?Ei. Qed.

Lemma add_refines b a o :
  refines b a -> admissible a o ->
  exists r, addPacket b (op_pkt o) (op_sn o) (op_latest o) = Ok r
    /\ refines r.1.1 (aw_add a o).
Proof.
  intros Hrf (Hr & Hsn & Hadm). rewrite start_add.
  destruct (refines_start b a (op_sn o) Hrf) as (Hs & Hi & Hai).
  unfold aw_add. destruct (aw_start a (op_sn o)) as [i h w] eqn:Ea.
  cbn [aw_init aw_head aw_win] in *. subst i.
  pose proof (rf_head _ _ Hs) as Hh. cbn in Hh.
  destruct (rf_rep _ _ Hs) as [Hlen _]. cbn in Hlen.
  pose proof (bw_steps _ (rf_wf _ _ Hs)) as Hm.
  destruct o as [pkt sn [|]]; cbn [op_pkt op_sn op_latest] in *.
  - rewrite <-Hh in Hadm |- *.
    destruct (add_latest _ _ pkt sn Hs Hi Hr Hsn Hadm) as (b' & lost & -> & H').
    eexists. split; [reflexivity|exact H'].
  - rewrite Hlen, Z2Nat.id in Hadm |- * by lia. rewrite <-Hh in Hadm |- *.
    destruct (add_late _ _ pkt sn Hs Hi Hr Hsn Hadm) as (b' & -> & H').
    eexists. split; [reflexivity|]. cbn [fst]. by case_test.
Qed.

(** ** Lemmas: any packet that fits *)

(** How far [addPacket] moves the write position *)
Definition moved (b : Bucket) (sn : Z) (latest : bool) : Z :=
  if latest then Z.max 1 (u16 (sn - headSN (start b sn))) else 0.

(** The packets the contract does not cover too: a bucket takes any packet
    that fits a slot, and what it returns is the packet. *)
(** One packet more behind than the ring is long: [set] misses the slots, or
    writes one of them. *)
Lemma set_edge b sn pkt :
  bucket_wf b -> len pkt <= maxPktSize - 2 -> u16 (headSN b - sn) = maxSteps b ->
  set b sn pkt = Ok (b, None)
  \/ exists j, slot_in (buf b) j /\ set b sn pkt = Ok (b <| buf := write_slot (buf b) j pkt |>, Some pkt).
Proof.
  intros Hb Hp Hk. pose proof (bw_step b Hb). pose proof (bw_steps b Hb). unfold set. rewrite Hk.
  rewrite (u16_small (maxSteps b + 1)) by lia.
  assert (maxSteps b + 1 <=? maxSteps b = false) as -> by lia. set (pos := step b - (maxSteps b + 1)).
  assert (pos <? 0 = true) as -> by (subst pos; lia).
  destruct (decide (step b = 0)) as [E0|E0].
  - left. assert ((pos + maxSteps b) * maxPktSize <? 0 = true) as -> by (subst pos; unfold maxPktSize; lia).
    by rewrite orb_true_r.
  - right. exists (pos + maxSteps b).
    assert (slot_in (buf b) (pos + maxSteps b)) as Hj.
    { pose proof (bw_buf b Hb). unfold slot_in, maxPktSize in *. subst pos. nia. }
    split; [done|]. pose proof Hj as [Hj1 Hj2].
    assert (((len (buf b) <? (pos + maxSteps b) * maxPktSize)
      || ((pos + maxSteps b) * maxPktSize <? 0))%bool = false) as -> by (unfold maxPktSize in *; lia).
    destruct (slot_write_ok (buf b) _ pkt Hj Hp) as [Hw Hr].
    destruct (put_u16 _ _ _) as [buf1|]; [|done]. cbn [mbind go_bind] in Hw |- *.
    rewrite Hw. cbn [mbind go_bind]. by rewrite Hr.
Qed.

(** Storing the newest packet, [d] numbers after the one before, once the
    slots between are skipped *)
Lemma push_newest s b pkt d :
  bucket_wf b -> len pkt <= maxPktSize - 2 -> maxSteps b = maxSteps s ->
  step b = (step s + Z.max 0 (d - 1)) mod maxSteps s -> 0 <= d ->
  exists b', push b pkt = Ok (b', Some pkt) /\ bucket_wf b' /\ maxSteps b' = maxSteps s
    /\ step b' = (step s + Z.max 1 d) mod maxSteps s.
Proof.
  intros Hb Hp Hm Hst Hd. pose proof (bw_step b Hb). pose proof (bw_steps b Hb). pose proof (bw_buf b Hb).
  eexists. split; [by apply push_ok|]. split_and!; [|done|].
  - apply write_wf; [done| |done|]; [|rewrite next_step_mod by done; apply Z.mod_pos_bound; lia].
    unfold slot_in, maxPktSize in *. split; [lia|nia].
  - cbn [step upd settable_Bucket eta_record]. rewrite next_step_mod, Hst, Hm by done.
    rewrite Zplus_mod_idemp_l. f_equal. lia.
Qed.

Lemma addPacket_total b pkt sn latest :
  bucket_wf b -> len pkt <= maxPktSize - 2 -> is_u16 sn ->
  exists b' st lost, addPacket b pkt sn latest = Ok (b', st, lost) /\ bucket_wf b'
    /\ maxSteps b' = maxSteps b /\ step b' = (step b + moved b sn latest) mod maxSteps b
    /\ (st = None /\ latest = false \/ st = Some pkt).
Proof.
  intros Hb Hp Hsn. rewrite start_add. unfold moved.
  assert (bucket_wf (start b sn) /\ init (start b sn) = true /\ maxSteps (start b sn) = maxSteps b
    /\ step (start b sn) = step b) as (Hs & Hi & <- & <-).
  { unfold start. destruct (init b) eqn:Ei; [done|]. split_and!; try done.
    destruct Hb. constructor; cbn [headSN upd settable_Bucket eta_record maxSteps step buf nacker]; try done.
    apply u16_range. }
  set (s := start b sn) in *. clearbody s. clear b Hb. unfold addPacket. rewrite Hi.
  destruct latest; cbn [negb].
  - set (d := u16 (sn - headSN s)). pose proof (u16_range (sn - headSN s)) as Hdr. fold d in Hdr.
    set (b1 := s <| headSN := sn |>). assert (bucket_wf b1) as Hb1 by (destruct Hs; by constructor).
    destruct (skip_gap_spec (Z.to_nat (d - 1)) 1 sn b1 Hb1) as (Hb2 & _ & _ & Hm & _ & Hst & _).
    set (b2 := skip_gap _ _ _ _) in *. cbv zeta.
    assert (step b2 = (step s + Z.max 0 (d - 1)) mod maxSteps s) as Hst2
      by (rewrite Hst; change (maxSteps b1) with (maxSteps s); change (step b1) with (step s); f_equal; lia).
    destruct (nacker b2) as [q|] eqn:Eq.
    + pose proof (pairs_wf q (bw_nacker b2 Hb2 q Eq)) as Hq.
      destruct (pairs q) as [[np akf] q'] eqn:Ep. cbn [snd] in Hq.
      destruct (push_newest s (b2 <| nacker := Some q' |>) pkt d) as (b' & -> & ? & ? & ?); [|done..|lia|].
      { destruct Hb2. constructor; try done. by intros ? [= <-]. }
      cbn [mbind go_bind mret go_ret]. eexists b', _, _. split; [reflexivity|]. auto.
    + destruct (push_newest s b2 pkt d) as (b' & -> & ? & ? & ?); [done..|lia|].
      cbn [mbind go_bind mret go_ret]. eexists b', _, _. split; [reflexivity|]. auto.
  - set (b1 := s <| nacker := _ |>).
    assert (bucket_wf b1) as Hb1.
    { destruct Hs as [? ? ? ? Hn]. constructor; try done. cbn. intros q Hq.
      destruct (nacker s) as [q0|]; [|done]. injection Hq as <-. by apply remove_wf, Hn. }
    pose proof (bw_step s Hs) as Hst. rewrite Z.add_0_r, (Z.mod_small (step s)) by done.
    pose proof (u16_range (headSN b1 - sn)) as Hkr. set (k := u16 (headSN b1 - sn)) in Hkr.
    destruct (Z.lt_trichotomy k (maxSteps s)) as [Hk|[Hk|Hk]].
    + rewrite set_ok by done. cbn [mbind go_bind mret go_ret]. eexists _, _, _. split; [reflexivity|].
      split_and!; try done; [|by right]. apply (write_wf b1 _ pkt (step b1)); try done. by apply slot_of_in.
    + destruct (set_edge b1 sn pkt Hb1 Hp Hk) as [->|(j & Hj & ->)];
        cbn [mbind go_bind mret go_ret]; eexists _, _, _; (split; [reflexivity|]); split_and!; try done;
        [by left|by apply (write_wf b1 _ pkt (step b1))|by right].
    + rewrite set_too_old by done. cbn [mbind go_bind mret go_ret]. eexists _, _, _.
      split; [reflexivity|]. split_and!; try done. by left.
Qed.

Lemma run_refines b a ops :
  refines b a -> admissible_run a ops ->
  exists b', run b ops = Ok b' /\ refines b' (aw_run a ops).
Proof.
  revert b a. induction ops as [|o ops IH]; intros b a Hrf Hadm; [by exists b|].
  destruct Hadm as [Ho Hadm].
  destruct (add_refines b a o Hrf Ho) as (r & Hr & Hrf'). cbn [run].
  rewrite Hr. cbn [mbind go_bind]. by apply IH.
Qed.

Lemma getPacket_ok b sn pkt dcap :
  get b sn = Ok (Some pkt) -> len pkt <= dcap ->
  getPacket b dcap sn = Ok (len pkt, pkt, None).
Proof. intros Hg Hd. unfold getPacket. rewrite Hg. cbn. by test_false. Qed.

Lemma refines_get b a k pkt dcap :
  refines b a -> aw_win a !! k = Some (Some pkt) -> len pkt <= dcap ->
  getPacket b dcap (u16 (aw_head a - Z.of_nat k)) = Ok (len pkt, pkt, None).
Proof.
  intros [Hwf [Hlen Hrep] Hhead _ _] Hk Hd. apply getPacket_ok; [|done].
  pose proof (lookup_lt_Some _ _ _ Hk). rewrite <-Hhead.
  destruct (Hrep k pkt Hk) as [Hr Hh]. apply get_ok; try done.
  pose proof (bw_steps b Hwf). lia.
Qed.

(** ** Properties *)

(** C4. The cache implements the sliding window: along any run of admissible
    calls from a new bucket nothing panics, and every packet the window then
    holds is returned whole by [getPacket] under its sequence number. *)
Theorem bucket_refines_window buf nack ops :
  2 * maxPktSize <= len buf < 65535 * maxPktSize ->
  let a := aw_new (Z.to_nat (len buf / maxPktSize - 1)) in
  admissible_run a ops ->
  exists b, run (NewBucket buf nack) ops = Ok b
    /\ headSN b = aw_head (aw_run a ops)
    /\ forall k pkt dcap,
         aw_win (aw_run a ops) !! k = Some (Some pkt) -> len pkt <= dcap ->
         getPacket b dcap (u16 (headSN b - Z.of_nat k)) = Ok (len pkt, pkt, None).
Proof.
  intros Hl a Hops.
  destruct (run_refines _ _ _ (refines_new buf nack Hl) Hops) as (b & Hrun & Hrf).
  exists b. pose proof (rf_head _ _ Hrf) as Hh. split_and!; [done..|].
  intros k pkt dcap Hk Hd. rewrite Hh. by eapply refines_get.
Qed.

(** *** Slices that alias the ring

    What [addPacket] returns is not a copy: the payload of the packet that is
    forwarded is memory of the ring.  [slice_at] reads it again later. *)

(** The numbers that the head moves on *)
Fixpoint advance (a : awindow) (ops : list add_op) : Z :=
  match ops with
  | [] => 0
  | o :: ops =>
      (if op_latest o then u16 (op_sn o - aw_head (aw_start a (op_sn o))) else 0)
      + advance (aw_add a o) ops
  end.

Lemma advance_nonneg a ops : 0 <= advance a ops.
Proof.
  revert a. induction ops as [|o ops IH]; intros a; cbn [advance]; [done|].
  specialize (IH (aw_add a o)). pose proof (u16_range (op_sn o - aw_head (aw_start a (op_sn o)))).
  destruct (op_latest o); lia.
Qed.

(** The bytes at the place of slot [s] *)
Definition slice_at (b : Bucket) (s : Z) (n : nat) : bytes := sub (buf b) (Z.to_nat (s * maxPktSize) + 2) n.

(** One packet later, another packet of the window is as far behind as the
    head has moved, and where it was. *)
Lemma add_keeps_slot b a o k pkt d :
  refines b a -> admissible a o -> aw_win a !! k = Some (Some pkt) ->
  d = advance a [o] -> op_sn o <> u16 (aw_head a - Z.of_nat k) ->
  exists r, addPacket b (op_pkt o) (op_sn o) (op_latest o) = Ok r /\ refines r.1.1 (aw_add a o)
    /\ maxSteps r.1.1 = maxSteps b
    /\ slot_of r.1.1 (Z.of_nat k + d) = slot_of b (Z.of_nat k)
    /\ aw_init a = true /\ aw_head (aw_add a o) = u16 (aw_head a + d)
    /\ (Z.of_nat k + d < maxSteps b ->
        aw_win (aw_add a o) !! (k + Z.to_nat d)%nat = Some (Some pkt)).
Proof.
  intros Hrf Hadm Hk Hd Hne. destruct (add_refines b a o Hrf Hadm) as (r & Hr & Hrf').
  exists r. split; [done|]. split; [done|]. destruct Hadm as (Hpkt & Hsn & Hadm).
  destruct (addPacket_total b (op_pkt o) (op_sn o) (op_latest o)) as (b' & st & l & Hr' & Hwf' & Hm & Hst & _);
    [apply Hrf|apply Hpkt|done|]. rewrite Hr in Hr'. injection Hr' as ->. cbn [fst].
  assert (aw_init a = true) as Hi.
  { rewrite <-(rf_init _ _ Hrf). destruct (init b) eqn:Ei; [done|].
    rewrite (rf_fresh _ _ Hrf Ei) in Hk. by apply lookup_replicate in Hk as [? _]. }
  assert (moved b (op_sn o) (op_latest o) = d) as Hmv.
  { subst d. unfold moved, start, aw_start in *. cbn [advance]. unfold aw_start.
    rewrite (rf_init _ _ Hrf), Hi in *. rewrite (rf_head _ _ Hrf).
    destruct (op_latest o); [|lia]. pose proof (u16_range (op_sn o - aw_head a)). lia. }
  rewrite Hmv in Hst. split; [done|]. split.
  { unfold slot_of. rewrite Hm, Hst. pose proof (bw_steps b (rf_wf _ _ Hrf)).
    replace ((step b + d) mod maxSteps b - 1 - (Z.of_nat k + d))
      with ((step b + d) mod maxSteps b - (1 + (Z.of_nat k + d))) by lia.
    rewrite Zminus_mod_idemp_l. f_equal. lia. }
  split; [done|]. pose proof (bw_head b (rf_wf _ _ Hrf)) as Hhd. rewrite (rf_head _ _ Hrf) in Hhd.
  destruct (rf_rep _ _ Hrf) as [Hlen _]. pose proof (bw_steps b (rf_wf _ _ Hrf)).
  subst d. cbn [advance] in *. unfold aw_add, aw_start in *. rewrite Hi in *.
  pose proof (lookup_lt_Some _ _ _ Hk) as Hklt.
  destruct (op_latest o); cbn [aw_head aw_win].
  - pose proof (u16_range (op_sn o - aw_head a)) as Hdr. rewrite Z.add_0_r. split; [wrap_lia|].
    intros Hlt. unfold win_push. rewrite lookup_take_lt by lia.
    set (n := Z.to_nat (u16 (op_sn o - aw_head a))) in *.
    replace (k + n)%nat with (S (n - 1 + k)) by lia. change ((replicate (n - 1) None ++ aw_win a)
      !! (n - 1 + k)%nat = Some (Some pkt)).
    rewrite lookup_app_r by (rewrite length_replicate; lia). rewrite length_replicate.
    by replace (n - 1 + k - (n - 1))%nat with k by lia.
  - rewrite Nat.add_0_r, Z.add_0_r. set (j := u16 (aw_head a - op_sn o)) in *.
    pose proof (u16_range (aw_head a - op_sn o)) as Hjr. fold j in Hjr.
    destruct (j <? Z.of_nat (length (aw_win a))) eqn:E; cbn [aw_head aw_win];
      (split; [symmetry; by apply u16_small|intros _]); [|done].
    unfold win_set. rewrite list_lookup_insert_ne; [done|]. intros Hj. apply Hne.
    rewrite <-Hj, Z2Nat.id by lia. unfold j. wrap_lia.
Qed.

(** C22. The slice of a packet [k] numbers behind stays that packet while the
    head moves on, as long as its own number does not come again, until it is
    [maxSteps] numbers behind; the packet that comes then is written over it.
    What still waits for its turn behind so many packets, in the channel or in
    a pacer, is sent with another packet's payload. *)
Theorem stored_slice_lives b a ops k pkt :
  refines b a -> aw_win a !! k = Some (Some pkt) -> admissible_run a ops ->
  Forall (fun o => op_sn o <> u16 (aw_head a - Z.of_nat k)) ops ->
  Z.of_nat k + advance a ops < maxSteps b ->
  exists b', run b ops = Ok b'
    /\ slice_at b' (slot_of b (Z.of_nat k)) (length pkt) = pkt
    /\ forall o, admissible (aw_run a ops) o -> op_latest o = true ->
         Z.of_nat k + advance a ops + u16 (op_sn o - headSN b') = maxSteps b ->
         exists r, addPacket b' (op_pkt o) (op_sn o) true = Ok r
           /\ slice_at r.1.1 (slot_of b (Z.of_nat k)) (length (op_pkt o)) = op_pkt o.
Proof.
  revert b a k. induction ops as [|o ops IH]; intros b a k Hrf Hk Hadm Hne Hlt; cbn [run aw_run].
  - exists b. split; [done|]. split.
    { destruct (rf_rep _ _ Hrf) as [_ Hrep]. by destruct (Hrep k pkt Hk) as [_ [_ ?]]. }
    intros o Ho Hl Hd. cbn [advance] in Hd, Hlt.
    assert (aw_init a = true) as Hi.
    { rewrite <-(rf_init _ _ Hrf). destruct (init b) eqn:Ei; [done|].
      rewrite (rf_fresh _ _ Hrf Ei) in Hk. by apply lookup_replicate in Hk as [? _]. }
    destruct (add_refines b a o Hrf Ho) as (r & Hr & Hrf'). rewrite Hl in Hr. exists r. split; [done|].
    destruct Ho as (Hpkt & Hsn & _).
    destruct (addPacket_total b (op_pkt o) (op_sn o) true) as (b' & st & l & Hr' & _ & Hm & Hst & _);
      [apply Hrf|apply Hpkt|done|]. rewrite Hr in Hr'. injection Hr' as ->. cbn [fst] in *.
    pose proof (bw_steps b (rf_wf _ _ Hrf)) as Hms.
    assert (moved b (op_sn o) true = maxSteps b - Z.of_nat k) as Hmv.
    { unfold moved, start. rewrite (rf_init _ _ Hrf), Hi. lia. }
    destruct (rf_rep _ _ Hrf') as [_ Hrep]. destruct (Hrep 0%nat (op_pkt o)) as [_ [_ Hsl]].
    { unfold aw_add. rewrite Hl. cbn [aw_win]. unfold win_push. rewrite lookup_take_lt; [done|].
      pose proof (lookup_lt_Some _ _ _ Hk). unfold aw_start. rewrite Hi. lia. }
    rewrite <-Hsl at 2. unfold slice_at. f_equal. do 3 f_equal. unfold slot_of. rewrite Hm, Hst, Hmv.
    replace ((step b + (maxSteps b - Z.of_nat k)) mod maxSteps b - 1 - Z.of_nat 0)
      with ((step b + (maxSteps b - Z.of_nat k)) mod maxSteps b - 1) by lia.
    rewrite Zminus_mod_idemp_l.
    replace (step b + (maxSteps b - Z.of_nat k) - 1)
      with (step b - 1 - Z.of_nat k + 1 * maxSteps b) by lia. by rewrite Z_mod_plus_full.
  - destruct Hadm as [Ho Hadm]. apply Forall_cons in Hne as [Hne1 Hne].
    pose proof (advance_nonneg (aw_add a o) ops) as Hn. pose proof (advance_nonneg a [o]) as Hn1.
    assert (advance a (o :: ops) = advance a [o] + advance (aw_add a o) ops) as Ea by (cbn; lia).
    destruct (add_keeps_slot b a o k pkt _ Hrf Ho Hk eq_refl Hne1)
      as (r & Hr & Hrf' & Hm & Hsl & _ & Hhd & Hw).
    rewrite Hr. cbn [mbind go_bind].
    assert (Z.of_nat (k + Z.to_nat (advance a [o])) = Z.of_nat k + advance a [o]) as Ek by lia.
    edestruct (IH r.1.1 (aw_add a o) (k + Z.to_nat (advance a [o]))%nat) as (b' & H1 & H2 & H3);
      [done|apply Hw; lia|done| |lia|].
    { eapply Forall_impl; [exact Hne|]. cbv beta. intros o' Ho'. rewrite Hhd, Ek. intros E. apply Ho'.
      rewrite E. wrap_lia. }
    rewrite Ek, Hsl in H2, H3. rewrite Hm in H3. exists b'. split; [done|]. split; [done|].
    intros o' Ho' Hl' Hd. apply H3; [done..|lia].
Qed.

(** The result of one call: a newest packet and a late one inside the window
    are stored and their stored copy is returned; a packet more than
    [maxSteps] numbers late is rejected, and a late packet never triggers
    [onLost]. *)
Theorem addPacket_result b a pkt sn latest :
  refines b a -> init b = true -> admissible a (AddOp pkt sn latest) ->
  exists b' lost,
    addPacket b pkt sn latest
    = Ok (b', if (latest || (u16 (headSN b - sn) <? maxSteps b))%bool
              then Some pkt else None, lost)
    /\ (latest = false -> lost = None).
Proof.
  intros Hrf Hi (Hr & Hsn & Hadm). unfold aw_start in Hadm.
  rewrite <-(rf_init _ _ Hrf), Hi in Hadm. cbn [op_pkt op_sn op_latest] in *.
  rewrite <-(rf_head _ _ Hrf) in Hadm. destruct latest; cbn [orb].
  - destruct (add_latest b a pkt sn Hrf Hi Hr Hsn Hadm) as (b' & lost & -> & _).
    by exists b', lost.
  - destruct (rf_rep _ _ Hrf) as [Hlen _]. pose proof (bw_steps b (rf_wf _ _ Hrf)).
    rewrite Hlen, Z2Nat.id in Hadm by lia.
    destruct (add_late b a pkt sn Hrf Hi Hr Hsn Hadm) as (b' & -> & _).
    by exists b', None.
Qed.

(** The bound of [set] is one too large: a packet exactly [maxSteps] numbers
    late is written over the newest packet, which can then not be read. *)
Theorem set_at_limit_overwrites_head b w pkt sn p0 :
  bucket_wf b -> represents b w -> w !! 0%nat = Some (Some p0) ->
  is_u16 sn -> rtp_bytes pkt sn -> u16 (headSN b - sn) = maxSteps b ->
  1 <= step b ->
  get b (headSN b) = Ok (Some p0)
  /\ exists b', set b sn pkt = Ok (b', Some pkt) /\ get b' (headSN b) = Ok None.
Proof.
  intros Hb [Hlen Hrep] H0 Hsn Hr Hk Hst. pose proof (bw_steps b Hb) as Hm.
  pose proof (bw_step b Hb) as Hs. destruct (Hrep 0%nat p0 H0) as [Hr0 Hh0].
  pose proof (bw_head b Hb) as Hhd. cbn [Z.of_nat] in Hr0, Hh0.
  assert (u16 (headSN b - 0) = headSN b) as E0 by (rewrite Z.sub_0_r; by apply u16_small).
  split.
  { rewrite <-E0. apply get_ok; (done || lia). }
  assert (slot_of b 0 = step b - 1) as Hsl.
  { unfold slot_of. rewrite Z.sub_0_r. apply Z.mod_small. lia. }
  pose proof (slot_of_in b 0 Hb) as Hin. rewrite Hsl in Hin.
  pose proof (rb_len _ _ Hr) as [_ Hmax].
  exists (b <| buf := write_slot (buf b) (step b - 1) pkt |>). split.
  - unfold set. rewrite Hk, !(u16_small (maxSteps b + 1)) by lia. test_false. test_true.
    replace (step b - (maxSteps b + 1) + maxSteps b) with (step b - 1) by lia.
    pose proof Hin as [Hi1 Hi2].
    assert (((len (buf b) <? (step b - 1) * maxPktSize)
            || ((step b - 1) * maxPktSize <? 0))%bool = false) as ->
      by (unfold maxPktSize in *; lia).
    destruct (slot_write_ok (buf b) (step b - 1) pkt Hin Hmax) as [Hw Hrd].
    destruct (put_u16 _ _ _) as [buf1|]; [|done]. cbn [mbind go_bind] in Hw |- *.
    rewrite Hw. cbn [mbind go_bind]. by rewrite Hrd.
  - set (b' := b <| buf := _ |>). change (headSN b) with (headSN b') in E0 |- *.
    assert (bucket_wf b') as Hb' by (apply (write_wf b _ pkt (step b)); done).
    rewrite <-E0. rewrite (get_slot b' 0 pkt sn Hb').
    + rewrite E0. assert (sn =? headSN b' = false) as ->; [|done].
      apply Z.eqb_neq. intros ->. unfold b' in Hk. cbn in Hk.
      rewrite Z.sub_diag in Hk. change (u16 0) with 0 in Hk. lia.
    + cbn. lia.
    + change (slot_of b' 0) with (slot_of b 0). rewrite Hsl.
      by apply write_slot_holds.
    + done.
Qed.

(** A second copy of the newest packet takes a slot of its own without
    advancing the head, so the packet before it can no longer be read. *)
Theorem duplicate_head_loses_previous b a pkt p1 :
  refines b a -> init b = true -> nacker b = None ->
  aw_win a !! 0%nat = Some (Some pkt) -> aw_win a !! 1%nat = Some (Some p1) ->
  let sn := headSN b in
  get b (u16 (sn - 1)) = Ok (Some p1)
  /\ exists b', addPacket b pkt sn true = Ok (b', Some pkt, None)
       /\ get b' (u16 (sn - 1)) = Ok None.
Proof.
  intros [Hb [Hlen Hrep] _ _ _] Hi Hn H0 H1 sn.
  destruct (Hrep 0%nat pkt H0) as [Hr0 Hh0]. destruct (Hrep 1%nat p1 H1) as [Hr1 Hh1].
  change (Z.of_nat 0) with 0 in *. change (Z.of_nat 1) with 1 in *.
  pose proof (bw_steps b Hb) as Hm. pose proof (bw_step b Hb) as Hs.
  pose proof (lookup_lt_Some _ _ _ H1) as Hl1.
  pose proof (bw_head b Hb) as Hhd.
  assert (u16 (headSN b - 0) = headSN b) as E0 by (rewrite Z.sub_0_r; by apply u16_small).
  rewrite E0 in Hr0. pose proof (rb_len _ _ Hr0) as [_ Hmax].
  split; [apply get_ok; (done || lia)|].
  set (b' := b <| buf := write_slot (buf b) (step b) pkt |>
               <| step := next_step (step b) (maxSteps b) |>).
  assert (0 <= next_step (step b) (maxSteps b) < maxSteps b) as Hnx.
  { rewrite next_step_mod by done. apply Z.mod_pos_bound. lia. }
  assert (slot_in (buf b) (step b)) as Hin.
  { pose proof (bw_buf b Hb). unfold slot_in, maxPktSize in *. split; [lia|nia]. }
  assert (bucket_wf b') as Hb' by (by apply write_wf).
  assert (slot_of b' 1 = slot_of b 0) as Hsl.
  { unfold slot_of, b'. cbn [step maxSteps upd eta_record]. rewrite next_step_mod by done.
    rewrite <-Z.sub_add_distr, Zminus_mod_idemp_l. f_equal. lia. }
  exists b'. split.
  - unfold addPacket. rewrite Hi. cbn [negb]. unfold sn.
    rewrite Z.sub_diag. change (Z.to_nat (u16 0 - 1)) with 0%nat. cbn [skip_gap].
    cbn [nacker upd eta_record]. rewrite Hn.
    rewrite push_ok; [unfold b'; cbn; by rewrite Hn| |done]. destruct Hb; by constructor.
  - change sn with (headSN b'). rewrite (get_slot b' 1 pkt (headSN b) Hb').
    + change (headSN b') with (headSN b).
      assert (headSN b =? u16 (headSN b - 1) = false) as ->; [|done].
      apply Z.eqb_neq. wrap_lia.
    + cbn. lia.
    + rewrite Hsl. apply write_slot_other; try done; [by apply slot_of_in|].
      * rewrite <-Hsl. intros Heq.
        assert (step b = slot_of b' 0) as E.
        { unfold slot_of, b'. cbn [step maxSteps upd eta_record]. rewrite next_step_mod by done.
          rewrite Z.sub_0_r, Zminus_mod_idemp_l. symmetry.
          replace (step b + 1 - 1) with (step b) by lia. by apply Z.mod_small. }
        rewrite E in Heq. assert (maxSteps b' = maxSteps b) by done.
        apply slot_of_inj in Heq; (done || lia).
    + done.
Qed.

(** ** Witnesses and examples *)

Definition mk_pkt (sn : Z) : bytes := [128; 96] ++ be16 sn ++ [7].
Definition buf6 : bytes := replicate (Z.to_nat (6 * maxPktSize)) 0.
Definition seq_ops (l : list Z) : list add_op :=
  map (fun sn => AddOp (mk_pkt sn) sn true) l.
Definition bucket_of (r : go Bucket) : Bucket :=
  match r with Ok b => b | Panic => NewBucket [] false end.

Lemma mk_pkt_rtp sn : is_u16 sn -> rtp_bytes (mk_pkt sn) sn.
Proof.
  intros H. constructor.
  - unfold mk_pkt, len. rewrite !length_app, length_be16. cbn. unfold maxPktSize. lia.
  - change (sub (mk_pkt sn) 2 2) with (be16 sn). apply be16_roundtrip.
Qed.

Lemma buf6_len : 2 * maxPktSize <= len buf6 < 65535 * maxPktSize.
Proof. unfold buf6, len. rewrite length_replicate. unfold maxPktSize. lia. Qed.

Ltac solve_admissible :=
  cbn [admissible_run aw_add seq_ops map]; repeat split;
  try (apply mk_pkt_rtp; lia); try (vm_compute; done); vm_compute; intros; discriminate.

(** A cache of five slots after the numbers 1 to 6, without NACKs *)
Definition b16 : Bucket := bucket_of (run (NewBucket buf6 false) (seq_ops [1;2;3;4;5;6])).
Definition a16 : awindow := aw_run (aw_new 5) (seq_ops [1;2;3;4;5;6]).

Lemma b16_refines : refines b16 a16.
Proof.
  destruct (run_refines (NewBucket buf6 false) (aw_new 5) (seq_ops [1;2;3;4;5;6]))
    as (b & Hrun & Hrf).
  - apply (refines_new buf6 false buf6_len).
  - solve_admissible.
  - unfold b16. rewrite Hrun. exact Hrf.
Qed.

Lemma bucket_refines_window_witness :
  exists b, run (NewBucket buf6 true)
              (seq_ops [65534; 1] ++ [AddOp (mk_pkt 0) 0 false]) = Ok b
    /\ getPacket b 1460 0 = Ok (5, mk_pkt 0, None)
    /\ getPacket b 1460 65534 = Ok (5, mk_pkt 65534, None).
Proof.
  destruct (bucket_refines_window buf6 true
    (seq_ops [65534; 1] ++ [AddOp (mk_pkt 0) 0 false]) buf6_len)
    as (b & Hrun & Hhd & Hget).
  - solve_admissible.
  - exists b. split; [exact Hrun|]. rewrite Hhd in Hget.
    split; [apply (Hget 1%nat (mk_pkt 0) 1460)|apply (Hget 3%nat (mk_pkt 65534) 1460)];
      vm_compute; done.
Defined.

Lemma addPacket_result_witness :
  exists b' lost, addPacket b16 (mk_pkt 9) 9 true = Ok (b', Some (mk_pkt 9), lost).
Proof.
  destruct (addPacket_result b16 a16 (mk_pkt 9) 9 true b16_refines)
    as (b' & lost & H & _).
  - by vm_compute.
  - split; [apply mk_pkt_rtp; cbn; lia|]. split; [cbn; lia|]. by vm_compute.
  - exists b', lost. exact H.
Defined.

Lemma stored_slice_lives_witness :
  exists b', run b16 (seq_ops [7; 8; 9; 10]) = Ok b'
    /\ slice_at b' (slot_of b16 0) 5 = mk_pkt 6
    /\ exists r, addPacket b' (mk_pkt 11) 11 true = Ok r
         /\ slice_at r.1.1 (slot_of b16 0) 5 = mk_pkt 11.
Proof.
  destruct (stored_slice_lives b16 a16 (seq_ops [7; 8; 9; 10]) 0 (mk_pkt 6) b16_refines)
    as (b' & Hrun & H1 & H2).
  - by vm_compute.
  - solve_admissible.
  - repeat constructor; vm_compute; discriminate.
  - by vm_compute.
  - exists b'. split; [exact Hrun|]. split; [exact H1|].
    apply (H2 (AddOp (mk_pkt 11) 11 true)); [solve_admissible|done|].
    assert (headSN (bucket_of (run b16 (seq_ops [7; 8; 9; 10]))) = 10) as Hh by by vm_compute.
    rewrite Hrun in Hh. cbn [bucket_of] in Hh. rewrite Hh. by vm_compute.
Defined.

Lemma set_at_limit_overwrites_head_witness :
  get b16 6 = Ok (Some (mk_pkt 6))
  /\ exists b', set b16 1 (mk_pkt 1) = Ok (b', Some (mk_pkt 1)) /\ get b' 6 = Ok None.
Proof.
  assert (headSN b16 = 6) as Hh by by vm_compute.
  pose proof (set_at_limit_overwrites_head b16 (aw_win a16) (mk_pkt 1) 1 (mk_pkt 6)) as H.
  rewrite Hh in H. apply H.
  - apply b16_refines.
  - apply b16_refines.
  - by vm_compute.
  - lia.
  - apply mk_pkt_rtp. lia.
  - by vm_compute.
  - by vm_compute.
Defined.

Lemma duplicate_head_loses_previous_witness :
  get b16 5 = Ok (Some (mk_pkt 5))
  /\ exists b', addPacket b16 (mk_pkt 6) 6 true = Ok (b', Some (mk_pkt 6), None)
       /\ get b' 5 = Ok None.
Proof.
  assert (headSN b16 = 6) as Hh by by vm_compute.
  pose proof (duplicate_head_loses_previous b16 a16 (mk_pkt 6) (mk_pkt 5) b16_refines) as H.
  rewrite Hh in H. apply H; by vm_compute.
Defined.

(** A packet of [maxPktSize] bytes, the length the constant is documented
    for, runs over into the length field of the next slot. *)
Example oversize_packet_corrupts_next :
  let big := mk_pkt 8 ++ replicate (Z.to_nat maxPktSize - 5) 255 in
  len big = maxPktSize
  /\ match addPacket (bucket_of (run (NewBucket buf6 false) (seq_ops [7; 9]))) big 8 false with
     | Ok (b, _, _) => get b 9 = Panic
     | Panic => False
     end.
Proof. by vm_compute. Qed.

(** The pools hand out used buffers: a packet of the previous stream is
    returned for a number the new stream has not received. *)
Example used_buffer_serves_old_packet :
  let old := match run (NewBucket buf6 false) (seq_ops [0;1;2;3;4]) with
             | Ok b => buf b | Panic => [] end in
  match run (NewBucket old false) (seq_ops [5]) with
  | Ok b => get b 4 = Ok (Some (mk_pkt 4))
  | Panic => False
  end.
Proof. by vm_compute. Qed.
