(* ===== verification/Loss.v ===== *)
(** * What becomes of lost packets ([bucket.go] with [nack.go])

    A gap in the numbers puts the missing ones into the NACK queue, and every
    later packet in order may make the cache ask the publisher for them.
    Here is the whole course of it: how often, when and for what the cache
    asks, and how it gives up. *)

From S2P Require Import Prelude GoNum GoSlice Nack Bucket.
#[local] Open Scope Z_scope.

(** ** A gap fills the queue *)







(** ** What the cache says *)

(** The call of [onLost] when [pairs] examines the queue: only a list of
    pairs that is not empty is reported. *)
Definition said (q : nackQueue) : lost_call :=
  let '(np, akf, _) := pairs q in if 0 <? len np then Some (np, akf) else None.




(** What a cache with a queue needs to be ready for the next packet *)
Definition ready (b : Bucket) (q : nackQueue) : Prop :=
  bucket_wf b /\ init b = true /\ nacker b = Some q.

(** A newest packet makes the cache examine the queue as the gap left it. *)
Lemma latest_add b pkt sn q :
  bucket_wf b -> init b = true -> len pkt <= maxPktSize - 2 -> is_u16 sn ->
  nacker (skip_gap (Z.to_nat (u16 (sn - headSN b) - 1)) 1 sn (b <| headSN := sn |>)) = Some q ->
  exists b', addPacket b pkt sn true = Ok (b', Some pkt, said q) /\ ready b' (pairs q).2 /\ headSN b' = sn.
Proof.
  intros Hb Hi Hp Hsn Hq. unfold addPacket, said. rewrite Hi. cbn [negb].
  assert (bucket_wf (b <| headSN := sn |>)) as Hb1 by (destruct Hb; by constructor).
  destruct (skip_gap_spec (Z.to_nat (u16 (sn - headSN b) - 1)) 1 sn _ Hb1)
    as (Hb2 & _ & Hh & _ & Hi2 & _).
  set (b2 := skip_gap _ _ _ _) in *. clearbody b2. rewrite Hq.
  pose proof (pairs_wf q (bw_nacker _ Hb2 q Hq)) as Hwf.
  destruct (pairs q) as [[np akf] q'] eqn:Ep. cbn [snd] in *.
  assert (bucket_wf (b2 <| nacker := Some q' |>)) as Hb3.
  { destruct Hb2. constructor; try done. by intros ? [= <-]. }
  rewrite push_ok by done. cbn [mbind go_bind]. eexists. split; [done|].
  split; [split_and!|]; [|by cbn; rewrite Hi2|done|done].
  pose proof (bw_step _ Hb2) as Hs. apply write_wf; [done| |done|].
  - pose proof (bw_buf _ Hb2). unfold slot_in, maxPktSize in *. cbn. split; [lia|nia].
  - cbn. rewrite next_step_mod by done. apply Z.mod_pos_bound. lia.
Qed.


(** ** The course of a loss *)







(** Entries that are all given up leave the queue, and nothing is said. *)
Lemma said_given_up q :
  queue_wf q -> 2 <= q_counter q -> Forall (fun x => ~ live x) (q_nacks q) ->
  (pairs q).1.1 = [] /\ said q = None /\ q_nacks (pairs q).2 = [] /\ q_counter (pairs q).2 = 0.
Proof.
  intros Hq Hc Hd. pose proof (pairs_unfold q Hq Hc) as Hp.
  assert (filter live (q_nacks q) = []) as Hl by (by apply filter_none).
  cbv zeta in Hp. rewrite Hl in Hp. cbn in Hp. unfold said. by rewrite Hp.
Qed.



(** ** The theorems *)


(** C14. When the entries of the queue have all been asked for three times, the
    queue is emptied and the examination may decide to ask for a key frame
    instead, the new [kfSN] recording that it did.  But [addPacket] reports
    an examination only along with NACK pairs, so the request is not made,
    and none of these numbers can make it later. *)
Theorem giving_up_is_silent b q pkt :
  ready b q -> 2 <= q_counter q -> len pkt <= maxPktSize - 2 ->
  Forall (fun x => ~ live x) (q_nacks q) -> Exists (fun x => q_kfSN q < n_sn x) (q_nacks q) ->
  exists q' b',
    pairs q = ([], true, q')
    /\ Forall (fun x => n_sn x <= q_kfSN q') (q_nacks q)
    /\ addPacket b pkt (u16 (headSN b + 1)) true = Ok (b', Some pkt, None)
    /\ nacker b' = Some q' /\ q_nacks q' = [].
Proof.
  intros (Hb & Hi & Hq) Hc Hp Hd (x & Hx & Hkf)%Exists_exists. pose proof (bw_nacker _ Hb q Hq) as Hwf.
  destruct (said_given_up q Hwf Hc Hd) as (H1 & H2 & H3 & _). pose proof (pairs_keeps_live q Hwf Hc) as Hk.
  destruct (latest_add b pkt (u16 (headSN b + 1)) q) as (b' & Ha & (_ & _ & Hr) & _); try done; [apply u16_range| |].
  { assert (u16 (u16 (headSN b + 1) - headSN b) = 1) as -> by (pose proof (bw_head _ Hb); wrap_lia). done. }
  rewrite H2 in Ha. destruct (pairs q) as [[np akf] q'] eqn:Ep. cbn [fst snd] in *. subst np.
  destruct Hk as (_ & _ & _ & Hask & _ & Hall). exists q', b'. split_and!; try done.
  - assert (akf = true) as -> by (apply Hask; exists x; split_and!; try done;
      by apply (proj1 (Forall_forall _ _) Hd)). done.
  - apply Forall_forall. intros y Hy. apply (proj1 (Forall_forall _ _) Hall); [done|].
    by apply (proj1 (Forall_forall _ _) Hd).
Qed.

(** ** Witnesses *)

Definition tired : Bucket := bucket_of (run (NewBucket buf6 true) (seq_ops (seqZ 1 12 ++ seqZ 16 9))).
Definition queue_of (b : Bucket) : nackQueue := default newNACKQueue (nacker b).

Lemma ready_run ops :
  admissible_run (aw_new 5) ops -> init (bucket_of (run (NewBucket buf6 true) ops)) = true ->
  nacker (bucket_of (run (NewBucket buf6 true) ops)) <> None ->
  ready (bucket_of (run (NewBucket buf6 true) ops)) (queue_of (bucket_of (run (NewBucket buf6 true) ops))).
Proof.
  intros Ha Hi Hn. destruct (run_refines (NewBucket buf6 true) (aw_new 5) ops) as (b & Hrun & Hrf);
    [apply (refines_new buf6 true buf6_len)|done|].
  rewrite Hrun in *. cbn [bucket_of] in *. split; [apply Hrf|]. split; [done|].
  unfold queue_of. by destruct (nacker b).
Qed.

(** No number of the list follows itself. *)
Fixpoint moves (h : Z) (l : list Z) : bool :=
  match l with
  | [] => true
  | x :: l => (0 <=? x) && (x <? 65536) && negb (u16 (x - h) =? 0) && moves x l
  end%bool.

Lemma moves_admissible l : forall a h,
  (forall x, aw_head (aw_start a x) = if aw_init a then h else u16 (x - 1)) -> moves h l = true ->
  admissible_run a (seq_ops l).
Proof.
  induction l as [|x l IH]; intros a h Ha Hm; [done|]. cbn [moves] in Hm. bool_prop.
  cbn [seq_ops map admissible_run]. split.
  - split; [apply mk_pkt_rtp; cbn; lia|]. split; [cbn; lia|]. cbn [op_latest op_sn]. rewrite Ha.
    destruct (aw_init a); [done|]. wrap_lia.
  - by apply (IH _ x).
Qed.

Lemma ready_seq l :
  moves 0 l = true -> let b := bucket_of (run (NewBucket buf6 true) (seq_ops l)) in
  init b = true -> nacker b <> None -> ready b (queue_of b).
Proof. intros H b. apply ready_run. by apply (moves_admissible l _ 0). Qed.


Lemma tired_ready : ready tired (queue_of tired).
Proof. apply (ready_seq (seqZ 1 12 ++ seqZ 16 9)); by vm_compute. Qed.


Lemma giving_up_is_silent_witness :
  exists q' b', pairs (queue_of tired) = ([], true, q')
    /\ addPacket tired (mk_pkt 25) 25 true = Ok (b', Some (mk_pkt 25), None) /\ q_nacks q' = [].
Proof.
  assert (headSN tired = 24) as Hh by by vm_compute.
  assert (queue_of tired = NackQueue [Nack 13 3; Nack 14 3; Nack 15 3] 2 15 0 0) as Hq by by vm_compute.
  destruct (giving_up_is_silent tired (queue_of tired) (mk_pkt 25) tired_ready)
    as (q' & b' & H1 & _ & H2 & _ & H3); rewrite ?Hq.
  - cbn. lia.
  - apply (bool_decide_unpack _). by vm_compute.
  - apply (bool_decide_unpack _). by vm_compute.
  - apply (bool_decide_unpack _). by vm_compute.
  - rewrite Hh in H2. rewrite Hq in H1. exists q', b'. split; [exact H1|]. split; [exact H2|exact H3].
Defined.
