(* ===== verification/Helper.v ===== *)
(** * Payload parsing ([internal/buffer/helper.go])

    [VP8.Unmarshal] reads the VP8 payload descriptor in front of a frame, and
    [isH264Keyframe] looks for an IDR slice in an H.264 RTP payload.  Both
    run on bytes a remote peer chose; an index out of range is [Panic]. *)

From S2P Require Import Prelude GoNum GoSlice.
#[local] Open Scope Z_scope.

(** ** VP8 *)

Inductive helper_error := errShortPacket | errNilPacket.

Record VP8 := MkVP8 {
  TemporalSupported : bool;
  PictureID : Z;
  PicIDIdx : Z;
  MBit : bool;
  TL0PICIDX : Z;
  TlzIdx : Z;
  TID : Z;
  IsKeyFrame : bool }.
#[export] Instance settable_VP8 : Settable VP8 := fun p =>
  MkVP8 (TemporalSupported p) (PictureID p) (PicIDIdx p) (MBit p)
    (TL0PICIDX p) (TlzIdx p) (TID p) (IsKeyFrame p).

(** [VP8{}] *)
Definition vp8_zero : VP8 := MkVP8 false 0 0 false 0 0 0 false.

(** [payload[idx]&m > 0] *)
Definition has_bit (b m : Z) : bool := 0 <? Z.land b m.

(** The picture-ID block: the index reached and the record so far *)
Definition read_picture_id (payload : bytes) (idx : Z) (p : VP8) : go (Z * VP8) :=
  let idx := idx + 1 in
  let p := p <| PicIDIdx := idx |> in
  b ← go_index payload idx;
  let pid := Z.land b 127 in
  if has_bit b 128 then
    let idx := idx + 1 in
    let p := p <| MBit := true |> in
    b' ← go_index payload idx;
    mret (idx, p <| PictureID := of_be16 pid b' |>)
  else mret (idx, p <| PictureID := pid |>).

Definition read_tl0picidx (payload : bytes) (idx : Z) (p : VP8) : go (Z * VP8) :=
  let idx := idx + 1 in
  let p := p <| TlzIdx := idx |> in
  b ← go_index payload idx;
  mret (idx, p <| TL0PICIDX := b |>).

Definition read_tid (payload : bytes) (idx : Z) (p : VP8) : go (Z * VP8) :=
  let idx := idx + 1 in
  b ← go_index payload idx;
  mret (idx, p <| TID := Z.shiftr (Z.land b 192) 6 |>).

(** [Unmarshal]; [None] is a nil slice *)
Definition Unmarshal (p : VP8) (payload : option bytes)
  : go (VP8 * option helper_error) :=
  match payload with
  | None => mret (p, Some errNilPacket)
  | Some payload =>
      let payloadLen := len payload in
      if payloadLen <? 4 then mret (p, Some errShortPacket)
      else
        b0 ← go_index payload 0;
        let S := has_bit b0 16 in
        if has_bit b0 128 then
          b1 ← go_index payload 1;
          let p := p <| TemporalSupported := has_bit b1 32 |> in
          let K := has_bit b1 16 in
          let L := has_bit b1 64 in
          r1 ← (if has_bit b1 128 then read_picture_id payload 1 p else mret (1, p));
          r2 ← (if L then read_tl0picidx payload r1.1 r1.2 else mret r1);
          r3 ← (if (TemporalSupported r2.2 || K)%bool
                then read_tid payload r2.1 r2.2 else mret r2);
          let '(idx, p) := r3 in
          if payloadLen <=? idx then mret (p, Some errShortPacket)
          else
            b ← go_index payload (idx + 1);
            mret (p <| IsKeyFrame := ((Z.land b 1 =? 0) && S)%bool |>, None)
        else
          b ← go_index payload 1;
          mret (p <| IsKeyFrame := ((Z.land b 1 =? 0) && S)%bool |>, None)
  end.

(** ** H.264 *)

(** The offset of a NAL unit behind its size in an aggregation packet *)
Definition nalu_offset (nalu : Z) : Z :=
  if nalu =? 26 then 3 else if nalu =? 27 then 4 else 0.

(** The [for i < len(payload)] loop; [None] is fuel exhausted *)
Fixpoint agg_loop (fuel : nat) (payload : bytes) (nalu i : Z) : option (go bool) :=
  match fuel with
  | O => None
  | S fuel =>
      if negb (i <? len payload) then Some (Ok false)
      else if len payload <? i + 2 then Some (Ok false)
      else
        match go_index payload i, go_index payload (i + 1) with
        | Ok hi, Ok lo =>
            let length := Z.lor (u16 (Z.shiftl hi 8)) lo in
            let i := i + 2 in
            if len payload <? i + length then Some (Ok false)
            else
              let offset := nalu_offset nalu in
              if length <=? offset then Some (Ok false)
              else
                match go_index payload (i + offset) with
                | Ok b =>
                    if Z.land b 31 =? 5 then Some (Ok true)
                    else agg_loop fuel payload nalu (i + length)
                | Panic => Some Panic
                end
        | _, _ => Some Panic
        end
  end.

Definition isH264Keyframe (payload : bytes) : option (go bool) :=
  if len payload <? 1 then Some (Ok false)
  else
    match go_index payload 0 with
    | Panic => Some Panic
    | Ok b0 =>
        let nalu := Z.land b0 31 in
        if nalu =? 0 then Some (Ok false)
        else if nalu <=? 23 then Some (Ok (nalu =? 5))
        else if ((nalu =? 24) || (nalu =? 25) || (nalu =? 26) || (nalu =? 27))%bool then
          let i := if ((nalu =? 25) || (nalu =? 26) || (nalu =? 27))%bool then 3 else 1 in
          agg_loop (S (length payload)) payload nalu i
        else if ((nalu =? 28) || (nalu =? 29))%bool then
          if len payload <? 2 then Some (Ok false)
          else
            match go_index payload 1 with
            | Panic => Some Panic
            | Ok b1 => Some (Ok (if Z.land b1 128 =? 0 then false
                                 else Z.land b1 31 =? 5))
            end
        else Some (Ok false)
    end.

(** ** Specification: the VP8 payload descriptor (RFC 7741, 4.2) *)

Record vp8_ext := VP8Ext {
  x_pid : option (bool * Z);  (** M and the picture ID *)
  x_tl0 : option Z;
  x_T : bool;
  x_K : bool;
  x_tid : Z;
  x_rest : Z  (** Y and KEYIDX, six bits *) }.

Record vp8_desc := VP8Desc {
  d_N : bool;
  d_S : bool;
  d_pid : Z;
  d_ext : option vp8_ext }.

Definition bit (b : bool) (v : Z) : Z := if b then v else 0.

Definition ext_wf (x : vp8_ext) : Prop :=
  match x_pid x with
  | Some (true, v) => 0 <= v < 32768
  | Some (false, v) => 0 <= v < 128
  | None => True
  end
  /\ match x_tl0 x with Some v => is_u8 v | None => True end
  /\ 0 <= x_tid x < 4 /\ 0 <= x_rest x < 64.

Definition desc_wf (d : vp8_desc) : Prop :=
  0 <= d_pid d < 8 /\ match d_ext d with Some x => ext_wf x | None => True end.

Definition encode_pid (o : option (bool * Z)) : bytes :=
  match o with
  | Some (true, v) => [128 + v / 256; v mod 256]
  | Some (false, v) => [v]
  | None => []
  end.

Definition encode_ext (x : vp8_ext) : bytes :=
  [bit (bool_decide (x_pid x <> None)) 128 + bit (bool_decide (x_tl0 x <> None)) 64
   + bit (x_T x) 32 + bit (x_K x) 16]
  ++ encode_pid (x_pid x)
  ++ match x_tl0 x with Some v => [v] | None => [] end
  ++ (if (x_T x || x_K x)%bool then [x_tid x * 64 + x_rest x] else []).

Definition encode_desc (d : vp8_desc) : bytes :=
  [bit (bool_decide (d_ext d <> None)) 128 + bit (d_N d) 32 + bit (d_S d) 16 + d_pid d]
  ++ match d_ext d with Some x => encode_ext x | None => [] end.

(** What [Unmarshal] reports for a descriptor in front of a frame whose
    first byte is [b] *)
Definition decoded (d : vp8_desc) (b : Z) : VP8 :=
  let key := (Z.even b && d_S d)%bool in
  match d_ext d with
  | None => vp8_zero <| IsKeyFrame := key |>
  | Some x =>
      MkVP8 (x_T x)
        (match x_pid x with Some (_, v) => v | None => 0 end)
        (match x_pid x with Some _ => 2 | None => 0 end)
        (match x_pid x with Some (m, _) => m | None => false end)
        (default 0 (x_tl0 x))
        (match x_tl0 x with Some _ => 2 + len (encode_pid (x_pid x)) | None => 0 end)
        (if (x_T x || x_K x)%bool then x_tid x else 0)
        key
  end.

(** Length of the descriptor at the front of [payload], read from its flag
    bytes *)
Definition desc_len (payload : bytes) : Z :=
  match payload with
  | b0 :: b1 :: b2 :: _ =>
      if has_bit b0 128 then
        2 + (if has_bit b1 128 then (if has_bit b2 128 then 2 else 1) else 0)
        + (if has_bit b1 64 then 1 else 0)
        + (if (has_bit b1 32 || has_bit b1 16)%bool then 1 else 0)
      else 1
  | _ => 1
  end.

(** ** Specification: aggregation packets (RFC 6184, 5.7) *)

Definition nal_type (n : bytes) : Z := match n with b :: _ => Z.land b 31 | [] => 0 end.

Definition stap_a (nalus : list bytes) : bytes :=
  24 :: concat (map (fun n => be16 (len n) ++ n) nalus).

(** ** Lemmas *)

Lemma go_index_dec {A} (l : list A) i :
  0 <= i ->
  (i < len l /\ exists x, go_index l i = Ok x) \/ (len l <= i /\ go_index l i = Panic).
Proof.
  intros Hi. destruct (decide (i < len l)).
  - left. destruct (go_index_ok l i) as (x & Hx & _); eauto.
  - right. split; [lia|]. apply go_index_panic. lia.
Qed.

Lemma read_picture_id_dec payload idx p b :
  0 <= idx -> go_index payload (idx + 1) = Ok b ->
  let n := if has_bit b 128 then idx + 2 else idx + 1 in
  (n < len payload /\ exists p', read_picture_id payload idx p = Ok (n, p')
     /\ TemporalSupported p' = TemporalSupported p)
  \/ (len payload <= n /\ read_picture_id payload idx p = Panic).
Proof.
  intros Hi Hb. unfold read_picture_id. rewrite Hb. cbn [mbind go_bind].
  destruct (has_bit b 128).
  - replace (idx + 1 + 1) with (idx + 2) by lia.
    destruct (go_index_dec payload (idx + 2)) as [[? [x ->]]|[? ->]]; [lia| |];
      cbn; eauto 6.
  - left. destruct (go_index_dec payload (idx + 1)) as [[? _]|[_ ?]]; [lia| |congruence].
    cbn. eauto.
Qed.

Lemma read_tl0picidx_dec payload idx p :
  0 <= idx ->
  (idx + 1 < len payload /\ exists p', read_tl0picidx payload idx p = Ok (idx + 1, p')
     /\ TemporalSupported p' = TemporalSupported p)
  \/ (len payload <= idx + 1 /\ read_tl0picidx payload idx p = Panic).
Proof.
  intros Hi. unfold read_tl0picidx.
  destruct (go_index_dec payload (idx + 1)) as [[? [x ->]]|[? ->]]; [lia| |]; cbn; eauto 6.
Qed.

Lemma read_tid_dec payload idx p :
  0 <= idx ->
  (idx + 1 < len payload /\ exists p', read_tid payload idx p = Ok (idx + 1, p'))
  \/ (len payload <= idx + 1 /\ read_tid payload idx p = Panic).
Proof.
  intros Hi. unfold read_tid.
  destruct (go_index_dec payload (idx + 1)) as [[? [x ->]]|[? ->]]; [lia| |]; cbn; eauto 6.
Qed.

(** The last two steps of the extended descriptor: the (unreachable) short
    test and the read of the first frame byte *)
Lemma read_key_dec payload idx p S :
  idx < len payload -> 0 <= idx ->
  let r := (if len payload <=? idx then mret (p, Some errShortPacket)
            else b ← go_index payload (idx + 1);
                 mret (p <| IsKeyFrame := ((Z.land b 1 =? 0) && S)%bool |>, None)) : go (VP8 * option helper_error) in
  (idx + 1 < len payload /\ exists p', r = Ok (p', None))
  \/ (len payload <= idx + 1 /\ r = Panic).
Proof.
  intros Hi H0. test_false.
  destruct (go_index_dec payload (idx + 1)) as [[? [x ->]]|[? ->]]; [lia| |]; cbn; eauto.
Qed.

(** *** Properties of [VP8.Unmarshal] *)

(** When [Unmarshal] panics: of a payload of four bytes or more it reports
    every one longer than its descriptor, without an error, and crashes on
    every other; the length test behind the descriptor never fires. *)
Theorem vp8_unmarshal_panics p payload :
  4 <= len payload ->
  match Unmarshal p (Some payload) with
  | Ok (_, err) => desc_len payload < len payload /\ err = None
  | Panic => len payload <= desc_len payload
  end.
Proof.
  intros Hl. destruct payload as [|b0 [|b1 [|b2 [|b3 rest]]]]; 
    try (unfold len in Hl; cbn [length] in Hl; lia).
  unfold Unmarshal, desc_len. set (pl := b0 :: b1 :: b2 :: b3 :: rest) in *. test_false.
  change (go_index pl 0) with (Ok b0). change (go_index pl 1) with (Ok b1).
  assert (go_index pl (1 + 1) = Ok b2) as H2 by done.
  cbn [mbind go_bind]. destruct (has_bit b0 128); [|cbn; split; [lia|done]].
  set (p1 := p <| TemporalSupported := has_bit b1 32 |>).
  set (n1 := if has_bit b1 128 then if has_bit b2 128 then 3 else 2 else 1).
  assert ((n1 < len pl /\ exists p', (if has_bit b1 128 then read_picture_id pl 1 p1
              else mret (1, p1)) = Ok (n1, p')
              /\ TemporalSupported p' = has_bit b1 32)
          \/ (len pl <= n1 /\ (if has_bit b1 128 then read_picture_id pl 1 p1
              else mret (1, p1)) = Panic)) as Hr1.
  { unfold n1. destruct (has_bit b1 128); [|left; split; [lia|by eexists]].
    apply (read_picture_id_dec pl 1 p1 b2); (done || lia). }
  assert (1 <= n1) as Hn1 by (unfold n1; repeat case_test; lia).
  assert (2 + (if has_bit b1 128 then if has_bit b2 128 then 2 else 1 else 0) = n1 + 1)
    as -> by (unfold n1; repeat case_test; lia).
  clearbody n1. destruct Hr1 as [(Hlt1 & p2 & -> & HT)|(Hge1 & ->)]; cbn [mbind go_bind fst snd];
    [|repeat case_test; lia].
  set (n2 := n1 + (if has_bit b1 64 then 1 else 0)).
  assert ((n2 < len pl /\ exists p', (if has_bit b1 64 then read_tl0picidx pl n1 p2
              else mret (n1, p2)) = Ok (n2, p')
              /\ TemporalSupported p' = has_bit b1 32)
          \/ (len pl <= n2 /\ (if has_bit b1 64 then read_tl0picidx pl n1 p2
              else mret (n1, p2)) = Panic)) as Hr2.
  { unfold n2. destruct (has_bit b1 64);
      [|left; rewrite Z.add_0_r; split; [lia|by eexists]].
    rewrite <-HT. apply read_tl0picidx_dec. lia. }
  replace (n1 + 1 + _) with (n2 + 1) by (unfold n2; lia).
  assert (1 <= n2) as Hn2 by (unfold n2; case_test; lia). clearbody n2.
  destruct Hr2 as [(Hlt2 & p3 & -> & HT3)|(Hge2 & ->)]; cbn [mbind go_bind fst snd];
    [|repeat case_test; lia].
  rewrite HT3. destruct (has_bit b1 32 || has_bit b1 16)%bool.
  - destruct (read_tid_dec pl n2 p3) as [(Hlt3 & p4 & ->)|(Hge3 & ->)]; [lia| |];
      cbn [mbind go_bind]; [|lia].
    destruct (read_key_dec pl (n2 + 1) p4 (has_bit b0 16)) as [(? & p5 & ->)|(? & ->)];
      (split; [lia|done]) || lia.
  - cbn [mbind go_bind mret go_ret].
    destruct (read_key_dec pl n2 p3 (has_bit b0 16)) as [(? & p5 & ->)|(? & ->)];
      (split; [lia|done]) || lia.
Qed.

(** The flags of the first descriptor byte *)
Lemma first_byte_flags d :
  desc_wf d ->
  let b0 := bit (bool_decide (d_ext d <> None)) 128 + bit (d_N d) 32
            + bit (d_S d) 16 + d_pid d in
  has_bit b0 128 = bool_decide (d_ext d <> None) /\ has_bit b0 16 = d_S d.
Proof.
  intros [Hp _]. cbv zeta.
  assert (forall x n s pid, 0 <= pid < 8 ->
    has_bit (bit x 128 + bit n 32 + bit s 16 + pid) 128 = x
    /\ has_bit (bit x 128 + bit n 32 + bit s 16 + pid) 16 = s) as H; [|by apply H].
  intros x n s pid Hpid.
  assert (pid = 0 \/ pid = 1 \/ pid = 2 \/ pid = 3 \/ pid = 4 \/ pid = 5 \/ pid = 6
          \/ pid = 7) as Hc by lia.
  destruct x, n, s; repeat destruct Hc as [->|Hc]; subst; done.
Qed.

Lemma key_bit b : is_u8 b -> (Z.land b 1 =? 0) = Z.even b.
Proof. intros Hb. byte_cases b Hb. Qed.

Lemma tid_bits b : is_u8 b -> Z.shiftr (Z.land b 192) 6 = b / 64.
Proof. intros Hb. byte_cases b Hb. Qed.

Lemma pid_low_bits b : is_u8 b -> Z.land b 127 = b mod 128.
Proof. intros Hb. byte_cases b Hb. Qed.

Lemma has_bit_128 b : is_u8 b -> has_bit b 128 = (128 <=? b).
Proof. intros Hb. byte_cases b Hb. Qed.

Lemma read_pid_encoded m v pre rest p :
  (if m : bool then 0 <= v < 32768 else 0 <= v < 128) ->
  read_picture_id (pre ++ encode_pid (Some (m, v)) ++ rest) (len pre - 1) p
  = Ok (len pre - 1 + len (encode_pid (Some (m, v))),
        MkVP8 (TemporalSupported p) v (len pre) (m || MBit p) (TL0PICIDX p)
          (TlzIdx p) (TID p) (IsKeyFrame p)).
Proof.
  intros Hv. unfold read_picture_id.
  replace (len pre - 1 + 1) with (len pre) by lia.
  assert (forall (b : Z) l, go_index (pre ++ b :: l) (len pre) = Ok b) as Hi0.
  { intros b l. apply go_index_Some; [apply len_nonneg|].
    unfold len. rewrite Nat2Z.id, lookup_app_r, Nat.sub_diag; done. }
  assert (forall (b b' : Z) l, go_index (pre ++ b :: b' :: l) (len pre + 1) = Ok b') as Hi1.
  { intros b b' l. apply go_index_Some; [pose proof (len_nonneg pre); lia|].
    unfold len. replace (Z.to_nat _) with (length pre + 1)%nat by lia.
    rewrite lookup_app_r by lia. by replace (length pre + 1 - length pre)%nat with 1%nat by lia. }
  destruct m; cbv beta iota in Hv; cbn [encode_pid app].
  - rewrite Hi0. cbn [mbind go_bind].
    assert (0 <= v / 256 < 128) as Hq by zlia.
    assert (is_u8 (128 + v / 256)) as Hb by lia.
    rewrite has_bit_128, pid_low_bits by done. test_true. rewrite Hi1.
    cbn [mbind go_bind mret go_ret]. rewrite of_be16_add by zlia.
    destruct p. cbn -[Z.add Z.sub]. do 2 f_equal; [rewrite ?len_cons, ?len_nil; lia|].
    f_equal. zlia.
  - rewrite Hi0. cbn [mbind go_bind].
    rewrite has_bit_128, pid_low_bits by lia. test_false.
    destruct p. cbn -[Z.add Z.sub]. do 2 f_equal; [rewrite ?len_cons, ?len_nil; lia|].
    f_equal. zlia.
Qed.

(** Everything after the picture ID, which sits behind [pre] *)
Lemma go_index_app {A} (pre : list A) x l :
  go_index (pre ++ x :: l) (len pre) = Ok x.
Proof.
  apply go_index_Some; [apply len_nonneg|].
  unfold len. by rewrite Nat2Z.id, lookup_app_r, Nat.sub_diag.
Qed.

(** The flags of the second descriptor byte *)
Lemma second_byte_flags i l t k :
  let b1 := bit i 128 + bit l 64 + bit t 32 + bit k 16 in
  has_bit b1 128 = i /\ has_bit b1 64 = l /\ has_bit b1 32 = t /\ has_bit b1 16 = k.
Proof. by destruct i, l, t, k. Qed.

(** Each optional block of the extension, read behind the bytes [pre] *)
Lemma pid_block pl pre o rest idx p :
  pl = pre ++ encode_pid o ++ rest -> idx = len pre - 1 ->
  match o with Some (true, v) => 0 <= v < 32768 | Some (false, v) => 0 <= v < 128
             | None => True end ->
  (if bool_decide (o <> None) then read_picture_id pl idx p else mret (idx, p)) =
  Ok (idx + len (encode_pid o),
      match o with
      | Some (m, v) =>
          MkVP8 (TemporalSupported p) v (len pre) (m || MBit p) (TL0PICIDX p)
            (TlzIdx p) (TID p) (IsKeyFrame p)
      | None => p
      end).
Proof.
  intros -> -> Hv. destruct o as [[m v]|].
  - rewrite bool_decide_eq_true_2 by done. apply read_pid_encoded. by destruct m.
  - rewrite bool_decide_eq_false_2 by naive_solver. by rewrite Z.add_0_r.
Qed.

Definition encode_tl0 (o : option Z) : bytes :=
  match o with Some v => [v] | None => [] end.

Lemma tl0_block pl pre o rest idx p :
  pl = pre ++ encode_tl0 o ++ rest -> idx = len pre - 1 ->
  (if bool_decide (o <> None) then read_tl0picidx pl idx p else mret (idx, p)) =
  Ok (idx + len (encode_tl0 o),
      match o with
      | Some v => p <| TlzIdx := len pre |> <| TL0PICIDX := v |>
      | None => p
      end).
Proof.
  intros -> ->. destruct o as [v|].
  - rewrite bool_decide_eq_true_2 by done. unfold read_tl0picidx.
    replace (len pre - 1 + 1) with (len pre) by lia. cbn [encode_tl0 app].
    rewrite go_index_app. cbn [mbind go_bind mret go_ret]. do 2 f_equal.
    rewrite len_cons, len_nil. lia.
  - rewrite bool_decide_eq_false_2 by naive_solver. by rewrite Z.add_0_r.
Qed.

Definition encode_tid (tk : bool) (t r : Z) : bytes := if tk then [t * 64 + r] else [].

Lemma tid_block pl pre (tk : bool) t r rest idx p :
  pl = pre ++ encode_tid tk t r ++ rest -> idx = len pre - 1 ->
  0 <= t < 4 -> 0 <= r < 64 ->
  (if tk then read_tid pl idx p else mret (idx, p)) =
  Ok (idx + len (encode_tid tk t r), if tk then p <| TID := t |> else p).
Proof.
  intros -> -> Ht Hr. destruct tk; [|by cbn; rewrite Z.add_0_r].
  unfold read_tid. replace (len pre - 1 + 1) with (len pre) by lia.
  cbn [encode_tid app]. rewrite go_index_app. cbn [mbind go_bind mret go_ret].
  rewrite tid_bits by lia. replace ((t * 64 + r) / 64) with t by zlia.
  do 2 f_equal. rewrite len_cons, len_nil. lia.
Qed.

Lemma key_block pl pre b rest idx p S :
  pl = pre ++ b :: rest -> idx = len pre - 1 -> is_u8 b ->
  (if len pl <=? idx then mret (p, Some errShortPacket)
   else b ← go_index pl (idx + 1);
        mret (p <| IsKeyFrame := ((Z.land b 1 =? 0) && S)%bool |>, None))
  = Ok (p <| IsKeyFrame := (Z.even b && S)%bool |>, None : option helper_error).
Proof.
  intros -> -> Hb. rewrite len_app, len_cons. pose proof (len_nonneg rest).
  test_false. replace (len pre - 1 + 1) with (len pre) by lia.
  rewrite go_index_app. cbn [mbind go_bind mret go_ret]. by rewrite key_bit.
Qed.

(** C24. Reading back a descriptor: [Unmarshal] recovers every field the RFC
    puts in front of a frame, and the key-frame bit from the frame. *)
Theorem vp8_unmarshal_roundtrip d b rest :
  desc_wf d -> is_u8 b -> 4 <= len (encode_desc d ++ b :: rest) ->
  Unmarshal vp8_zero (Some (encode_desc d ++ b :: rest)) = Ok (decoded d b, None).
Proof.
  intros Hd Hb Hl. destruct (first_byte_flags d Hd) as [Hx HS].
  unfold Unmarshal. test_false. clear Hl. unfold encode_desc. set (b0 := _ + d_pid d) in *.
  assert (forall l r, go_index (([b0] ++ l) ++ r) 0 = Ok b0) as -> by done.
  cbn [mbind go_bind]. rewrite Hx, HS. clearbody b0. unfold decoded.
  destruct d as [N S pid [x|]]; cbn [d_ext d_S] in *.
  - rewrite bool_decide_eq_true_2 by done. destruct Hd as [_ (Hp & _ & Ht & Hr)].
    cbn [d_ext] in *. destruct x as [xp xt T K t r].
    unfold encode_ext. cbn [x_pid x_tl0 x_T x_K x_tid x_rest] in *.
    destruct (second_byte_flags (bool_decide (xp <> None)) (bool_decide (xt <> None)) T K)
      as (F1 & F2 & F3 & F4).
    set (b1 := _ + bit K 16) in *. clearbody b1.
    set (pl := ([b0] ++ _) ++ _).
    change (go_index pl 1) with (Ok b1). cbn [mbind go_bind]. rewrite F1, F2, F3, F4.
    erewrite (pid_block pl [b0; b1]) by (done || (unfold pl; rewrite <-!app_assoc; done)).
    cbn [mbind go_bind fst snd].
    erewrite (tl0_block pl ([b0; b1] ++ encode_pid xp));
      [|unfold pl; rewrite <-!app_assoc; reflexivity
       |rewrite !len_app, !len_cons, len_nil; lia].
    cbn [mbind go_bind fst snd].
    match goal with |- context [TemporalSupported ?p || K] =>
      assert (TemporalSupported p = T) as -> by (by destruct xp as [[] |], xt) end.
    erewrite (tid_block pl ([b0; b1] ++ encode_pid xp ++ encode_tl0 xt) (T || K) t r);
      [|unfold pl; rewrite <-!app_assoc; reflexivity
       |rewrite !len_app, !len_cons, len_nil; lia|done..].
    cbn [mbind go_bind].
    erewrite (key_block pl ([b0; b1] ++ encode_pid xp ++ encode_tl0 xt ++ encode_tid (T || K) t r));
      [|unfold pl; rewrite <-!app_assoc; reflexivity
       |rewrite !len_app, !len_cons, len_nil; lia|done].
    rewrite len_app. destruct xp as [[[] v]|], xt as [w|], T, K; reflexivity.
  - rewrite bool_decide_eq_false_2 by naive_solver.
    change (go_index (([b0] ++ []) ++ b :: rest) 1) with (Ok b).
    cbn [mbind go_bind]. by rewrite key_bit.
Qed.

(** *** Properties of [isH264Keyframe] *)

Lemma nalu_offset_range nalu : 0 <= nalu_offset nalu <= 4.
Proof. unfold nalu_offset. repeat case_test; lia. Qed.

Lemma agg_loop_returns fuel payload nalu i :
  Forall byte_ok payload -> 0 <= i -> (Z.to_nat (len payload - i) < fuel)%nat ->
  exists b, agg_loop fuel payload nalu i = Some (Ok b).
Proof.
  intros Hb. revert i. induction fuel as [|fuel IH]; intros i Hi Hf; [lia|].
  cbn [agg_loop]. case_test; [by eauto|]. case_test; [by eauto|].
  destruct (go_index_ok payload i) as (hi & -> & Hhi); [lia|].
  destruct (go_index_ok payload (i + 1)) as (lo & -> & Hlo); [lia|].
  assert (0 <= Z.lor (u16 (Z.shiftl hi 8)) lo) as Hln.
  { apply Z.lor_nonneg. split; [apply u16_range|].
    exact (proj1 (Forall_lookup_1 _ _ _ _ Hb Hlo)). }
  set (n := Z.lor _ _) in *. pose proof (nalu_offset_range nalu).
  case_test; [by eauto|]. case_test; [by eauto|].
  destruct (go_index_ok payload (i + 2 + nalu_offset nalu)) as (b & -> & _); [lia|].
  case_test; [by eauto|]. apply IH; lia.
Qed.

(** C37. [isH264Keyframe] returns on every payload: the loop over an aggregation
    packet ends and no index is out of range. *)
Theorem h264_returns payload :
  Forall byte_ok payload -> exists b, isH264Keyframe payload = Some (Ok b).
Proof.
  intros Hb. unfold isH264Keyframe. case_test; [by eauto|].
  destruct (go_index_ok payload 0) as (b0 & -> & _); [lia|].
  case_test; [by eauto|]. case_test; [by eauto|]. case_test.
  - apply agg_loop_returns; [done|case_test; lia|].
    unfold len. case_test; lia.
  - case_test; [|by eauto]. case_test; [by eauto|].
    destruct (go_index_ok payload 1) as (b1 & -> & _); [lia|]. eauto.
Qed.

Lemma be16_length v : is_u16 v ->
  exists hi lo, be16 v = [hi; lo] /\ Z.lor (u16 (Z.shiftl hi 8)) lo = v.
Proof.
  intros Hv. exists (Z.shiftr v 8), (u8 v). split; [done|].
  rewrite Z.shiftr_div_pow2, Z.shiftl_mul_pow2 by lia. change (2 ^ 8) with 256.
  rewrite u16_small by zlia. rewrite (lor_add_low _ _ 8);
    [wrap_lia|lia|by apply Z.mod_mul|apply u8_range].
Qed.

Lemma agg_loop_units nalus : forall fuel pre,
  Forall (fun n => n <> [] /\ len n < 65536) nalus ->
  let body := concat (map (fun n => be16 (len n) ++ n) nalus) in
  (length body < fuel)%nat ->
  agg_loop fuel (pre ++ body) 24 (len pre)
  = Some (Ok (existsb (fun n => nal_type n =? 5) nalus)).
Proof.
  induction nalus as [|n nalus IH]; intros fuel pre Hn body Hf;
    (destruct fuel as [|fuel]; [lia|]); cbn [agg_loop].
  - subst body. cbn [map concat]. rewrite app_nil_r, Z.ltb_irrefl. done.
  - apply Forall_cons in Hn as [[Hne Hlt] Hn]. subst body. cbn [map concat] in *.
    destruct (be16_length (len n)) as (hi & lo & Hbe & Hln); [pose proof (len_nonneg n); lia|].
    rewrite Hbe in *. destruct n as [|b n]; [done|].
    rewrite <-!app_assoc in *. cbn [app] in *.
    set (rest := concat _) in *.
    assert (len (pre ++ hi :: lo :: b :: n ++ rest)
            = len pre + 2 + len (b :: n) + len rest) as Hlen
      by (autorewrite with go_len; lia).
    pose proof (len_nonneg rest). pose proof (len_nonneg n).
    pose proof (len_cons b n). rewrite Hlen. test_false. cbn [negb]. test_false.
    rewrite go_index_app.
    replace (pre ++ hi :: lo :: b :: n ++ rest)
      with ((pre ++ [hi]) ++ lo :: b :: n ++ rest) by (by rewrite <-app_assoc).
    replace (len pre + 1) with (len (pre ++ [hi])) by (autorewrite with go_len; lia).
    rewrite go_index_app, Hln. test_false.
    change (nalu_offset 24) with 0. test_false. rewrite Z.add_0_r.
    replace ((pre ++ [hi]) ++ lo :: b :: n ++ rest)
      with ((pre ++ [hi; lo]) ++ b :: n ++ rest) by (by rewrite <-!app_assoc).
    replace (len pre + 2) with (len (pre ++ [hi; lo])) by (autorewrite with go_len; lia).
    rewrite go_index_app. cbn [existsb nal_type].
    destruct (Z.land b 31 =? 5); [done|]. cbn [orb].
    rewrite <-IH with (fuel := fuel) (pre := pre ++ [hi; lo] ++ b :: n); [|done|].
    + rewrite <-!app_assoc. cbn [app]. do 2 f_equal.
      autorewrite with go_len. lia.
    + cbn [length] in Hf. rewrite length_app in Hf. fold rest. lia.
Qed.

(** An aggregation packet (STAP-A) is a key frame exactly when one of its
    units is an IDR slice. *)
Theorem h264_stap_a nalus :
  Forall (fun n => n <> [] /\ len n < 65536) nalus ->
  isH264Keyframe (stap_a nalus)
  = Some (Ok (existsb (fun n => nal_type n =? 5) nalus)).
Proof.
  intros Hn. unfold isH264Keyframe, stap_a.
  set (body := concat _). rewrite len_cons. pose proof (len_nonneg body). test_false.
  change (go_index (24 :: body) 0) with (Ok 24).
  change (24 :: body) with ([24] ++ body).
  apply (agg_loop_units nalus _ [24]); [done|]. fold body. cbn [length app]. lia.
Qed.

(** ** Witnesses *)

Definition desc1 : vp8_desc :=
  VP8Desc false true 0 (Some (VP8Ext (Some (true, 4711)) (Some 9) true false 2 33)).

Lemma vp8_unmarshal_panics_witness :
  len (encode_desc desc1) <= desc_len (encode_desc desc1).
Proof.
  assert (4 <= len (encode_desc desc1)) as Hl by by vm_compute.
  pose proof (vp8_unmarshal_panics vp8_zero (encode_desc desc1) Hl) as H.
  vm_compute in H |- *. exact H.
Defined.

Lemma vp8_unmarshal_roundtrip_witness :
  Unmarshal vp8_zero (Some (encode_desc desc1 ++ [16; 1; 2]))
  = Ok (MkVP8 true 4711 2 true 9 4 2 true, None).
Proof.
  apply (vp8_unmarshal_roundtrip desc1 16 [1; 2]).
  - split; [cbn; lia|]. repeat split; cbn; lia.
  - lia.
  - by vm_compute.
Defined.

Lemma h264_returns_witness : exists b, isH264Keyframe [26; 0; 200; 1] = Some (Ok b).
Proof. apply h264_returns. repeat constructor; cbn; lia. Defined.

Lemma h264_stap_a_witness :
  isH264Keyframe (stap_a [[7; 1]; [104]; [101; 0]]) = Some (Ok true).
Proof. apply (h264_stap_a [[7; 1]; [104]; [101; 0]]). repeat constructor; cbn; done. Defined.
