(* ===== verification/Twcc.v ===== *)
(** * Transport-wide congestion feedback ([internal/buffer/twcc.go])

    [Responder] collects the transport-wide sequence numbers and arrival
    times of the packets of a publisher ([Push]) and packs them into RTCP
    transport-cc feedback ([buildTransportCCPacket]): a header, status chunks
    (run lengths or symbol vectors) and receive deltas, in two fixed arrays
    of 100 and 200 bytes. *)

From S2P Require Import Prelude GoNum GoSlice.
#[local] Open Scope Z_scope.

(** ** Data *)

Definition tccReportDelta : Z := 100000000.
Definition tccReportDeltaAfterMark : Z := 500000000.

(** Status symbols, symbol sizes and packet types of the feedback format
    (draft-holmer-rmcat-transport-wide-cc-extensions-01), which the code
    takes from the rtcp package *)
Definition NotReceived : Z := 0.
Definition ReceivedSmallDelta : Z := 1.
Definition ReceivedLargeDelta : Z := 2.
Definition ReceivedWithoutDelta : Z := 3.
Definition SymbolSizeOneBit : Z := 0.
Definition SymbolSizeTwoBit : Z := 1.
Definition FormatTCC : Z := 15.
Definition TypeTransportSpecificFeedback : Z := 205.

Record rtpExtInfo := ExtInfo { ExtTSN : Z; Timestamp : Z }.

Record Responder := MkResponder {
  extInfo : list rtpExtInfo;
  lastReport : Z;
  cycles : Z;
  lastExtSN : Z;
  lastSn : Z;
  pktCtn : Z;
  sSSRC : Z;
  mSSRC : Z;
  t_len : Z;
  deltaLen : Z;
  payload : bytes;
  deltas : bytes;
  chunk : Z }.
#[export] Instance settable_Responder : Settable Responder := fun t =>
  MkResponder (extInfo t) (lastReport t) (cycles t) (lastExtSN t) (lastSn t)
    (pktCtn t) (sSSRC t) (mSSRC t) (t_len t) (deltaLen t) (payload t) (deltas t)
    (chunk t).

(** [rand.Uint32()] and [time.Now()] are arguments. *)
Definition NewTransportWideCCResponder (ssrc rand now : Z) : Responder :=
  MkResponder [] (i64 (now + 100000000)) 0 0 0 0 rand ssrc 0 0
    (replicate 100 0) (replicate 200 0) 0.

(** ** Writers *)

Definition setNBitsOfUint16 (src size startIndex val : Z) : Z :=
  if 16 <? u16 (startIndex + size) then 0
  else
    let val := Z.land val (u16 (u16 (Z.shiftl 1 size) - 1)) in
    Z.lor src (u16 (Z.shiftl val (u16 (16 - size - startIndex)))).

Definition writeHeader (t : Responder) (nSN packetCount refTime : Z) : go Responder :=
  p ← put_u32 (payload t) 0 (sSSRC t);
  p ← put_u32 p 4 (mSSRC t);
  p ← put_u16 p 8 nSN;
  p ← put_u16 p 10 packetCount;
  p ← put_u32 p 12 (Z.lor (u32 (Z.shiftl refTime 8)) (pktCtn t));
  mret (t <| payload := p |> <| t_len := 16 |>).

Definition writeRunLengthChunk (t : Responder) (symbol runLength : Z) : go Responder :=
  p ← put_u16 (payload t) (t_len t) (Z.lor (u16 (Z.shiftl symbol 13)) runLength);
  mret (t <| payload := p |> <| t_len := u16 (t_len t + 2) |>).

Definition createStatusSymbolChunk (t : Responder) (symbolSize symbol i : Z) : Responder :=
  let numOfBits := u16 (symbolSize + 1) in
  t <| chunk := setNBitsOfUint16 (chunk t) numOfBits
                  (u16 (u16 (numOfBits * u16 i) + 2)) symbol |>.

Definition writeStatusSymbolChunk (t : Responder) (symbolSize : Z) : go Responder :=
  let c := setNBitsOfUint16 (chunk t) 1 0 1 in
  let c := setNBitsOfUint16 c 1 1 symbolSize in
  p ← put_u16 (payload t) (t_len t) c;
  mret (t <| payload := p |> <| chunk := 0 |> <| t_len := u16 (t_len t + 2) |>).

Definition writeDelta (t : Responder) (deltaType delta : Z) : go Responder :=
  if deltaType =? ReceivedSmallDelta then
    if deltaLen t <? len (deltas t)
    then mret (t <| deltas := <[Z.to_nat (deltaLen t) := u8 delta]> (deltas t) |>
                 <| deltaLen := u16 (deltaLen t + 1) |>)
    else Panic
  else
    d ← put_u16 (deltas t) (deltaLen t) delta;
    mret (t <| deltas := d |> <| deltaLen := u16 (deltaLen t + 2) |>).

(** ** The packet list *)

(** [for j := from; j < to; j++] *)
Fixpoint gap_pkts (n : nat) (j : Z) : list rtpExtInfo :=
  match n with
  | O => []
  | S n => ExtInfo j 0 :: gap_pkts n (u32 (j + 1))
  end.

(** The loop that drops stale numbers and fills the gaps; also the new
    [lastExtSN] *)
Fixpoint fill_pkts (last : Z) (infos : list rtpExtInfo) : list rtpExtInfo * Z :=
  match infos with
  | [] => ([], last)
  | i :: infos =>
      if ExtTSN i <? last then fill_pkts last infos
      else
        let gap := if negb (last =? 0)
                   then let from := u32 (last + 1) in
                        gap_pkts (Z.to_nat (ExtTSN i - from)) from
                   else [] in
        let '(rest, last') := fill_pkts (ExtTSN i) infos in
        (gap ++ i :: rest, last')
  end.

(** ** The encoding loop *)

(** The variables of the loop over [tccPkts] *)
Record tcc_state := TccState {
  ts : Responder;
  firstRecv : bool;
  timestamp : Z;
  same : bool;
  lastStatus : Z;
  maxStatus : Z;
  statusList : list Z }.
#[export] Instance settable_tcc_state : Settable tcc_state := fun s =>
  TccState (ts s) (firstRecv s) (timestamp s) (same s) (lastStatus s) (maxStatus s)
    (statusList s).

(** Clamp of a delta that does not fit 16 bits, as the code does it *)
Definition clamp_delta (delta : Z) : Z :=
  let rDelta := i16 delta in
  if negb (rDelta =? delta) then (if 0 <? rDelta then 32767 else -32768) else rDelta.

(** The header, at the first received packet *)
Definition tcc_open (pkts : list rtpExtInfo) (s : tcc_state) (stat : rtpExtInfo)
  : go tcc_state :=
  if firstRecv s then mret s
  else
    let refTime := go_div (Timestamp stat) 64000 in
    let first := match pkts with p :: _ => ExtTSN p | [] => 0 end in
    t ← writeHeader (ts s) (u16 first) (u16 (len pkts)) (u32 refTime);
    mret (s <| firstRecv := true |> <| timestamp := i64 (refTime * 64000) |>
            <| ts := t <| pktCtn := u8 (pktCtn t + 1) |> |>).

(** The receive delta of one packet: its status, and the state with the
    delta written *)
Definition tcc_delta (pkts : list rtpExtInfo) (s : tcc_state) (stat : rtpExtInfo)
  : go (Z * tcc_state) :=
  if Timestamp stat =? 0 then mret (NotReceived, s)
  else
    s ← tcc_open pkts s stat;
    let delta := go_div (i64 (Timestamp stat - timestamp s)) 250 in
    let status := if ((delta <? 0) || (255 <? delta))%bool
                  then ReceivedLargeDelta else ReceivedSmallDelta in
    let enc := if ((delta <? 0) || (255 <? delta))%bool
               then u16 (clamp_delta delta) else u16 delta in
    t ← writeDelta (ts s) status enc;
    mret (status, s <| ts := t |> <| timestamp := Timestamp stat |>).

(** [n] times [createStatusSymbolChunk(size, statusList.PopFront(), i)] *)
Fixpoint pop_symbols (n : nat) (size i : Z) (t : Responder) (l : list Z)
  : Responder * list Z :=
  match n, l with
  | S n, status :: l => pop_symbols n size (i + 1) (createStatusSymbolChunk t size status i) l
  | _, _ => (t, l)
  end.

(** Re-examination of what is left in the list after a two-bit chunk *)
Definition rescan (l : list Z) : bool * Z * Z :=
  foldl (fun '(same, last, mx) status =>
           (if (same && negb (last =? ReceivedWithoutDelta) && negb (status =? last))%bool
            then false else same,
            status, if mx <? status then status else mx))
        (true, ReceivedWithoutDelta, NotReceived) l.

(** A status that differs from a uniform list: a long run is written, a short
    one is not uniform any more. *)
Definition run_end (s : tcc_state) (status : Z) : go tcc_state :=
  if (same s && negb (status =? lastStatus s)
      && negb (lastStatus s =? ReceivedWithoutDelta))%bool then
    if 7 <? len (statusList s) then
      t ← writeRunLengthChunk (ts s) (lastStatus s) (u16 (len (statusList s)));
      mret (s <| ts := t |> <| statusList := [] |>
              <| lastStatus := ReceivedWithoutDelta |>
              <| maxStatus := NotReceived |> <| same := true |>)
    else mret (s <| same := false |>)
  else mret s.

Definition push_status (s : tcc_state) (status : Z) : tcc_state :=
  s <| statusList := statusList s ++ [status] |>
    <| maxStatus := if maxStatus s <? status then status else maxStatus s |>
    <| lastStatus := status |>.

(** A list that is not uniform is written as soon as it fills a vector. *)
Definition emit_vector (s : tcc_state) : go tcc_state :=
  if (negb (same s) && (maxStatus s =? ReceivedLargeDelta)
      && (6 <? len (statusList s)))%bool then
    let '(t, l) := pop_symbols 7 SymbolSizeTwoBit 0 (ts s) (statusList s) in
    t ← writeStatusSymbolChunk t SymbolSizeTwoBit;
    let '(sm, last, mx) := rescan l in
    mret (s <| ts := t |> <| statusList := l |> <| same := sm |>
            <| lastStatus := last |> <| maxStatus := mx |>)
  else if (negb (same s) && (13 <? len (statusList s)))%bool then
    let '(t, l) := pop_symbols 14 SymbolSizeOneBit 0 (ts s) (statusList s) in
    t ← writeStatusSymbolChunk t SymbolSizeOneBit;
    mret (s <| ts := t |> <| statusList := l |> <| same := true |>
            <| lastStatus := ReceivedWithoutDelta |> <| maxStatus := NotReceived |>)
  else mret s.

Definition tcc_chunk (s : tcc_state) (status : Z) : go tcc_state :=
  s ← run_end s status;
  emit_vector (push_status s status).

Definition tcc_step (pkts : list rtpExtInfo) (s : tcc_state) (stat : rtpExtInfo)
  : go tcc_state :=
  r ← tcc_delta pkts s stat;
  tcc_chunk r.2 r.1.

Fixpoint tcc_loop (pkts : list rtpExtInfo) (s : tcc_state) (l : list rtpExtInfo)
  : go tcc_state :=
  match l with
  | [] => mret s
  | stat :: l => s ← tcc_step pkts s stat; tcc_loop pkts s l
  end.

(** [for i := 0; i < statusList.Len(); i++ { ... PopFront() ... }]: the
    bound shrinks while [i] grows. *)
Fixpoint pop_shrinking (fuel : nat) (size i : Z) (t : Responder) (l : list Z) : Responder :=
  match fuel, l with
  | S fuel, status :: l' =>
      if i <? len l
      then pop_shrinking fuel size (i + 1) (createStatusSymbolChunk t size status i) l'
      else t
  | _, _ => t
  end.

(** The rest of the list, after the loop *)
Definition tcc_flush (s : tcc_state) : go Responder :=
  if 0 <? len (statusList s) then
    if same s then writeRunLengthChunk (ts s) (lastStatus s) (u16 (len (statusList s)))
    else
      let size := if maxStatus s =? ReceivedLargeDelta
                  then SymbolSizeTwoBit else SymbolSizeOneBit in
      writeStatusSymbolChunk
        (pop_shrinking (length (statusList s)) size 0 (ts s) (statusList s)) size
  else mret (ts s).

Definition tcc_start (t : Responder) : tcc_state :=
  TccState t false 0 true ReceivedWithoutDelta NotReceived [].

Section build.
(** [rtcp.Header.Marshal] with its arguments Padding, Count, Type, Length *)
Context (hdr_marshal : bool -> Z -> Z -> Z -> bytes).

(** Header, status chunks, deltas and padding in one packet *)
Definition tcc_packet (t : Responder) : go bytes :=
  let pLen0 := u16 (t_len t + deltaLen t + 4) in
  let pad := negb (go_rem pLen0 4 =? 0) in
  let padSize := if pad then 4 - go_rem pLen0 4 else 0 in
  let pLen := u16 (pLen0 + padSize) in
  let hb := hdr_marshal pad FormatTCC TypeTransportSpecificFeedback
              (u16 (go_div pLen 4 - 1)) in
  let pkt := replicate (Z.to_nat pLen) 0 in
  pkt ← go_copy pkt 0 hb;
  body ← go_slice (payload t) 0 (t_len t);
  pkt ← go_copy pkt 4 body;
  ds ← go_slice (deltas t) 0 (deltaLen t);
  pkt ← go_copy pkt (4 + t_len t) ds;
  if pad then
    if 0 <? len pkt then mret (<[length pkt - 1 := padSize]> pkt)%nat else Panic
  else mret pkt.

Definition buildTransportCCPacket (t : Responder) : go (Responder * option bytes) :=
  match extInfo t with
  | [] => mret (t, None)
  | _ =>
      let '(tccPkts, last) := fill_pkts (lastExtSN t) (sort_by ExtTSN (extInfo t)) in
      let t := t <| lastExtSN := last |> <| extInfo := [] |> in
      s ← tcc_loop tccPkts (tcc_start t) tccPkts;
      t ← tcc_flush s;
      pkt ← tcc_packet t;
      mret (t <| deltaLen := 0 |> <| t_len := 0 |>, Some pkt)
  end.

(** [Push]: the new responder and the [onFeedback] call *)
Definition Push (t : Responder) (sn timeNS : Z) (marker : bool)
  : go (Responder * option bytes) :=
  let t := if ((sn <? 4095) && (61440 <? Z.land (lastSn t) 65535))%bool
           then t <| cycles := u32 (cycles t + 65536) |> else t in
  let t := t <| extInfo := extInfo t ++ [ExtInfo (Z.lor (cycles t) sn) (go_div timeNS 1000)] |>
             <| lastSn := sn |> in
  let delta := i64 (timeNS - lastReport t) in
  if (((20 <? len (extInfo t)) && negb (mSSRC t =? 0) && (tccReportDelta <=? delta))
      || (100 <? len (extInfo t))
      || (marker && (tccReportDeltaAfterMark <=? delta)))%bool then
    r ← buildTransportCCPacket t;
    mret (r.1 <| lastReport := timeNS |>, r.2)
  else mret (t, None).
End build.

(** ** Specification: status chunks (section 3.1.3 and 3.1.4 of the draft) *)

(** The symbols a 16-bit chunk stands for *)
Definition decode_chunk (c : Z) : list Z :=
  if c <? 32768 then replicate (Z.to_nat (c mod 8192)) ((c / 8192) mod 4)
  else
    let body := c mod 16384 in
    if (c / 16384) mod 2 =? 0
    then map (fun i => (body / 2 ^ Z.of_nat (13 - i)) mod 2) (seq 0 14)
    else map (fun i => (body / 4 ^ Z.of_nat (6 - i)) mod 4) (seq 0 7).

Definition decode_chunks (cs : list Z) : list Z := concat (map decode_chunk cs).

(** The chunk words [cs] are what the responder has written so far. *)
Definition written (t : Responder) (cs : list Z) : Prop :=
  t_len t = 16 + 2 * len cs /\ len (payload t) = 100
  /\ sub (payload t) 16 (2 * length cs) = concat (map be16 cs).

Definition is_status (s : Z) : Prop := s = 0 \/ s = 1 \/ s = 2.

(** ** Lemmas: symbol vectors *)

(** The number with the digits [l] in base [B], most significant first *)
Definition digits_val (B : Z) (l : list Z) : Z := foldl (fun a v => a * B + v) 0 l.

Lemma digits_val_snoc B l v : digits_val B (l ++ [v]) = digits_val B l * B + v.
Proof. unfold digits_val. by rewrite foldl_app. Qed.

Lemma digits_val_zeros B l n :
  0 < B -> digits_val B (l ++ replicate n 0) = digits_val B l * B ^ Z.of_nat n.
Proof.
  intros HB. revert l. induction n as [|n IH]; intros l.
  - cbn. rewrite app_nil_r. lia.
  - cbn [replicate]. rewrite cons_middle, app_assoc, IH, digits_val_snoc.
    replace (Z.of_nat (S n)) with (Z.of_nat n + 1) by lia.
    rewrite Z.pow_add_r by lia. ring.
Qed.

Lemma digits_val_range B l :
  0 < B -> Forall (fun v => 0 <= v < B) l ->
  0 <= digits_val B l < B ^ len l.
Proof.
  intros HB. induction l as [|v l IH] using rev_ind; intros Hl; [change (0 <= 0 < 1); lia|].
  apply Forall_app in Hl as [Hl [Hv _]%Forall_cons].
  rewrite digits_val_snoc, len_app. pose proof (len_nonneg l).
  replace (len l + len [v]) with (Z.succ (len l)) by (unfold len; cbn; lia).
  rewrite Z.pow_succ_r by done. specialize (IH Hl). nia.
Qed.

Lemma digits_val_digits B l :
  0 < B -> Forall (fun v => 0 <= v < B) l ->
  map (fun i => (digits_val B l / B ^ Z.of_nat (length l - 1 - i)) mod B)
    (seq 0 (length l)) = l.
Proof.
  intros HB. induction l as [|v l IH] using rev_ind; intros Hl; [done|].
  apply Forall_app in Hl as [Hl [Hv _]%Forall_cons].
  rewrite length_app, digits_val_snoc. cbn [length].
  rewrite Nat.add_1_r, seq_S, map_app. cbn [map Nat.add].
  replace (S (length l) - 1 - length l)%nat with 0%nat by lia.
  rewrite Z.pow_0_r, Z.div_1_r. f_equal.
  - etransitivity; [|exact (IH Hl)]. apply map_ext_in. intros i [_ Hi]%in_seq.
    replace (S (length l) - 1 - i)%nat with (S (length l - 1 - i)) by lia.
    rewrite Nat2Z.inj_succ, Z.pow_succ_r by lia.
    rewrite <-Z.div_div by lia. do 2 f_equal.
    rewrite Z.div_add_l by lia. rewrite (Z.div_small v B) by lia. lia.
  - f_equal. rewrite Z.add_comm, Z_mod_plus_full. by apply Z.mod_small.
Qed.

(** Symbol size [size] (0 or 1): [size + 1] bits, [14 / (size + 1)] symbols *)
Definition sym_count (size : Z) : nat := if size =? 0 then 14 else 7.

Lemma setNBits_small src size start v :
  size = 1 \/ size = 2 -> 0 <= start -> start + size <= 16 -> 0 <= v < 2 ^ size ->
  setNBitsOfUint16 src size start v = Z.lor src (v * 2 ^ (16 - size - start)).
Proof.
  intros Hs H0 Hst Hv. unfold setNBitsOfUint16.
  rewrite (u16_small (start + size)) by lia. test_false.
  rewrite (u16_small (16 - size - start)) by lia.
  assert (u16 (u16 (Z.shiftl 1 size) - 1) = Z.ones size) as ->
    by (destruct Hs as [-> | ->]; done).
  rewrite Z.land_ones, (Z.mod_small v), Z.shiftl_mul_pow2 by lia. f_equal.
  apply u16_small. split; [apply Z.mul_nonneg_nonneg; lia|].
  apply Z.lt_le_trans with (2 ^ size * 2 ^ (16 - size - start)).
  - apply Z.mul_lt_mono_pos_r; lia.
  - rewrite <-Z.pow_add_r by lia. change 65536 with (2 ^ 16).
    apply Z.pow_le_mono_r; lia.
Qed.

(** The chunk after [createStatusSymbolChunk] for each symbol of [l] *)
Fixpoint pack (size i c : Z) (l : list Z) : Z :=
  match l with
  | [] => c
  | v :: l =>
      let n := u16 (size + 1) in
      pack size (i + 1) (setNBitsOfUint16 c n (u16 (u16 (n * u16 i) + 2)) v) l
  end.

Lemma pop_symbols_pack n size i t l :
  pop_symbols n size i t l = (t <| chunk := pack size i (chunk t) (take n l) |>, drop n l).
Proof.
  revert i t l. induction n as [|n IH]; intros i t [|v l]; try (by destruct t).
  cbn [pop_symbols]. rewrite IH. by destruct t.
Qed.

Lemma pack_digits size B pre l :
  size = 0 \/ size = 1 -> (length pre + length l <= sym_count size)%nat ->
  B = 2 ^ (size + 1) -> Forall (fun v => 0 <= v < B) (pre ++ l) ->
  pack size (len pre)
    (digits_val B (pre ++ replicate (sym_count size - length pre) 0)) l
  = digits_val B ((pre ++ l) ++ replicate (sym_count size - length (pre ++ l)) 0).
Proof.
  intros Hsz Hl HB Hv. revert pre Hl Hv. induction l as [|v l IH]; intros pre Hl Hv.
  - by rewrite app_nil_r.
  - cbn [pack length] in *. rewrite (cons_middle v pre l), app_assoc.
    rewrite <-(IH (pre ++ [v])).
    2:{ rewrite length_app. cbn [length]. lia. }
    2:{ by rewrite <-app_assoc. }
    clear IH. replace (len (pre ++ [v])) with (len pre + 1) by (rewrite len_app; done).
    f_equal.
    set (n := sym_count size) in *. pose proof (len_nonneg pre).
    assert ((n <= 14)%nat /\ (size + 1) * Z.of_nat n = 14) as [Hn14 Hn].
    { subst n. destruct Hsz as [-> | ->]; cbn; lia. }
    assert (len pre + 1 <= Z.of_nat n) as Hp by (unfold len; lia).
    assert (0 <= (size + 1) * len pre /\ (size + 1) * (len pre + 1) <= 14) as [Hm0 Hm]
      by (destruct Hsz as [-> | ->]; lia).
    rewrite (u16_small (size + 1)), (u16_small (len pre)) by lia.
    rewrite (u16_small ((size + 1) * len pre)), u16_small by lia.
    assert (0 <= v < B) as Hvb by (apply Forall_app in Hv as [_ [? _]%Forall_cons]; done).
    rewrite setNBits_small by (rewrite <-?HB; lia).
    rewrite !digits_val_zeros, digits_val_snoc by (destruct Hsz; subst; cbn; lia).
    rewrite length_app. cbn [length].
    set (k := (n - (length pre + 1))%nat).
    assert (2 ^ (16 - (size + 1) - ((size + 1) * len pre + 2)) = B ^ Z.of_nat k) as ->.
    { subst B. rewrite <-Z.pow_mul_r by lia. f_equal. unfold len, k in *. nia. }
    replace (Z.of_nat (n - length pre)) with (Z.succ (Z.of_nat k)) by (subst k; lia).
    rewrite Z.pow_succ_r by lia.
    assert (0 < B ^ Z.of_nat k) as Hpk
      by (apply Z.pow_pos_nonneg; destruct Hsz; subst; cbn; lia).
    rewrite (lor_add_low _ _ ((size + 1) * (Z.of_nat k + 1))); [ring|lia| |];
      rewrite Z.pow_mul_r, <-HB, Z.add_1_r, Z.pow_succ_r by lia.
    + apply Z.mod_mul. nia.
    + nia.
Qed.

(** ** Lemmas: the chunk writers *)

Lemma put_u16_ok l off v :
  0 <= off -> off + 2 <= len l -> put_u16 l off v = Ok (blit l (Z.to_nat off) (be16 v)).
Proof. intros. unfold put_u16. by test_true. Qed.

Lemma put_u32_ok l off v :
  0 <= off -> off + 4 <= len l -> put_u32 l off v = Ok (blit l (Z.to_nat off) (be32 v)).
Proof. intros. unfold put_u32. by test_true. Qed.

(** The writers change only the chunk area of the responder. *)
Definition chunk_frame (t t' : Responder) : Prop :=
  t' = t <| payload := payload t' |> <| t_len := t_len t' |> <| chunk := chunk t' |>
  /\ take 16 (payload t') = take 16 (payload t) /\ len (payload t') = len (payload t).

Lemma chunk_frame_refl t : chunk_frame t t.
Proof. by destruct t. Qed.

Lemma chunk_frame_trans t t' t'' :
  chunk_frame t t' -> chunk_frame t' t'' -> chunk_frame t t''.
Proof.
  destruct t, t', t''. unfold chunk_frame. cbn [upd eta_record]. cbn.
  intros (H1 & E1 & L1) (H2 & E2 & L2). injection H1. injection H2. intros; subst.
  split_and!; [done|congruence..].
Qed.

Lemma put_chunk t cs c :
  written t cs -> len cs <= 41 ->
  exists p, put_u16 (payload t) (t_len t) c = Ok p
    /\ written (t <| payload := p |> <| t_len := u16 (t_len t + 2) |>) (cs ++ [c])
    /\ take 16 p = take 16 (payload t) /\ len p = len (payload t).
Proof.
  intros (Hl & Hp & Hs) Hc. pose proof (len_nonneg cs).
  rewrite put_u16_ok by lia. eexists. split; [done|].
  assert (Z.to_nat (t_len t) = 16 + 2 * length cs)%nat as Hn by (unfold len in *; lia).
  rewrite Hn. set (p := blit _ _ _).
  assert (length p = length (payload t)) as Hlp
    by (apply length_blit; unfold len in *; lia).
  assert (length (payload t) = 100%nat) as H100 by (unfold len in *; lia).
  assert (length cs <= 41)%nat as Hc' by (unfold len in *; lia).
  split.
  - split_and!; cbn [upd settable_Responder eta_record payload t_len].
    + rewrite len_app. change (len [c]) with 1. rewrite u16_small; lia.
    + unfold len in *. lia.
    + rewrite map_app, concat_app, <-Hs. cbn [map concat]. rewrite app_nil_r.
      rewrite length_app. cbn [length].
      replace (2 * (length cs + 1))%nat with (2 * length cs + 2)%nat by lia.
      unfold sub at 1. rewrite <-(take_drop (2 * length cs) (take _ _)).
      rewrite take_take, Nat.min_l by lia. f_equal.
      * unfold p. apply (sub_blit_out _ _ (be16 c)); rewrite ?length_be16; lia.
      * rewrite skipn_firstn_comm, drop_drop.
        replace (2 * length cs + 2 - 2 * length cs)%nat with 2%nat by lia.
        fold (sub p (16 + 2 * length cs) 2).
        rewrite <-(Nat.add_0_r (16 + 2 * length cs)) at 1. unfold p.
        by rewrite (sub_blit_in _ _ (be16 c) 0 2) by (rewrite ?length_be16; lia).
  - split; [|unfold len; by rewrite Hlp].
    unfold p. change (sub (blit (payload t) (16 + 2 * length cs) (be16 c)) 0 16
      = sub (payload t) 0 16).
    apply sub_blit_out; rewrite ?length_be16; lia.
Qed.

(** One word of the wire format, written by either kind of chunk *)
Definition chunk_written (t : Responder) (cs : list Z) (l : list Z) (t' : Responder) : Prop :=
  exists c, written t' (cs ++ [c]) /\ decode_chunk c = l /\ chunk t' = 0 /\ chunk_frame t t'.

Lemma run_word_decode s n :
  0 <= s <= 3 -> 0 <= n < 8192 ->
  decode_chunk (Z.lor (u16 (Z.shiftl s 13)) n) = replicate (Z.to_nat n) s.
Proof.
  intros Hs Hn. rewrite Z.shiftl_mul_pow2 by lia. change (2 ^ 13) with 8192.
  rewrite u16_small by lia. rewrite (lor_add_low _ _ 13); [|lia| |].
  2:{ change (2 ^ 13) with 8192. by apply Z.mod_mul. }
  2:{ change (2 ^ 13) with 8192. lia. }
  unfold decode_chunk. test_true.
  replace ((s * 8192 + n) mod 8192) with n by zlia.
  by replace ((s * 8192 + n) / 8192 mod 4) with s by zlia.
Qed.

Lemma writeRunLengthChunk_ok t cs s n :
  written t cs -> len cs <= 41 -> chunk t = 0 -> 0 <= s <= 3 -> 0 <= n < 8192 ->
  exists t', writeRunLengthChunk t s n = Ok t'
    /\ chunk_written t cs (replicate (Z.to_nat n) s) t'.
Proof.
  intros Hw Hc Hch Hs Hn. unfold writeRunLengthChunk.
  edestruct (put_chunk t cs) as (p & -> & Hw' & Ht & Hlp); [done..|].
  eexists. split; [reflexivity|]. eexists. split_and!; [exact Hw'| |done|].
  - by apply run_word_decode.
  - by split_and!; [destruct t|..].
Qed.

Lemma vec_word size d :
  size = 0 \/ size = 1 -> 0 <= d < 16384 ->
  setNBitsOfUint16 (setNBitsOfUint16 d 1 0 1) 1 1 size = 32768 + size * 16384 + d.
Proof.
  intros Hs Hd. rewrite !setNBits_small by (lia || (change (2 ^ 1) with 2; lia)).
  change (2 ^ (16 - 1 - 0)) with 32768. change (2 ^ (16 - 1 - 1)) with 16384.
  rewrite (Z.lor_comm d), (lor_add_low (1 * 32768) d 15); [|lia|done|].
  2:{ change (2 ^ 15) with 32768. lia. }
  destruct Hs as [-> | ->]; [rewrite Z.lor_0_r; lia|].
  rewrite <-(lor_add_low (1 * 32768) d 15); [|lia|done|].
  2:{ change (2 ^ 15) with 32768. lia. }
  rewrite <-Z.lor_assoc, (Z.lor_comm d), Z.lor_assoc.
  rewrite (lor_add_low _ d 14); [|lia|done|].
  2:{ change (2 ^ 14) with 16384. lia. }
  change (Z.lor (1 * 32768) (1 * 16384)) with 49152. lia.
Qed.

Lemma vec_word_decode size l :
  size = 0 \/ size = 1 -> length l = sym_count size ->
  Forall (fun v => 0 <= v < 2 ^ (size + 1)) l ->
  0 <= digits_val (2 ^ (size + 1)) l < 16384
  /\ decode_chunk (32768 + size * 16384 + digits_val (2 ^ (size + 1)) l) = l.
Proof.
  intros Hs Hl Hf. set (B := 2 ^ (size + 1)) in *.
  assert (0 < B) as HB by (destruct Hs; subst; done).
  assert (0 <= digits_val B l < 16384) as Hr.
  { pose proof (digits_val_range B l HB Hf) as H. unfold len in H. rewrite Hl in H.
    subst B. destruct Hs as [-> | ->]; exact H. }
  split; [done|]. unfold decode_chunk. test_false.
  set (d := digits_val B l) in *.
  replace ((32768 + size * 16384 + d) mod 16384) with d by zlia.
  replace ((32768 + size * 16384 + d) / 16384 mod 2) with size by zlia.
  pose proof (digits_val_digits B l HB Hf) as H. fold d in H. rewrite Hl in H.
  subst B. destruct Hs as [-> | ->]; exact H.
Qed.

Lemma Forall_zero_digits B n : 0 < B -> Forall (fun v => 0 <= v < B) (replicate n 0).
Proof. intros. apply Forall_replicate. lia. Qed.

(** A vector of at most [sym_count size] symbols, padded with zeros *)
Lemma write_vector_ok t cs size l :
  written t cs -> len cs <= 41 -> chunk t = 0 -> size = 0 \/ size = 1 ->
  (length l <= sym_count size)%nat -> Forall (fun v => 0 <= v < 2 ^ (size + 1)) l ->
  exists t', writeStatusSymbolChunk (t <| chunk := pack size 0 (chunk t) l |>) size = Ok t'
    /\ chunk_written t cs (l ++ replicate (sym_count size - length l) 0) t'.
Proof.
  intros Hw Hc Hch Hs Hl Hf. rewrite Hch.
  assert (0 < 2 ^ (size + 1)) as HB by (destruct Hs; subst; done).
  pose proof (pack_digits size (2 ^ (size + 1)) [] l Hs Hl eq_refl Hf) as Hp.
  cbn [app length] in Hp. change (len []) with 0 in Hp. rewrite Nat.sub_0_r in Hp.
  rewrite <-(app_nil_l (replicate _ 0)), digits_val_zeros in Hp by done.
  change (digits_val _ [] * _) with 0 in Hp. cbn [app] in Hp. rewrite Hp.
  edestruct (vec_word_decode size (l ++ replicate (sym_count size - length l) 0))
    as [Hr Hd]; [done| | |].
  { rewrite length_app, length_replicate. lia. }
  { apply Forall_app. auto using Forall_zero_digits. }
  unfold writeStatusSymbolChunk.
  cbn [upd settable_Responder eta_record chunk payload t_len]. rewrite vec_word by done.
  edestruct (put_chunk t cs) as (p & -> & Hw' & Ht & Hlp); [done..|].
  eexists. split; [reflexivity|]. eexists.
  split_and!; [|exact Hd|done|by split_and!; [destruct t|..]].
  destruct t. exact Hw'.
Qed.

(** ** Lemmas: the symbol loops *)

Lemma pop_shrinking_pack fuel size i t l :
  (length l <= fuel)%nat -> 0 <= i ->
  pop_shrinking fuel size i t l
  = t <| chunk := pack size i (chunk t) (take (Z.to_nat ((len l + 1 - i) / 2)) l) |>.
Proof.
  revert i t l. induction fuel as [|fuel IH]; intros i t [|v l] Hf Hi;
    cbn [length] in Hf; try lia; try (rewrite firstn_nil; by destruct t).
  cbn [pop_shrinking]. rewrite len_cons. case_test.
  - rewrite IH by lia. destruct (Z.to_nat ((len l + 1 + 1 - i) / 2)) as [|k] eqn:Ek; [zlia|].
    replace (Z.to_nat ((len l + 1 - (i + 1)) / 2)) with k by zlia.
    by destruct t.
  - replace (Z.to_nat ((len l + 1 + 1 - i) / 2)) with 0%nat by zlia. by destruct t.
Qed.

(** Largest status of a list *)
Definition max_status (l : list Z) : Z := foldr Z.max 0 l.

Lemma max_status_app l k : max_status (l ++ k) = Z.max (max_status l) (max_status k).
Proof.
  unfold max_status. induction l as [|v l IH]; cbn [app foldr]; [|lia].
  enough (0 <= foldr Z.max 0 k) by lia. clear. induction k; cbn; lia.
Qed.

Lemma max_status_ub l m : max_status l <= m -> Forall (fun v => v <= m) l.
Proof.
  unfold max_status. induction l as [|v l IH]; cbn [foldr]; [constructor|].
  intros H. constructor; [lia|apply IH; lia].
Qed.

Lemma max_status_status l : Forall is_status l -> is_status (max_status l).
Proof.
  induction 1 as [|v l Hv _ IH]; [by left|]. unfold is_status in *.
  change (max_status (v :: l)) with (Z.max v (max_status l)). lia.
Qed.

(** ** The loop invariant *)

(** What the chunk logic keeps: the chunks written and the list of pending
    statuses are the statuses so far ([done]); [same] tells whether the
    pending ones are all equal. *)
Definition pending_ok (s : tcc_state) : Prop :=
  Forall is_status (statusList s)
  /\ maxStatus s = max_status (statusList s)
  /\ if same s then Forall (eq (lastStatus s)) (statusList s)
                    /\ (statusList s = [] -> lastStatus s = ReceivedWithoutDelta)
     else len (statusList s) <= if maxStatus s =? ReceivedLargeDelta then 7 else 13.

Record chunks_ok (s : tcc_state) (cs st : list Z) : Prop := {
  co_pending : pending_ok s;
  co_written : if firstRecv s then written (ts s) cs
               else cs = [] /\ same s = true /\ Forall (eq 0) (statusList s);
  co_decode : decode_chunks cs ++ statusList s = st;
  co_words : 7 * len cs <= len (decode_chunks cs);
  co_chunk : chunk (ts s) = 0 }.

Lemma decode_chunks_snoc cs c : decode_chunks (cs ++ [c]) = decode_chunks cs ++ decode_chunk c.
Proof. unfold decode_chunks. by rewrite map_app, concat_app; cbn; rewrite app_nil_r. Qed.

(** [rescan] on a list: is it uniform, its last element, its maximum *)
Lemma rescan_inv l :
  Forall is_status l ->
  let '(sm, last, mx) := rescan l in
  mx = max_status l
  /\ (l = [] -> last = ReceivedWithoutDelta)
  /\ (l <> [] -> is_status last)
  /\ (if sm then Forall (eq last) l else True).
Proof.
  induction l as [|v l IH] using rev_ind; intros Hl; [done|].
  apply Forall_app in Hl as [Hl [Hv _]%Forall_cons]. specialize (IH Hl).
  unfold rescan in *. rewrite foldl_app. cbn [foldl].
  set (r := foldl _ _ l) in *. destruct r as [[sm last] mx].
  destruct IH as (-> & Hn & Hne & Hs). rewrite max_status_app.
  assert (0 <= max_status l) by (destruct (max_status_status l Hl) as [| []]; lia).
  split_and!.
  - unfold is_status in Hv. cbn. case_test; lia.
  - by destruct l.
  - done.
  - destruct sm; cbn [andb]; [|done].
    destruct (decide (l = [])) as [->|Hne']; [rewrite (Hn eq_refl); cbn; auto|].
    specialize (Hne Hne'). unfold is_status, ReceivedWithoutDelta in *.
    assert (last =? 3 = false) as -> by lia. cbn [negb andb].
    destruct (v =? last) eqn:E; cbn [negb]; [|done].
    apply Z.eqb_eq in E as ->. apply Forall_app. auto.
Qed.

Lemma Forall_status_range (size : Z) l :
  Forall is_status l -> size = 1 \/ (size = 0 /\ max_status l <= 1) ->
  Forall (fun v => 0 <= v < 2 ^ (size + 1)) l.
Proof.
  intros Hl Hs. assert (Forall (fun v => v <= 2 ^ (size + 1) - 1) l) as Hm.
  { destruct Hs as [-> | [-> Hm]].
    - eapply Forall_impl; [exact Hl|]. intros v Hv. unfold is_status in Hv.
      change (2 ^ (1 + 1)) with 4. lia.
    - by apply max_status_ub in Hm. }
  apply Forall_forall. intros v Hv.
  pose proof (proj1 (Forall_forall _ _) Hl v Hv).
  pose proof (proj1 (Forall_forall _ _) Hm v Hv). unfold is_status in *. lia.
Qed.

(** A full vector chunk from the front of the list *)
Lemma pop_vector_ok t cs size l :
  written t cs -> len cs <= 41 -> chunk t = 0 -> size = 0 \/ size = 1 ->
  (sym_count size <= length l)%nat ->
  Forall (fun v => 0 <= v < 2 ^ (size + 1)) (take (sym_count size) l) ->
  exists t1 t',
    pop_symbols (sym_count size) size 0 t l = (t1, drop (sym_count size) l)
    /\ writeStatusSymbolChunk t1 size = Ok t'
    /\ chunk_written t cs (take (sym_count size) l) t'.
Proof.
  intros Hw Hc Hch Hs Hl Hf. rewrite pop_symbols_pack.
  assert (length (take (sym_count size) l) = sym_count size) as Ht
    by (rewrite length_take; lia).
  edestruct (write_vector_ok t cs size (take (sym_count size) l))
    as (t' & Hwr & H); [done..|lia|done|].
  rewrite Ht, Nat.sub_diag, app_nil_r in H. eauto.
Qed.

(** ** Lemmas: one status through the chunk logic *)

(** The same room is left for chunks: every chunk holds seven statuses or
    more, so 287 statuses never fill the 100 bytes of the payload. *)
Lemma words_bound s cs st :
  chunks_ok s cs st -> len st <= 287 -> len cs <= 41.
Proof.
  intros H Hst. pose proof (co_words _ _ _ H). pose proof (len_nonneg (statusList s)).
  rewrite <-(co_decode _ _ _ H), len_app in Hst. lia.
Qed.

Ltac tcc_cbn := cbn [upd settable_tcc_state eta_record ts firstRecv timestamp same lastStatus
  maxStatus statusList mbind go_bind mret go_ret fst snd].

(** Before the push: a long run is written, a short one stops being uniform. *)
Lemma run_end_ok s cs st status :
  chunks_ok s cs st -> is_status status -> firstRecv s = true \/ status = 0 ->
  len st <= 287 ->
  exists s' cs',
    run_end s status = Ok s'
    /\ chunks_ok s' cs' st /\ (same s' = true -> Forall (eq status) (statusList s'))
    /\ firstRecv s' = firstRecv s /\ timestamp s' = timestamp s
    /\ chunk_frame (ts s) (ts s').
Proof.
  intros H Hst Hfr Hlen. pose proof (words_bound _ _ _ H Hlen) as Hc.
  destruct H as [Hp Hw Hd H7 Hch], s as [t fr tm sm last mx l].
  destruct Hp as (Hl & Hmx & Hsm). revert Hw Hl Hmx Hsm Hd Hch Hfr. unfold run_end; tcc_cbn.
  intros Hw Hl Hmx Hsm Hd Hch Hfr.
  assert (len l <= 287) as Hll by (subst st; rewrite len_app in Hlen;
    pose proof (len_nonneg (decode_chunks cs)); lia).
  pose proof (len_nonneg l).
  assert (decide_end : (sm && negb (status =? last) && negb (last =? ReceivedWithoutDelta))%bool
    = true \/ (sm = true -> status = last \/ last = ReceivedWithoutDelta)).
  { destruct sm; [|by right].
    destruct (Z.eqb_spec status last), (Z.eqb_spec last ReceivedWithoutDelta); auto. }
  destruct decide_end as [Hend|Hend].
  - rewrite Hend. bool_prop. subst sm. destruct Hsm as [Hu He].
    destruct fr.
    2:{ exfalso. destruct Hw as (-> & _ & Hz), Hfr as [|]; [done|]; subst status.
        destruct l as [|v l]; [auto|].
        apply Forall_cons in Hz as [<- _], Hu as [-> _]. lia. }
    case_test.
    + assert (is_status last) as Hls.
      { destruct l as [|v l]; [done|]. apply Forall_cons in Hl as [? _], Hu as [-> _]. done. }
      assert (l = replicate (length l) last) as Hrep.
      { clear -Hu. induction Hu; cbn; congruence. }
      rewrite u16_small by lia.
      edestruct (writeRunLengthChunk_ok t cs last (len l)) as (t' & -> & c & Hw' & Hdc & Hc0 & Hfm);
        [done..|unfold is_status in *; lia|lia|].
      tcc_cbn. eexists _, (cs ++ [c]). split; [reflexivity|].
      unfold len in Hdc. rewrite Nat2Z.id, <-Hrep in Hdc.
      split_and!; tcc_cbn; auto.
      split; tcc_cbn; auto.
      * by split_and!.
      * by rewrite decode_chunks_snoc, Hdc, app_nil_r.
      * rewrite decode_chunks_snoc, Hdc, !len_app. change (len [c]) with 1. lia.
    + eexists _, cs. split; [reflexivity|]. split_and!; tcc_cbn; auto using chunk_frame_refl; [|done].
      split; tcc_cbn; auto. split_and!; tcc_cbn; auto. case_test; lia.
  - assert ((sm && negb (status =? last) && negb (last =? ReceivedWithoutDelta))%bool
      = false) as ->.
    { destruct sm; [|done]. destruct (Hend eq_refl); subst; unfold ReceivedWithoutDelta; lia. }
    eexists _, cs. split; [reflexivity|]. split_and!; auto using chunk_frame_refl.
    + split; tcc_cbn; auto. by split_and!.
    + tcc_cbn. intros ->. destruct Hsm as [Hu _].
      destruct (Hend eq_refl) as [->|H3]; [done|]. subst last.
      destruct l as [|v l]; [done|].
      apply Forall_cons in Hl as [? _], Hu as [<- _]. unfold is_status, ReceivedWithoutDelta in *. lia.
Qed.

(** Pushing a status, and the vector it may complete *)
Lemma emit_ok s cs st status :
  chunks_ok s cs st -> is_status status ->
  (same s = true -> Forall (eq status) (statusList s)) ->
  firstRecv s = true \/ status = 0 -> len st <= 286 ->
  exists s' cs',
    emit_vector (push_status s status) = Ok s' /\ chunks_ok s' cs' (st ++ [status])
    /\ firstRecv s' = firstRecv s /\ timestamp s' = timestamp s
    /\ chunk_frame (ts s) (ts s').
Proof.
  intros H Hst Huni Hfr Hlen. pose proof (words_bound _ _ _ H ltac:(lia)) as Hc.
  destruct H as [Hp Hw Hd H7 Hch], s as [t fr tm sm last mx l].
  destruct Hp as (Hl & Hmx & Hsm). revert Hw Hl Hmx Hsm Hd Hch Hfr Huni.
  unfold emit_vector, push_status. tcc_cbn. intros Hw Hl Hmx Hsm Hd Hch Hfr Huni.
  assert ((if mx <? status then status else mx) = max_status (l ++ [status])) as ->.
  { rewrite max_status_app, Hmx. unfold is_status in Hst. cbn. case_test; lia. }
  assert (Forall is_status (l ++ [status])) as Hl' by (apply Forall_app; auto).
  set (l' := l ++ [status]) in *.
  assert (decode_chunks cs ++ l' = st ++ [status]) as Hd'
    by (subst st l'; by rewrite app_assoc).
  assert (len l' = len l + 1) as Hll by (subst l'; by rewrite len_app).
  destruct sm; cbn [negb andb].
  - eexists _, cs. split; [reflexivity|]. split_and!; auto using chunk_frame_refl.
    split; tcc_cbn; auto.
    + split_and!; tcc_cbn; auto. split; [apply Forall_app; auto|by destruct l].
    + destruct fr; [done|]. destruct Hw as (-> & _ & Hz), Hfr as [|]; [done|]. subst status.
      split_and!; auto. apply Forall_app; auto.
  - destruct fr; [|by destruct Hw as (_ & ? & _)].
    assert (max_status l <= max_status l') as Hmono
      by (subst l'; rewrite max_status_app; lia).
    pose proof (max_status_status _ Hl') as Hms. pose proof (max_status_status _ Hl) as Hms0.
    assert (len l <= 13) as H13 by (destruct (mx =? _); lia).
    case_test.
    + edestruct (pop_vector_ok t cs 1 l') as (t1 & t' & Hpop & Hwr & c & Hw' & Hdc & Hc0 & Hfm);
        [done|done|done|by right|unfold len in *; cbn; lia| |].
      { apply Forall_take, Forall_status_range; auto. }
      change (sym_count 1) with 7%nat in *. unfold SymbolSizeTwoBit. rewrite Hpop, Hwr. tcc_cbn.
      pose proof (rescan_inv (drop 7 l') (Forall_drop _ _ _ Hl')) as Hr.
      destruct (rescan (drop 7 l')) as [[sm2 last2] mx2], Hr as (-> & Hn & Hne & Hs2).
      eexists _, (cs ++ [c]). split; [reflexivity|]. split_and!; tcc_cbn; auto.
      assert (len (drop 7 l') <= 7) as H14
        by (clear Hsm; unfold len in *; rewrite length_drop; lia).
      split; tcc_cbn; auto.
      * split_and!; tcc_cbn; auto using Forall_drop.
        destruct sm2; [by split|]. case_test; lia.
      * by rewrite decode_chunks_snoc, Hdc, <-app_assoc, take_drop.
      * rewrite decode_chunks_snoc, Hdc, !len_app.
        change (len [c]) with 1. unfold len in *. rewrite length_take. lia.
    + case_test.
      * assert (max_status l' <= 1) as H1
          by (unfold is_status, ReceivedLargeDelta in *; destruct E; bool_prop; lia).
        edestruct (pop_vector_ok t cs 0 l') as (t1 & t' & Hpop & Hwr & c & Hw' & Hdc & Hc0 & Hfm);
          [done|done|done|by left|unfold len in *; cbn; lia| |].
        { apply Forall_take, (Forall_status_range 0); auto. }
        change (sym_count 0) with 14%nat in *. unfold SymbolSizeOneBit. rewrite Hpop, Hwr. tcc_cbn.
        assert (drop 14 l' = []) as Hnil
          by (clear Hsm; apply drop_ge; unfold len in *; lia).
        eexists _, (cs ++ [c]). split; [reflexivity|]. rewrite Hnil.
        split_and!; tcc_cbn; auto.
        split; tcc_cbn; auto.
        -- by split_and!.
        -- rewrite app_nil_r, decode_chunks_snoc, Hdc, take_ge; [done|].
           clear Hsm. unfold len in *. lia.
        -- rewrite decode_chunks_snoc, Hdc, !len_app.
           change (len [c]) with 1. unfold len in *. rewrite length_take. lia.
      * eexists _, cs. split; [reflexivity|]. split_and!; auto using chunk_frame_refl.
        split; tcc_cbn; auto. split_and!; tcc_cbn; auto.
        destruct E as [E|E]; bool_prop; unfold ReceivedLargeDelta in *; case_test; lia.
Qed.

Lemma tcc_chunk_ok s cs st status :
  chunks_ok s cs st -> is_status status -> firstRecv s = true \/ status = 0 ->
  len st <= 286 ->
  exists s' cs',
    tcc_chunk s status = Ok s' /\ chunks_ok s' cs' (st ++ [status])
    /\ firstRecv s' = firstRecv s /\ timestamp s' = timestamp s
    /\ chunk_frame (ts s) (ts s').
Proof.
  intros H Hs Hfr Hl. unfold tcc_chunk.
  destruct (run_end_ok s cs st status) as (s1 & cs1 & -> & H1 & Hu & Hf1 & Ht1 & Hfm1);
    [done..|lia|].
  cbn [mbind go_bind].
  destruct (emit_ok s1 cs1 st status) as (s2 & cs2 & -> & H2 & Hf2 & Ht2 & Hfm2);
    [done..|by rewrite Hf1|done|].
  exists s2, cs2. split_and!; eauto using chunk_frame_trans; congruence.
Qed.

(** [same] is false only when the pending statuses do differ. *)
Definition uniform (l : list Z) : Prop := exists v, Forall (eq v) l.
Definition differ_ok (s : tcc_state) : Prop := same s = false -> ~ uniform (statusList s).

Lemma not_uniform_app l k : ~ uniform l -> ~ uniform (l ++ k).
Proof. intros H [v [Hv _]%Forall_app]. apply H. by exists v. Qed.

Lemma not_uniform_snoc l u v : l <> [] -> Forall (eq u) l -> v <> u -> ~ uniform (l ++ [v]).
Proof.
  intros Hne Hu Hv [w [Hw [Hwv _]%Forall_cons]%Forall_app]. destruct l; [done|].
  apply Forall_cons in Hu as [-> _], Hw as [-> _]. auto.
Qed.

Lemma rescan_differ l :
  Forall is_status l -> (rescan l).1.1 = false -> ~ uniform l.
Proof.
  induction l as [|v l IH] using rev_ind; intros Hl; [done|].
  apply Forall_app in Hl as [Hl [Hv _]%Forall_cons]. specialize (IH Hl).
  pose proof (rescan_inv l Hl) as Hi. unfold rescan in *. rewrite foldl_app. cbn [foldl].
  set (r := foldl _ _ l) in *. destruct r as [[sm last] mx]. cbn [fst] in *.
  destruct Hi as (_ & Hn & _ & Hs).
  destruct sm; [|intros _; by apply not_uniform_app, IH].
  destruct (Z.eqb_spec last ReceivedWithoutDelta) as [|Hlast]; [done|].
  destruct (Z.eqb_spec v last) as [|Hne]; [done|]. intros _.
  apply (not_uniform_snoc _ last); [|done|done]. intros ->. auto.
Qed.

Lemma run_end_differ s status s' :
  run_end s status = Ok s' -> pending_ok s -> differ_ok s ->
  same s' = false -> ~ uniform (statusList s' ++ [status]).
Proof.
  intros H (Hl & _ & Hsm) Hd Hs'. unfold run_end in H. revert H.
  destruct (same s && _ && _)%bool eqn:E.
  - bool_prop. rewrite H in Hsm. destruct Hsm as [Hu He].
    case_test; intros Hr; unfold mret, go_ret in Hr; go_inv; subst s'; destruct s; [done|].
    cbn in *. eapply not_uniform_snoc; eauto.
  - intros [= ->]. by apply not_uniform_app, Hd.
Qed.

Lemma run_end_list s status s' :
  run_end s status = Ok s' -> statusList s' = [] \/ statusList s' = statusList s.
Proof.
  unfold run_end, mret, go_ret. destruct s as [t fr tm sm last mx l]. tcc_cbn.
  destruct (_ && _ && _)%bool; [case_test|]; intros H; go_inv; subst; auto.
Qed.

Lemma tcc_chunk_differ s status s' :
  tcc_chunk s status = Ok s' -> pending_ok s -> is_status status -> differ_ok s ->
  differ_ok s'.
Proof.
  unfold tcc_chunk. intros H Hp Hst Hd. go_inv.
  pose proof (run_end_differ _ _ _ E Hp Hd) as Hr.
  assert (Forall is_status (statusList a ++ [status])) as Hl.
  { apply Forall_app. split; [|by constructor]. destruct Hp as [Hl _].
    by destruct (run_end_list _ _ _ E) as [-> | ->]. }
  unfold emit_vector, push_status in H. destruct a as [t fr tm sm last mx l].
  revert H Hr Hl. tcc_cbn. intros H Hr Hl. unfold differ_ok. revert H.
  generalize (if mx <? status then status else mx). intros m.
  case_test; [|case_test].
  - rewrite pop_symbols_pack. pose proof (rescan_differ (drop 7 (l ++ [status]))) as Hre.
    cbv beta iota zeta. destruct (rescan _) as [[sm2 l2] m2]. unfold mret, go_ret. intros Hq. cbv beta iota zeta in Hq. go_inv. subst s'. cbn in *.
    intros ->. apply Hre; [by apply Forall_drop|done].
  - rewrite pop_symbols_pack. unfold mret, go_ret. intros Hq. cbv beta iota zeta in Hq. go_inv. by subst s'.
  - intros [= <-]. exact Hr.
Qed.

(** ** Specification: the statuses and receive deltas of a packet list *)

(** Status and delta bytes of a received packet; [base] is the time of the
    previous received packet, if there is one. *)
Definition encode_delta (base : option Z) (p : rtpExtInfo) : Z * bytes :=
  let b := match base with Some b => b | None => go_div (Timestamp p) 64000 * 64000 end in
  let d := go_div (Timestamp p - b) 250 in
  if ((0 <=? d) && (d <=? 255))%bool then (ReceivedSmallDelta, [d])
  else (ReceivedLargeDelta, be16 (u16 (clamp_delta d))).

Fixpoint encode_times (base : option Z) (l : list rtpExtInfo) : list (Z * bytes) :=
  match l with
  | [] => []
  | p :: l =>
      if Timestamp p =? 0 then (NotReceived, []) :: encode_times base l
      else encode_delta base p :: encode_times (Some (Timestamp p)) l
  end.
Definition statuses (l : list rtpExtInfo) : list Z := map fst (encode_times None l).
Definition delta_bytes (l : list rtpExtInfo) : bytes := concat (map snd (encode_times None l)).

(** The 16 bytes of [writeHeader] *)
Definition header_bytes (t : Responder) (nSN packetCount refTime : Z) : bytes :=
  be32 (sSSRC t) ++ be32 (mSSRC t) ++ be16 nSN ++ be16 packetCount
  ++ be32 (Z.lor (u32 (Z.shiftl refTime 8)) (pktCtn t)).

(** Times of the model: microseconds that a 64-bit nanosecond clock can give *)
Definition time_ok (p : rtpExtInfo) : Prop := 0 <= Timestamp p < 9223372036854775.

(** ** Lemmas: header and deltas *)

Lemma blit_app (l : bytes) n src h :
  take n l = h -> n = length h -> (n + length src <= length l)%nat ->
  take (n + length src) (blit l n src) = h ++ src.
Proof.
  intros Ht Hn Hl. rewrite blit_eq by done. rewrite Ht, app_assoc.
  rewrite take_app_le by (rewrite length_app; lia).
  apply take_ge. rewrite length_app. lia.
Qed.

Lemma writeHeader_ok t a b c :
  len (payload t) = 100 ->
  exists p, writeHeader t a b c = Ok (t <| payload := p |> <| t_len := 16 |>)
    /\ take 16 p = header_bytes t a b c /\ len p = 100.
Proof.
  intros Hp. assert (length (payload t) = 100)%nat as H100 by (unfold len in *; lia).
  assert (forall v, length (be32 v) = 4)%nat as H4 by done.
  set (p1 := blit (payload t) 0 (be32 (sSSRC t))). set (p2 := blit p1 4 (be32 (mSSRC t))).
  set (p3 := blit p2 8 (be16 a)). set (p4 := blit p3 10 (be16 b)).
  assert (length p1 = 100)%nat as L1 by (rewrite <-H100; apply length_blit; lia).
  assert (length p2 = 100)%nat as L2 by (rewrite <-L1; apply length_blit; lia).
  assert (length p3 = 100)%nat as L3 by (rewrite <-L2; apply length_blit; lia).
  assert (length p4 = 100)%nat as L4 by (rewrite <-L3; apply length_blit; lia).
  unfold writeHeader.
  rewrite (put_u32_ok (payload t) 0) by lia. cbn [mbind go_bind]. fold p1.
  change (Z.to_nat 0) with 0%nat. fold p1.
  rewrite (put_u32_ok p1 4) by (unfold len; lia). cbn [mbind go_bind].
  change (Z.to_nat 4) with 4%nat. fold p2.
  rewrite (put_u16_ok p2 8) by (unfold len; lia). cbn [mbind go_bind].
  change (Z.to_nat 8) with 8%nat. fold p3.
  rewrite (put_u16_ok p3 10) by (unfold len; lia). cbn [mbind go_bind].
  change (Z.to_nat 10) with 10%nat. fold p4.
  rewrite (put_u32_ok p4 12) by (unfold len; lia). cbn [mbind go_bind mret go_ret].
  change (Z.to_nat 12) with 12%nat.
  eexists. split; [reflexivity|].
  split; [|rewrite len_blit; unfold len; lia].
  unfold header_bytes. rewrite !app_assoc.
  assert (take (0 + 4) p1 = [] ++ be32 (sSSRC t)) as E1
    by (apply (blit_app _ 0 (be32 _)); rewrite ?H4; done || lia).
  assert (take (4 + 4) p2 = be32 (sSSRC t) ++ be32 (mSSRC t)) as E2
    by (apply (blit_app _ 4 (be32 _)); rewrite ?H4; done || lia).
  assert (take (8 + 2) p3 = (be32 (sSSRC t) ++ be32 (mSSRC t)) ++ be16 a) as E3
    by (apply (blit_app _ 8 (be16 a)); rewrite ?length_app, ?H4, ?length_be16; done || lia).
  assert (take (10 + 2) p4 = ((be32 (sSSRC t) ++ be32 (mSSRC t)) ++ be16 a) ++ be16 b) as E4
    by (apply (blit_app _ 10 (be16 b)); rewrite ?length_app, ?H4, ?length_be16; done || lia).
  apply (blit_app p4 12 (be32 _)); rewrite ?length_app, ?H4, ?length_be16; done || lia.
Qed.

(** [ds] are the delta bytes so far. *)
Definition deltas_ok (t : Responder) (ds : bytes) : Prop :=
  len (deltas t) = 200 /\ deltaLen t = len ds /\ take (length ds) (deltas t) = ds.

Lemma writeDelta_ok t ds base p :
  deltas_ok t ds -> len ds <= 198 -> time_ok p ->
  let b := match base with Some b => b | None => go_div (Timestamp p) 64000 * 64000 end in
  let d := go_div (Timestamp p - b) 250 in
  let e := encode_delta base p in
  exists t',
    writeDelta t e.1 (if ((d <? 0) || (255 <? d))%bool then u16 (clamp_delta d) else u16 d)
      = Ok t'
    /\ deltas_ok t' (ds ++ e.2)
    /\ t' = t <| deltas := deltas t' |> <| deltaLen := deltaLen t' |>.
Proof.
  intros (H200 & Hl & Ht) Hds Hp b d e. pose proof (len_nonneg ds).
  assert (length (deltas t) = 200 /\ length ds <= 198)%nat as [L L'] by (unfold len in *; lia).
  subst e. unfold encode_delta. fold b. fold d.
  destruct ((0 <=? d) && (d <=? 255))%bool eqn:E; bool_prop.
  - assert ((d <? 0) || (255 <? d) = false)%bool as -> by lia.
    cbn [fst snd]. unfold writeDelta. change (ReceivedSmallDelta =? ReceivedSmallDelta) with true.
    cbv beta iota. test_true. eexists. split; [reflexivity|]. split; [|by destruct t].
    split_and!; cbn [upd settable_Responder eta_record deltas deltaLen].
    + unfold len in *. rewrite length_insert. lia.
    + rewrite Hl, u16_small by lia. by rewrite len_app.
    + rewrite u16_small, u8_small by lia. rewrite Hl. unfold len. rewrite Nat2Z.id.
      rewrite length_app. cbn [length]. rewrite Nat.add_1_r.
      rewrite (take_S_r _ _ d) by (apply list_lookup_insert_eq; lia).
      by rewrite take_insert_ge, Ht by lia.
  - assert ((d <? 0) || (255 <? d) = true)%bool as -> by lia.
    cbn [fst snd]. unfold writeDelta.
    change (ReceivedLargeDelta =? ReceivedSmallDelta) with false. cbv beta iota.
    rewrite put_u16_ok by lia. cbn [mbind go_bind mret go_ret].
    eexists. split; [reflexivity|]. split; [|by destruct t].
    rewrite Hl. unfold len. rewrite Nat2Z.id.
    split_and!; cbn [upd settable_Responder eta_record deltas deltaLen].
    + by rewrite len_blit by lia.
    + rewrite u16_small by lia. unfold len. rewrite length_app, length_be16. lia.
    + rewrite length_app.
      apply blit_app; rewrite ?length_be16; done || lia.
Qed.

(** ** Lemmas: the loop *)

(** The encoding loop changes only the buffers and the packet counter. *)
Definition resp_frame (t t' : Responder) : Prop :=
  t' = t <| payload := payload t' |> <| t_len := t_len t' |> <| chunk := chunk t' |>
         <| deltas := deltas t' |> <| deltaLen := deltaLen t' |> <| pktCtn := pktCtn t' |>.

Lemma resp_frame_refl t : resp_frame t t.
Proof. by destruct t. Qed.

Lemma resp_frame_trans t t' t'' : resp_frame t t' -> resp_frame t' t'' -> resp_frame t t''.
Proof.
  unfold resp_frame. intros -> ->. by destruct t.
Qed.

Lemma chunk_frame_resp t t' : chunk_frame t t' -> resp_frame t t'.
Proof. intros [-> _]. by destruct t. Qed.

Lemma chunk_frame_pktCtn t t' : chunk_frame t t' -> pktCtn t' = pktCtn t.
Proof. intros [-> _]. by destruct t. Qed.

(** Base time of the next delta *)
Definition loop_base (s : tcc_state) : option Z :=
  if firstRecv s then Some (timestamp s) else None.

(** [t0]: the responder before the loop; [h]: the header if it is written *)
Record loop_ok (t0 : Responder) (s : tcc_state) (cs st : list Z) (ds : bytes)
    (h : option bytes) : Prop := {
  lo_chunks : chunks_ok s cs st;
  lo_deltas : deltas_ok (ts s) ds;
  lo_payload : len (payload (ts s)) = 100;
  lo_header : h = if firstRecv s then Some (take 16 (payload (ts s))) else None;
  lo_count : pktCtn (ts s) = if firstRecv s then u8 (pktCtn t0 + 1) else pktCtn t0;
  lo_time : 0 <= timestamp s < 9223372036854775;
  lo_frame : resp_frame t0 (ts s);
  lo_differ : differ_ok s }.

(** Header of the feedback: made at the first received packet *)
Definition first_header (t : Responder) (pkts : list rtpExtInfo) (p : rtpExtInfo) : bytes :=
  header_bytes t (u16 (match pkts with p :: _ => ExtTSN p | [] => 0 end)) (u16 (len pkts))
    (u32 (go_div (Timestamp p) 64000)).

Lemma ref_time_bounds p :
  time_ok p -> 0 <= go_div (Timestamp p) 64000 * 64000 <= Timestamp p.
Proof. unfold time_ok, go_div. intros H. rewrite Z.quot_div_nonneg by lia. zlia. Qed.

(** The state in which the delta is written, with the header in place *)
Lemma tcc_delta_start_ok t0 pkts s cs st ds h p :
  loop_ok t0 s cs st ds h -> time_ok p ->
  exists s',
    tcc_open pkts s p = Ok s'
    /\ loop_ok t0 s' cs st ds (Some (default (first_header t0 pkts p) h))
    /\ firstRecv s' = true
    /\ timestamp s' = match loop_base s with Some b => b
                      | None => go_div (Timestamp p) 64000 * 64000 end.
Proof.
  intros [Hco Hde Hpl Hh Hct Htm Hfm Hdi] Hp. pose proof (ref_time_bounds p Hp) as Hr.
  unfold tcc_open, loop_base, time_ok in *. destruct (firstRecv s) eqn:Ef.
  - exists s. subst h. split_and!; [done| |done|done]. split; by rewrite ?Ef.
  - subst h. cbn [default]. destruct (writeHeader_ok (ts s)
      (u16 (match pkts with p :: _ => ExtTSN p | [] => 0 end)) (u16 (len pkts))
      (u32 (go_div (Timestamp p) 64000)) Hpl) as (p' & -> & Ht & Hl).
    cbn [mbind go_bind mret go_ret]. eexists. split; [reflexivity|].
    assert (i64 (go_div (Timestamp p) 64000 * 64000) = go_div (Timestamp p) 64000 * 64000)
      as -> by (apply i64_small; lia).
    destruct Hco as [Hpe Hw Hd H7 Hch]. rewrite Ef in Hw. destruct Hw as (-> & Hs & Hz).
    destruct s as [t fr tm sm last mx l]. revert Hpe Hd H7 Hch Hde Ht Hct Hfm. tcc_cbn. intros.
    split_and!; [|done|done]. destruct t as [e1 e2 e3 e4 e5 pc e7 e8 tl dl pay de ck].
    cbn [upd settable_Responder eta_record extInfo lastReport cycles lastExtSN lastSn pktCtn
      sSSRC mSSRC t_len deltaLen payload deltas chunk] in *.
    split; tcc_cbn; cbn [pktCtn payload deltas deltaLen].
    + split; tcc_cbn; [done|by split_and!|done|done|done].
    + done.
    + done.
    + f_equal. symmetry. etransitivity; [exact Ht|].
      unfold first_header, header_bytes. destruct t0. injection Hfm. intros; subst.
      cbn in *. by subst.
    + by rewrite <-Hct.
    + lia.
    + destruct t0. injection Hfm. intros; subst. done.
    + done.
Qed.

Lemma encode_delta_status base p : is_status (encode_delta base p).1.
Proof. unfold encode_delta, is_status. case_test; cbn; auto. Qed.

(** Bytes of the delta of one packet of the list *)
Definition step_enc (base : option Z) (p : rtpExtInfo) : Z * bytes :=
  if Timestamp p =? 0 then (NotReceived, []) else encode_delta base p.
Definition step_base (base : option Z) (p : rtpExtInfo) : option Z :=
  if Timestamp p =? 0 then base else Some (Timestamp p).

Lemma encode_times_cons base p l :
  encode_times base (p :: l) = step_enc base p :: encode_times (step_base base p) l.
Proof. unfold step_enc, step_base. cbn. by case_test. Qed.

(** The header is made at the first received packet. *)
Definition header_after (t0 : Responder) (pkts : list rtpExtInfo) (h : option bytes)
    (p : rtpExtInfo) : option bytes :=
  if Timestamp p =? 0 then h else Some (default (first_header t0 pkts p) h).

Lemma tcc_delta_ok t0 pkts s cs st ds h p :
  loop_ok t0 s cs st ds h -> time_ok p ->
  len ds + 2 * (if Timestamp p =? 0 then 0 else 1) <= 200 ->
  exists s',
    tcc_delta pkts s p = Ok ((step_enc (loop_base s) p).1, s')
    /\ loop_ok t0 s' cs st (ds ++ (step_enc (loop_base s) p).2) (header_after t0 pkts h p)
    /\ loop_base s' = step_base (loop_base s) p
    /\ (firstRecv s' = true \/ (step_enc (loop_base s) p).1 = 0).
Proof.
  intros H Hp Hds. unfold tcc_delta, step_enc, step_base, header_after.
  destruct (Timestamp p =? 0) eqn:E0.
  { exists s. cbn. rewrite app_nil_r. auto. }
  destruct (tcc_delta_start_ok t0 pkts s cs st ds h p H Hp) as (s1 & -> & H1 & Hf1 & Ht1).
  pose proof (ref_time_bounds p Hp) as Hr. pose proof (lo_time _ _ _ _ _ _ H) as Hts.
  destruct H1 as [Hco Hde Hpl Hh Hct Htm Hfm Hdi].
  cbn [mbind go_bind]. unfold time_ok in *.
  assert (timestamp s1 = match loop_base s with Some b => b
          | None => go_div (Timestamp p) 64000 * 64000 end) as Hb by done.
  assert (0 <= timestamp s1 < 9223372036854775) as Htb
    by (rewrite Hb; unfold loop_base; destruct (firstRecv s); lia).
  rewrite i64_small by lia.
  destruct (writeDelta_ok (ts s1) ds (loop_base s) p) as (t' & Hwr & Hde' & Ht');
    [done|lia|done|].
  cbv zeta in Hwr. rewrite <-Hb in Hwr.
  assert ((encode_delta (loop_base s) p).1
    = if ((go_div (Timestamp p - timestamp s1) 250 <? 0)
          || (255 <? go_div (Timestamp p - timestamp s1) 250))%bool
      then ReceivedLargeDelta else ReceivedSmallDelta) as He.
  { unfold encode_delta. rewrite <-Hb. set (d := go_div _ 250).
    destruct (Z.leb_spec 0 d), (Z.leb_spec d 255), (Z.ltb_spec d 0), (Z.ltb_spec 255 d);
      done || lia. }
  rewrite <-He, Hwr. cbn [mbind go_bind mret go_ret].
  destruct s1 as [t fr tm sm last mx l]. revert Hf1 Hco Hpl Hh Hct Hfm Ht'. tcc_cbn.
  intros -> [Hpe Hw Hd H7 Hch] Hpl Hh Hct Hfm Ht'.
  assert (payload t' = payload t /\ t_len t' = t_len t /\ chunk t' = chunk t
    /\ pktCtn t' = pktCtn t /\ resp_frame t t') as (Ep & El & Ec & Ek & Ef).
  { split_and!; [by rewrite Ht'; destruct t..|]. unfold resp_frame. rewrite Ht' at 1. by rewrite Ht'; destruct t. }
  eexists. split; [reflexivity|]. split_and!; [|done|by left].
  split; tcc_cbn; rewrite ?Ep, ?El, ?Ec, ?Ek; [|done..|lia|by eapply resp_frame_trans|done].
  split; tcc_cbn; [done|unfold written in *; by rewrite Ep, El|done|done|by rewrite Ec].
Qed.

(** Chunk logic on a loop state *)
Lemma loop_chunk_ok t0 s cs st ds h status :
  loop_ok t0 s cs st ds h -> is_status status -> firstRecv s = true \/ status = 0 ->
  len st <= 286 ->
  exists s' cs', tcc_chunk s status = Ok s' /\ loop_ok t0 s' cs' (st ++ [status]) ds h
    /\ loop_base s' = loop_base s.
Proof.
  intros [Hco Hde Hpl Hh Hct Htm Hfm Hdi] Hs Hfr Hl.
  destruct (tcc_chunk_ok s cs st status) as (s' & cs' & Hch & H' & Hf' & Ht' & Hfm'); [done..|].
  pose proof (tcc_chunk_differ _ _ _ Hch (co_pending _ _ _ Hco) Hs Hdi) as Hdi'. rewrite Hch.
  exists s', cs'. split; [done|]. split; [|unfold loop_base; by rewrite Hf', Ht'].
  pose proof (chunk_frame_pktCtn _ _ Hfm') as Hct'.
  split; rewrite ?Hf', ?Ht', ?Hct'; try done.
  - destruct Hfm' as [-> _]. by destruct (ts s).
  - destruct Hfm' as (_ & _ & ->). done.
  - destruct Hfm' as (_ & -> & _). done.
  - eauto using resp_frame_trans, chunk_frame_resp.
Qed.

(** The loop over the rest [l] of the packet list *)
Fixpoint header_of (t0 : Responder) (pkts : list rtpExtInfo) (h : option bytes)
    (l : list rtpExtInfo) : option bytes :=
  match l with
  | [] => h
  | p :: l => header_of t0 pkts (header_after t0 pkts h p) l
  end.

Definition received (l : list rtpExtInfo) : list rtpExtInfo :=
  filter (fun p => Timestamp p <> 0) l.

Lemma encode_delta_len base p : len (encode_delta base p).2 <= 2.
Proof. unfold encode_delta. case_test; cbn; unfold len; rewrite ?length_be16; cbn; lia. Qed.

Lemma step_enc_status base p : is_status (step_enc base p).1.
Proof. unfold step_enc. case_test; [by left|apply encode_delta_status]. Qed.

Lemma received_cons p l :
  len (received (p :: l)) = (if Timestamp p =? 0 then 0 else 1) + len (received l).
Proof.
  unfold received. rewrite filter_cons. destruct (decide (Timestamp p <> 0)); case_test;
    try contradiction; rewrite ?len_cons; lia.
Qed.

Lemma step_enc_len base p :
  len (step_enc base p).2 <= 2 * (if Timestamp p =? 0 then 0 else 1).
Proof. unfold step_enc. case_test; [done|]. pose proof (encode_delta_len base p). lia. Qed.

Lemma tcc_loop_ok t0 pkts l s cs st ds h :
  loop_ok t0 s cs st ds h -> Forall time_ok l ->
  len st + len l <= 287 -> len ds + 2 * len (received l) <= 200 ->
  exists s' cs',
    tcc_loop pkts s l = Ok s'
    /\ loop_ok t0 s' cs' (st ++ map fst (encode_times (loop_base s) l))
         (ds ++ concat (map snd (encode_times (loop_base s) l))) (header_of t0 pkts h l).
Proof.
  revert s cs st ds h. induction l as [|p l IH]; intros s cs st ds h H Hl Hst Hds.
  { exists s, cs. cbn. by rewrite !app_nil_r. }
  apply Forall_cons in Hl as [Hp Hl]. cbn [tcc_loop header_of]. unfold tcc_step.
  rewrite encode_times_cons. cbn [map concat]. rewrite received_cons in Hds.
  rewrite len_cons in Hst. pose proof (len_nonneg l). pose proof (len_nonneg (received l)).
  pose proof (step_enc_len (loop_base s) p) as Hsl.
  destruct (tcc_delta_ok t0 pkts s cs st ds h p H Hp)
    as (s1 & -> & Hlo1 & Hb1 & Hf1); [lia|].
  cbn [mbind go_bind fst snd].
  destruct (loop_chunk_ok t0 s1 cs st _ _ _ Hlo1 (step_enc_status _ _) Hf1)
    as (s2 & cs2 & -> & Hlo2 & Hb2); [lia|].
  cbn [mbind go_bind]. rewrite <-Hb1, <-Hb2.
  destruct (IH s2 cs2 _ _ _ Hlo2 Hl) as (s3 & cs3 & -> & Hlo3).
  - rewrite len_app. change (len [_]) with 1. lia.
  - rewrite len_app. lia.
  - exists s3, cs3. split; [done|]. rewrite <-!app_assoc in Hlo3. by rewrite Hb2, Hb1 in *.
Qed.

(** ** Lemmas: the flush and the packet *)

(** What the last chunk says of the pending statuses: a uniform list is
    written whole; of the others the loop [i < statusList.Len()] takes only
    every second round, so half of them are written, and zeros. *)
Definition flush_symbols (s : tcc_state) : list Z :=
  if len (statusList s) =? 0 then []
  else if same s then statusList s
  else
    let k := Z.to_nat ((len (statusList s) + 1) / 2) in
    let size := if maxStatus s =? ReceivedLargeDelta
                then SymbolSizeTwoBit else SymbolSizeOneBit in
    take k (statusList s) ++ replicate (sym_count size - k) 0.

Lemma tcc_flush_ok s cs st :
  chunks_ok s cs st -> firstRecv s = true -> len st <= 287 ->
  exists t' cs', tcc_flush s = Ok t' /\ written t' cs' /\ len cs' <= 42
    /\ decode_chunks cs' = decode_chunks cs ++ flush_symbols s
    /\ chunk t' = 0 /\ chunk_frame (ts s) t'.
Proof.
  intros H Hf Hst. pose proof (words_bound _ _ _ H Hst) as Hc.
  destruct H as [(Hl & Hmx & Hsm) Hw Hd H7 Hch]. rewrite Hf in Hw.
  assert (len (statusList s) <= 287) as Hll by (rewrite <-Hd, len_app in Hst;
    pose proof (len_nonneg (decode_chunks cs)); lia).
  pose proof (len_nonneg (statusList s)). unfold tcc_flush, flush_symbols.
  destruct (Z.ltb_spec 0 (len (statusList s))) as [H0|H0].
  2:{ test_true. exists (ts s), cs. rewrite app_nil_r.
      split_and!; auto using chunk_frame_refl; lia. }
  test_false. set (l := statusList s) in *.
  assert (forall c, len (cs ++ [c]) <= 42) as Hc' by (intros; rewrite len_app; change (len [c]) with 1; lia).
  destruct (same s).
  - destruct Hsm as [Hu _].
    assert (l = replicate (length l) (lastStatus s)) as Hrep
      by (clear -Hu; induction Hu; cbn; congruence).
    assert (is_status (lastStatus s)) as Hls.
    { destruct l as [|v l']; [done|].
      apply Forall_cons in Hl as [? _], Hu as [-> _]. done. }
    rewrite u16_small by lia.
    edestruct (writeRunLengthChunk_ok (ts s) cs (lastStatus s) (len l))
      as (t' & -> & c & Hw' & Hdc & Hc0 & Hfm);
      [done..|unfold is_status in *; lia|lia|].
    exists t', (cs ++ [c]). unfold len in Hdc. rewrite Nat2Z.id, <-Hrep in Hdc.
    rewrite decode_chunks_snoc, Hdc. split_and!; auto.
  - set (size := if _ =? _ then _ else _).
    assert (size = 0 \/ size = 1) as Hsz by (subst size; case_test; auto).
    rewrite pop_shrinking_pack, Z.sub_0_r by lia.
    set (k := Z.to_nat ((len l + 1) / 2)).
    assert (length (take k l) = k) as Hk
      by (rewrite length_take; subst k; unfold len in *; zlia).
    edestruct (write_vector_ok (ts s) cs size (take k l))
      as (t' & -> & c & Hw' & Hdc & Hc0 & Hfm); [done..| | |].
    + rewrite Hk. subst k size. unfold len in *. revert Hsm. case_test; cbn; intros; zlia.
    + apply Forall_take, Forall_status_range; [done|]. subst size.
      pose proof (max_status_status _ Hl) as Hms.
      rewrite Hmx in *. unfold is_status, ReceivedLargeDelta, SymbolSizeOneBit in *.
      case_test; [by left|right]. lia.
    + exists t', (cs ++ [c]). rewrite Hk in Hdc. rewrite decode_chunks_snoc, Hdc.
      split_and!; auto.
Qed.

Lemma blit_zeros x m (src : bytes) :
  (length src <= m)%nat ->
  blit (x ++ replicate m 0) (length x) src = (x ++ src) ++ replicate (m - length src) 0.
Proof.
  intros H. rewrite blit_eq by (rewrite length_app, length_replicate; lia).
  rewrite take_app_le, take_ge by lia. rewrite <-app_assoc. do 2 f_equal.
  rewrite drop_app_ge by lia.
  replace (length x + length src - length x)%nat with (length src) by lia.
  apply drop_replicate.
Qed.

Lemma go_slice_prefix {A} (l : list A) n :
  0 <= n <= len l -> go_slice l 0 n = Ok (take (Z.to_nat n) l).
Proof. intros H. rewrite go_slice_ok by lia. by rewrite Z.sub_0_r. Qed.

Lemma go_copy_zeros x m off (src : bytes) :
  off = len x -> (length src <= m)%nat ->
  go_copy (x ++ replicate m 0) off src = Ok ((x ++ src) ++ replicate (m - length src) 0).
Proof.
  intros -> H. unfold go_copy. rewrite len_app. pose proof (len_nonneg x).
  pose proof (len_nonneg (replicate m 0)). test_true.
  unfold len at 1. rewrite Nat2Z.id, blit_zeros by done. done.
Qed.

Lemma go_copy_nil (l : bytes) off : 0 <= off <= len l -> go_copy l off [] = Ok l.
Proof.
  intros H. unfold go_copy. test_true. f_equal. unfold blit. rewrite firstn_nil, Nat.add_0_r.
  apply take_drop.
Qed.

Lemma insert_last_zero (x : bytes) n v :
  <[(length (x ++ replicate (S n) 0%Z) - 1)%nat := v]> (x ++ replicate (S n) 0)
  = x ++ replicate n 0 ++ [v].
Proof.
  rewrite length_app, length_replicate.
  replace (length x + S n - 1)%nat with (length x + n)%nat by lia.
  rewrite insert_app_r. f_equal. rewrite replicate_S_end.
  rewrite <-(length_replicate n 0) at 1. rewrite <-(Nat.add_0_r (length (replicate n 0))) at 1.
  by rewrite insert_app_r.
Qed.

(** Zero padding that ends with its own length *)
Definition padding (n : Z) : bytes :=
  if n =? 0 then [] else replicate (Z.to_nat n - 1) 0 ++ [n].

Lemma tcc_packet_ok hdr_marshal t cs ds :
  (forall p c ty l, length (hdr_marshal p c ty l) = 4%nat) ->
  written t cs -> len cs <= 42 -> deltas_ok t ds -> len ds <= 200 ->
  let body := take 16 (payload t) ++ concat (map be16 cs) ++ ds in
  let n := (4 - (4 + len body) mod 4) mod 4 in
  tcc_packet hdr_marshal t
  = Ok (hdr_marshal (negb (n =? 0)) FormatTCC TypeTransportSpecificFeedback
          ((4 + len body + n) / 4 - 1)
        ++ body ++ padding n).
Proof.
  intros Hhm (Hl & Hp & Hs) Hc (Hd2 & Hdl & Hdt) Hds body n.
  pose proof (len_nonneg cs). pose proof (len_nonneg ds).
  assert (length (concat (map be16 cs)) = 2 * length cs)%nat as Hcc.
  { clear. induction cs as [|c cs IH]; [done|]. cbn [map concat length].
    rewrite length_app, length_be16, IH. lia. }
  assert (len body = t_len t + deltaLen t) as Hb.
  { subst body. unfold len in *. rewrite !length_app, length_take, Hcc. lia. }
  assert (take (Z.to_nat (t_len t)) (payload t)
    = take 16 (payload t) ++ concat (map be16 cs)) as Htl.
  { rewrite <-Hs. unfold sub. rewrite Hl.
    replace (Z.to_nat (16 + 2 * len cs)) with (16 + 2 * length cs)%nat by (unfold len; lia).
    by rewrite take_take_drop. }
  unfold tcc_packet. rewrite (u16_small (t_len t + deltaLen t + 4)) by lia.
  assert (go_rem (t_len t + deltaLen t + 4) 4 = (4 + len body) mod 4) as ->.
  { unfold go_rem. rewrite Z.rem_mod_nonneg by lia. f_equal. lia. }
  assert ((if negb ((4 + len body) mod 4 =? 0) then 4 - (4 + len body) mod 4 else 0) = n) as ->.
  { subst n. destruct (Z.eqb_spec ((4 + len body) mod 4) 0) as [->|]; [done|]. cbn. zlia. }
  assert (negb ((4 + len body) mod 4 =? 0) = negb (n =? 0)) as ->.
  { subst n. destruct (Z.eqb_spec ((4 + len body) mod 4) 0), (Z.eqb_spec ((4 - (4 + len body) mod 4) mod 4) 0);
      done || zlia. }
  assert (0 <= n < 4) as Hn by (subst n; zlia).
  rewrite (u16_small (_ + n)) by lia. unfold go_div.
  rewrite Z.quot_div_nonneg, u16_small by zlia.
  replace (t_len t + deltaLen t + 4 + n) with (4 + len body + n) by lia.
  set (hb := hdr_marshal _ _ _ _). assert (length hb = 4)%nat as Hhb by apply Hhm.
  assert (Z.to_nat (4 + len body + n) = 4 + length body + Z.to_nat n)%nat as HN
    by (unfold len; lia).
  rewrite HN.
  rewrite <-(app_nil_l (replicate _ 0)), go_copy_zeros by (done || lia).
  cbn [mbind go_bind app]. rewrite Hhb.
  rewrite (go_slice_prefix (payload t)), Htl by lia. cbn [mbind go_bind].
  assert (length (take 16 (payload t) ++ concat (map be16 cs)) + length ds = length body)%nat
    as Hlb by (subst body; rewrite !length_app; lia).
  rewrite go_copy_zeros by (unfold len; lia). cbn [mbind go_bind].
  rewrite (go_slice_prefix (deltas t)) by lia. cbn [mbind go_bind].
  assert (take (Z.to_nat (deltaLen t)) (deltas t) = ds) as ->
    by (rewrite Hdl; unfold len; by rewrite Nat2Z.id).
  rewrite go_copy_zeros; [|rewrite len_app; unfold len in *; lia|lia].
  cbn [mbind go_bind].
  assert ((hb ++ take 16 (payload t) ++ concat (map be16 cs)) ++ ds = hb ++ body) as ->
    by (subst body; by rewrite <-!app_assoc).
  match goal with |- context [replicate ?m 0] => replace m with (Z.to_nat n) by lia end.
  unfold padding. destruct (Z.eqb_spec n 0) as [->|Hn0]; cbn [negb].
  - cbn. by rewrite <-app_assoc.
  - destruct (Z.to_nat n) as [|k] eqn:Ek; [lia|].
    match goal with |- context [0 <? ?l] => assert (0 <? l = true) as -> end.
    { apply Z.ltb_lt. unfold len. rewrite length_app, length_replicate. lia. }
    rewrite insert_last_zero. replace (S k - 1)%nat with k by lia.
    cbn. by rewrite <-app_assoc.
Qed.

Lemma header_of_Some t0 pkts h l : header_of t0 pkts (Some h) l = Some h.
Proof.
  revert h. induction l as [|p l IH]; intros h; [done|]. cbn [header_of].
  unfold header_after. case_test; apply IH.
Qed.

Lemma header_of_None t0 pkts l :
  header_of t0 pkts None l = first_header t0 pkts <$> head (received l).
Proof.
  induction l as [|p l IH]; [done|]. cbn [header_of]. unfold header_after, received.
  rewrite filter_cons. case_test; destruct (decide _); try contradiction; [exact IH|].
  apply header_of_Some.
Qed.

(** ** Invariant of the responder between reports *)

Definition resp_wf (t : Responder) : Prop :=
  len (payload t) = 100 /\ len (deltas t) = 200 /\ t_len t = 0 /\ deltaLen t = 0 /\ chunk t = 0.

Lemma responder_new_wf ssrc rand now : resp_wf (NewTransportWideCCResponder ssrc rand now).
Proof. done. Qed.

Lemma start_ok t : resp_wf t -> loop_ok t (tcc_start t) [] [] [] None.
Proof.
  intros (Hp & Hd & Hl & Hdl & Hc).
  split; cbn [ts tcc_start firstRecv timestamp]; try done; try lia.
  by apply resp_frame_refl.
Qed.

(** How the decoded symbols of a report relate to the statuses: equal, unless
    the last, partial vector mixes statuses. *)
Definition reported (st decoded : list Z) : Prop :=
  exists front tl, st = front ++ tl
    /\ ((uniform tl /\ decoded = st)
        \/ (~ uniform tl /\ len tl <= 13
            /\ exists z, decoded = front ++ take (Z.to_nat ((len tl + 1) / 2)) tl
                                   ++ replicate z 0)).

Lemma flush_reported s cs st :
  chunks_ok s cs st -> differ_ok s ->
  reported st (decode_chunks cs ++ flush_symbols s).
Proof.
  intros [(Hl & Hmx & Hsm) _ Hd _ _] Hdi. exists (decode_chunks cs), (statusList s).
  split; [done|]. unfold flush_symbols. destruct (Z.eqb_spec (len (statusList s)) 0) as [H0|H0].
  - left. apply len_0_inv in H0. rewrite H0 in *. split; [by exists 0|done].
  - destruct (same s) eqn:Es; [left|right].
    + split; [|done]. destruct Hsm as [Hu _]. by exists (lastStatus s).
    + split_and!; [by apply Hdi|destruct (_ =? _); lia|]. by eexists.
Qed.

(** ** Properties *)

(** C21. The feedback packet: RTCP header, the 16 bytes of [writeHeader], the
    status chunks, the receive deltas and the padding, for any list of at most
    287 numbers of which 1 to 100 arrived.  Decoding the chunks gives back the
    statuses, one per number, when the statuses that are left for the last
    chunk are all the same; when they are mixed (at most 13 of them), the last
    chunk keeps only their first half, rounded up, and the rest read back as
    not received ([mixed_tail_loses_half]).  The responder is ready for the
    next report. *)
Theorem feedback_packet hm t pkts last p :
  (forall pd c ty l, length (hm pd c ty l) = 4%nat) ->
  resp_wf t -> extInfo t <> [] ->
  fill_pkts (lastExtSN t) (sort_by ExtTSN (extInfo t)) = (pkts, last) ->
  Forall time_ok pkts -> len pkts <= 287 -> len (received pkts) <= 100 ->
  head (received pkts) = Some p ->
  exists t' cs,
    let body := first_header t pkts p ++ concat (map be16 cs) ++ delta_bytes pkts in
    let n := (4 - (4 + len body) mod 4) mod 4 in
    buildTransportCCPacket hm t
      = Ok (t', Some (hm (negb (n =? 0)) FormatTCC TypeTransportSpecificFeedback
                        ((4 + len body + n) / 4 - 1) ++ body ++ padding n))
    /\ reported (statuses pkts) (decode_chunks cs)
    /\ resp_wf t' /\ extInfo t' = [] /\ lastExtSN t' = last /\ pktCtn t' = u8 (pktCtn t + 1).
Proof.
  intros Hhm Hwf Hne Hfill Htm Hn Hr Hp. unfold buildTransportCCPacket.
  destruct (extInfo t) as [|i0 infos] eqn:Ei; [done|]. rewrite Hfill.
  set (t0 := t <| lastExtSN := last |> <| extInfo := [] |>).
  assert (resp_wf t0) as Hwf0 by (destruct t; exact Hwf).
  destruct (tcc_loop_ok t0 pkts pkts _ _ _ _ _ (start_ok t0 Hwf0) Htm) as (s & cs & -> & Hlo);
    [change (len []) with 0; lia..|].
  rewrite header_of_None, Hp in Hlo. cbn [fmap option_fmap option_map app] in Hlo.
  destruct Hlo as [Hco Hde Hpl Hh Hct _ Hfm Hdi].
  destruct (firstRecv s) eqn:Ef; [|done]. injection Hh as Hh.
  change (loop_base (tcc_start t0)) with (@None Z) in Hco, Hde.
  fold (statuses pkts) in Hco. fold (delta_bytes pkts) in Hde.
  assert (len (statuses pkts) <= 287) as Hst.
  { unfold statuses, len. rewrite length_map.
    enough (forall b l, length (encode_times b l) = length l) as -> by (unfold len in Hn; lia).
    clear. intros b l. revert b. induction l as [|p l IH]; intros b; [done|].
    rewrite encode_times_cons. cbn. by rewrite IH. }
  pose proof (flush_reported _ _ _ Hco Hdi) as Hrep.
  destruct (tcc_flush_ok s cs _ Hco Ef Hst) as (t1 & cs1 & Hfl & Hw & Hc & Hdec & Hch & Hcf).
  cbn [mbind go_bind]. rewrite Hfl. cbn [mbind go_bind].
  assert (deltas_ok t1 (delta_bytes pkts)) as Hde1
    by (destruct Hcf as [-> _]; by destruct (ts s)).
  assert (len (delta_bytes pkts) <= 200) as Hd200.
  { destruct Hde as (H200 & _ & <-). unfold len in *. rewrite length_take. lia. }
  pose proof (tcc_packet_ok hm t1 cs1 (delta_bytes pkts) Hhm Hw Hc Hde1 Hd200) as Hpk.
  destruct Hcf as (Hcf & H16 & _). rewrite H16, <-Hh in Hpk. cbv zeta in Hpk.
  change (first_header t0 pkts p) with (first_header t pkts p) in Hpk.
  eexists _, cs1. cbv zeta. rewrite Hpk. cbn [mbind go_bind mret go_ret].
  split; [reflexivity|]. split; [by rewrite Hdec|].
  destruct Hw as (_ & Hp1 & _), Hde1 as (Hd1 & _).
  split_and!; cbn [upd settable_Responder eta_record extInfo lastExtSN pktCtn]; try done;
    rewrite Hcf, Hfm; try by destruct t.
Qed.

(** A report in which three numbers arrived and one between them did not *)
Definition ex_hm (pd : bool) (c ty l : Z) : bytes :=
  [Z.lor 128 (if pd then 32 + c else c); ty; Z.shiftr l 8; u8 l].
Definition ex_resp : Responder :=
  (NewTransportWideCCResponder 7 9 0) <| lastExtSN := 10 |>
    <| extInfo := [ExtInfo 14 65100; ExtInfo 11 64000; ExtInfo 12 64900] |>.

Lemma feedback_packet_witness :
  exists t' pkt, buildTransportCCPacket ex_hm ex_resp = Ok (t', Some pkt)
    /\ len pkt mod 4 = 0 /\ pktCtn t' = 1.
Proof.
  pose proof (feedback_packet ex_hm ex_resp
    [ExtInfo 11 64000; ExtInfo 12 64900; ExtInfo 13 0; ExtInfo 14 65100] 14
    (ExtInfo 11 64000)) as H.
  destruct H as (t' & cs & _ & _ & _ & _ & _ & _).
  - done.
  - done.
  - done.
  - vm_compute. reflexivity.
  - repeat constructor; cbn; lia.
  - vm_compute. discriminate.
  - vm_compute. discriminate.
  - vm_compute. reflexivity.
  - eexists _, _. split; [vm_compute; reflexivity|]. split; vm_compute; reflexivity.
Defined.

(** When the statuses left at the end differ, the loop that writes them pops
    from the list it measures: of [n >= 2] statuses only the first half is
    written, and the others read as zeros, "not received", although their
    deltas are in the packet. *)
Theorem mixed_tail_loses_half s cs st :
  chunks_ok s cs st -> firstRecv s = true -> len st <= 287 -> same s = false ->
  2 <= len (statusList s) ->
  let k := Z.to_nat ((len (statusList s) + 1) / 2) in
  (k < length (statusList s))%nat /\
  exists t' cs',
    tcc_flush s = Ok t' /\ written t' cs'
    /\ decode_chunks cs' = decode_chunks cs ++ take k (statusList s)
         ++ replicate ((if maxStatus s =? ReceivedLargeDelta then 7 else 14) - k) 0.
Proof.
  intros H Hf Hst Hs H2 k. split; [subst k; unfold len in *; zlia|].
  destruct (tcc_flush_ok s cs st H Hf Hst) as (t' & cs' & Hfl & Hw & _ & Hd & _).
  unfold flush_symbols in Hd. rewrite Hs in Hd. revert Hd. test_false. intros Hd.
  exists t', cs'. split_and!; [done|done|]. rewrite Hd. by destruct (_ =? _).
Qed.

(** Small delta, then a lost number, then two small deltas *)
Definition ex_mixed : tcc_state :=
  TccState ((NewTransportWideCCResponder 7 9 0) <| t_len := 16 |>) true 65100 false 1 1
    [1; 0; 1; 1].

Lemma mixed_tail_loses_half_witness :
  exists t' cs', tcc_flush ex_mixed = Ok t' /\ written t' cs'
    /\ decode_chunks cs' = [1; 0] ++ replicate 12 0.
Proof.
  destruct (mixed_tail_loses_half ex_mixed [] [1; 0; 1; 1])
    as (_ & t' & cs' & Hf & Hw & Hd).
  - split; cbn; try done.
    split_and!; cbn; [repeat constructor; unfold is_status; lia|done|vm_compute; discriminate].
  - done.
  - vm_compute. discriminate.
  - done.
  - vm_compute. discriminate.
  - exists t', cs'. done.
Defined.

Lemma gap_pkts_seq n j :
  0 <= j -> j + Z.of_nat n < 4294967296 ->
  map ExtTSN (gap_pkts n j) = seqZ j (Z.of_nat n) /\ received (gap_pkts n j) = [].
Proof.
  revert j. induction n as [|n IH]; intros j Hj Hn; [done|].
  cbn [gap_pkts]. rewrite u32_small by lia.
  destruct (IH (j + 1)) as [IH1 IH2]; [lia..|]. split.
  - cbn [map ExtTSN]. rewrite IH1, (seqZ_cons j) by lia. do 2 f_equal; lia.
  - unfold received in *. by rewrite filter_cons_False by (cbn; lia).
Qed.

Lemma seqZ_glue a n b m :
  0 <= n -> 0 <= m -> b = a + n -> seqZ a n ++ seqZ b m = seqZ a (n + m).
Proof. intros ? ? ->. by rewrite seqZ_app. Qed.

(** Gaps are filled: from a sorted list of new numbers, the report covers
    every number after the last one reported, in order, and what it says of
    the received ones is what was recorded. *)
Theorem fill_pkts_consecutive last infos :
  0 < last -> StronglySorted (fun x y => ExtTSN x < ExtTSN y) infos ->
  Forall (fun i => last < ExtTSN i < 4294967296 /\ Timestamp i <> 0) infos ->
  let '(pkts, last') := fill_pkts last infos in
  map ExtTSN pkts = seqZ (last + 1) (last' - last)
  /\ received pkts = infos
  /\ last' = List.last (map ExtTSN infos) last.
Proof.
  revert last. induction infos as [|i infos IH]; intros last H0 Hs Hl.
  { cbn. rewrite Z.sub_diag. done. }
  apply Forall_cons in Hl as [[Hi Hti] Hl]. inversion_clear Hs as [|? ? Hs' Hgt].
  cbn [fill_pkts]. test_false.
  assert (last =? 0 = false) as -> by lia. cbn [negb].
  specialize (IH (ExtTSN i) ltac:(lia) Hs').
  destruct (fill_pkts (ExtTSN i) infos) as [rest last'].
  destruct IH as (IH1 & IH2 & IH3).
  { apply Forall_forall. intros x Hx.
    pose proof (proj1 (Forall_forall _ _) Hl x Hx). pose proof (proj1 (Forall_forall _ _) Hgt x Hx).
    cbn in *. lia. }
  assert (ExtTSN i <= last') as Hge.
  { rewrite IH3. clear -Hgt. destruct infos as [|j infos] using rev_ind; [cbn; lia|].
    rewrite map_app. cbn [map]. rewrite last_last.
    apply Forall_app in Hgt as [_ [? _]%Forall_cons]. lia. }
  rewrite u32_small by lia.
  destruct (gap_pkts_seq (Z.to_nat (ExtTSN i - (last + 1))) (last + 1)) as [G1 G2]; [lia..|].
  split_and!.
  - rewrite map_app. cbn [map]. rewrite G1, IH1, Z2Nat.id by lia.
    change (ExtTSN i :: ?l) with ([ExtTSN i] ++ l).
    replace [ExtTSN i] with (seqZ (ExtTSN i) 1) by (rewrite seqZ_cons by lia; done).
    rewrite !seqZ_glue by lia. f_equal. lia.
  - unfold received in *. rewrite filter_app, G2, filter_cons_True by done. by rewrite IH2.
  - rewrite IH3. clear. revert i. induction infos as [|j infos IH]; intros i; [done|].
    cbn [map List.last] in *. destruct infos; [done|]. apply (IH i).
Qed.

Lemma fill_pkts_consecutive_witness :
  fill_pkts 65530 [ExtInfo 65533 5; ExtInfo 65537 6]
  = (fst (fill_pkts 65530 [ExtInfo 65533 5; ExtInfo 65537 6]), 65537)
  /\ map ExtTSN (fst (fill_pkts 65530 [ExtInfo 65533 5; ExtInfo 65537 6])) = seqZ 65531 7.
Proof.
  pose proof (fill_pkts_consecutive 65530 [ExtInfo 65533 5; ExtInfo 65537 6]) as H.
  destruct (fill_pkts 65530 _) as [pkts last'].
  destruct H as (Hm & _ & Hl).
  - lia.
  - repeat constructor; cbn; lia.
  - repeat constructor; cbn; lia.
  - cbn in Hl. subst last'. split; [done|exact Hm].
Defined.

(** Numbers older than the last report are dropped; when nothing is left, no
    header is written, and the packet sent is the four bytes of the RTCP
    header alone. *)
Theorem stale_report_has_no_header hm t :
  (forall pd c ty l, length (hm pd c ty l) = 4%nat) ->
  resp_wf t -> extInfo t <> [] ->
  Forall (fun i => ExtTSN i < lastExtSN t) (sort_by ExtTSN (extInfo t)) ->
  buildTransportCCPacket hm t
  = Ok (t <| extInfo := [] |>, Some (hm false FormatTCC TypeTransportSpecificFeedback 0)).
Proof.
  intros Hhm (Hp & Hd & Hl & Hdl & Hc) Hne Hst. unfold buildTransportCCPacket.
  destruct (extInfo t) as [|i0 infos] eqn:Ei; [done|].
  assert (forall l, Forall (fun i => ExtTSN i < lastExtSN t) l ->
    fill_pkts (lastExtSN t) l = ([], lastExtSN t)) as Hf.
  { induction 1 as [|i l Hi _ IH]; [done|]. cbn [fill_pkts]. by test_true. }
  rewrite Hf by done. set (t1 := t <| lastExtSN := lastExtSN t |> <| extInfo := [] |>).
  cbn [tcc_loop mbind go_bind mret go_ret].
  unfold tcc_flush, tcc_start. tcc_cbn. change (0 <? len []) with false. cbv beta iota.
  cbn [mbind go_bind mret go_ret].
  assert (t_len t1 = 0 /\ deltaLen t1 = 0 /\ len (payload t1) = 100 /\ len (deltas t1) = 200)
    as (E1 & E2 & E3 & E4) by done.
  pose proof (Hhm false FormatTCC TypeTransportSpecificFeedback 0) as H4.
  assert (tcc_packet hm t1 = Ok (hm false FormatTCC TypeTransportSpecificFeedback 0)) as ->.
  { unfold tcc_packet. rewrite E1, E2.
    change (u16 (0 + 0 + 4)) with 4. change (go_rem 4 4) with 0.
    cbn [negb Z.eqb]. change (u16 (4 + 0)) with 4. change (u16 (go_div 4 4 - 1)) with 0.
    set (hb := hm _ _ _ _) in *.
    change (replicate (Z.to_nat 4) 0) with ([] ++ replicate 4 0).
    rewrite (go_copy_zeros [] 4) by (done || lia). cbn [mbind go_bind app]. rewrite H4.
    rewrite !go_slice_prefix by lia. cbn [mbind go_bind]. change (take (Z.to_nat 0) _) with (@nil Z).
    change (replicate (4 - 4) 0) with (@nil Z). rewrite app_nil_r.
    rewrite go_copy_nil by (unfold len; lia). cbn [mbind go_bind].
    by rewrite go_copy_nil by (unfold len; lia). }
  cbn [mbind go_bind mret go_ret]. do 2 f_equal. subst t1. destruct t. cbn in *. by subst.
Qed.

Lemma stale_report_has_no_header_witness :
  buildTransportCCPacket ex_hm
    ((NewTransportWideCCResponder 7 9 0) <| lastExtSN := 10 |> <| extInfo := [ExtInfo 8 65100] |>)
  = Ok ((NewTransportWideCCResponder 7 9 0) <| lastExtSN := 10 |>, Some [143; 205; 0; 0]).
Proof.
  rewrite (stale_report_has_no_header ex_hm); [reflexivity|done|done|done|].
  change (sort_by _ _) with [ExtInfo 8 65100]. repeat constructor; cbn; lia.
Defined.

(** Deltas that fit 16 bits are kept; the clamp of the others looks at the
    sign of the value already truncated, so a gap of 8.2 to 16.4 seconds is
    reported as the most negative delta. *)
Theorem clamp_delta_spec d :
  (-32768 <= d < 32768 -> clamp_delta d = d)
  /\ (32768 <= d <= 65535 -> clamp_delta d = -32768)
  /\ (-65535 <= d < -32768 -> clamp_delta d = 32767).
Proof.
  unfold clamp_delta. split_and!; intros H.
  - rewrite i16_small by done. by rewrite Z.eqb_refl.
  - assert (i16 d = d - 65536) as -> by wrap_lia.
    assert (d - 65536 =? d = false) as -> by lia. cbn [negb]. by test_false.
  - assert (i16 d = d + 65536) as -> by wrap_lia.
    assert (d + 65536 =? d = false) as -> by lia. cbn [negb]. by test_true.
Qed.

(** A run of [Push] calls *)
Fixpoint push_all (hm : bool -> Z -> Z -> Z -> bytes) (t : Responder)
    (l : list (Z * Z)) : go (Responder * list (option bytes)) :=
  match l with
  | [] => mret (t, [])
  | (sn, ns) :: l =>
      r ← Push hm t sn ns false;
      q ← push_all hm r.1 l;
      mret (q.1, r.2 :: q.2)
  end.

(** 101 packets, one every 250 microseconds, in reverse order *)
Definition reverse_burst : list (Z * Z) :=
  map (fun i => (300 - Z.of_nat i, 1000000000 + 250000 * Z.of_nat i)) (seq 0 101).

(** A burst of 101 packets that arrives in reverse order makes every receive
    delta but the first a two-byte one: 201 bytes, one more than the array
    of deltas holds, and the report panics. *)
Theorem reverse_burst_panics hm :
  push_all hm (NewTransportWideCCResponder 7 9 950000000) reverse_burst = Panic.
Proof. vm_compute. reflexivity. Qed.

(** C38. In-order packets that skip at most 4094 numbers are recorded under their
    extended sequence numbers, through any number of wraps; the responder
    reports when it has 21 packets and 100 ms passed, 101 packets, or a
    marker and 500 ms. *)
Theorem Push_extends hm t v v' timeNS marker :
  0 <= v -> v < v' -> v' <= v + 4095 -> v' < 4294967296 ->
  lastSn t = v mod 65536 -> cycles t = v - v mod 65536 ->
  let t' := t <| cycles := v' - v' mod 65536 |> <| lastSn := v' mod 65536 |>
              <| extInfo := extInfo t ++ [ExtInfo v' (go_div timeNS 1000)] |> in
  let delta := i64 (timeNS - lastReport t) in
  Push hm t (v' mod 65536) timeNS marker
  = if ((20 <? len (extInfo t')) && negb (mSSRC t =? 0) && (tccReportDelta <=? delta))
       || (100 <? len (extInfo t')) || (marker && (tccReportDeltaAfterMark <=? delta))
    then r ← buildTransportCCPacket hm t'; mret (r.1 <| lastReport := timeNS |>, r.2)
    else Ok (t', None).
Proof.
  intros H0 Hlt Hle Hv Hsn Hcy t' delta. unfold Push.
  assert (Z.land (lastSn t) 65535 = v mod 65536) as ->.
  { rewrite Hsn. change 65535 with (Z.ones 16). rewrite Z.land_ones by lia.
    change (2 ^ 16) with 65536. apply Z.mod_small. zlia. }
  assert ((if (v' mod 65536 <? 4095) && (61440 <? v mod 65536)
           then t <| cycles := u32 (cycles t + 65536) |> else t)%bool
    = t <| cycles := v' - v' mod 65536 |>) as ->.
  { destruct (Z.ltb_spec (v' mod 65536) 4095), (Z.ltb_spec 61440 (v mod 65536)); cbn [andb].
    - rewrite Hcy. replace (u32 _) with (v' - v' mod 65536) by wrap_lia. done.
    - replace (v' - v' mod 65536) with (cycles t) by zlia. by destruct t.
    - replace (v' - v' mod 65536) with (cycles t) by zlia. by destruct t.
    - replace (v' - v' mod 65536) with (cycles t) by zlia. by destruct t. }
  cbn [upd settable_Responder eta_record cycles extInfo mSSRC lastReport].
  assert (Z.lor (v' - v' mod 65536) (v' mod 65536) = v') as ->.
  { rewrite (lor_add_low _ _ 16); [lia|lia|change (2 ^ 16) with 65536; zlia|].
    change (2 ^ 16) with 65536. zlia. }
  reflexivity.
Qed.

Lemma Push_extends_witness :
  Push ex_hm ((NewTransportWideCCResponder 7 9 0) <| lastSn := 65535 |>) 1 5000 false
  = Ok ((NewTransportWideCCResponder 7 9 0) <| cycles := 65536 |> <| lastSn := 1 |>
          <| extInfo := [ExtInfo 65537 5] |>, None).
Proof.
  pose proof (Push_extends ex_hm ((NewTransportWideCCResponder 7 9 0) <| lastSn := 65535 |>)
    65535 65537 5000 false) as H.
  etransitivity; [apply H; done || lia|]. reflexivity.
Defined.
