(* ===== verification/Sequencer.v ===== *)
(** * The sequencer of a down track ([internal/sfu/sequencer.go])

    A ring of 500 records of the packets sent to a subscriber, from which
    [getSeqNoPairs] finds the publisher's packets that a NACK asks for.  The
    clock is an argument: [refTime] is the code's
    [uint32(time.Now().UnixNano()/1e6 - n.startTime)]. *)

From S2P Require Import Prelude GoNum GoSlice.
#[local] Open Scope Z_scope.

Definition maxPacketMetaHistory : Z := 500.
Definition ignoreRetransmission : Z := 100.

Record packetMeta := PacketMeta {
  sourceSeqNo : Z;
  targetSeqNo : Z;
  pm_timestamp : Z;
  lastNack : Z;
  pm_layer : Z }.
#[export] Instance settable_packetMeta : Settable packetMeta := fun p =>
  PacketMeta (sourceSeqNo p) (targetSeqNo p) (pm_timestamp p) (lastNack p) (pm_layer p).

#[export] Instance packetMeta_eq_dec : EqDecision packetMeta.
Proof. solve_decision. Defined.

Record sequencer := Sequencer {
  sq_init : bool;
  sq_seq : list packetMeta;
  sq_step : Z;
  sq_headSN : Z;
  startTime : Z }.
#[export] Instance settable_sequencer : Settable sequencer := fun n =>
  Sequencer (sq_init n) (sq_seq n) (sq_step n) (sq_headSN n) (startTime n).

Definition newSequencer (now : Z) : sequencer :=
  Sequencer false (replicate (Z.to_nat maxPacketMetaHistory) (PacketMeta 0 0 0 0 0)) 0 0
    (go_div now 1000000).

(** [n.step++], back to the front at the end of the ring *)
Definition seq_step (step : Z) : Z :=
  if maxPacketMetaHistory <=? step + 1 then 0 else step + 1.

(** [for i := uint16(1); i < inc; i++]: [inc - 1] rounds *)
Definition seq_skip (inc step : Z) : Z := Nat.iter (Z.to_nat (inc - 1)) seq_step step.

(** [n.seq[n.step] = meta; n.step++] *)
Definition seq_store (n : sequencer) (meta : packetMeta) : go sequencer :=
  if ((0 <=? sq_step n) && (sq_step n <? len (sq_seq n)))%bool
  then mret (n <| sq_seq := <[Z.to_nat (sq_step n) := meta]> (sq_seq n) |>
               <| sq_step := seq_step (sq_step n) |>)
  else Panic.

(** [push]: the record stored, if one is, and the new state.  The position
    computed for a late packet is used for the age test only. *)
Definition push (n : sequencer) (sn offSn timeStamp layer : Z) (head : bool)
  : go (sequencer * option packetMeta) :=
  let n := if sq_init n then n else n <| sq_headSN := offSn |> <| sq_init := true |> in
  let meta := PacketMeta sn offSn timeStamp 0 layer in
  if head then
    let inc := u16 (offSn - sq_headSN n) in
    let n := n <| sq_step := seq_skip inc (sq_step n) |> <| sq_headSN := offSn |> in
    n ← seq_store n meta;
    mret (n, Some meta)
  else
    let pos := sq_step n - u16 (sq_headSN n - offSn) in
    if ((pos <? 0) && (maxPacketMetaHistory <=? pos * -1))%bool then mret (n, None)
    else
      n ← seq_store n meta;
      mret (n, Some meta).

(** Slot in which [getSeqNoPairs] looks for [sn]; none if it is too old *)
Definition seq_slot (n : sequencer) (sn : Z) : option Z :=
  let pos := sq_step n - u16 (sq_headSN n - sn) - 1 in
  if pos <? 0 then
    if maxPacketMetaHistory <=? pos * -1 then None
    else Some (maxPacketMetaHistory + pos)
  else Some pos.

(** One round of the loop of [getSeqNoPairs] *)
Definition seq_pair (refTime : Z) (n : sequencer) (sn : Z) : go (sequencer * list packetMeta) :=
  match seq_slot n sn with
  | None => mret (n, [])
  | Some pos =>
      m ← go_index (sq_seq n) pos;
      if ((targetSeqNo m =? sn)
          && ((lastNack m =? 0) || (ignoreRetransmission <? u32 (refTime - lastNack m))))%bool
      then
        let m := m <| lastNack := refTime |> in
        mret (n <| sq_seq := <[Z.to_nat pos := m]> (sq_seq n) |>, [m])
      else mret (n, [])
  end.

Fixpoint getSeqNoPairs (refTime : Z) (n : sequencer) (seqNo : list Z)
  : go (sequencer * list packetMeta) :=
  match seqNo with
  | [] => mret (n, [])
  | sn :: seqNo =>
      r ← seq_pair refTime n sn;
      q ← getSeqNoPairs refTime r.1 seqNo;
      mret (q.1, r.2 ++ q.2)
  end.

(** ** Specification: the packets sent so far

    A packet sent has an unbounded number [e]; the code sees [e mod 65536].
    [seq_ok n H log]: the ring [n], whose newest number is [H], holds the
    records of [log] that are less than 500 numbers old, up to the time of
    their last NACK. *)
Definition ring_pos (n : sequencer) (H e : Z) : Z := (sq_step n - 1 - (H - e)) mod 500.

Record seq_ok (n : sequencer) (H : Z) (log : list (Z * packetMeta)) : Prop := {
  so_len : length (sq_seq n) = 500%nat;
  so_step : 0 <= sq_step n < 500;
  so_init : sq_init n = true;
  so_head : sq_headSN n = H mod 65536;
  so_log : forall e m, (e, m) ∈ log -> e <= H /\ targetSeqNo m = e mod 65536
             /\ (H - 500 < e -> exists t, sq_seq n !! Z.to_nat (ring_pos n H e)
                                          = Some (m <| lastNack := t |>)) }.

(** ** Lemmas *)

Lemma seq_step_mod s : 0 <= s < 500 -> seq_step s = (s + 1) mod 500.
Proof. intros H. unfold seq_step, maxPacketMetaHistory. case_test; zlia. Qed.

Lemma seq_skip_mod inc s :
  0 <= s < 500 -> seq_skip inc s = (s + Z.max 0 (inc - 1)) mod 500.
Proof.
  intros Hs. unfold seq_skip. replace (Z.max 0 (inc - 1)) with (Z.of_nat (Z.to_nat (inc - 1))) by lia.
  induction (Z.to_nat (inc - 1)) as [|k IH]; [cbn; rewrite Z.add_0_r, Z.mod_small; lia|].
  rewrite Nat.iter_succ, IH, seq_step_mod by (apply Z.mod_pos_bound; lia). zlia.
Qed.

Lemma seq_store_ok n m :
  length (sq_seq n) = 500%nat -> 0 <= sq_step n < 500 ->
  seq_store n m = Ok (n <| sq_seq := <[Z.to_nat (sq_step n) := m]> (sq_seq n) |>
                        <| sq_step := (sq_step n + 1) mod 500 |>).
Proof.
  intros Hl Hs. unfold seq_store, len. rewrite Hl. change (Z.of_nat 500) with 500. test_true. by rewrite seq_step_mod.
Qed.

(** A ring of the right shape: [push] never fails on it and keeps it. *)
Definition ring_wf (n : sequencer) : Prop :=
  length (sq_seq n) = 500%nat /\ 0 <= sq_step n < 500.

Lemma new_ring_wf now : ring_wf (newSequencer now).
Proof. done. Qed.

Lemma push_total n sn offSn ts layer head :
  ring_wf n -> exists n' m, push n sn offSn ts layer head = Ok (n', m) /\ ring_wf n'.
Proof.
  intros [Hl Hs]. unfold push. cbv zeta.
  set (n1 := if sq_init n then n else _).
  assert (ring_wf n1) as [Hl1 Hs1] by (subst n1; by destruct (sq_init n)).
  assert (forall k m, length (sq_seq k) = 500%nat -> 0 <= sq_step k < 500 ->
    exists k', seq_store k m = Ok k' /\ ring_wf k') as Hstore.
  { intros k m Hk Hk'. rewrite seq_store_ok by done. eexists. split; [reflexivity|].
    split; cbn [upd settable_sequencer eta_record sq_seq sq_step]; [by rewrite length_insert|zlia]. }
  destruct head; [|destruct (_ && _)%bool].
  - set (n2 := n1 <| sq_step := _ |> <| sq_headSN := _ |>).
    destruct (Hstore n2 (PacketMeta sn offSn ts 0 layer)) as (k' & Hk & Hwf).
    + exact Hl1.
    + change (sq_step n2) with (seq_skip (u16 (offSn - sq_headSN n1)) (sq_step n1)).
      rewrite seq_skip_mod by done. zlia.
    + rewrite Hk. cbn [mbind go_bind]. by eexists _, _.
  - by eexists _, _.
  - destruct (Hstore n1 (PacketMeta sn offSn ts 0 layer) Hl1 Hs1) as (k' & Hk & Hwf).
    rewrite Hk. cbn [mbind go_bind]. by eexists _, _.
Qed.

Lemma getSeqNoPairs_total refTime seqNo n :
  ring_wf n -> exists n' l, getSeqNoPairs refTime n seqNo = Ok (n', l) /\ ring_wf n'.
Proof.
  revert n. induction seqNo as [|sn seqNo IH]; intros n Hn; [by eexists _, _|].
  assert (exists n1 l1, seq_pair refTime n sn = Ok (n1, l1) /\ ring_wf n1) as (n1 & l1 & E & H1).
  { destruct Hn as [Hl Hs]. unfold seq_pair. destruct (seq_slot n sn) as [pos|] eqn:Ep; [|by eexists _, _].
    assert (0 <= pos < 500) as Hp.
    { unfold seq_slot, maxPacketMetaHistory in Ep. pose proof (u16_range (sq_headSN n - sn)).
      revert Ep. case_test; [case_test|]; intros Hp; try discriminate Hp; injection Hp as <-; lia. }
    destruct (go_index_ok (sq_seq n) pos) as (m & -> & _).
    { unfold len. rewrite Hl. lia. }
    cbn [mbind go_bind]. destruct (_ && _)%bool; (eexists _, _; split; [reflexivity|]); [|done].
    split; cbn; [by rewrite length_insert|done]. }
  cbn [getSeqNoPairs]. rewrite E. cbn [mbind go_bind fst snd].
  destruct (IH n1 H1) as (n2 & l2 & -> & H2). by eexists _, _.
Qed.

(** The first packet *)
Lemma push_first now sn e ts layer head :
  exists n, push (newSequencer now) sn (e mod 65536) ts layer head
            = Ok (n, Some (PacketMeta sn (e mod 65536) ts 0 layer))
    /\ seq_ok n e [(e, PacketMeta sn (e mod 65536) ts 0 layer)].
Proof.
  eexists. split.
  - unfold push, newSequencer. cbn [upd settable_sequencer eta_record sq_init sq_headSN sq_step sq_seq].
    rewrite Z.sub_diag. destruct head; reflexivity.
  - split; cbn [sq_seq sq_step sq_init sq_headSN]; try done; try lia.
    intros e' m Hin. apply list_elem_of_singleton in Hin as [= -> ->].
    split_and!; [lia|done|]. intros _. exists 0. unfold ring_pos.
    replace (e - e) with 0 by lia. reflexivity.
Qed.

(** A newer packet, [k] numbers after the newest one *)
Lemma push_newer n H log k sn ts layer :
  seq_ok n H log -> 0 < k < 65536 ->
  let m := PacketMeta sn ((H + k) mod 65536) ts 0 layer in
  exists n', push n sn ((H + k) mod 65536) ts layer true = Ok (n', Some m)
    /\ seq_ok n' (H + k) ((H + k, m) :: log).
Proof.
  intros [Hlen Hst Hin Hh Hlog] Hk m. unfold push. rewrite Hin. cbv zeta.
  assert (u16 ((H + k) mod 65536 - sq_headSN n) = k) as -> by (rewrite Hh; wrap_lia).
  rewrite seq_skip_mod by done. replace (Z.max 0 (k - 1)) with (k - 1) by lia.
  rewrite seq_store_ok; [|exact Hlen|cbn [upd settable_sequencer eta_record sq_step]; zlia].
  cbn [mbind go_bind mret go_ret]. eexists. split; [reflexivity|].
  split; cbn [upd settable_sequencer eta_record sq_seq sq_step sq_init sq_headSN]; try done.
  - by rewrite length_insert.
  - zlia.
  - intros e m' [Heq|Hm]%elem_of_cons.
    + injection Heq as -> ->. split_and!; [lia|done|]. intros _. exists 0.
      unfold ring_pos. cbn [sq_step].
      replace (((((sq_step n + (k - 1)) mod 500 + 1) mod 500 - 1 - (H + k - (H + k))) mod 500))
        with ((sq_step n + (k - 1)) mod 500) by zlia.
      rewrite list_lookup_insert_eq by (rewrite Hlen; zlia). done.
    + destruct (Hlog e m' Hm) as (He & Ht & Hr). split_and!; [lia|done|]. intros Hw.
      destruct (Hr ltac:(lia)) as [t Hl]. exists t. etransitivity; [|exact Hl].
      unfold ring_pos. cbn [sq_step].
      rewrite list_lookup_insert_ne by zlia. f_equal. f_equal. zlia.
Qed.

Lemma seq_slot_pos n H e :
  0 <= sq_step n < 500 -> sq_headSN n = H mod 65536 -> H - 499 < e <= H ->
  seq_slot n (e mod 65536) = Some (ring_pos n H e).
Proof.
  intros Hst Hh He. unfold seq_slot, ring_pos.
  assert (u16 (sq_headSN n - e mod 65536) = H - e) as -> by (rewrite Hh; wrap_lia).
  unfold maxPacketMetaHistory. case_test; [case_test|]; [exfalso; lia|f_equal; zlia..].
Qed.

Lemma seq_slot_ok n H log e :
  seq_ok n H log -> H - 499 < e <= H ->
  seq_slot n (e mod 65536) = Some (ring_pos n H e).
Proof. intros [Hlen Hst Hin Hh Hlog]. by apply seq_slot_pos. Qed.

Definition wants (refTime : Z) (m : packetMeta) : bool :=
  (lastNack m =? 0) || (ignoreRetransmission <? u32 (refTime - lastNack m)).

(** One request, for a packet in the window *)
Lemma seq_pair_ok refTime n H log e m :
  seq_ok n H log -> (e, m) ∈ log -> H - 499 < e ->
  exists n' t,
    sq_seq n !! Z.to_nat (ring_pos n H e) = Some (m <| lastNack := t |>)
    /\ seq_pair refTime n (e mod 65536)
       = Ok (n', if wants refTime (m <| lastNack := t |>)
                 then [m <| lastNack := refTime |>] else [])
    /\ n' = (if wants refTime (m <| lastNack := t |>)
             then n <| sq_seq := <[Z.to_nat (ring_pos n H e) := m <| lastNack := refTime |>]>
                                   (sq_seq n) |> else n)
    /\ seq_ok n' H log.
Proof.
  intros Hok Hm He. destruct (so_log _ _ _ Hok e m Hm) as (Hle & Htg & Hr).
  destruct (Hr ltac:(lia)) as [t Hl]. unfold seq_pair.
  rewrite (seq_slot_ok n H log e) by (done || lia).
  assert (0 <= ring_pos n H e < 500) as Hrp by (unfold ring_pos; zlia).
  rewrite (go_index_Some _ _ _ (proj1 Hrp) Hl). cbn [mbind go_bind].
  change (targetSeqNo (m <| lastNack := t |>)) with (targetSeqNo m).
  assert (targetSeqNo m =? e mod 65536 = true) as -> by (apply Z.eqb_eq, Htg).
  rewrite andb_true_l. fold (wants refTime (m <| lastNack := t |>)).
  destruct (wants refTime (m <| lastNack := t |>)) eqn:Ew; eexists _, t; rewrite Ew; (split_and!; [done|reflexivity|reflexivity|]); [|done].
  destruct Hok as [Hlen Hst Hin Hh Hlog].
  split; cbn [upd settable_sequencer eta_record sq_seq sq_step sq_init sq_headSN]; try done.
  { by rewrite length_insert. }
  intros e' m' Hm'. destruct (Hlog e' m' Hm') as (Hle' & Ht' & Hr'). split_and!; try done.
  intros Hw. destruct (Hr' Hw) as [t' Hl']. unfold ring_pos in *. cbn [sq_step].
  destruct (decide (Z.to_nat ((sq_step n - 1 - (H - e')) mod 500)
                    = Z.to_nat ((sq_step n - 1 - (H - e)) mod 500))) as [Heq|Hne].
  - rewrite Heq in *. rewrite list_lookup_insert_eq by (rewrite Hlen; zlia).
    rewrite Hl in Hl'. exists refTime. clear -Hl'. destruct m, m'. cbn in *. congruence.
  - rewrite list_lookup_insert_ne by done. by exists t'.
Qed.

(** Packets sent in order: number, and source number, timestamp, layer *)
Record sent := Sent { s_num : Z; s_src : Z; s_ts : Z; s_layer : Z }.
Definition meta_of (p : sent) : packetMeta :=
  PacketMeta (s_src p) (s_num p mod 65536) (s_ts p) 0 (s_layer p).
Definition push_sent (n : sequencer) (p : sent) : go (sequencer * option packetMeta) :=
  push n (s_src p) (s_num p mod 65536) (s_ts p) (s_layer p) true.

Fixpoint push_run (n : sequencer) (l : list sent) : go sequencer :=
  match l with
  | [] => mret n
  | p :: l => r ← push_sent n p; push_run r.1 l
  end.

(** Each number is newer than the one before, by less than a cycle. *)
Fixpoint in_order (H : Z) (l : list sent) : Prop :=
  match l with
  | [] => True
  | p :: l => H < s_num p < H + 65536 /\ in_order (s_num p) l
  end.
Fixpoint last_num (H : Z) (l : list sent) : Z :=
  match l with [] => H | p :: l => last_num (s_num p) l end.

(** No record has been asked for yet. *)
Definition fresh (n : sequencer) : Prop := Forall (fun m => lastNack m = 0) (sq_seq n).

Lemma seq_store_fresh n m n' :
  seq_store n m = Ok n' -> fresh n -> lastNack m = 0 -> fresh n'.
Proof.
  unfold seq_store, fresh, mret, go_ret. intros H Hf Hm. revert H. case_test; intros H'; [|done].
  injection H' as <-. cbn. by apply Forall_insert.
Qed.

Lemma push_fresh n sn offSn ts layer head n' r :
  push n sn offSn ts layer head = Ok (n', r) -> fresh n -> fresh n'.
Proof.
  unfold push, mret, go_ret. intros H Hf.
  assert (forall k m o, (seq_store k m ≫= fun k' => Ok (k', o)) = Ok (n', r) ->
    fresh k -> lastNack m = 0 -> fresh n') as Hstore.
  { intros k m o Hs Hk Hm. destruct (seq_store k m) as [k'|] eqn:E; [|done].
    cbn [mbind go_bind] in Hs. injection Hs as -> _. by eapply seq_store_fresh. }
  destruct (sq_init n), head; cbv beta iota zeta in H.
  1, 3: by apply (Hstore _ _ _ H).
  all: destruct (_ && _)%bool; [by injection H as <- _|by apply (Hstore _ _ _ H)].
Qed.

Lemma push_run_ok l n H log :
  seq_ok n H log -> fresh n -> in_order H l ->
  exists n', push_run n l = Ok n' /\ fresh n'
    /\ seq_ok n' (last_num H l) (rev (map (fun p => (s_num p, meta_of p)) l) ++ log).
Proof.
  revert n H log. induction l as [|p l IH]; intros n H log Hok Hf Hl.
  { exists n. by split_and!. }
  cbn [in_order] in Hl. destruct Hl as [Hp Hl].
  destruct (push_newer n H log (s_num p - H) (s_src p) (s_ts p) (s_layer p) Hok)
    as (n1 & Hpush & Hok1); [lia|].
  replace (H + (s_num p - H)) with (s_num p) in Hpush, Hok1 by lia.
  cbn [push_run last_num]. unfold push_sent. rewrite Hpush. cbn [mbind go_bind fst].
  destruct (IH n1 _ _ Hok1 (push_fresh _ _ _ _ _ _ _ _ Hpush Hf) Hl) as (n' & -> & Hf' & Hok').
  exists n'. split_and!; [done|done|]. cbn [map rev]. by rewrite <-app_assoc.
Qed.

(** ** Properties *)

(** C11. Packets sent in order are recorded without a failure, and a NACK for any
    packet among the last 499 numbers finds its record: the publisher's
    sequence number to ask the cache for, and the number, timestamp and
    layer it was sent with. *)
Theorem sequencer_finds_sent now p l q refTime :
  in_order (s_num p) l -> q ∈ p :: l -> last_num (s_num p) l - 499 < s_num q ->
  exists n n',
    push_run (newSequencer now) (p :: l) = Ok n
    /\ getSeqNoPairs refTime n [s_num q mod 65536]
       = Ok (n', [(meta_of q) <| lastNack := refTime |>]).
Proof.
  intros Hl Hq Hw.
  destruct (push_first now (s_src p) (s_num p) (s_ts p) (s_layer p) true) as (n0 & Hp0 & Hok0).
  assert (fresh (newSequencer now)) as Hfr by (apply Forall_replicate; done).
  pose proof (push_fresh _ _ _ _ _ _ _ _ Hp0 Hfr) as Hf0.
  destruct (push_run_ok l n0 _ _ Hok0 Hf0 Hl) as (n & Hrun & Hf & Hok).
  assert ((s_num q, meta_of q) ∈ rev (map (fun p => (s_num p, meta_of p)) l)
            ++ [(s_num p, PacketMeta (s_src p) (s_num p mod 65536) (s_ts p) 0 (s_layer p))]) as Hin.
  { apply elem_of_app. apply elem_of_cons in Hq as [->|Hq]; [right; by apply list_elem_of_singleton|left].
    apply list_elem_of_In. rewrite <-in_rev. apply in_map_iff. exists q.
    split; [done|by apply list_elem_of_In]. }
  destruct (seq_pair_ok refTime n _ _ _ _ Hok Hin Hw) as (n' & t & Hlk & Hpair & _ & _).
  exists n, n'. split.
  - cbn [push_run]. unfold push_sent. rewrite Hp0. exact Hrun.
  - pose proof (Forall_lookup_1 _ _ _ _ Hf Hlk) as Ht. cbn in Ht. subst t.
    cbn [getSeqNoPairs]. rewrite Hpair. unfold wants. cbn [lastNack upd settable_packetMeta eta_record].
    reflexivity.
Qed.

(** Six packets across the wrap of the 16-bit counter, with a gap *)
Definition ex_first : sent := Sent 65533 100 3000 0.
Definition ex_sent : list sent :=
  [Sent 65535 102 6000 0; Sent 65536 103 9000 0; Sent 65540 107 12000 0].

Lemma sequencer_finds_sent_witness :
  exists n n',
    push_run (newSequencer 0) (ex_first :: ex_sent) = Ok n
    /\ getSeqNoPairs 250 n [0] = Ok (n', [PacketMeta 103 0 9000 250 0]).
Proof.
  apply (sequencer_finds_sent 0 ex_first ex_sent (Sent 65536 103 9000 0) 250).
  - cbn. lia.
  - apply list_elem_of_In. cbn. auto.
  - cbn. lia.
Defined.

(** A record given out for retransmission is not given out again to a request
    within the next 100 ms, however often it is asked for; after that it
    is. *)
Theorem sequencer_throttles n H log e m t1 t2 n1 :
  seq_ok n H log -> (e, m) ∈ log -> H - 499 < e -> 0 < t1 ->
  getSeqNoPairs t1 n [e mod 65536] = Ok (n1, [m <| lastNack := t1 |>]) ->
  exists n2,
    getSeqNoPairs t2 n1 [e mod 65536]
    = Ok (n2, if ignoreRetransmission <? u32 (t2 - t1)
              then [m <| lastNack := t2 |>] else []).
Proof.
  intros Hok Hm He Ht1 Hg. cbn [getSeqNoPairs] in Hg.
  destruct (seq_pair_ok t1 n H log e m Hok Hm He) as (n1' & t & Hlk & Hp & Hn1 & Hok1).
  rewrite Hp in Hg. cbn [mbind go_bind mret go_ret fst snd] in Hg.
  rewrite app_nil_r in Hg. injection Hg as <- Hw.
  destruct (seq_pair_ok t2 n1' H log e m Hok1 Hm He) as (n2 & t' & Hlk2 & Hp2 & _ & _).
  assert (wants t1 (m <| lastNack := t |>) = true) as Ew
    by (revert Hw; cbn; by destruct (wants _ _)).
  rewrite Ew in Hn1.
  assert (t' = t1) as ->.
  { assert (0 <= ring_pos n H e < 500) by (unfold ring_pos; zlia).
    rewrite Hn1 in Hlk2. unfold ring_pos in *. cbn [upd settable_sequencer eta_record sq_seq sq_step] in Hlk2.
    rewrite list_lookup_insert_eq in Hlk2
      by (rewrite (so_len _ _ _ Hok); change 500%nat with (Z.to_nat 500); lia).
    by injection Hlk2. }
  exists n2. cbn [getSeqNoPairs]. rewrite Hp2. cbn [mbind go_bind mret go_ret fst snd].
  rewrite app_nil_r. unfold wants. cbn [lastNack upd settable_packetMeta eta_record].
  assert (t1 =? 0 = false) as -> by lia. done.
Qed.

(** Two packets sent, both 1:1 *)
Definition ex_two : sequencer :=
  match push_run (newSequencer 0) [Sent 7 7 0 0; Sent 8 8 0 0] with Ok n => n | Panic => newSequencer 0 end.
Definition ex_log : list (Z * packetMeta) :=
  [(8, PacketMeta 8 8 0 0 0); (7, PacketMeta 7 7 0 0 0)].

Lemma ex_two_ok : seq_ok ex_two 8 ex_log.
Proof.
  destruct (push_first 0 7 7 0 0 true) as (n0 & Hp0 & Hok0).
  assert (fresh (newSequencer 0)) as Hfr by (apply Forall_replicate; done).
  destruct (push_run_ok [Sent 8 8 0 0] n0 _ _ Hok0 (push_fresh _ _ _ _ _ _ _ _ Hp0 Hfr))
    as (n & Hrun & _ & Hok); [cbn; lia|].
  assert (Ok ex_two = Ok n) as E; [|injection E as ->; exact Hok].
  rewrite <-Hrun. change (7 mod 65536) with 7 in Hp0. vm_compute in Hp0. injection Hp0 as <-.
  vm_compute. reflexivity.
Qed.

Lemma sequencer_throttles_witness :
  exists n1 n2,
    getSeqNoPairs 250 ex_two [7] = Ok (n1, [PacketMeta 7 7 0 250 0])
    /\ getSeqNoPairs 350 n1 [7] = Ok (n2, []).
Proof.
  destruct (getSeqNoPairs 250 ex_two [7]) as [[n1 l]|] eqn:E; [|by vm_compute in E].
  assert (l = [PacketMeta 7 7 0 250 0]) as -> by (vm_compute in E; by injection E as <- <-).
  destruct (sequencer_throttles ex_two 8 ex_log 7 (PacketMeta 7 7 0 0 0) 250 350 n1)
    as (n2 & H); [exact ex_two_ok| |lia|lia|exact E|].
  { apply list_elem_of_In. cbn. auto. }
  exists n1, n2. split; [done|exact H].
Defined.

(** A late packet is stored at the ring's front and not at its own place, and
    the front moves on while the newest number stays: every record before
    it is one slot off, and neither the newest packet nor any packet whose
    successor was sent can be found again. *)
Theorem late_push_hides n H log e sn ts layer e' refTime :
  seq_ok n H log -> H - 500 < e < H ->
  H - 499 < e' <= H -> e' = H \/ (exists m, (e' + 1, m) ∈ log) ->
  exists n' m,
    push n sn (e mod 65536) ts layer false = Ok (n', Some m)
    /\ getSeqNoPairs refTime n' [e' mod 65536] = Ok (n', []).
Proof.
  intros [Hlen Hst Hin Hh Hlog] He He' Hnext. unfold push. rewrite Hin. cbv zeta.
  assert (u16 (sq_headSN n - e mod 65536) = H - e) as -> by (rewrite Hh; wrap_lia).
  unfold maxPacketMetaHistory. test_false. rewrite seq_store_ok by done.
  cbn [mbind go_bind mret go_ret]. eexists _, _. split; [reflexivity|].
  set (m := PacketMeta sn _ ts 0 layer). set (n' := n <| sq_seq := _ |> <| sq_step := _ |>).
  cbn [getSeqNoPairs]. unfold seq_pair.
  rewrite (seq_slot_pos n' H e') by (subst n'; cbn; done || zlia).
  assert (exists x, sq_seq n' !! Z.to_nat (ring_pos n' H e') = Some x
    /\ targetSeqNo x <> e' mod 65536) as (x & Hx & Hne).
  { subst n'. unfold ring_pos. cbn [upd settable_sequencer eta_record sq_seq sq_step].
    destruct (decide (e' = H)) as [->|Hlt].
    - exists m. split; [|cbn; zlia].
      replace (((sq_step n + 1) mod 500 - 1 - (H - H)) mod 500) with (sq_step n) by zlia.
      apply list_lookup_insert_eq. rewrite Hlen. change 500%nat with (Z.to_nat 500). lia.
    - destruct Hnext as [|[m1 Hm1]]; [done|].
      destruct (Hlog _ _ Hm1) as (Hle & Htg & Hr). destruct (Hr ltac:(lia)) as [t Hl].
      exists (m1 <| lastNack := t |>). split; [|cbn; rewrite Htg; zlia].
      rewrite list_lookup_insert_ne by zlia. etransitivity; [|exact Hl].
      f_equal. f_equal. unfold ring_pos. zlia. }
  rewrite (go_index_Some _ _ x) by (done || (unfold ring_pos; zlia)).
  cbn [mbind go_bind].
  assert (targetSeqNo x =? e' mod 65536 = false) as -> by lia. reflexivity.
Qed.

Lemma late_push_hides_witness :
  exists n' m, push ex_two 6 6 0 0 false = Ok (n', Some m)
    /\ getSeqNoPairs 250 n' [8] = Ok (n', []).
Proof.
  apply (late_push_hides ex_two 8 ex_log 6 6 0 0 8 250); [exact ex_two_ok|lia|lia|by left].
Defined.
