(* ===== verification/GoFloat.v ===== *)
(** * Go's floating point

    [float32] and [float64] as IEEE 754 values of the Standard Library's
    [SpecFloat] (binary32 and binary64, round to nearest even), which
    computes and rests on no axiom.  A decimal constant of the source is the
    correctly rounded quotient of two integers. *)

From S2P Require Import Prelude GoNum.
From Stdlib Require Import SpecFloat.
#[local] Open Scope Z_scope.

Abbreviation float := spec_float.

Definition f64_of_Z (z : Z) : float := binary_normalize 53 1024 z 0 false.
Definition f32_of_Z (z : Z) : float := binary_normalize 24 128 z 0 false.

Definition f64_add : float -> float -> float := SFadd 53 1024.
Definition f64_sub : float -> float -> float := SFsub 53 1024.
Definition f64_mul : float -> float -> float := SFmul 53 1024.
Definition f64_div : float -> float -> float := SFdiv 53 1024.
Definition f32_sub : float -> float -> float := SFsub 24 128.
Definition f32_mul : float -> float -> float := SFmul 24 128.
Definition f32_div : float -> float -> float := SFdiv 24 128.

(** [float64(x)] of a [float32] is exact. *)
Definition f64_of_f32 (x : float) : float :=
  match x with
  | S754_finite s m e => binary_round 53 1024 s m e
  | _ => x
  end.

(** The constant [n / d] *)
Definition f64_const (n d : Z) : float := f64_div (f64_of_Z n) (f64_of_Z d).
Definition f32_const (n d : Z) : float := f32_div (f32_of_Z n) (f32_of_Z d).

(** Truncation towards zero; nothing for infinities and NaN *)
Definition f_trunc (x : float) : option Z :=
  match x with
  | S754_zero _ => Some 0
  | S754_finite s m e =>
      let a := if 0 <=? e then Z.shiftl (Zpos m) e else Z.shiftr (Zpos m) (- e) in
      Some (if s then - a else a)
  | _ => None
  end.

(** [uint32(x)] and [uint64(x)]: truncation where the result fits the type.
    Go leaves the other cases to the implementation; [oor] stands for it. *)
Definition f_to_uint (w : Z) (oor : float -> Z) (x : float) : Z :=
  match f_trunc x with
  | Some z => if ((0 <=? z) && (z <? 2 ^ w))%bool then z else oor x
  | None => oor x
  end.

Example one_point_oh_nine :
  f_to_uint 64 (fun _ => 0) (f64_mul (f64_of_Z 500000) (f64_const 109 100)) = 545000.
Proof. vm_compute. reflexivity. Qed.

Example f32_rounds : f_trunc (f32_of_Z 16777217) = Some 16777216.
Proof. vm_compute. reflexivity. Qed.
