(* ===== verification/Rtp.v ===== *)
(** * RTP and RTCP packets

    The fields of pion's packet structs that the code reads or writes; the
    parsers themselves are arguments of the definitions that call them. *)

From stdpp Require Export strings.
From S2P Require Import Prelude GoNum GoSlice GoFloat Nack.
#[local] Open Scope Z_scope.

(** [rtp.Packet] *)
Record rtp_packet := RtpPacket {
  rp_marker : bool;
  rp_pt : Z;
  rp_sn : Z;
  rp_ts : Z;
  rp_ssrc : Z;
  rp_ext : list (Z * bytes);
  rp_payload : bytes }.
#[export] Instance settable_rtp_packet : Settable rtp_packet := fun p =>
  RtpPacket (rp_marker p) (rp_pt p) (rp_sn p) (rp_ts p) (rp_ssrc p) (rp_ext p) (rp_payload p).

(** [rtcp.ReceptionReport] *)
Record ReceptionReport := MkReceptionReport {
  rr_ssrc : Z;
  FractionLost : Z;
  TotalLost : Z;
  LastSequenceNumber : Z;
  rr_jitter : Z;
  LastSenderReport : Z;
  Delay : Z }.

(** The types of [rtcp.Packet] that the code builds or switches on *)
Inductive rtcp_packet :=
| TransportLayerNack (senderSSRC mediaSSRC : Z) (nacks : list NackPair)
| PictureLossIndication (senderSSRC mediaSSRC : Z)
| FullIntraRequest (senderSSRC mediaSSRC : Z)
| ReceiverEstimatedMaximumBitrate (bitrate : float) (ssrcs : list Z)
| ReceiverReport (ssrc : Z) (reports : list ReceptionReport)
| SenderReport (ssrc ntpTime rtpTime packetCount octetCount : Z)
| SourceDescription (chunks : list (Z * list (Z * string)))
| TransportLayerCC
| RawPacket (b : bytes)
| OtherRTCP.
