(* ===== verification/Buffer.v ===== *)
(** * The receive buffer of a track ([internal/buffer/buffer.go])

    [Buffer] takes the RTP packets of one SSRC ([Write]), stores them in the
    packet cache, hands them to the receiver over a channel, and keeps the
    statistics behind the RTCP it sends to the publisher: receiver reports,
    bandwidth estimates, NACKs and transport-wide feedback.  [calc] is the
    per-packet handler.  What the code sends (channel, callbacks, pools) is a
    list of events; the clock, the byte slice a pool hands out, and the
    parsers of pion are arguments. *)

From S2P Require Import Prelude GoNum GoSlice GoFloat Nack Bucket Helper Rtp.
#[local] Open Scope Z_scope.

(** ** Data *)

Definition reportDelta : Z := 1000000000.

Record pendingPackets := Pending { arrivalTime : Z; pp_packet : bytes }.

Record ExtPacket := MkExtPacket {
  Head : bool;
  Cycle : Z;
  Arrival : Z;
  Packet : rtp_packet;
  ExtPayload : option VP8;
  KeyFrame : bool }.
#[export] Instance settable_ExtPacket : Settable ExtPacket := fun e =>
  MkExtPacket (Head e) (Cycle e) (Arrival e) (Packet e) (ExtPayload e) (KeyFrame e).

Inductive RTPCodecType := TypeUnknown | TypeAudio | TypeVideo.
#[export] Instance RTPCodecType_eq_dec : EqDecision RTPCodecType.
Proof. solve_decision. Defined.

Record Stats := MkStats {
  LastExpected : Z;
  LastReceived : Z;
  LostRate : float;
  PacketCount : Z;
  Jitter : float;
  TotalByte : Z }.
#[export] Instance settable_Stats : Settable Stats := fun s =>
  MkStats (LastExpected s) (LastReceived s) (LostRate s) (PacketCount s) (Jitter s) (TotalByte s).

Record Buffer := MkBuffer {
  bucket : option Bucket;
  codecType : RTPCodecType;
  pPackets : list pendingPackets;
  closeOnce : bool;
  mediaSSRC : Z;
  clockRate : Z;
  maxBitrate : Z;
  lastReport : Z;
  twccExt : Z;
  audioExt : Z;
  bound : bool;
  closed : bool;
  mime : string;
  remb : bool;
  b_nack : bool;
  twcc : bool;
  audioLevel : bool;
  minPacketProbe : Z;
  lastPacketRead : Z;
  maxTemporalLayer : Z;
  bitrate : Z;
  bitrateHelper : Z;
  lastSRNTPTime : Z;
  lastSRRTPTime : Z;
  lastSRRecv : Z;
  baseSN : Z;
  maxSeqNo : Z;
  b_cycles : Z;
  lastTransit : Z;
  stats : Stats;
  latestTimestamp : Z;
  latestTimestampTime : Z }.
#[export] Instance settable_Buffer : Settable Buffer := fun b =>
  MkBuffer (bucket b) (codecType b) (pPackets b) (closeOnce b) (mediaSSRC b) (clockRate b)
    (maxBitrate b) (lastReport b) (twccExt b) (audioExt b) (bound b) (closed b) (mime b)
    (remb b) (b_nack b) (twcc b) (audioLevel b) (minPacketProbe b) (lastPacketRead b)
    (maxTemporalLayer b) (bitrate b) (bitrateHelper b) (lastSRNTPTime b) (lastSRRTPTime b)
    (lastSRRecv b) (baseSN b) (maxSeqNo b) (b_cycles b) (lastTransit b) (stats b)
    (latestTimestamp b) (latestTimestampTime b).

(** What a buffer does to the rest of the program, in order *)
Inductive buf_event :=
| ToChan (ep : ExtPacket)
| Feedback (pkts : list rtcp_packet)
| FeedbackTWCC (sn timeNS : Z) (marker : bool)
| AudioLevel (level : Z)
| PoolPut (kind : RTPCodecType) (buf : bytes)
| OnClose
| CloseChan.

(** Capacity of [packetChan]: a send to a full channel waits. *)
Definition packetChan_cap : nat := 100.

Inductive buf_error := EOF | errBufferTooSmall | errPacketNotFound.

(** [S754_zero false] is the zero value of Go's floats. *)
Definition NewBuffer (ssrc : Z) : Buffer :=
  MkBuffer None TypeUnknown [] false ssrc 0 0 0 0 0 false false EmptyString false false false false
    0 0 0 0 0 0 0 0 0 0 0 0
    (MkStats 0 0 (SpecFloat.S754_zero false) 0 (SpecFloat.S754_zero false) 0) 0 0.

(** ** Timestamps *)

Definition IsTimestampWrapAround (timestamp1 timestamp2 : Z) : bool :=
  (Z.land timestamp1 201326592 =? 0) && (Z.land timestamp2 201326592 =? 201326592).

Definition IsLaterTimestamp (timestamp1 timestamp2 : Z) : bool :=
  if timestamp2 <? timestamp1 then
    if IsTimestampWrapAround timestamp2 timestamp1 then false else true
  else if IsTimestampWrapAround timestamp1 timestamp2 then true else false.

(** ** Reports *)

Section reports.
(** Conversions of a float that does not fit the integer type *)
Context (oor : float -> Z).

Definition buildREMBPacket (b : Buffer) : Buffer * rtcp_packet :=
  let br := bitrate b in
  let br := if SpecFloat.SFltb (LostRate (stats b)) (f32_const 2 100)
            then u64 (f_to_uint 64 oor (f64_mul (f64_of_Z br) (f64_const 109 100)) + 2000)
            else br in
  let br := if SpecFloat.SFltb (f32_const 1 10) (LostRate (stats b))
            then f_to_uint 64 oor
                   (f64_mul (f64_of_Z br)
                     (f64_of_f32 (f32_sub (f32_of_Z 1)
                        (f32_mul (f32_const 1 2) (LostRate (stats b))))))
            else br in
  let br := if maxBitrate b <? br then maxBitrate b else br in
  let br := if br <? 100000 then 100000 else br in
  (b <| stats := (stats b) <| TotalByte := 0 |> |>,
   ReceiverEstimatedMaximumBitrate (f32_of_Z br) [mediaSSRC b]).

(** Delay since the last sender report, in 1/65536 seconds *)
Definition delay_since_sr (b : Buffer) (now : Z) : Z :=
  if negb (lastSRRecv b =? 0) then
    let delayMS := u32 (go_div (i64 (now - lastSRRecv b)) 1000000) in
    Z.lor (u32 (Z.shiftl (delayMS / 1000) 16)) (u32 (((delayMS mod 1000) / 1000) * 65536))
  else 0.

Definition buildReceptionReport (b : Buffer) (now : Z) : Buffer * ReceptionReport :=
  let st := stats b in
  let extMaxSeq := Z.lor (b_cycles b) (maxSeqNo b) in
  let expected := u32 (extMaxSeq - baseSN b + 1) in
  let lost := if ((PacketCount st <? expected) && negb (PacketCount st =? 0))%bool
              then u32 (expected - PacketCount st) else 0 in
  let expectedInterval := u32 (expected - LastExpected st) in
  let receivedInterval := u32 (PacketCount st - LastReceived st) in
  let lostInterval := u32 (expectedInterval - receivedInterval) in
  let st' := st <| LastExpected := expected |> <| LastReceived := PacketCount st |>
                <| LostRate := f32_div (f32_of_Z lostInterval) (f32_of_Z expectedInterval) |> in
  let fracLost := if (negb (expectedInterval =? 0) && (0 <? lostInterval))%bool
                  then u8 (u32 (Z.shiftl lostInterval 8) / expectedInterval) else 0 in
  (b <| stats := st' |>,
   MkReceptionReport (mediaSSRC b) fracLost lost extMaxSeq
     (f_to_uint 32 oor (Jitter st)) (u32 (Z.shiftr (lastSRNTPTime b) 16))
     (delay_since_sr b now)).

Definition getRTCP (b : Buffer) (now : Z) : Buffer * list rtcp_packet :=
  let '(b, rr) := buildReceptionReport b now in
  let pkts := [ReceiverReport (mediaSSRC b) [rr]] in
  if (remb b && negb (twcc b))%bool then
    let '(b, p) := buildREMBPacket b in (b, pkts ++ [p])
  else (b, pkts).
End reports.

Definition SetSenderReportData (b : Buffer) (rtpTime ntpTime now : Z) : Buffer :=
  b <| lastSRRTPTime := rtpTime |> <| lastSRNTPTime := ntpTime |> <| lastSRRecv := now |>.

(** The parameters are copies, so nothing of what is read reaches the
    caller. *)
Definition GetSenderReportData (b : Buffer) (rtpTime ntpTime last : Z) : unit := tt.

(** ** The packet handler *)

(** Lines 279-292: the highest sequence number and the cycles *)
Definition track_sn (b : Buffer) (sn arrival : Z) : go Buffer :=
  if PacketCount (stats b) =? 0 then
    match bucket b with
    | Some k =>
        mret (b <| baseSN := sn |> <| maxSeqNo := sn |>
                <| bucket := Some (k <| headSN := u16 (sn - 1) |>) |>
                <| lastReport := arrival |>)
    | None => Panic
    end
  else if top_bit_clear (u16 (sn - maxSeqNo b)) then
    let b := if sn <? maxSeqNo b then b <| b_cycles := u32 (b_cycles b + 65536) |> else b in
    mret (b <| maxSeqNo := sn |>)
  else mret b.

Definition count_packet (b : Buffer) (n : Z) : Buffer :=
  b <| bitrateHelper := u64 (bitrateHelper b + n) |>
    <| stats := (stats b) <| TotalByte := u64 (TotalByte (stats b) + n) |>
                  <| PacketCount := u32 (PacketCount (stats b) + 1) |> |>.

(** The [onLost] callback that [Bind] installs *)
Definition lost_events (b : Buffer) (l : lost_call) : list buf_event :=
  match l with
  | Some (nacks, askKeyframe) =>
      [Feedback (TransportLayerNack 0 (mediaSSRC b) nacks
                 :: if askKeyframe : bool then [PictureLossIndication 0 (mediaSSRC b)] else [])]
  | None => []
  end.

(** Lines 312-322: the codec's view of the payload; [None] is the early
    return *)
Definition codec_payload (b : Buffer) (payload : bytes) : go (option (option VP8 * bool)) :=
  if decide (mime b = "video/vp8"%string) then
    r ← Helper.Unmarshal vp8_zero (Some payload);
    match r.2 with
    | Some _ => mret None
    | None => mret (Some (Some r.1, IsKeyFrame r.1))
    end
  else if decide (mime b = "video/h64"%string) then
    match isH264Keyframe payload with
    | Some k => k ← k; mret (Some (None, k))
    | None => Panic
    end
  else mret (Some (None, false)).

(** Lines 325-339: the first 25 packets *)
Definition probe (b : Buffer) (sn : Z) (vp8 : option VP8) : Buffer :=
  if minPacketProbe b <? 25 then
    let b := if sn <? baseSN b then b <| baseSN := sn |> else b in
    let b := match vp8 with
             | Some pld => if maxTemporalLayer b <? TID pld
                           then b <| maxTemporalLayer := TID pld |> else b
             | None => b
             end in
    b <| minPacketProbe := minPacketProbe b + 1 |>
  else b.

(** Lines 346-368: latest timestamp, transit time and jitter *)
Definition time_stats (b : Buffer) (ts arrival : Z) : Buffer :=
  let b := if ((latestTimestampTime b =? 0) || IsLaterTimestamp ts (latestTimestamp b))%bool
           then b <| latestTimestamp := ts |> <| latestTimestampTime := arrival |> else b in
  let arr := u32 (i64 (go_div arrival 1000000 * (clockRate b / 1000))) in
  let transit := u32 (arr - ts) in
  let b := if negb (lastTransit b =? 0) then
             let d := i32 (u32 (transit - lastTransit b)) in
             let d := if d <? 0 then i32 (- d) else d in
             let j := Jitter (stats b) in
             b <| stats := (stats b) <| Jitter :=
                 f64_add j (f64_div (f64_sub (f64_of_Z d) j) (f64_of_Z 16)) |> |>
           else b in
  b <| lastTransit := transit |>.

(** The parameters of the media a buffer is bound to *)
Record RTPCodecParameters := MkCodec {
  MimeType : string;
  ClockRate : Z;
  RTCPFeedback : list string }.
Record RTPParameters := MkParams {
  Codecs : list RTPCodecParameters;
  HeaderExtensions : list (string * Z) }.

(** [strings.ToLower] on ASCII *)
Definition lower_ascii (c : Ascii.ascii) : Ascii.ascii :=
  let n := Ascii.nat_of_ascii c in
  if ((65 <=? n) && (n <=? 90))%nat then Ascii.ascii_of_nat (n + 32) else c.
Fixpoint ToLower (s : string) : string :=
  match s with
  | EmptyString => EmptyString
  | String c s => String (lower_ascii c) (ToLower s)
  end.

Section handler.
Context (oor : float -> Z).
(** [rtp.Packet.Unmarshal]; nothing on error *)
Context (rtp_unmarshal : option bytes -> option rtp_packet).
(** [rtp.Packet.GetExtension] and [rtp.AudioLevelExtension.Unmarshal] *)
Context (GetExtension : rtp_packet -> Z -> option bytes).
Context (audio_level : bytes -> option Z).
(** [sdp.TransportCCURI] *)
Context (TransportCCURI : string).

(** Lines 370-403: transport-wide feedback and audio level; the audio
    callback is set iff [audio_cb]. *)
Definition ext_events (b : Buffer) (audio_cb : bool) (p : rtp_packet) (arrival : Z)
  : go (list buf_event) :=
  tw ← (if twcc b then
          match GetExtension p (twccExt b) with
          | Some ext =>
              if 1 <? len ext then sn ← get_u16 ext; mret [FeedbackTWCC sn arrival (rp_marker p)]
              else mret []
          | None => mret []
          end
        else mret []);
  let au := if audioLevel b then
              match GetExtension p (audioExt b) with
              | Some e => if audio_cb
                          then match audio_level e with Some l => [AudioLevel l] | None => [] end
                          else []
              | None => []
              end
            else [] in
  mret (tw ++ au)%list.

(** Lines 405-414 *)
Definition report (b : Buffer) (arrival now : Z) : Buffer * list buf_event :=
  let diff := i64 (arrival - lastReport b) in
  if reportDelta <=? diff then
    let b := b <| bitrate := u64 (8 * bitrateHelper b * reportDelta) / u64 diff |> in
    let '(b, pkts) := getRTCP oor b now in
    (b <| lastReport := arrival |> <| bitrateHelper := 0 |>, [Feedback pkts])
  else (b, []).

(** Lines 279-302: number, count and store the packet; the number, whether it
    is the newest one, the stored slice and the [onLost] call *)
Definition calc_store (b : Buffer) (pkt : bytes) (arrival : Z)
  : go (Buffer * (Z * bool) * (option bytes * lost_call)) :=
  hd ← go_slice pkt 2 4;
  sn ← get_u16 hd;
  b ← track_sn b sn arrival;
  let b := count_packet b (len pkt) in
  match bucket b with
  | None => Panic
  | Some k =>
      r ← addPacket k pkt sn (sn =? maxSeqNo b);
      mret (b <| bucket := Some r.1.1 |>, (sn, sn =? maxSeqNo b), (r.1.2, r.2))
  end.

(** Lines 305-414: the parsed packet *)
Definition calc_packet (b : Buffer) (audio_cb : bool) (sn : Z) (head : bool)
    (p : rtp_packet) (arrival now : Z) : go (Buffer * list buf_event) :=
  c ← codec_payload b (rp_payload p);
  match c with
  | None => mret (b, [])
  | Some (vp8, key) =>
      let ep := MkExtPacket head (b_cycles b) arrival p vp8 key in
      let b := time_stats (probe b sn vp8) (rp_ts p) arrival in
      evs ← ext_events b audio_cb p arrival;
      let r := report b arrival now in
      mret (r.1, ToChan ep :: evs ++ r.2)%list
  end.

(** [calc]; [now] is the clock that the report reads *)
Definition calc (b : Buffer) (audio_cb : bool) (pkt : bytes) (arrival now : Z)
  : go (Buffer * list buf_event) :=
  s ← calc_store b pkt arrival;
  let '(b, (sn, head), (stored, lost)) := s in
  match rtp_unmarshal stored with
  | None => mret (b, lost_events b lost)
  | Some p =>
      r ← calc_packet b audio_cb sn head p arrival now;
      mret (r.1, lost_events b lost ++ r.2)%list
  end.

(** The pending packets, in order *)
Fixpoint calc_all (b : Buffer) (audio_cb : bool) (l : list pendingPackets) (now : Z)
  : go (Buffer * list buf_event) :=
  match l with
  | [] => mret (b, [])
  | pp :: l =>
      r ← calc b audio_cb (pp_packet pp) (arrivalTime pp) now;
      q ← calc_all r.1 audio_cb l now;
      mret (q.1, (r.2 ++ q.2)%list)
  end.

(** [Bind]; [pool] is the slice that [Pool.Get] returns. *)
Definition Bind (b : Buffer) (audio_cb : bool) (params : RTPParameters) (maxBr : Z)
    (pool : bytes) (now : Z) : go (Buffer * list buf_event) :=
  match Codecs params with
  | [] => Panic
  | codec :: _ =>
      let b := b <| clockRate := ClockRate codec |> <| maxBitrate := maxBr |>
                 <| mime := ToLower (MimeType codec) |> in
      let b := if String.prefix "audio/"%string (mime b)
               then b <| codecType := TypeAudio |> <| bucket := Some (NewBucket pool false) |>
               else if String.prefix "video/"%string (mime b)
               then b <| codecType := TypeVideo |> <| bucket := Some (NewBucket pool true) |>
               else b <| codecType := TypeUnknown |> in
      let b := match List.find (fun ext => String.eqb ext.1 TransportCCURI)
                       (HeaderExtensions params) with
               | Some ext => b <| twccExt := u8 ext.2 |>
               | None => b
               end in
      let b := if decide (codecType b = TypeVideo) then
                 foldl (fun b fb =>
                   if decide (fb = "goog-remb"%string) then b <| remb := true |>
                   else if decide (fb = "transport-cc"%string) then b <| twcc := true |>
                   else if decide (fb = "nack"%string) then b <| b_nack := true |> else b)
                   b (RTCPFeedback codec)
               else b in
      match bucket b with
      | None => Panic
      | Some _ =>
          r ← calc_all b audio_cb (pPackets b) now;
          mret (r.1 <| pPackets := [] |> <| bound := true |>, r.2)
      end
  end.

(** [Write]: the count and the error it returns too *)
Definition Write (b : Buffer) (audio_cb : bool) (pkt : bytes) (now now' : Z)
  : go (Buffer * list buf_event * (Z * option buf_error)) :=
  if closed b then mret (b, [], (0, Some EOF))
  else if negb (bound b) then
    mret (b <| pPackets := (pPackets b ++ [Pending now pkt])%list |>, [], (0, None))
  else
    r ← calc b audio_cb pkt now now';
    mret (r, (0, None)).
End handler.

(** One round of the loop of [Read] with a buffer of length [n]: the bytes
    read or an error; [None] means that it sleeps and tries again. *)
Definition read_step (b : Buffer) (n : Z) : Buffer * option (bytes + buf_error) :=
  if closed b then (b, Some (inr EOF))
  else if lastPacketRead b <? len (pPackets b) then
    match pPackets b !! Z.to_nat (lastPacketRead b) with
    | Some pp =>
        if n <? len (pp_packet pp) then (b, Some (inr errBufferTooSmall))
        else (b <| lastPacketRead := lastPacketRead b + 1 |>, Some (inl (pp_packet pp)))
    | None => (b, None)
    end
  else (b, None).

Definition Close (b : Buffer) : Buffer * list buf_event :=
  if closeOnce b then (b, [])
  else
    let put := match bucket b with
               | Some k => if decide (codecType b = TypeUnknown) then []
                           else [PoolPut (codecType b) (buf k)]
               | None => []
               end in
    (b <| closeOnce := true |> <| closed := true |>, put ++ [OnClose; CloseChan]).

Definition GetPacket (b : Buffer) (dcap sn : Z) : go (Z * bytes * option buf_error) :=
  if closed b then mret (0, [], Some EOF)
  else
    match bucket b with
    | None => Panic
    | Some k =>
        r ← getPacket k dcap sn;
        let '(n, data, err) := r in
        mret (n, data, match err with
                       | Some Bucket.errBufferTooSmall => Some errBufferTooSmall
                       | Some Bucket.errPacketNotFound => Some errPacketNotFound
                       | None => None
                       end)
    end.

(** ** Lemmas: the shape of [calc] *)

(** The numbering fields of a buffer *)
Definition numbering (b : Buffer) : Z * Z * Z := (PacketCount (stats b), maxSeqNo b, b_cycles b).

Lemma probe_numbering b sn v : numbering (probe b sn v) = numbering b.
Proof.
  unfold probe. case_test; [|done]. destruct v as [pld|]; repeat case_test; by destruct b.
Qed.

Lemma time_stats_numbering b ts t : numbering (time_stats b ts t) = numbering b.
Proof. unfold time_stats. destruct b. cbn. repeat case_test; reflexivity. Qed.

Lemma getRTCP_numbering oor b now b' l :
  getRTCP oor b now = (b', l) -> numbering b' = numbering b.
Proof.
  unfold getRTCP, buildReceptionReport, buildREMBPacket. cbv zeta.
  destruct (remb _ && _)%bool; intros [= <- <-]; by destruct b.
Qed.

Lemma report_numbering oor b t now b' l :
  report oor b t now = (b', l) -> numbering b' = numbering b.
Proof.
  unfold report. case_test; [|by intros [= <- <-]].
  destruct (getRTCP _ _ _) as [b1 l1] eqn:Eg. intros [= <- <-].
  apply getRTCP_numbering in Eg. destruct b1, b. exact Eg.
Qed.

Section calc_lemmas.
Context (oor : float -> Z) (rtp_unmarshal : option bytes -> option rtp_packet)
  (GetExtension : rtp_packet -> Z -> option bytes) (audio_level : bytes -> option Z).
#[local] Abbreviation calc := (calc oor rtp_unmarshal GetExtension audio_level).
#[local] Abbreviation calc_packet := (calc_packet oor GetExtension audio_level).

Lemma calc_inv b cb pkt t now b' evs :
  calc b cb pkt t now = Ok (b', evs) ->
  exists b1 sn head stored lost,
    calc_store b pkt t = Ok (b1, (sn, head), (stored, lost))
    /\ ((b' = b1 /\ evs = lost_events b1 lost /\ rtp_unmarshal stored = None)
        \/ exists p evs', rtp_unmarshal stored = Some p
             /\ calc_packet b1 cb sn head p t now = Ok (b', evs')
             /\ evs = (lost_events b1 lost ++ evs')%list).
Proof.
  unfold Buffer.calc. intros H.
  destruct (calc_store b pkt t) as [[[b1 [sn head]] [stored lost]]|]; [|done].
  cbn [mbind go_bind] in H. exists b1, sn, head, stored, lost. split; [done|].
  destruct (rtp_unmarshal stored) as [p|]; [right|left].
  - destruct (calc_packet _ _ _ _ _ _ _) as [[b2 evs']|] eqn:E; [|done].
    injection H as <- <-. by exists p, evs'.
  - by injection H as -> <-.
Qed.

Lemma calc_packet_inv b cb sn head p t now b' evs :
  calc_packet b cb sn head p t now = Ok (b', evs) ->
  (b' = b /\ evs = [])
  \/ exists vp8 key evs',
       codec_payload b (rp_payload p) = Ok (Some (vp8, key))
       /\ b' = (report oor (time_stats (probe b sn vp8) (rp_ts p) t) t now).1
       /\ ext_events GetExtension audio_level (time_stats (probe b sn vp8) (rp_ts p) t) cb p t
          = Ok evs'
       /\ evs = (ToChan (MkExtPacket head (b_cycles b) t p vp8 key) :: evs'
                ++ (report oor (time_stats (probe b sn vp8) (rp_ts p) t) t now).2)%list.
Proof.
  unfold Buffer.calc_packet. intros H.
  destruct (codec_payload b _) as [[[vp8 key]|]|]; cbn [mbind go_bind] in H;
    [right|by injection H as -> <-; left|done].
  destruct (ext_events _ _ _ _ _ _) as [evs'|] eqn:E; [|done]. injection H as <- <-.
  by exists vp8, key, evs'.
Qed.

Lemma calc_packet_numbering b cb sn head p t now b' evs :
  calc_packet b cb sn head p t now = Ok (b', evs) -> numbering b' = numbering b.
Proof.
  intros [[-> _]|(vp8 & key & evs' & _ & -> & _)]%calc_packet_inv; [done|].
  destruct (report _ _ _ _) as [b2 l] eqn:E. apply report_numbering in E.
  cbn [fst]. by rewrite E, time_stats_numbering, probe_numbering.
Qed.

Lemma calc_store_inv b pkt t b1 sn head r :
  calc_store b pkt t = Ok (b1, (sn, head), r) ->
  exists hd b0 k x,
    go_slice pkt 2 4 = Ok hd /\ get_u16 hd = Ok sn /\ track_sn b sn t = Ok b0
    /\ bucket b0 = Some k /\ head = (sn =? maxSeqNo b0)
    /\ addPacket k pkt sn head = Ok (x, r.1, r.2)
    /\ b1 = (count_packet b0 (len pkt)) <| bucket := Some x |>.
Proof.
  unfold calc_store. intros H.
  destruct (go_slice pkt 2 4) as [hd|]; [|done]. cbn [mbind go_bind] in H.
  destruct (get_u16 hd) as [sn'|] eqn:E2; [|done]. cbn [mbind go_bind] in H.
  destruct (track_sn b sn' t) as [b0|] eqn:E3; [|done]. cbn [mbind go_bind] in H.
  change (bucket (count_packet b0 (len pkt))) with (bucket b0) in H.
  change (maxSeqNo (count_packet b0 (len pkt))) with (maxSeqNo b0) in H.
  destruct (bucket b0) as [k|] eqn:E4; [|done].
  destruct (addPacket k pkt sn' _) as [[[x s] l]|] eqn:E5; [|done].
  injection H as <- <- <- <-. exists hd, b0, k, x. by split_and!.
Qed.
End calc_lemmas.

(** ** Specification: the highest sequence number

    [tracks b v0 M n]: of the [n] packets so far, numbered from [v0] without
    a bound, [M] is the highest. *)
Definition tracks (b : Buffer) (v0 M n : Z) : Prop :=
  0 < n < 4294967296 /\ 0 <= v0 <= M /\ M - (v0 - v0 mod 65536) < 4294967296
  /\ numbering b = (n, M mod 65536, M - M mod 65536 - (v0 - v0 mod 65536)).

Lemma track_sn_tracks b v0 M n v t b1 :
  tracks b v0 M n -> M - 32768 <= v < M + 32768 -> 0 <= v ->
  Z.max M v - (v0 - v0 mod 65536) < 4294967296 ->
  track_sn b (v mod 65536) t = Ok b1 ->
  numbering b1 = (n, Z.max M v mod 65536,
                  Z.max M v - Z.max M v mod 65536 - (v0 - v0 mod 65536)).
Proof.
  intros (Hn & Hv0 & HM & Hnum) Hv Hv' Hb. injection Hnum as Hc Hm Hcy. unfold track_sn.
  rewrite Hc, Hm, Hcy. assert (n =? 0 = false) as -> by lia.
  rewrite top_bit_clear_spec by apply u16_range.
  case_test.
  - assert (M <= v) by (revert E; wrap_lia).
    replace (Z.max M v) with v by lia. case_test; intros [= <-]; unfold numbering.
    + cbn [upd settable_Buffer eta_record stats maxSeqNo b_cycles]. rewrite Hc.
      rewrite u32_small by zlia. f_equal. zlia.
    + cbn [upd settable_Buffer eta_record stats maxSeqNo b_cycles]. rewrite Hc, Hcy.
      f_equal. zlia.
  - assert (v < M) by (revert E; wrap_lia). intros [= <-]. replace (Z.max M v) with M by lia.
    unfold numbering. by rewrite Hc, Hm, Hcy.
Qed.

(** The number [calc] reads from a packet *)
Definition pkt_sn (pkt : bytes) : go Z := hd ← go_slice pkt 2 4; get_u16 hd.

(** ** Properties: numbering and reports *)

(** C7. Each packet that is at most 32767 numbers ahead of the newest one, or at
    most 32768 behind, leaves the buffer with the highest number received
    and its cycle count, across wraps of the 16-bit counter and for packets
    in any order, whatever becomes of the packet itself. *)
Theorem calc_tracks oor unm gext al b cb pkt t now v0 M n v b' evs :
  tracks b v0 M n -> pkt_sn pkt = Ok (v mod 65536) ->
  M - 32768 <= v < M + 32768 -> 0 <= v ->
  Z.max M v - (v0 - v0 mod 65536) < 4294967296 -> n + 1 < 4294967296 ->
  calc oor unm gext al b cb pkt t now = Ok (b', evs) ->
  tracks b' v0 (Z.max M v) (n + 1).
Proof.
  intros Ht Hsn Hv H0 HM Hn1 Hc. pose proof Ht as (Hn & Hv0 & _ & _).
  apply calc_inv in Hc as (b1 & sn & head & stored & lost & Hst & Hb').
  apply calc_store_inv in Hst as (hd & b0 & k & x & Hs & Hu & Htr & _ & _ & _ & ->).
  unfold pkt_sn in Hsn. rewrite Hs in Hsn. cbn [mbind go_bind] in Hsn.
  rewrite Hu in Hsn. injection Hsn as ->.
  pose proof (track_sn_tracks _ _ _ _ _ _ _ Ht Hv H0 HM Htr) as Hnum.
  set (b1 := (count_packet b0 (len pkt)) <| bucket := Some x |>) in *.
  assert (numbering b' = numbering b1) as Hb.
  { destruct Hb' as [(-> & _)|(p & evs' & _ & Hp & _)]; [done|].
    by eapply calc_packet_numbering. }
  unfold tracks. rewrite Hb. split_and!; try lia.
  unfold numbering in Hnum |- *. injection Hnum as Hn0 Hm Hcy.
  subst b1. unfold count_packet. destruct b0 as [].
  cbn [upd settable_Buffer settable_Stats eta_record stats maxSeqNo b_cycles PacketCount] in *.
  rewrite Hn0, Hm, Hcy, u32_small by lia. done.
Qed.

(** C23. The receiver report of a stream whose first packet was number [v0]: the
    highest number, all packets lost so far and, since the last report, the
    lost share in 1/256, when nothing arrived twice; of packets that did
    arrive twice, more than were expected, it makes an underflow. *)
Theorem reception_report_spec oor b now v0 M n :
  tracks b v0 M n -> baseSN b = v0 mod 65536 -> M - v0 + 1 < 4294967296 ->
  let '(b', rr) := buildReceptionReport oor b now in
  let st := stats b in
  let e := (M - v0 + 1) - LastExpected st in
  let r := n - LastReceived st in
  LastSequenceNumber rr = v0 mod 65536 + (M - v0)
  /\ TotalLost rr = Z.max 0 ((M - v0 + 1) - n)
  /\ LastExpected (stats b') = M - v0 + 1 /\ LastReceived (stats b') = n
  /\ (0 < r <= e -> e < 16777216 -> FractionLost rr = 256 * (e - r) / e)
  /\ (0 < e < r -> r < 16777216 ->
      FractionLost rr = (4294967296 - 256 * (r - e)) / e mod 256).
Proof.
  intros (Hn & Hv0 & HM & Hnum) Hbase HM1. injection Hnum as Hc Hm Hcy.
  unfold buildReceptionReport. rewrite Hc, Hm, Hcy, Hbase.
  assert (Z.lor (M - M mod 65536 - (v0 - v0 mod 65536)) (M mod 65536)
    = v0 mod 65536 + (M - v0)) as ->.
  { rewrite (lor_add_low _ _ 16); [lia|lia| |]; change (2 ^ 16) with 65536; zlia. }
  assert (u32 (v0 mod 65536 + (M - v0) - v0 mod 65536 + 1) = M - v0 + 1) as -> by wrap_lia.
  set (E := M - v0 + 1) in *. set (e := E - LastExpected (stats b)).
  set (r := n - LastReceived (stats b)).
  cbv zeta. cbn [LastSequenceNumber TotalLost FractionLost].
  split; [done|]. split.
  { destruct (Z.ltb_spec n E), (Z.eqb_spec n 0); cbn [andb negb]; try lia.
    rewrite u32_small; lia. }
  split; [by destruct b|]. split; [by destruct b|]. split; intros Hr He.
  - rewrite (u32_small e), (u32_small r) by lia. rewrite (u32_small (e - r)) by lia.
    assert (negb (e =? 0) = true) as -> by (apply negb_true_iff; lia). cbn [andb].
    case_test.
    + rewrite Z.shiftl_mul_pow2 by lia. change (2 ^ 8) with 256.
      rewrite (u32_small ((e - r) * 256)) by lia. rewrite (Z.mul_comm _ 256).
      apply u8_small. split; [apply Z.div_pos; lia|apply Z.div_lt_upper_bound; lia].
    + replace (e - r) with 0 by lia. done.
  - rewrite (u32_small e), (u32_small r) by lia.
    assert (u32 (e - r) = 4294967296 - (r - e)) as -> by wrap_lia.
    assert (negb (e =? 0) = true) as -> by (apply negb_true_iff; lia). cbn [andb].
    test_true. rewrite Z.shiftl_mul_pow2 by lia. change (2 ^ 8) with 256.
    unfold u8. do 2 f_equal. wrap_lia.
Qed.

(** *** Examples: a buffer bound to an audio track *)

(** A parser of RTP packets without extensions, for the examples *)
Definition ex_unmarshal (o : option bytes) : option rtp_packet :=
  match o with
  | Some (b0 :: b1 :: s1 :: s0 :: t3 :: t2 :: t1 :: t0 :: c3 :: c2 :: c1 :: c0 :: pl) =>
      Some (RtpPacket (Z.testbit b1 7) (Z.land b1 127) (s1 * 256 + s0)
              (((t3 * 256 + t2) * 256 + t1) * 256 + t0)
              (((c3 * 256 + c2) * 256 + c1) * 256 + c0) [] pl)
  | _ => None
  end.
Definition ex_ext (p : rtp_packet) (id : Z) : option bytes := None.
Definition ex_level (b : bytes) : option Z := None.

Definition ex_pkt (sn ts : Z) : bytes :=
  ([128; 111] ++ be16 sn ++ be32 ts ++ be32 99 ++ [1; 2; 3])%list.

Definition ex_pool : bytes := replicate (Z.to_nat (3 * maxPktSize)) 0.

Definition ex_audio : go (Buffer * list buf_event) :=
  Bind (fun _ => 0) ex_unmarshal ex_ext ex_level "twcc" (NewBuffer 99) false
    (MkParams [MkCodec "audio/OPUS" 48000 []] []) 1500 ex_pool 0.

(** Packets [(sn, arrival)] into a bound buffer *)
Fixpoint ex_calls (b : Buffer) (l : list (Z * Z)) : go Buffer :=
  match l with
  | [] => mret b
  | (sn, t) :: l =>
      r ← calc (fun _ => 0) ex_unmarshal ex_ext ex_level b false (ex_pkt sn (960 * sn)) t t;
      ex_calls r.1 l
  end.
Definition ex_buffer (l : list (Z * Z)) : Buffer :=
  match ex_audio with
  | Ok r => match ex_calls r.1 l with Ok b => b | Panic => NewBuffer 0 end
  | Panic => NewBuffer 0
  end.

Lemma ex_tracks : tracks (ex_buffer [(65534, 1000000); (65535, 2000000)]) 65534 65535 2.
Proof. repeat split; vm_compute; (reflexivity || discriminate). Qed.

Lemma calc_tracks_witness :
  exists b' evs,
    calc (fun _ => 0) ex_unmarshal ex_ext ex_level
      (ex_buffer [(65534, 1000000); (65535, 2000000)]) false (ex_pkt 1 0) 3000000 3000000
    = Ok (b', evs) /\ tracks b' 65534 65537 3.
Proof.
  destruct (calc (fun _ => 0) ex_unmarshal ex_ext ex_level
      (ex_buffer [(65534, 1000000); (65535, 2000000)]) false (ex_pkt 1 0) 3000000 3000000)
    as [[b' evs]|] eqn:E; [|by vm_compute in E].
  exists b', evs. split; [done|].
  apply (calc_tracks _ _ _ _ _ _ _ _ _ 65534 65535 2 65537 _ _ ex_tracks) in E;
    [exact E|reflexivity|repeat split; vm_compute; (reflexivity || discriminate)..].
Defined.

Lemma reception_report_spec_witness :
  FractionLost (buildReceptionReport (fun _ => 0)
     ((ex_buffer [(65534, 1000000); (65535, 2000000)])
        <| stats := MkStats 0 0 (f64_of_Z 0) 1 (f64_of_Z 0) 0 |>) 0).2 = 128.
Proof.
  pose proof (reception_report_spec (fun _ => 0)
    ((ex_buffer [(65534, 1000000); (65535, 2000000)])
        <| stats := MkStats 0 0 (f64_of_Z 0) 1 (f64_of_Z 0) 0 |>) 0 65534 65535 1) as H.
  destruct (buildReceptionReport _ _ _) as [b' rr].
  destruct H as (_ & _ & _ & _ & Hf & _).
  - repeat split; vm_compute; (reflexivity || discriminate).
  - vm_compute. reflexivity.
  - lia.
  - cbn [snd]. rewrite Hf; vm_compute; repeat split; (reflexivity || discriminate).
Defined.

(** A stream whose first 25 packets cross the wrap: the smaller number taken
    as the base belongs to the next cycle, and after two packets without a
    loss the first report says that 65535 were lost. *)
Theorem wrap_in_probe_reports_loss oor :
  let b := ex_buffer [(65535, 1000000); (0, 2000000)] in
  baseSN b = 0
  /\ TotalLost (buildReceptionReport oor b 0).2 = 65535
  /\ FractionLost (buildReceptionReport oor b 0).2 = 255.
Proof. vm_compute. repeat split. Qed.

(** *** Bandwidth estimates, delays, timestamps *)

(** The estimate sent to the publisher is between 100000 and the configured
    maximum; with a maximum of 100000 or less, like the 1500 of the shipped
    configuration, it is 100000 whatever the link does. *)
Theorem remb_bounds oor b :
  0 <= bitrate b ->
  exists br, (buildREMBPacket oor b).2 = ReceiverEstimatedMaximumBitrate (f32_of_Z br) [mediaSSRC b]
    /\ 100000 <= br <= Z.max 100000 (maxBitrate b).
Proof.
  intros Hb. unfold buildREMBPacket. cbv zeta. cbn [snd]. eexists. split; [reflexivity|].
  match goal with |- context [if maxBitrate b <? ?x then _ else _] => generalize x; intros br end.
  case_test; case_test; lia.
Qed.

Lemma remb_bounds_witness :
  (buildREMBPacket (fun _ => 0) (ex_buffer [(7, 1000000)]) ).2
  = ReceiverEstimatedMaximumBitrate (f32_of_Z 100000) [99].
Proof.
  destruct (remb_bounds (fun _ => 0) (ex_buffer [(7, 1000000)])) as (br & E & Hbr);
    [vm_compute; discriminate|].
  change (maxBitrate _) with 1500 in Hbr. rewrite E. by replace br with 100000 by lia.
Defined.

(** The delay since the last sender report, up to 49 days: whole seconds
    only, because the milliseconds are divided by 1000 before they are
    scaled; up to a second it is 0. *)
Theorem delay_since_sr_spec b now :
  lastSRRecv b <> 0 -> lastSRRecv b <= now ->
  now - lastSRRecv b < 4294967296000000 ->
  delay_since_sr b now = u32 (((now - lastSRRecv b) / 1000000000) * 65536).
Proof.
  intros H0 Hle Hlt. unfold delay_since_sr.
  assert (negb (lastSRRecv b =? 0) = true) as -> by (apply negb_true_iff; lia).
  set (d := now - lastSRRecv b) in *. rewrite i64_small by lia.
  unfold go_div. rewrite Z.quot_div_nonneg by lia. rewrite (u32_small (d / 1000000)) by zlia.
  replace (d / 1000000 mod 1000 / 1000) with 0 by zlia.
  rewrite Z.mul_0_l, Z.lor_0_r, Z.shiftl_mul_pow2 by lia. change (2 ^ 16) with 65536.
  rewrite Z.div_div by lia. done.
Qed.

Lemma delay_since_sr_spec_witness :
  delay_since_sr ((NewBuffer 1) <| lastSRRecv := 5000000000 |>) 5999000000 = 0
  /\ delay_since_sr ((NewBuffer 1) <| lastSRRecv := 5000000000 |>) 7500000000 = 131072.
Proof.
  split; (etransitivity; [apply delay_since_sr_spec; cbn; lia|reflexivity]).
Defined.

Lemma wrap_bits x :
  is_u32 x ->
  (Z.land x 201326592 =? 0) = (x mod 268435456 <? 67108864)
  /\ (Z.land x 201326592 =? 201326592) = (201326592 <=? x mod 268435456).
Proof.
  intros Hx.
  assert (Z.land x 201326592 = (x / 67108864) mod 4 * 67108864) as ->.
  { replace (x / 67108864) with (Z.shiftr x 26) by (by rewrite Z.shiftr_div_pow2).
    change 4 with (2 ^ 2). rewrite <-Z.land_ones by lia.
    change 67108864 with (2 ^ 26). rewrite <-Z.shiftl_mul_pow2 by lia.
    change 201326592 with (Z.shiftl (Z.ones 2) 26).
    apply Z.bits_inj'. intros k Hk. rewrite Z.land_spec, !Z.shiftl_spec, Z.land_spec by lia.
    destruct (decide (k < 26)).
    - rewrite !(Z.testbit_neg_r _ (k - 26)) by lia. by rewrite !andb_false_r.
    - rewrite Z.shiftr_spec by lia. by replace (k - 26 + 26) with k by lia. }
  assert (0 <= (x / 67108864) mod 4 < 4) by zlia.
  split.
  - destruct (Z.ltb_spec (x mod 268435456) 67108864); [apply Z.eqb_eq|apply Z.eqb_neq]; zlia.
  - destruct (Z.leb_spec 201326592 (x mod 268435456)); [apply Z.eqb_eq|apply Z.eqb_neq]; zlia.
Qed.

(** [IsLaterTimestamp] orders timestamps up to 2^26 ticks apart (12 minutes
    of video), across the wrap of the 32-bit clock.  Its mask lacks a digit
    (0xC000000 for 0xC0000000), so that some larger steps forward, still far
    below half the clock, count as steps back. *)
Theorem is_later_timestamp_spec t1 t2 :
  is_u32 t1 -> is_u32 t2 ->
  let d := u32 (t1 - t2) in
  (0 < d <= 67108864 -> IsLaterTimestamp t1 t2 = true)
  /\ (d = 0 \/ 4294967296 - 67108864 <= d -> IsLaterTimestamp t1 t2 = false)
  /\ (t2 mod 268435456 < 67108864 -> 201326592 <= t1 mod 268435456 -> t2 < t1 ->
      IsLaterTimestamp t1 t2 = false).
Proof.
  intros H1 H2 d. unfold IsLaterTimestamp, IsTimestampWrapAround.
  destruct (wrap_bits t1 H1) as [-> ->], (wrap_bits t2 H2) as [-> ->].
  subst d. unfold u32.
  split_and!; intros;
    destruct (Z.ltb_spec t2 t1), (Z.ltb_spec (t1 mod 268435456) 67108864),
      (Z.leb_spec 201326592 (t1 mod 268435456)), (Z.ltb_spec (t2 mod 268435456) 67108864),
      (Z.leb_spec 201326592 (t2 mod 268435456)); cbn [andb]; try done; exfalso; zlia.
Qed.

Lemma is_later_timestamp_spec_witness :
  IsLaterTimestamp 5 4294967290 = true /\ IsLaterTimestamp 201326592 0 = false.
Proof.
  split.
  - apply (is_later_timestamp_spec 5 4294967290); vm_compute; repeat split; discriminate.
  - apply (is_later_timestamp_spec 201326592 0); vm_compute; repeat split; discriminate.
Defined.

(** *** Key frames *)

Definition no_chan (e : buf_event) : Prop :=
  match e with ToChan _ => False | _ => True end.

(** The events behind the packet itself *)
Definition side_event (e : buf_event) : Prop :=
  match e with FeedbackTWCC _ _ _ | AudioLevel _ | Feedback _ => True | _ => False end.

Lemma ext_events_side gext al b cb p t evs :
  ext_events gext al b cb p t = Ok evs -> Forall side_event evs.
Proof.
  unfold ext_events. intros He.
  match type of He with (?m ≫= _) = _ => destruct m as [tw|] eqn:Etw; [|done] end.
  cbn [mbind go_bind] in He. injection He as <-. apply Forall_app. split.
  - revert Etw. destruct (twcc b); [|by intros [= <-]; constructor].
    destruct (gext _ _) as [ext|]; [|by intros [= <-]; constructor].
    destruct (1 <? len ext); [|by intros [= <-]; constructor].
    destruct (get_u16 ext); [|done]. intros [= <-]. by repeat constructor.
  - clear Etw. destruct (audioLevel b); [|constructor]. destruct (gext _ _); [|constructor].
    destruct cb; [|constructor]. destruct (al _); by repeat constructor.
Qed.

Lemma report_side oor b t now : Forall side_event (report oor b t now).2.
Proof.
  unfold report. case_test; [|by constructor]. destruct (getRTCP _ _ _). by repeat constructor.
Qed.

Lemma lost_events_side b l : Forall side_event (lost_events b l).
Proof. destruct l as [[? []]|]; by repeat constructor. Qed.

(** Packets of an H.264 track are never marked as key frames: the switch
    tests the MIME type against "video/h64". *)
Theorem h264_never_keyframe oor unm gext al b cb pkt t now b' evs :
  mime b = "video/h264"%string ->
  calc oor unm gext al b cb pkt t now = Ok (b', evs) ->
  Forall (fun e => match e with ToChan ep => KeyFrame ep = false | _ => True end) evs.
Proof.
  intros Hm Hc.
  apply calc_inv in Hc as (b1 & sn & head & stored & lost & Hst & Hb').
  assert (mime b1 = mime b) as Hm1.
  { apply calc_store_inv in Hst as (hd & b0 & k & x & _ & _ & Htr & _ & _ & _ & ->).
    unfold track_sn in Htr. destruct b as []. destruct b0 as [].
    revert Htr. cbn. destruct bucket0; repeat case_test; intros Htr; try discriminate Htr;
      injection Htr; intros; subst; reflexivity. }
  assert (forall l, Forall (fun e => match e with ToChan ep => KeyFrame ep = false | _ => True end)
    (lost_events b1 l)) as Hlost
    by (intros; eapply Forall_impl; [apply lost_events_side|]; by intros []).
  destruct Hb' as [(_ & -> & _)|(p & evs' & _ & Hp & ->)]; [done|].
  apply Forall_app. split; [done|].
  apply calc_packet_inv in Hp as [[_ ->]|(vp8 & key & evs2 & Hcp & _ & He & ->)]; [done|].
  constructor.
  - unfold codec_payload in Hcp. rewrite Hm1, Hm in Hcp. cbn in Hcp. by injection Hcp as _ <-.
  - apply Forall_app. split.
    + eapply Forall_impl; [exact (ext_events_side _ _ _ _ _ _ _ He)|]. by intros [].
    + eapply Forall_impl; [apply report_side|]. by intros [].
Qed.

Definition ex_h264 : go (Buffer * list buf_event) :=
  Bind (fun _ => 0) ex_unmarshal ex_ext ex_level "twcc" (NewBuffer 99) false
    (MkParams [MkCodec "video/H264" 90000 []] []) 1500 ex_pool 0.

Definition ex_h264_buffer : Buffer :=
  match ex_h264 with Ok r => r.1 | Panic => NewBuffer 0 end.

(** An IDR slice in an H.264 packet *)
Definition ex_idr : bytes :=
  ([128; 96] ++ be16 7 ++ be32 0 ++ be32 99 ++ [101; 1; 2])%list.

Lemma ex_idr_sent :
  exists b' ep,
    calc (fun _ => 0) ex_unmarshal ex_ext ex_level ex_h264_buffer false ex_idr 1000 1000
    = Ok (b', [ToChan ep]) /\ rp_payload (Packet ep) = [101; 1; 2].
Proof. vm_compute. eexists _, _. split; reflexivity. Qed.

Lemma ex_h264_mime : mime ex_h264_buffer = "video/h264"%string.
Proof. vm_compute. reflexivity. Qed.

Lemma h264_never_keyframe_witness :
  isH264Keyframe [101; 1; 2] = Some (Ok true)
  /\ exists b' ep,
       calc (fun _ => 0) ex_unmarshal ex_ext ex_level ex_h264_buffer false ex_idr 1000 1000
       = Ok (b', [ToChan ep]) /\ rp_payload (Packet ep) = [101; 1; 2] /\ KeyFrame ep = false.
Proof.
  split; [reflexivity|]. destruct ex_idr_sent as (b' & ep & E & Hp).
  exists b', ep. split; [exact E|]. split; [exact Hp|].
  pose proof (h264_never_keyframe _ _ _ _ _ _ _ _ _ _ _ ex_h264_mime E) as H.
  apply Forall_cons in H as [H _]. exact H.
Defined.

(** *** Life cycle *)

(** The operations of a buffer that its owners call at any time *)
Inductive buf_op :=
| OpWrite (pkt : bytes) (now : Z)
| OpClose
| OpSetSR (rtp ntp now : Z).

(** Fields that the handler of a packet leaves alone *)
Definition life (b : Buffer) : bool * bool * list pendingPackets := (closed b, closeOnce b, pPackets b).

Lemma track_sn_life b sn t b' : track_sn b sn t = Ok b' -> life b' = life b.
Proof.
  unfold track_sn. destruct b as []. cbn.
  destruct bucket0; repeat case_test; intros H; (discriminate H || injection H as <-); reflexivity.
Qed.

Lemma probe_life b sn v : life (probe b sn v) = life b.
Proof.
  unfold probe. case_test; [|done]. destruct v as [pld|]; repeat case_test; by destruct b.
Qed.

Lemma time_stats_life b ts t : life (time_stats b ts t) = life b.
Proof. unfold time_stats. destruct b. cbn. repeat case_test; reflexivity. Qed.

Lemma report_life oor b t now : life (report oor b t now).1 = life b.
Proof.
  unfold report, getRTCP, buildReceptionReport, buildREMBPacket. case_test; [|done].
  cbv zeta. destruct (remb _ && _)%bool; by destruct b.
Qed.

Definition not_close (e : buf_event) : Prop := e <> CloseChan.

Lemma calc_life oor unm gext al b cb pkt t now b' evs :
  calc oor unm gext al b cb pkt t now = Ok (b', evs) ->
  life b' = life b /\ Forall not_close evs.
Proof.
  intros (b1 & sn & head & stored & lost & Hst & Hb')%calc_inv.
  assert (life b1 = life b) as Hl.
  { apply calc_store_inv in Hst as (hd & b0 & k & x & _ & _ & Htr & _ & _ & _ & ->).
    apply track_sn_life in Htr. rewrite <-Htr. by destruct b0. }
  assert (Forall not_close (lost_events b1 lost)) as Hlost
    by (eapply Forall_impl; [apply lost_events_side|]; by intros []).
  destruct Hb' as [(-> & -> & _)|(p & evs' & _ & Hp & ->)]; [done|].
  apply calc_packet_inv in Hp as [[-> ->]|(vp8 & key & evs2 & _ & -> & He & ->)].
  { by rewrite app_nil_r. }
  rewrite report_life, time_stats_life, probe_life. split; [done|].
  apply Forall_app. split; [done|]. constructor; [done|]. apply Forall_app. split.
  - eapply Forall_impl; [exact (ext_events_side _ _ _ _ _ _ _ He)|]. by intros [].
  - eapply Forall_impl; [apply report_side|]. by intros [].
Qed.

Section life_cycle.
Context (oor : float -> Z) (unm : option bytes -> option rtp_packet)
  (gext : rtp_packet -> Z -> option bytes) (al : bytes -> option Z) (cb : bool).

Definition do_op (b : Buffer) (o : buf_op) : go (Buffer * list buf_event) :=
  match o with
  | OpWrite pkt now => r ← Write oor unm gext al b cb pkt now now; mret r.1
  | OpClose => mret (Close b)
  | OpSetSR rtp ntp now => mret (SetSenderReportData b rtp ntp now, [])
  end.

Fixpoint do_ops (b : Buffer) (l : list buf_op) : go (Buffer * list buf_event) :=
  match l with
  | [] => mret (b, [])
  | o :: l => r ← do_op b o; q ← do_ops r.1 l; mret (q.1, r.2 ++ q.2)%list
  end.

(** Nothing is sent on the channel once it is closed, and it is closed once
    only: both would be a panic. *)
Inductive channel_use : bool -> list buf_event -> Prop :=
| use_nil c : channel_use c []
| use_send ep l : channel_use false l -> channel_use false (ToChan ep :: l)
| use_close l : channel_use true l -> channel_use false (CloseChan :: l)
| use_other c e l : no_chan e -> e <> CloseChan -> channel_use c l -> channel_use c (e :: l).

Lemma channel_use_app l k :
  Forall not_close l -> channel_use false k -> channel_use false (l ++ k).
Proof.
  induction 1 as [|e l He _ IH]; [done|]. intros Hk. cbn. specialize (IH Hk).
  destruct e; try by apply use_other. by apply use_send.
Qed.

(** *** The channel *)

(** C27. Writes, sender reports and [Close], in any order: a packet is never sent
    on the closed channel, the channel is closed once at most, and every
    write after that is refused. *)
Theorem channel_safe b l b' evs :
  closed b = closeOnce b -> do_ops b l = Ok (b', evs) ->
  channel_use (closed b) evs
  /\ (closed b' = true -> forall pkt now now',
       Write oor unm gext al b' cb pkt now now' = Ok (b', [], (0, Some EOF))).
Proof.
  intros Hcl Hops. split.
  2:{ intros Hc pkt now now'. unfold Write. by rewrite Hc. }
  revert b evs Hcl Hops. induction l as [|o l IH]; intros b evs Hcl Hops.
  { injection Hops as <- <-. constructor. }
  cbn [do_ops] in Hops. destruct (do_op b o) as [[b1 ev1]|] eqn:E; [|done].
  cbn [mbind go_bind fst snd] in Hops.
  destruct (do_ops b1 l) as [[b2 ev2]|] eqn:E2; [|done]. injection Hops as -> <-.
  destruct o as [pkt now| |rtp ntp now]; cbn [do_op] in E.
  - unfold Write in E. destruct (closed b) eqn:Ec; [|destruct (bound b); cbn [negb] in E].
    + injection E as <- <-. specialize (IH b ev2 ltac:(congruence) E2). by rewrite Ec in IH.
    + destruct (calc _ _ _ _ _ _ _ _ _) as [[b3 ev3]|] eqn:E3; [|done].
      injection E as <- <-. apply calc_life in E3 as [Hlf Hnc]. injection Hlf as H1 H2 _.
      apply channel_use_app; [done|].
      specialize (IH b3 ev2 ltac:(congruence) E2). by rewrite H1, Ec in IH.
    + injection E as <- <-. pose proof (fun H => IH _ _ H E2) as IH1.
      cbn [upd settable_Buffer eta_record closed closeOnce] in IH1. rewrite Ec in IH1. by apply IH1.
  - unfold Close in E. destruct (closeOnce b) eqn:Eo.
    + injection E as <- <-. exact (IH b ev2 ltac:(congruence) E2).
    + injection E as <- <-. pose proof (fun H => IH _ _ H E2) as IH1.
      cbn [upd settable_Buffer eta_record closed closeOnce] in IH1. specialize (IH1 eq_refl).
      rewrite Hcl, <-app_assoc.
      apply channel_use_app.
      * destruct (bucket b); [destruct (decide _)|]; by repeat constructor.
      * cbn. apply use_other; [done|done|]. by apply use_close.
  - injection E as <- <-. exact ((fun H => IH _ _ H E2) Hcl).
Qed.
End life_cycle.

Lemma channel_safe_witness :
  exists b' evs,
    do_ops (fun _ => 0) ex_unmarshal ex_ext ex_level false ex_h264_buffer
      [OpWrite ex_idr 1000; OpClose; OpWrite ex_idr 2000; OpClose] = Ok (b', evs)
    /\ channel_use false evs.
Proof.
  destruct (do_ops (fun _ => 0) ex_unmarshal ex_ext ex_level false ex_h264_buffer
      [OpWrite ex_idr 1000; OpClose; OpWrite ex_idr 2000; OpClose]) as [[b' evs]|] eqn:E.
  - exists b', evs. split; [done|].
    apply (channel_safe _ _ _ _ _ ex_h264_buffer) in E as [E _]; [exact E|reflexivity].
  - exfalso. clear -E. assert (is_ok (do_ops (fun _ => 0) ex_unmarshal ex_ext ex_level false
      ex_h264_buffer [OpWrite ex_idr 1000; OpClose; OpWrite ex_idr 2000; OpClose]) = true)
      as H by (vm_compute; reflexivity). by rewrite E in H.
Defined.
