(* ===== verification/Factory.v ===== *)
(** * The buffer factory ([internal/buffer/factory.go], [rtcpreader.go])

    [Factory] hands out one RTP buffer and one RTCP reader per SSRC; closing
    one takes it out of the factory's table again.  Objects are addresses in
    a store, because pion, the router and the factory share them.  A callback
    [func([]byte)] is a name. *)

From stdpp Require Import gmap.
From S2P Require Import Prelude GoNum GoSlice Nack Bucket Rtp Buffer.
#[local] Open Scope Z_scope.

(** ** Data *)

Record RTCPReader := MkReader {
  r_ssrc : Z;
  r_closed : bool;
  onPacket : option Z;
  r_onClose : bool }.
#[export] Instance settable_RTCPReader : Settable RTCPReader := fun r =>
  MkReader (r_ssrc r) (r_closed r) (onPacket r) (r_onClose r).

Definition NewRTCPReader (ssrc : Z) : RTCPReader := MkReader ssrc false None false.

(** [Write]: the [onPacket] call it makes, and its error *)
Definition reader_Write (r : RTCPReader) (p : bytes) : option (Z * bytes) * option buf_error :=
  if r_closed r then (None, Some EOF)
  else ((fun f => (f, p)) <$> onPacket r, None).

Definition reader_OnPacket (r : RTCPReader) (f : Z) : RTCPReader := r <| onPacket := Some f |>.

(** [Close]: [closed] is set to false; [onClose] must have been set. *)
Definition reader_Close (r : RTCPReader) : go RTCPReader :=
  if r_onClose r then mret (r <| r_closed := false |>) else Panic.

Inductive BufferPacketType := RTPBufferPacket | RTCPBufferPacket.

(** The factory's tables, and the objects made so far *)
Record Factory := MkFactory {
  rtpBuffers : gmap Z nat;
  rtcpReader : gmap Z nat;
  buf_store : list Buffer;
  rd_store : list RTCPReader }.
#[export] Instance settable_Factory : Settable Factory := fun f =>
  MkFactory (rtpBuffers f) (rtcpReader f) (buf_store f) (rd_store f).

Definition NewBufferFactory : Factory := MkFactory ∅ ∅ [] [].

(** A reader or a buffer, by its address *)
Inductive rw := RwBuffer (a : nat) | RwReader (a : nat).

(** ** Operations *)

Definition GetOrNew (f : Factory) (packetType : BufferPacketType) (ssrc : Z) : Factory * rw :=
  match packetType with
  | RTCPBufferPacket =>
      match rtcpReader f !! ssrc with
      | Some a => (f, RwReader a)
      | None =>
          let a := length (rd_store f) in
          (f <| rd_store := rd_store f ++ [(NewRTCPReader ssrc) <| r_onClose := true |>] |>
             <| rtcpReader := <[ssrc := a]> (rtcpReader f) |>, RwReader a)
      end
  | RTPBufferPacket =>
      match rtpBuffers f !! ssrc with
      | Some a => (f, RwBuffer a)
      | None =>
          let a := length (buf_store f) in
          (f <| buf_store := buf_store f ++ [NewBuffer ssrc] |>
             <| rtpBuffers := <[ssrc := a]> (rtpBuffers f) |>, RwBuffer a)
      end
  end.

Definition GetBuffer (f : Factory) (ssrc : Z) : option nat := rtpBuffers f !! ssrc.
Definition GetRTCPReader (f : Factory) (ssrc : Z) : option nat := rtcpReader f !! ssrc.
Definition GetBufferPair (f : Factory) (ssrc : Z) : option nat * option nat :=
  (GetRTCPReader f ssrc, GetBuffer f ssrc).

(** [Close] of the buffer at [a]: with the [onClose] callback of the factory
    when it is the first one *)
Definition close_buffer (f : Factory) (a : nat) : Factory :=
  match buf_store f !! a with
  | Some b =>
      let '(b', evs) := Close b in
      let f := f <| buf_store := <[a := b']> (buf_store f) |> in
      if bool_decide (closeOnce b = false)
      then f <| rtpBuffers := delete (mediaSSRC b) (rtpBuffers f) |> else f
  | None => f
  end.

Definition close_reader (f : Factory) (a : nat) : go Factory :=
  match rd_store f !! a with
  | Some r =>
      r' ← reader_Close r;
      mret (f <| rd_store := <[a := r']> (rd_store f) |>
              <| rtcpReader := delete (r_ssrc r) (rtcpReader f) |>)
  | None => mret f
  end.

(** ** Invariant *)

(** The tables map an SSRC to an object of that SSRC. *)
Record factory_wf (f : Factory) : Prop := {
  fw_rtp : forall ssrc a, rtpBuffers f !! ssrc = Some a ->
             exists b, buf_store f !! a = Some b /\ mediaSSRC b = ssrc;
  fw_rtcp : forall ssrc a, rtcpReader f !! ssrc = Some a ->
             exists r, rd_store f !! a = Some r /\ r_ssrc r = ssrc }.

Lemma new_factory_wf : factory_wf NewBufferFactory.
Proof. split; intros ssrc a; cbn; by rewrite lookup_empty. Qed.

Lemma GetOrNew_wf f ty ssrc : factory_wf f -> factory_wf (GetOrNew f ty ssrc).1.
Proof.
  intros [Hb Hr]. destruct ty; cbn [GetOrNew].
  - destruct (rtpBuffers f !! ssrc) eqn:E; [done|]. split; [|exact Hr].
    intros s a. cbn. destruct (decide (s = ssrc)) as [->|Hne].
    + rewrite lookup_insert_eq. intros [= <-]. eexists. by rewrite list_lookup_middle.
    + rewrite lookup_insert_ne by done. intros H. destruct (Hb s a H) as (b & Hl & Hs).
      exists b. split; [|done]. by apply lookup_app_l_Some.
  - destruct (rtcpReader f !! ssrc) eqn:E; [done|]. split; [exact Hb|].
    intros s a. cbn. destruct (decide (s = ssrc)) as [->|Hne].
    + rewrite lookup_insert_eq. intros [= <-]. eexists. by rewrite list_lookup_middle.
    + rewrite lookup_insert_ne by done. intros H. destruct (Hr s a H) as (b & Hl & Hs).
      exists b. split; [|done]. by apply lookup_app_l_Some.
Qed.

Lemma close_buffer_wf f a : factory_wf f -> factory_wf (close_buffer f a).
Proof.
  intros [Hb Hr]. unfold close_buffer. destruct (buf_store f !! a) as [b|] eqn:E; [|done].
  destruct (Close b) as [b' evs] eqn:Ec.
  assert (mediaSSRC b' = mediaSSRC b) as Hs
    by (unfold Close in Ec; destruct (closeOnce b); injection Ec as <- _; done).
  assert (forall s k, rtpBuffers f !! s = Some k ->
    exists c, <[a := b']> (buf_store f) !! k = Some c /\ mediaSSRC c = s) as Hb'.
  { intros s k H. destruct (Hb s k H) as (c & Hl & Hcs).
    destruct (decide (k = a)) as [->|Hne].
    - exists b'. rewrite list_lookup_insert_eq by (by eapply lookup_lt_Some).
      split; [done|]. rewrite E in Hl. injection Hl as ->. congruence.
    - exists c. by rewrite list_lookup_insert_ne. }
  case_bool_decide; split; cbn; try done.
  intros s k Hd. apply lookup_delete_Some in Hd as [_ Hd]. by apply Hb'.
Qed.

(** ** Properties *)

(** One buffer per SSRC: pion, which asks for it to write, and the router,
    which asks for it to read, get the same one, new and unbound the first
    time; asking again changes nothing, and closing it takes it out of the
    table, so that the next caller gets a fresh one. *)
Theorem factory_shares_buffer f ssrc :
  factory_wf f ->
  exists a f1 b,
    GetOrNew f RTPBufferPacket ssrc = (f1, RwBuffer a)
    /\ factory_wf f1
    /\ buf_store f1 !! a = Some b /\ mediaSSRC b = ssrc
    /\ (rtpBuffers f !! ssrc = None -> b = NewBuffer ssrc)
    /\ GetBuffer f1 ssrc = Some a
    /\ GetOrNew f1 RTPBufferPacket ssrc = (f1, RwBuffer a)
    /\ GetOrNew (GetOrNew f1 RTCPBufferPacket ssrc).1 RTPBufferPacket ssrc
       = ((GetOrNew f1 RTCPBufferPacket ssrc).1, RwBuffer a)
    /\ (closeOnce b = false -> GetBuffer (close_buffer f1 a) ssrc = None
        /\ factory_wf (close_buffer f1 a)).
Proof.
  intros Hwf. pose proof (GetOrNew_wf f RTPBufferPacket ssrc Hwf) as Hwf1.
  assert (exists a f1, GetOrNew f RTPBufferPacket ssrc = (f1, RwBuffer a)
    /\ rtpBuffers f1 !! ssrc = Some a
    /\ (rtpBuffers f !! ssrc = None -> buf_store f1 !! a = Some (NewBuffer ssrc)))
    as (a & f1 & Hg & Hl & Hn).
  { cbn [GetOrNew]. destruct (rtpBuffers f !! ssrc) as [a|] eqn:E.
    - exists a, f. by split_and!.
    - eexists _, _. split; [reflexivity|]. cbn. split; [by rewrite lookup_insert_eq|].
      intros _. by rewrite list_lookup_middle. }
  rewrite Hg in Hwf1. cbn [fst] in Hwf1.
  destruct (fw_rtp _ Hwf1 ssrc a Hl) as (b & Hb & Hs).
  exists a, f1, b. split_and!; try done.
  - intros H. specialize (Hn H). rewrite Hb in Hn. by injection Hn.
  - cbn [GetOrNew]. by rewrite Hl.
  - cbn [GetOrNew]. destruct (rtcpReader f1 !! ssrc); cbn; by rewrite Hl.
  - intros Hc. split; [|by apply close_buffer_wf].
    unfold close_buffer, GetBuffer. rewrite Hb. destruct (Close b) as [b' evs].
    rewrite bool_decide_true by done. cbn. by rewrite Hs, lookup_delete_eq.
Qed.

Lemma factory_shares_buffer_witness :
  exists a f1, GetOrNew NewBufferFactory RTPBufferPacket 5 = (f1, RwBuffer a)
    /\ GetBuffer f1 5 = Some a /\ GetBuffer (close_buffer f1 a) 5 = None.
Proof.
  destruct (factory_shares_buffer NewBufferFactory 5 new_factory_wf)
    as (a & f1 & b & Hg & _ & _ & _ & Hn & Hl & _ & _ & Hc).
  exists a, f1. split; [done|]. split; [done|]. apply Hc. rewrite Hn; [done|].
  apply lookup_empty.
Defined.

(** A closed reader is not closed: [Close] stores false, so what is written
    afterwards is still delivered. *)
Theorem closed_reader_delivers r r' p :
  reader_Close r = Ok r' -> reader_Write r' p = ((fun f => (f, p)) <$> onPacket r, None).
Proof. unfold reader_Close. destruct (r_onClose r); [|done]. by intros [= <-]. Qed.

Lemma closed_reader_delivers_witness :
  reader_Write ((MkReader 5 false (Some 7) true) <| r_closed := false |>) [1; 2]
  = (Some (7, [1; 2]), None).
Proof.
  apply (closed_reader_delivers (MkReader 5 false (Some 7) true)). reflexivity.
Defined.
