(* ===== verification/Pacer.v ===== *)
(** * The pacer ([internal/pacer/pacer.go])

    [BucketPacer] queues the packets of a down track and sends them at a
    target bit rate: every 5 ms its goroutine spends the bytes that the rate
    allows since the last packet.  The goroutine and its clients interleave,
    because the lock is free while a packet is written; [pacer_step] is the
    step relation of the whole. *)

From S2P Require Import Prelude GoNum GoSlice GoFloat Nack Rtp.
#[local] Open Scope Z_scope.

(** ** Data *)

(** [Packet]: the header and the payload in one; the write stream belongs to
    the down track. *)
Abbreviation pacer_packet := rtp_packet.

(** The goroutine [run]: waiting in [select], sending with the budget left
    and the time of the tick, or returned *)
Inductive run_phase := Idle | Sending (budget now : Z) | Returned.

Record BucketPacer := MkPacer {
  targetBitrate : Z;
  lastSend : Z;
  packets : list pacer_packet;
  done_closed : bool;
  phase : run_phase }.
#[export] Instance settable_BucketPacer : Settable BucketPacer := fun p =>
  MkPacer (targetBitrate p) (lastSend p) (packets p) (done_closed p) (phase p).

Definition NewBucketPacer (initialBitrate now : Z) : BucketPacer :=
  MkPacer initialBitrate now [] false Idle.

(** ** Operations *)

Section pacer.
Context (oor : float -> Z).

(** [uint64(p.f * float64(rate))] with [p.f = 1.5] *)
Definition SetTargetBitrate (p : BucketPacer) (rate : Z) : BucketPacer :=
  p <| targetBitrate := f_to_uint 64 oor (f64_mul (f64_const 3 2) (f64_of_Z rate)) |>.

Definition Enqueue (p : BucketPacer) (pkt : pacer_packet) : BucketPacer :=
  p <| packets := packets p ++ [pkt] |>.

(** Closing [done] twice panics. *)
Definition Stop (p : BucketPacer) : go BucketPacer :=
  if done_closed p then Panic else mret (p <| done_closed := true |>).

(** The bytes a tick may send: [int(delta * float64(rate) / 8000.0)] *)
Definition tick_budget (p : BucketPacer) (now : Z) : Z :=
  let delta := f64_of_Z (go_div (now - lastSend p) 1000000) in
  match f_trunc (f64_div (f64_mul delta (f64_of_Z (targetBitrate p))) (f64_of_Z 8000)) with
  | Some b => b
  | None => oor delta
  end.

(** The result of [WriteRTP], in bytes *)
Context (written : pacer_packet -> Z).

(** One step: by a client or by the goroutine; the packet it sends, if any *)
Inductive pacer_step : BucketPacer -> option pacer_packet -> BucketPacer -> Prop :=
| step_enqueue p pkt : pacer_step p None (Enqueue p pkt)
| step_target p rate : pacer_step p None (SetTargetBitrate p rate)
| step_stop p p' : Stop p = Ok p' -> pacer_step p None p'
| step_return p :
    phase p = Idle -> done_closed p = true ->
    pacer_step p None (p <| phase := Returned |>)
| step_tick p now :
    phase p = Idle -> lastSend p <= now ->
    pacer_step p None (p <| phase := Sending (tick_budget p now) now |>)
| step_send p budget now pkt rest :
    phase p = Sending budget now -> packets p = pkt :: rest -> 0 < budget ->
    pacer_step p (Some pkt)
      (p <| packets := rest |> <| lastSend := now |>
         <| phase := Sending (budget - written pkt) now |>)
| step_end p budget now :
    phase p = Sending budget now -> packets p = [] \/ budget <= 0 ->
    pacer_step p None (p <| phase := Idle |>).

(** Runs, with what was enqueued and sent so far, and what the current tick
    has sent *)
Inductive pacer_run (p0 : BucketPacer) : BucketPacer -> list pacer_packet ->
    list pacer_packet -> Prop :=
| run_start : pacer_run p0 p0 [] []
| run_enqueue p ins outs pkt :
    pacer_run p0 p ins outs -> pacer_run p0 (Enqueue p pkt) (ins ++ [pkt]) outs
| run_quiet p ins outs p' :
    pacer_run p0 p ins outs -> pacer_step p None p' -> packets p' = packets p ->
    pacer_run p0 p' ins outs
| run_send p ins outs pkt p' :
    pacer_run p0 p ins outs -> pacer_step p (Some pkt) p' ->
    pacer_run p0 p' ins (outs ++ [pkt]).

(** ** Properties *)

(** C26. However clients and the goroutine interleave, the packets leave in the
    order in which they came, none lost and none twice: what was sent,
    followed by the queue, is what was put in. *)
Theorem pacer_fifo rate t0 p ins outs :
  pacer_run (NewBucketPacer rate t0) p ins outs -> ins = outs ++ packets p.
Proof.
  induction 1 as [|p ins outs pkt _ IH|p ins outs p' _ IH _ Hp|p ins outs pkt p' _ IH Hs].
  - done.
  - cbn. by rewrite IH, app_assoc.
  - by rewrite Hp.
  - inversion Hs; subst. cbn [upd settable_BucketPacer eta_record packets].
    rewrite <-app_assoc. cbn [app]. congruence.
Qed.

(** The steps of one tick, from its start: the packets sent *)
Inductive tick_run : BucketPacer -> list pacer_packet -> BucketPacer -> Prop :=
| tick_refl p : tick_run p [] p
| tick_enqueue p outs p' pkt : tick_run p outs p' -> tick_run p outs (Enqueue p' pkt)
| tick_target p outs p' rate : tick_run p outs p' -> tick_run p outs (SetTargetBitrate p' rate)
| tick_send p outs p' pkt p'' :
    tick_run p outs p' -> pacer_step p' (Some pkt) p'' -> tick_run p (outs ++ [pkt]) p''.

Definition bytes_of (l : list pacer_packet) : Z := foldr (fun p n => written p + n) 0 l.

Lemma bytes_of_app l k : bytes_of (l ++ k) = bytes_of l + bytes_of k.
Proof. unfold bytes_of. induction l as [|x l IH]; cbn [app foldr]; lia. Qed.

(** A tick keeps to its budget: it sends another packet only while bytes are
    left, so that it exceeds the budget by less than its last packet; and
    when it ends early, the queue is empty. *)
Theorem tick_within_budget p budget now outs pkt p' :
  (forall q, 0 <= written q) ->
  phase p = Sending budget now -> tick_run p (outs ++ [pkt]) p' ->
  bytes_of outs < budget
  /\ phase p' = Sending (budget - bytes_of (outs ++ [pkt])) now
  /\ (forall p'', pacer_step p' None p'' -> phase p'' = Idle ->
      packets p' = [] \/ budget <= bytes_of (outs ++ [pkt])).
Proof.
  intros Hw Hph Hrun.
  assert (forall outs p', tick_run p outs p' ->
    phase p' = Sending (budget - bytes_of outs) now
    /\ forall l x, outs = l ++ [x] -> bytes_of l < budget) as Hinv.
  { clear Hrun outs p' pkt. intros outs p'. induction 1 as
      [p|p outs p' pkt _ IH|p outs p' r _ IH|p outs p' pkt p'' _ IH Hs].
    - split; [cbn; by rewrite Z.sub_0_r|]. by intros [] ? ?.
    - exact (IH Hph).
    - exact (IH Hph).
    - destruct (IH Hph) as [Hp _]. inversion Hs as [| | | | |? b n q rest Hb Hq Hpos|]; subst.
      rewrite Hp in Hb. injection Hb as <- <-.
      cbn [upd settable_BucketPacer eta_record phase]. rewrite bytes_of_app. split.
      + f_equal. cbn. lia.
      + intros l x [-> [= ->]]%app_inj_tail. lia. }
  destruct (Hinv _ _ Hrun) as [Hp Hlt]. split_and!; [by eapply Hlt|done|].
  intros p'' Hs Hidle. inversion Hs as [? q|? r|? ? Hstop|? Hi|? n Hi|?|? b n Hb Hor]; subst;
    try (rewrite Hp in *; discriminate).
  - cbn in Hidle. by rewrite Hp in Hidle.
  - cbn in Hidle. by rewrite Hp in Hidle.
  - unfold Stop in Hstop. destruct (done_closed p'); [done|]. injection Hstop as <-.
    cbn in Hidle. by rewrite Hp in Hidle.
  - rewrite Hp in Hb. injection Hb as <- <-. destruct Hor; [by left|right]. lia.
Qed.
End pacer.

Definition ex_rtp (sn : Z) : rtp_packet := RtpPacket false 96 sn 0 1 [] [1; 2; 3].

Lemma pacer_fifo_witness :
  exists p, pacer_run (fun _ => 0) (fun _ => 15) (NewBucketPacer 1000 0) p
              [ex_rtp 1; ex_rtp 2] [ex_rtp 1]
    /\ packets p = [ex_rtp 2] /\ [ex_rtp 1; ex_rtp 2] = [ex_rtp 1] ++ packets p.
Proof.
  eexists. assert (pacer_run (fun _ => 0) (fun _ => 15) (NewBucketPacer 1000 0)
    (MkPacer 1000 8000000 [ex_rtp 2] false (Sending (-14) 8000000))
    [ex_rtp 1; ex_rtp 2] [ex_rtp 1]) as H.
  { apply (run_send _ _ _ (MkPacer 1000 0 [ex_rtp 1; ex_rtp 2] false (Sending 1 8000000))
      _ [] (ex_rtp 1)).
    - eapply (run_quiet _ _ _ (MkPacer 1000 0 [ex_rtp 1; ex_rtp 2] false Idle)).
      + apply (run_enqueue _ _ _ (MkPacer 1000 0 [ex_rtp 1] false Idle) [ex_rtp 1]).
        apply (run_enqueue _ _ _ (NewBucketPacer 1000 0) []). constructor.
      + apply (step_tick _ _ (MkPacer 1000 0 [ex_rtp 1; ex_rtp 2] false Idle) 8000000);
          [done|cbn; lia].
      + done.
    - by apply (step_send (fun _ => 0) (fun _ => 15) (MkPacer 1000 0 [ex_rtp 1; ex_rtp 2] false (Sending 1 8000000))
        1 8000000 (ex_rtp 1) [ex_rtp 2]). }
  split; [exact H|]. split; [done|]. exact (pacer_fifo _ _ _ _ _ _ _ H).
Defined.

Lemma tick_within_budget_witness :
  bytes_of (fun _ => 15) [] < 1.
Proof.
  eapply (tick_within_budget (fun _ => 0) (fun _ => 15)
    (MkPacer 1000 0 [ex_rtp 1; ex_rtp 2] false (Sending 1 8000000)) 1 8000000 [] (ex_rtp 1)).
  - intros q. lia.
  - done.
  - eapply tick_send; [apply tick_refl|]. by apply (step_send _ _ (MkPacer 1000 0 [ex_rtp 1; ex_rtp 2] false (Sending 1 8000000)) 1 8000000 _ [ex_rtp 2]).
Defined.
