(* ===== verification/SfuHelper.v ===== *)
(** * Helpers of the SFU ([internal/sfu/helper.go], [simulcast.go])

    NTP timestamps and the search of a codec among the negotiated ones. *)

From S2P Require Import Prelude GoNum GoSlice Nack Rtp Buffer.
#[local] Open Scope Z_scope.

Definition ntpEpoch : Z := 2208988800.

(** [atomicBool]: an [int32] that is not 0 when true.  The buffer and the
    SFU have one each; their flags are booleans in the records. *)
Definition atomicBool_set (value : bool) : Z := if value then 1 else 0.
Definition atomicBool_get (a : Z) : bool := negb (a =? 0).

Lemma atomicBool_get_set v : atomicBool_get (atomicBool_set v) = v.
Proof. by destruct v. Qed.

Definition quarterResolution : string := "q".
Definition halfResolution : string := "h".
Definition fullResolution : string := "f".

Definition timeToNtp (ns : Z) : Z :=
  let seconds := u64 (i64 (go_div ns 1000000000 + ntpEpoch)) in
  let fraction := u64 (go_div (i64 (Z.shiftl (go_rem ns 1000000000) 32)) 1000000000) in
  Z.lor (u64 (Z.shiftl seconds 32)) fraction.

(** [webrtc.RTPCodecParameters], what the code reads of it *)
Record RTPCodec := MkRTPCodec {
  c_MimeType : string;
  c_ClockRate : Z;
  c_SDPFmtpLine : string;
  c_PayloadType : Z }.

(** [strings.EqualFold] on ASCII *)
Definition EqualFold (a b : string) : bool := String.eqb (ToLower a) (ToLower b).

(** [None] is [webrtc.ErrCodecNotFound]. *)
Definition codecParametersFuzzySearch (needle : RTPCodec) (haystack : list RTPCodec)
  : option RTPCodec :=
  match List.find (fun c => EqualFold (c_MimeType c) (c_MimeType needle)
                            && String.eqb (c_SDPFmtpLine c) (c_SDPFmtpLine needle))%bool haystack with
  | Some c => Some c
  | None => List.find (fun c => EqualFold (c_MimeType c) (c_MimeType needle)) haystack
  end.

(** ** Lemmas *)

(** The NTP time, as a fixed-point number of seconds since 1900 with 32 bits
    of fraction, until the end of the era in 2036 *)
Lemma timeToNtp_value ns :
  0 <= ns < 2085978496000000000 ->
  timeToNtp ns = (ns * 4294967296 + ntpEpoch * 4294967296 * 1000000000) / 1000000000.
Proof.
  intros H. unfold timeToNtp, go_div, go_rem, ntpEpoch.
  rewrite Z.rem_mod_nonneg, (Z.quot_div_nonneg ns) by lia.
  assert (0 <= ns mod 1000000000 < 1000000000) by zlia.
  assert (forall z, Z.shiftl z 32 = z * 4294967296) as Hsh
    by (intros; rewrite Z.shiftl_mul_pow2 by lia; done).
  rewrite !Hsh, (i64_small (ns mod 1000000000 * 4294967296)) by lia.
  rewrite Z.quot_div_nonneg by lia.
  rewrite i64_small, (u64_small (ns / 1000000000 + _)) by zlia.
  rewrite (u64_small (ns mod 1000000000 * 4294967296 / 1000000000)) by zlia.
  rewrite u64_small by zlia.
  rewrite (lor_add_low _ _ 32); [zlia|lia|change (2 ^ 32) with 4294967296; zlia|].
  change (2 ^ 32) with 4294967296. zlia.
Qed.

(** ** Properties *)

(** [timeToNtp] is monotone and exact to 2^-32 seconds: two times are ordered
    as their NTP times are, and NTP times of equal distance differ by that
    distance up to one unit. *)
Theorem timeToNtp_spec t1 t2 :
  0 <= t1 <= t2 -> t2 < 2085978496000000000 ->
  timeToNtp t1 <= timeToNtp t2
  /\ is_u64 (timeToNtp t1)
  /\ timeToNtp t1 / 4294967296 = t1 / 1000000000 + ntpEpoch
  /\ Z.abs ((timeToNtp t2 - timeToNtp t1) * 1000000000 - (t2 - t1) * 4294967296) < 1000000000.
Proof.
  intros H1 H2. rewrite !timeToNtp_value by lia. unfold ntpEpoch.
  split_and!; zlia.
Qed.

Lemma timeToNtp_spec_witness :
  timeToNtp 1500000000 / 4294967296 = 2208988801 /\ timeToNtp 1500000000 mod 4294967296 = 2147483648.
Proof.
  split; [|reflexivity].
  destruct (timeToNtp_spec 1500000000 1500000000) as (_ & _ & H & _); [lia|lia|exact H].
Defined.
