(* ===== verification/DownTrack.v ===== *)
(** * Down tracks ([internal/sfu/downtrack.go])

    A [DownTrack] forwards one received track to one subscriber: it rewrites
    sequence numbers and timestamps so that what the subscriber sees is
    continuous, waits for key frames, switches between simulcast layers, and
    answers the subscriber's RTCP.  The receiver it hangs on is known to it
    through the interface [Receiver] of the code, here a class; the packets
    it sends go to its pacer. *)

From stdpp Require Import gmap.
From S2P Require Import Prelude GoNum GoSlice GoFloat Nack Sequencer Rtp Buffer Factory Pacer SfuHelper.
#[local] Open Scope Z_scope.

(** ** Data *)

(** What identifies a down track to its receiver: its address and its peer *)
Record dt_ref := DtRef { dt_addr : nat; dt_peer : string }.
#[export] Instance dt_ref_eq_dec : EqDecision dt_ref.
Proof. solve_decision. Defined.

(** The interface [Receiver], as far as down tracks use it; [R] is the state
    behind it.  The boolean is false when an error is returned. *)
Class Receiver (R : Type) := {
  SendRTCP : R -> Z -> list rtcp_packet -> go R;
  DeleteDownTrack : R -> Z -> string -> go R;
  SubDownTrack : R -> dt_ref -> Z -> go (R * bool);
  GetBitrate : R -> list Z;
  RetransmitPackets : R -> dt_ref -> list packetMeta -> go (R * bool) }.

Inductive DownTrackType := NoDownTrackType | SimpleDownTrack | SimulcastDownTrack.
#[export] Instance DownTrackType_eq_dec : EqDecision DownTrackType.
Proof. solve_decision. Defined.

(** Times are nanoseconds; the zero [time.Time] of [switchDelay] is 0. *)
Record DownTrack := MkDownTrack {
  d_ref : dt_ref;
  d_id : string;
  d_bound : bool;
  d_ssrc : Z;
  d_streamID : string;
  d_payloadType : Z;
  d_sequencer : option sequencer;
  d_trackType : DownTrackType;
  d_payload : option bytes;
  spatialLayer : Z;
  enabled : bool;
  reSync : bool;
  snOffset : Z;
  tsOffset : Z;
  lastSSRC : Z;
  lastSN : Z;
  lastTS : Z;
  switchDelay : Z;
  lastTSCalc : Z;
  maxSpatialLayer : Z;
  d_codec : RTPCodec;
  d_pacer : BucketPacer;
  octetCount : Z;
  packetCount : Z;
  lastPacketMs : Z;
  d_closeOnce : bool }.
#[export] Instance settable_DownTrack : Settable DownTrack := fun d =>
  MkDownTrack (d_ref d) (d_id d) (d_bound d) (d_ssrc d) (d_streamID d) (d_payloadType d)
    (d_sequencer d) (d_trackType d) (d_payload d) (spatialLayer d) (enabled d) (reSync d)
    (snOffset d) (tsOffset d) (lastSSRC d) (lastSN d) (lastTS d) (switchDelay d)
    (lastTSCalc d) (maxSpatialLayer d) (d_codec d) (d_pacer d) (octetCount d)
    (packetCount d) (lastPacketMs d) (d_closeOnce d).

Definition NewDownTrack (c : RTPCodec) (trackID streamID : string) (ref : dt_ref) (now : Z)
  : DownTrack :=
  MkDownTrack ref trackID false 0 streamID 0 None NoDownTrackType None 0 false false
    0 0 0 0 0 0 0 0 c (NewBucketPacer 1000 now) 0 0 0 false.

Definition Kind (d : DownTrack) : RTPCodecType :=
  if String.prefix "audio/" (c_MimeType (d_codec d)) then TypeAudio
  else if String.prefix "video/" (c_MimeType (d_codec d)) then TypeVideo
  else TypeUnknown.

(** ** Binding and closing *)

(** [Bind]: with the codecs negotiated and the SSRC of the context.  The
    reader of the SSRC's RTCP gets [handleRTCP] of this track as handler,
    named by the track's address.  [None] is [ErrUnsupportedCodec]. *)
Definition d_Bind (f : Factory) (d : DownTrack) (haystack : list RTPCodec) (ssrc now : Z)
  : Factory * DownTrack * option RTPCodec :=
  match codecParametersFuzzySearch (d_codec d) haystack with
  | Some codec =>
      let d := d <| d_ssrc := ssrc |> <| d_payloadType := u8 (c_PayloadType codec) |>
                 <| reSync := true |> <| enabled := true |> in
      let '(f, o) := GetOrNew f RTCPBufferPacket ssrc in
      let f := match o with
               | RwReader a =>
                   match rd_store f !! a with
                   | Some rd => f <| rd_store := <[a := reader_OnPacket rd (Z.of_nat (dt_addr (d_ref d)))]>
                                                   (rd_store f) |>
                   | None => f
                   end
               | RwBuffer _ => f
               end in
      let d := if String.prefix "video/" (c_MimeType (d_codec d))
               then d <| d_sequencer := Some (newSequencer now) |> else d in
      (f, d <| d_bound := true |>, Some codec)
  | None => (f, d, None)
  end.

Definition Unbind (d : DownTrack) : DownTrack := d <| d_bound := false |>.

(** [Close]: whether the payload goes back to the pool and the close handler
    runs, once *)
Definition d_Close (d : DownTrack) : DownTrack * option bytes * bool :=
  if d_closeOnce d then (d, None, false)
  else (d <| d_closeOnce := true |>, d_payload d, true).

(** ** Reports *)

Definition CreateSenderReport (d : DownTrack) (now : Z) : option rtcp_packet :=
  if negb (d_bound d) then None
  else
    let diffTs := u32 (u32 (go_div now 1000000 - lastPacketMs d) * c_ClockRate (d_codec d)) / 1000 in
    Some (SenderReport (d_ssrc d) (timeToNtp now) (u32 (lastTS d + diffTs))
            (packetCount d) (octetCount d)).

(** [rtcp.SDESCNAME] is 1; 15 is the MID item; [mid] is the transceiver's. *)
Definition CreateSourceDescriptionChunks (d : DownTrack) (mid : string)
  : list (Z * list (Z * string)) :=
  if negb (d_bound d) then []
  else [(d_ssrc d, [(1, d_streamID d)]); (d_ssrc d, [(15, mid)])].

(** ** Forwarding *)

Definition SetInitialLayers (d : DownTrack) (layer : Z) : DownTrack :=
  d <| spatialLayer := Z.lor (i32 (Z.shiftl layer 16)) (i32 layer) |>.

(** Record a packet in the sequencer, if there is one. *)
Definition record_sent (d : DownTrack) (p : rtp_packet) (newSN newTS layer : Z) (head : bool)
  : go DownTrack :=
  match d_sequencer d with
  | Some s =>
      r ← push s (rp_sn p) newSN newTS layer head;
      mret (d <| d_sequencer := Some r.1 |>)
  | None => mret d
  end.

Definition count_sent (d : DownTrack) (p : rtp_packet) : DownTrack :=
  d <| octetCount := u32 (octetCount d + u32 (len (rp_payload p))) |>
    <| packetCount := u32 (packetCount d + 1) |>.

(** The rewritten packet, into the pacer *)
Definition send_packet (d : DownTrack) (p : rtp_packet) (newSN newTS : Z) : DownTrack :=
  d <| d_pacer := Enqueue (d_pacer d)
         (p <| rp_pt := d_payloadType d |> <| rp_ts := newTS |> <| rp_sn := newSN |>
            <| rp_ssrc := d_ssrc d |>) |>.

Section forwarding.
Context {R : Type} {RR : Receiver R}.

Definition ask_keyframe (d : DownTrack) (r : R) (p : rtp_packet) (now : Z) : go R :=
  SendRTCP r now [PictureLossIndication (d_ssrc d) (rp_ssrc p)].

(** Lines 279-303 *)
Definition simple_send (d : DownTrack) (r : R) (e : ExtPacket) : go (DownTrack * R) :=
  let p := Packet e in
  let d := count_sent d p in
  let newSN := u16 (rp_sn p - snOffset d) in
  let newTS := u32 (rp_ts p - tsOffset d) in
  d ← record_sent d p newSN newTS 0 (Head e);
  let d := if Head e
           then d <| lastSN := newSN |> <| lastTS := newTS |>
                  <| lastPacketMs := go_div (Arrival e) 1000000 |>
           else d in
  mret (send_packet d p newSN newTS, r).

Definition writeSimpleRTP (d : DownTrack) (r : R) (e : ExtPacket) (now : Z)
  : go (DownTrack * R) :=
  let p := Packet e in
  if reSync d then
    if (bool_decide (Kind d = TypeVideo) && negb (KeyFrame e))%bool then
      r ← ask_keyframe d r p now;
      mret (d, r)
    else
      let d := if negb (lastSN d =? 0)
               then d <| snOffset := u16 (rp_sn p - lastSN d - 1) |>
                      <| tsOffset := u32 (rp_ts p - lastTS d - 1) |>
               else d in
      simple_send (d <| lastSSRC := rp_ssrc p |> <| reSync := false |>) r e
  else simple_send d r e.

Definition current_layer (d : DownTrack) : Z := u16 (spatialLayer d).
Definition target_layer (d : DownTrack) : Z := u16 (Z.shiftr (spatialLayer d) 16).

(** Lines 344-388 *)
Definition simulcast_send (d : DownTrack) (r : R) (e : ExtPacket) (now : Z)
  : go (DownTrack * R) :=
  let p := Packet e in
  let d := if (negb (lastTSCalc d =? 0) && negb (lastSSRC d =? rp_ssrc p))%bool then
             let tDiff := go_div (i64 (Arrival e - lastTSCalc d)) 1000000 in
             let td := u32 (go_div (i64 (tDiff * 90)) 1000) in
             let td := if td =? 0 then 1 else td in
             d <| tsOffset := u32 (rp_ts p - u32 (lastTS d + td)) |>
               <| snOffset := u16 (rp_sn p - lastSN d - 1) |>
           else if lastTSCalc d =? 0 then
             d <| lastTS := rp_ts p |> <| lastSN := rp_sn p |>
           else d in
  let newSN := u16 (rp_sn p - snOffset d) in
  let newTS := u32 (rp_ts p - tsOffset d) in
  d ← record_sent d p newSN newTS (u8 (spatialLayer d)) (Head e);
  let d := count_sent d p in
  let d := if Head e
           then d <| lastSN := newSN |> <| lastTS := newTS |>
                  <| lastPacketMs := go_div now 1000000 |>
           else d in
  let d := d <| lastTSCalc := Arrival e |> <| lastSSRC := rp_ssrc p |> in
  mret (send_packet d p newSN newTS, r).

Definition writeSimulcastRTP (d : DownTrack) (r : R) (e : ExtPacket) (now : Z)
  : go (DownTrack * R) :=
  let p := Packet e in
  if (negb (lastSSRC d =? rp_ssrc p) || reSync d)%bool then
    let currentLayer := current_layer d in
    let targetLayer := target_layer d in
    if ((currentLayer =? targetLayer) && negb (lastSSRC d =? 0) && negb (reSync d))%bool
    then mret (d, r)
    else
      let d := if (reSync d && negb (lastTSCalc d =? 0))%bool
               then d <| lastTSCalc := Arrival e |> else d in
      if negb (KeyFrame e) then
        r ← ask_keyframe d r p now;
        mret (d, r)
      else
        r ← (if negb (currentLayer =? targetLayer)
             then DeleteDownTrack r currentLayer (dt_peer (d_ref d)) else mret r);
        let d := d <| spatialLayer := Z.lor (i32 targetLayer) (i32 targetLayer) |>
                   <| reSync := false |> in
        simulcast_send d r e now
  else simulcast_send d r e now.

(** [WriteRTP]; the error is nil on every branch. *)
Definition WriteRTP (d : DownTrack) (r : R) (e : ExtPacket) (now : Z) : go (DownTrack * R) :=
  if (negb (enabled d) || negb (d_bound d))%bool then mret (d, r)
  else match d_trackType d with
       | SimpleDownTrack => writeSimpleRTP d r e now
       | SimulcastDownTrack => writeSimulcastRTP d r e now
       | NoDownTrackType => mret (d, r)
       end.

(** ** Layers *)

Definition SwitchSpatialLayer (d : DownTrack) (r : R) (targetLayer : Z) : go (DownTrack * R) :=
  if bool_decide (d_trackType d = SimulcastDownTrack) then
    let currentLayer := current_layer d in
    if (negb (currentLayer =? target_layer d) || (currentLayer =? u16 targetLayer))%bool
    then mret (d, r)
    else
      s ← SubDownTrack r (d_ref d) targetLayer;
      if (s.2 : bool)
      then mret (d <| spatialLayer := Z.lor (i32 (Z.shiftl targetLayer 16)) (i32 currentLayer) |>, s.1)
      else mret (d, s.1)
  else mret (d, r).

(** 5 seconds *)
Definition switch_pause : Z := 5000000000.

Definition handlerLayerChange (d : DownTrack) (r : R) (maxRatePacketLoss expectedMinBitrate now : Z)
  : go (DownTrack * R) :=
  let currentLayer := Z.land (spatialLayer d) 15 in
  let targetLayer := Z.shiftr (spatialLayer d) 16 in
  if ((targetLayer =? currentLayer) && (switchDelay d <? now))%bool then
    let brs := GetBitrate r in
    cbr ← go_index brs currentLayer;
    s ← (if maxRatePacketLoss <=? 5 then
           s ← (if ((u64 (3 * cbr) / 2 <=? expectedMinBitrate)
                    && (currentLayer + 1 <=? maxSpatialLayer d) && (currentLayer + 1 <=? 2))%bool
                then SwitchSpatialLayer d r (currentLayer + 1) else mret (d, r));
           mret (s.1 <| switchDelay := now + switch_pause |>, s.2)
         else mret (d, r));
    if 25 <=? maxRatePacketLoss then
      lower ← (if ((expectedMinBitrate <=? u64 (5 * cbr) / 8) && (0 <? currentLayer))%bool
               then b ← go_index brs (currentLayer - 1); mret (negb (b =? 0)) else mret false);
      s ← (if lower : bool then SwitchSpatialLayer s.1 s.2 (currentLayer - 1) else mret s);
      mret (s.1 <| switchDelay := now + switch_pause |>, s.2)
    else mret s
  else mret (d, r).

(** ** RTCP of the subscriber *)

Context (oor : float -> Z).
(** [rtcp.Unmarshal], empty on error, and [rtcp.NackPair.PacketList] *)
Context (rtcp_unmarshal : bytes -> list rtcp_packet) (PacketList : NackPair -> list Z).

(** The variables of the loop of [handleRTCP]; [failed] is the early return *)
Record rtcp_acc := RtcpAcc {
  a_track : DownTrack;
  a_recv : R;
  pliOnce : bool;
  firOnce : bool;
  maxRatePacketLoss : Z;
  expectedMinBitrate : Z;
  fwdPkts : list rtcp_packet;
  failed : bool }.
#[export] Instance settable_rtcp_acc : Settable rtcp_acc := fun a =>
  RtcpAcc (a_track a) (a_recv a) (pliOnce a) (firOnce a) (maxRatePacketLoss a)
    (expectedMinBitrate a) (fwdPkts a) (failed a).

(** [getSeqNoPairs] for every pair of a NACK *)
Fixpoint nacked (refTime : Z) (s : sequencer) (pairs : list NackPair)
  : go (sequencer * list packetMeta) :=
  match pairs with
  | [] => mret (s, [])
  | np :: pairs =>
      q ← getSeqNoPairs refTime s (PacketList np);
      q' ← nacked refTime q.1 pairs;
      mret (q'.1, q.2 ++ q'.2)
  end.

Definition handle_packet (now : Z) (a : rtcp_acc) (pkt : rtcp_packet) : go rtcp_acc :=
  let d := a_track a in
  if failed a then mret a
  else
    match pkt with
    | PictureLossIndication _ _ =>
        if pliOnce a
        then mret (a <| fwdPkts := fwdPkts a ++ [PictureLossIndication (lastSSRC d) (lastSSRC d)] |>
                     <| pliOnce := false |>)
        else mret a
    | FullIntraRequest _ _ =>
        if firOnce a
        then mret (a <| fwdPkts := fwdPkts a ++ [FullIntraRequest (d_ssrc d) (lastSSRC d)] |>
                     <| firOnce := false |>)
        else mret a
    | ReceiverEstimatedMaximumBitrate br _ =>
        let br := f_to_uint 64 oor br in
        let a := if ((expectedMinBitrate a =? 0) || (br <? expectedMinBitrate a))%bool
                 then a <| expectedMinBitrate := br |> else a in
        mret (a <| a_track := d <| d_pacer := SetTargetBitrate oor (d_pacer d) br |> |>)
    | ReceiverReport _ reports =>
        mret (a <| maxRatePacketLoss :=
          foldl (fun m r => if ((m =? 0) || (m <? FractionLost r))%bool then FractionLost r else m)
            (maxRatePacketLoss a) reports |>)
    | TransportLayerNack _ _ nacks =>
        match d_sequencer d with
        | Some s =>
            let refTime := u32 (go_div now 1000000 - startTime s) in
            q ← nacked refTime s nacks;
            let d := d <| d_sequencer := Some q.1 |> in
            if 0 <? len q.2 then
              rt ← RetransmitPackets (a_recv a) (d_ref d) q.2;
              mret (a <| a_track := d |> <| a_recv := rt.1 |> <| failed := negb rt.2 |>)
            else mret (a <| a_track := d |>)
        | None => mret a
        end
    | _ => mret a
    end.

Fixpoint handle_packets (now : Z) (a : rtcp_acc) (pkts : list rtcp_packet) : go rtcp_acc :=
  match pkts with
  | [] => mret a
  | pkt :: pkts => a ← handle_packet now a pkt; handle_packets now a pkts
  end.

Definition handleRTCP (d : DownTrack) (r : R) (b : bytes) (now : Z) : go (DownTrack * R) :=
  if negb (enabled d) then mret (d, r)
  else
    a ← handle_packets now (RtcpAcc d r true true 0 0 [] false) (rtcp_unmarshal b);
    let d := a_track a in
    let r := a_recv a in
    if failed a then mret (d, r)
    else
      s ← (if ((bool_decide (d_trackType d = SimulcastDownTrack) && negb (maxRatePacketLoss a =? 0))
               || negb (expectedMinBitrate a =? 0))%bool
           then handlerLayerChange d r (maxRatePacketLoss a) (expectedMinBitrate a) now
           else mret (d, r));
      if 0 <? len (fwdPkts a) then
        r ← SendRTCP s.2 now (fwdPkts a);
        mret (s.1, r)
      else mret s.
End forwarding.

(** ** Lemmas *)

Definition dt_wf (d : DownTrack) : Prop :=
  match d_sequencer d with Some s => ring_wf s | None => True end.

(** The packet as the subscriber sees it *)
Definition forwarded (d : DownTrack) (p : rtp_packet) : rtp_packet :=
  p <| rp_pt := d_payloadType d |> <| rp_ts := u32 (rp_ts p - tsOffset d) |>
    <| rp_sn := u16 (rp_sn p - snOffset d) |> <| rp_ssrc := d_ssrc d |>.

(** What a packet sent leaves alone *)
Definition wiring (d : DownTrack) :=
  (snOffset d, tsOffset d, d_ssrc d, d_payloadType d, reSync d, d_codec d).

Lemma record_sent_ok d p newSN newTS layer head :
  dt_wf d ->
  exists s', record_sent d p newSN newTS layer head = Ok (d <| d_sequencer := s' |>)
    /\ dt_wf (d <| d_sequencer := s' |>).
Proof.
  unfold dt_wf, record_sent. intros Hwf. destruct (d_sequencer d) as [s|] eqn:Es.
  - destruct (push_total s (rp_sn p) newSN newTS layer head Hwf) as (s' & m & -> & Hs').
    exists (Some s'). split; [reflexivity|exact Hs'].
  - exists None. split; [|done]. f_equal. destruct d. cbn in *. by subst.
Qed.

(** What a down track does to its receiver goes through the interface: what
    the calls keep of the receiver, the handlers keep. *)
Section receiver_kept.
Context {R : Type} {RR : Receiver R} (P : R -> Prop).

Lemma simulcast_send_recv (d : DownTrack) (r : R) e now d' r' :
  simulcast_send d r e now = Ok (d', r') -> r' = r.
Proof.
  unfold simulcast_send. match goal with |- mbind _ ?m = _ -> _ => destruct m as [d1|]; [|done] end.
  cbn [mbind go_bind mret go_ret]. by intros [_ <-]%ok_pair_inj.
Qed.

Lemma write_keeps (d : DownTrack) (r : R) e now d' r' :
  (forall r s m r', SendRTCP r now [PictureLossIndication s m] = Ok r' -> P r -> P r') ->
  (forall r l id r', DeleteDownTrack r l id = Ok r' -> P r -> P r') ->
  WriteRTP d r e now = Ok (d', r') -> P r -> P r'.
Proof.
  intros Hsend Hdel. unfold WriteRTP. destruct (_ || _)%bool; [by intros [_ <-]%ok_pair_inj|].
  assert (forall t k, ask_keyframe t r (Packet e) now ≫= (fun r => mret (k, r)) = Ok (d', r') -> P r -> P r') as Hask.
  { intros t k. destruct (ask_keyframe _ _ _ _) as [r1|] eqn:E; [|done]. cbn [mbind go_bind mret go_ret].
    intros [_ <-]%ok_pair_inj. by eapply Hsend. }
  destruct (d_trackType d); [by intros [_ <-]%ok_pair_inj| |].
  - assert (forall t, simple_send t r e = Ok (d', r') -> P r -> P r') as Hs.
    { intros t. unfold simple_send. destruct (record_sent _ _ _ _ _ _); [|done].
      cbn [mbind go_bind mret go_ret]. by intros [_ <-]%ok_pair_inj. }
    unfold writeSimpleRTP. destruct (reSync d); [|by apply Hs].
    destruct (_ && _)%bool; [by apply Hask|apply Hs].
  - unfold writeSimulcastRTP. destruct (_ || _)%bool; [|by intros ->%simulcast_send_recv].
    destruct (_ && _ && _)%bool; [by intros [_ <-]%ok_pair_inj|].
    match goal with |- context [ask_keyframe ?x r _ _] => generalize x end. intros d1.
    destruct (negb (KeyFrame e)); [by apply Hask|].
    destruct (negb (current_layer d =? target_layer d)); [|by intros ->%simulcast_send_recv].
    destruct (DeleteDownTrack _ _ _) as [r1|] eqn:E; [|done].
    cbn [mbind go_bind]. intros ->%simulcast_send_recv. by eapply Hdel.
Qed.

Lemma switch_keeps (d : DownTrack) (r : R) l s :
  (forall r dt l s, SubDownTrack r dt l = Ok s -> P r -> P s.1) ->
  SwitchSpatialLayer d r l = Ok s -> P r -> P s.2.
Proof.
  intros Hsub H Hr. unfold SwitchSpatialLayer in H. destruct (bool_decide _); [|by injection H as <-].
  destruct (_ || _)%bool; [by injection H as <-|]. destruct (SubDownTrack _ _ _) as [q|] eqn:E; [|done].
  cbn [mbind go_bind] in H. apply Hsub in E; [|done]. destruct q.2; by injection H as <-.
Qed.

Lemma change_keeps (d : DownTrack) (r : R) loss br now s :
  (forall r dt l s, SubDownTrack r dt l = Ok s -> P r -> P s.1) ->
  handlerLayerChange d r loss br now = Ok s -> P r -> P s.2.
Proof.
  intros Hsub H Hr. unfold handlerLayerChange in H. destruct (_ && _)%bool; [|by injection H as <-].
  match type of H with mbind _ ?m = _ => destruct m as [cbr|]; [|discriminate H] end. cbn [mbind go_bind] in H.
  destruct (if loss <=? 5 then _ else _) as [s1|] eqn:E; [|done]. cbn [mbind go_bind] in H.
  assert (P s1.2) as H1.
  { destruct (loss <=? 5); [|by injection E as <-].
    destruct (if (_ && _ && _)%bool then _ else _) as [s0|] eqn:E0; [|done]. injection E as <-.
    cbn [snd]. destruct (_ && _ && _)%bool; [|by injection E0 as <-].
    eapply switch_keeps; [exact Hsub|exact E0|done]. }
  clear E. destruct (25 <=? loss); [|by injection H as <-].
  destruct (if (_ && _)%bool then _ else _) as [lower|]; [|done]. cbn [mbind go_bind] in H.
  destruct (if lower then _ else _) as [s2|] eqn:E2; [|done]. injection H as <-.
  cbn [snd]. destruct lower; [|by injection E2 as <-]. eapply switch_keeps; [exact Hsub|exact E2|done].
Qed.

Context (oor : float -> Z) (rtcp_unm : bytes -> list rtcp_packet) (PacketList : NackPair -> list Z).

Lemma handle_packet_keeps now (a : rtcp_acc (R:=R)) pkt a' :
  (forall r dt ms s, RetransmitPackets r dt ms = Ok s -> P r -> P s.1) ->
  handle_packet oor PacketList now a pkt = Ok a' -> P (a_recv a) -> P (a_recv a').
Proof.
  intros Hre. unfold handle_packet. destruct (failed a); [by intros [= <-]|]. destruct pkt; try by intros [= <-].
  - destruct (d_sequencer (a_track a)) as [s|]; [|by intros [= <-]].
    destruct (nacked _ _ _ _) as [q|]; [|done]. cbn [mbind go_bind].
    destruct (0 <? len q.2); [|by intros [= <-]].
    destruct (RetransmitPackets _ _ _) as [rt|] eqn:E; [|done]. intros [= <-]. by eapply Hre.
  - destruct (pliOnce a); by intros [= <-].
  - destruct (firOnce a); by intros [= <-].
  - destruct (_ || _)%bool; by intros [= <-].
Qed.

Lemma rtcp_keeps (d : DownTrack) (r : R) bs now s :
  (forall r p r', SendRTCP r now p = Ok r' -> P r -> P r') ->
  (forall r dt l s, SubDownTrack r dt l = Ok s -> P r -> P s.1) ->
  (forall r dt ms s, RetransmitPackets r dt ms = Ok s -> P r -> P s.1) ->
  handleRTCP oor rtcp_unm PacketList d r bs now = Ok s -> P r -> P s.2.
Proof.
  intros Hsend Hsub Hre H Hr. unfold handleRTCP in H. destruct (negb (enabled d)); [by injection H as <-|].
  destruct (handle_packets _ _ _ _ _) as [a|] eqn:E; [|done]. cbn [mbind go_bind] in H. cbv zeta in H.
  assert (P (a_recv a)) as Ha.
  { assert (P (a_recv (RtcpAcc d r true true 0 0 [] false))) as H0 by done.
    revert E H0. generalize (RtcpAcc d r true true 0 0 [] false). clear H Hr.
    induction (rtcp_unm bs) as [|pkt l IH]; intros a0 E H0; cbn [handle_packets] in E; [by injection E as <-|].
    destruct (handle_packet _ _ _ _ _) as [a1|] eqn:E1; [|done]. cbn [mbind go_bind] in E.
    eapply IH; [exact E|]. by eapply handle_packet_keeps. }
  destruct (failed a); [by injection H as <-|].
  destruct (if (_ || _)%bool then _ else _) as [s1|] eqn:E1; [|done]. cbn [mbind go_bind] in H.
  assert (P s1.2) as H1 by (destruct (_ || _)%bool; [by eapply change_keeps|by injection E1 as <-]).
  destruct (0 <? len (fwdPkts a)); [|by injection H as <-].
  destruct (SendRTCP _ _ _) as [r'|] eqn:Er; [|done]. injection H as <-. by eapply Hsend.
Qed.
End receiver_kept.

Section forward_lemmas.
Context {R : Type} {RR : Receiver R}.

Lemma simple_send_ok (d : DownTrack) (r : R) e :
  dt_wf d ->
  exists d', simple_send d r e = Ok (d', r) /\ dt_wf d' /\ wiring d' = wiring d
    /\ packets (d_pacer d') = packets (d_pacer d) ++ [forwarded d (Packet e)].
Proof.
  intros Hwf. unfold simple_send.
  edestruct (record_sent_ok (count_sent d (Packet e)) (Packet e)
    (u16 (rp_sn (Packet e) - snOffset (count_sent d (Packet e))))
    (u32 (rp_ts (Packet e) - tsOffset (count_sent d (Packet e)))) 0 (Head e)) as (s' & -> & Hs').
  { destruct d; exact Hwf. }
  cbn [mbind go_bind mret go_ret]. eexists. split; [reflexivity|].
  destruct d, (Head e); split_and!; try reflexivity; exact Hs'.
Qed.

(** Packets written one after the other, each with the time of the call *)
Fixpoint simple_run (d : DownTrack) (r : R) (l : list (ExtPacket * Z)) : go (DownTrack * R) :=
  match l with
  | [] => mret (d, r)
  | (e, now) :: l => s ← writeSimpleRTP d r e now; simple_run s.1 s.2 l
  end.

Fixpoint ask_all (d : DownTrack) (r : R) (l : list (ExtPacket * Z)) : go R :=
  match l with
  | [] => mret r
  | (e, now) :: l => r ← ask_keyframe d r (Packet e) now; ask_all d r l
  end.

(** A video track that has to synchronise waits for a key frame. *)
Definition waits (d : DownTrack) (e : ExtPacket) : bool :=
  bool_decide (Kind d = TypeVideo) && negb (KeyFrame e).

Lemma forwarded_wiring d d' p : wiring d' = wiring d -> forwarded d' p = forwarded d p.
Proof. unfold wiring, forwarded. intros [= -> -> -> -> _ _]. done. Qed.

Lemma simple_run_synced l (d : DownTrack) (r : R) :
  dt_wf d -> reSync d = false ->
  exists d', simple_run d r l = Ok (d', r)
    /\ packets (d_pacer d') = packets (d_pacer d) ++ map (fun e => forwarded d (Packet e.1)) l.
Proof.
  revert d. induction l as [|[e now] l IH]; intros d Hwf Hre.
  { exists d. cbn. by rewrite app_nil_r. }
  cbn [simple_run map fst]. unfold writeSimpleRTP. rewrite Hre.
  destruct (simple_send_ok d r e Hwf) as (d1 & -> & Hwf1 & Hw1 & Hp1).
  cbn [mbind go_bind fst snd].
  assert (reSync d1 = false) as Hre1
    by (rewrite <-Hre; exact (f_equal (fun x => snd (fst x)) Hw1)).
  destruct (IH d1 Hwf1 Hre1) as (d2 & -> & Hp2). exists d2. split; [done|].
  rewrite Hp2, Hp1, <-app_assoc. cbn [app]. do 2 f_equal.
  apply map_ext. intros e'. by apply forwarded_wiring.
Qed.

Lemma simple_run_waiting pre rest (d : DownTrack) (r r1 : R) :
  reSync d = true -> Forall (fun e => waits d e.1 = true) pre -> ask_all d r pre = Ok r1 ->
  simple_run d r (pre ++ rest) = simple_run d r1 rest.
Proof.
  intros Hre Hw. revert r. induction Hw as [|[e now] pre He _ IH]; intros r Ha.
  { by injection Ha as ->. }
  cbn [app simple_run ask_all fst] in *. unfold writeSimpleRTP. rewrite Hre.
  fold (waits d e). rewrite He.
  destruct (ask_keyframe d r (Packet e) now) as [r2|]; [|done].
  cbn [mbind go_bind mret go_ret fst snd] in *. by apply IH.
Qed.

(** ** Properties: one layer *)

(** C16. A track that has to synchronise asks for a key frame for every packet
    of video it is offered before one, and sends none of them; from the key
    frame on it sends every packet it is offered, under its own SSRC and
    payload type, with the publisher's distances between sequence numbers and
    between timestamps (so a packet the publisher lost is a gap here too).
    When the number of the last packet sent before is not 0, the key frame is
    sent under the next number and timestamp; when it is 0, the offsets of
    before stay. *)
Theorem simple_stream (d : DownTrack) (r r1 : R) pre k now post :
  dt_wf d -> reSync d = true ->
  Forall (fun e => waits d e.1 = true) pre -> waits d k = false ->
  ask_all d r pre = Ok r1 ->
  let sn0 := if lastSN d =? 0 then rp_sn (Packet k) - snOffset d else lastSN d + 1 in
  let ts0 := if lastSN d =? 0 then rp_ts (Packet k) - tsOffset d else lastTS d + 1 in
  exists d',
    simple_run d r (pre ++ (k, now) :: post) = Ok (d', r1)
    /\ packets (d_pacer d') = packets (d_pacer d)
         ++ map (fun e => let p := Packet e.1 in
                  p <| rp_pt := d_payloadType d |>
                    <| rp_ts := u32 (ts0 + (rp_ts p - rp_ts (Packet k))) |>
                    <| rp_sn := u16 (sn0 + (rp_sn p - rp_sn (Packet k))) |>
                    <| rp_ssrc := d_ssrc d |>) ((k, now) :: post).
Proof.
  intros Hwf Hre Hpre Hk Ha sn0 ts0.
  rewrite (simple_run_waiting _ _ _ _ _ Hre Hpre Ha).
  set (d1 := if negb (lastSN d =? 0)
             then d <| snOffset := u16 (rp_sn (Packet k) - lastSN d - 1) |>
                    <| tsOffset := u32 (rp_ts (Packet k) - lastTS d - 1) |> else d).
  set (d2 := d1 <| lastSSRC := rp_ssrc (Packet k) |> <| reSync := false |>).
  assert (simple_run d r1 ((k, now) :: post) = simple_run d2 r1 ((k, now) :: post)) as ->.
  { cbn [simple_run]. unfold writeSimpleRTP. rewrite Hre. fold (waits d k). rewrite Hk.
    fold d1. fold d2. change (reSync d2) with false. done. }
  assert (dt_wf d2) as Hwf2 by (subst d2 d1; case_match; exact Hwf).
  destruct (simple_run_synced ((k, now) :: post) d2 r1 Hwf2 eq_refl) as (d' & Hrun & Hp).
  exists d'. split; [exact Hrun|]. rewrite Hp.
  assert (d_pacer d2 = d_pacer d) as -> by (subst d2 d1; by case_match).
  f_equal. apply map_ext. intros [e t]. cbn [fst]. cbv zeta. unfold forwarded.
  assert (d_payloadType d2 = d_payloadType d /\ d_ssrc d2 = d_ssrc d) as [-> ->]
    by (subst d2 d1; by case_match).
  assert (u16 (rp_sn (Packet e) - snOffset d2)
          = u16 (sn0 + (rp_sn (Packet e) - rp_sn (Packet k)))
       /\ u32 (rp_ts (Packet e) - tsOffset d2)
          = u32 (ts0 + (rp_ts (Packet e) - rp_ts (Packet k)))) as [-> ->]; [|done].
  subst d2 d1 sn0 ts0. destruct (lastSN d =? 0);
    cbn [negb upd settable_DownTrack eta_record snOffset tsOffset]; split; wrap_lia.
Qed.
End forward_lemmas.

(** ** Switching layers *)

(** What a packet of the current stream leaves alone, beyond [wiring] *)
Definition stream_of (d : DownTrack) := (wiring d, lastSSRC d, spatialLayer d, d_trackType d).

(** The offsets at the first packet of another stream *)
Definition ts_gap (d : DownTrack) (e : ExtPacket) : Z :=
  let td := u32 (go_div (i64 (go_div (i64 (Arrival e - lastTSCalc d)) 1000000 * 90)) 1000) in
  if td =? 0 then 1 else td.

Definition switch_offsets (d : DownTrack) (e : ExtPacket) : DownTrack :=
  d <| tsOffset := u32 (rp_ts (Packet e) - u32 (lastTS d + ts_gap d e)) |>
    <| snOffset := u16 (rp_sn (Packet e) - lastSN d - 1) |>.

Lemma stream_of_inv d d' :
  stream_of d = stream_of d' ->
  wiring d = wiring d' /\ lastSSRC d = lastSSRC d' /\ spatialLayer d = spatialLayer d'
  /\ d_trackType d = d_trackType d' /\ reSync d = reSync d'.
Proof.
  unfold stream_of. intros [= ? ? ? ? ? ? ? ? ?]. unfold wiring. split_and!; congruence.
Qed.

Section switch_lemmas.
Context {R : Type} {RR : Receiver R}.

(** [simulcast_send] once the offsets are right *)
Lemma simulcast_send_ok (d d0 : DownTrack) (r : R) e now :
  dt_wf d -> lastTSCalc d <> 0 ->
  d0 = (if lastSSRC d =? rp_ssrc (Packet e) then d else switch_offsets d e) ->
  exists d', simulcast_send d r e now = Ok (d', r) /\ dt_wf d'
    /\ stream_of d' = stream_of (d0 <| lastSSRC := rp_ssrc (Packet e) |>)
    /\ lastTSCalc d' = Arrival e
    /\ packets (d_pacer d') = packets (d_pacer d) ++ [forwarded d0 (Packet e)].
Proof.
  intros Hwf Hts ->. unfold simulcast_send. apply Z.eqb_neq in Hts as ->. cbn [negb andb].
  fold (ts_gap d e). fold (switch_offsets d e).
  set (d0 := if lastSSRC d =? rp_ssrc (Packet e) then d else switch_offsets d e).
  assert ((if negb (lastSSRC d =? rp_ssrc (Packet e)) then switch_offsets d e else d) = d0)
    as -> by (subst d0; by destruct (lastSSRC d =? rp_ssrc (Packet e))).
  assert (dt_wf d0) as Hwf0
    by (subst d0; destruct (lastSSRC d =? rp_ssrc (Packet e)); exact Hwf).
  assert (d_pacer d0 = d_pacer d) as <-
    by (subst d0; by destruct (lastSSRC d =? rp_ssrc (Packet e))).
  clearbody d0.
  edestruct (record_sent_ok d0 (Packet e) (u16 (rp_sn (Packet e) - snOffset d0))
    (u32 (rp_ts (Packet e) - tsOffset d0)) (u8 (spatialLayer d0)) (Head e)) as (s' & -> & Hs').
  { exact Hwf0. }
  cbn [mbind go_bind mret go_ret]. eexists. split; [reflexivity|].
  destruct d0, (Head e); split_and!; try reflexivity; exact Hs'.
Qed.

Fixpoint simulcast_run (d : DownTrack) (r : R) (l : list (ExtPacket * Z)) : go (DownTrack * R) :=
  match l with
  | [] => mret (d, r)
  | (e, now) :: l => s ← writeSimulcastRTP d r e now; simulcast_run s.1 s.2 l
  end.

(** Packets of one stream that arrived at a time after 1970 *)
Definition of_stream (ssrc : Z) (l : list (ExtPacket * Z)) : Prop :=
  Forall (fun e => rp_ssrc (Packet e.1) = ssrc /\ Arrival e.1 <> 0) l.

Lemma writeSimulcast_synced (d : DownTrack) (r : R) e now :
  lastSSRC d = rp_ssrc (Packet e) -> reSync d = false ->
  writeSimulcastRTP d r e now = simulcast_send d r e now.
Proof. intros Hs Hre. unfold writeSimulcastRTP. by rewrite Hs, Hre, Z.eqb_refl. Qed.

Lemma simulcast_run_synced l (d : DownTrack) (r : R) :
  dt_wf d -> reSync d = false -> lastTSCalc d <> 0 -> of_stream (lastSSRC d) l ->
  exists d', simulcast_run d r l = Ok (d', r) /\ stream_of d' = stream_of d
    /\ packets (d_pacer d') = packets (d_pacer d) ++ map (fun e => forwarded d (Packet e.1)) l.
Proof.
  revert d. induction l as [|[e now] l IH]; intros d Hwf Hre Hts Hl.
  { exists d. cbn. by rewrite app_nil_r. }
  apply Forall_cons in Hl as [[Hs Ha] Hl]. cbn [simulcast_run map fst] in *.
  rewrite writeSimulcast_synced by done.
  destruct (simulcast_send_ok d d r e now) as (d1 & -> & Hwf1 & Hst & Hts1 & Hp1);
    [done|done|by rewrite Hs, Z.eqb_refl|].
  cbn [mbind go_bind fst snd].
  assert (stream_of d1 = stream_of d) as Hst1 by (rewrite Hst, Hs; by destruct d).
  destruct (stream_of_inv _ _ Hst1) as (Hw & Hls & _ & _ & Hre1).
  destruct (IH d1) as (d2 & -> & Hst2 & Hp2).
  - done.
  - by rewrite Hre1.
  - by rewrite Hts1.
  - by rewrite Hls.
  - exists d2. split_and!; [done|by rewrite Hst2|].
    rewrite Hp2, Hp1, <-app_assoc. cbn [app]. do 2 f_equal.
    apply map_ext. intros e'. by apply forwarded_wiring.
Qed.

(** Until a key frame of the other stream arrives, nothing changes. *)
Lemma simulcast_run_waiting pre rest (d : DownTrack) (r r1 : R) ssrc :
  reSync d = false -> lastSSRC d <> ssrc -> current_layer d <> target_layer d ->
  Forall (fun e => rp_ssrc (Packet e.1) = ssrc /\ KeyFrame e.1 = false) pre ->
  ask_all d r pre = Ok r1 ->
  simulcast_run d r (pre ++ rest) = simulcast_run d r1 rest.
Proof.
  intros Hre Hs Hl Hpre. revert r. induction Hpre as [|[e now] pre [He Hk] _ IH]; intros r Ha.
  { by injection Ha as ->. }
  cbn [app simulcast_run ask_all fst] in *. unfold writeSimulcastRTP.
  apply Z.eqb_neq in Hl, Hs. rewrite He, Hs, Hl, Hre, Hk. cbn [negb orb andb].
  destruct (ask_keyframe d r (Packet e) now) as [r2|]; [|done].
  cbn [mbind go_bind mret go_ret fst snd] in *. by apply IH.
Qed.

Lemma target_layer_range d : is_u16 (target_layer d).
Proof. apply u16_range. Qed.

(** The key frame of the target layer *)
Lemma writeSimulcast_switch (d : DownTrack) (r r' : R) k now :
  reSync d = false -> lastSSRC d <> rp_ssrc (Packet k) ->
  current_layer d <> target_layer d -> KeyFrame k = true ->
  DeleteDownTrack r (current_layer d) (dt_peer (d_ref d)) = Ok r' ->
  writeSimulcastRTP d r k now
  = simulcast_send (d <| spatialLayer := target_layer d |> <| reSync := false |>) r' k now.
Proof.
  intros Hre Hs Hl Hk Hdel. unfold writeSimulcastRTP.
  apply Z.eqb_neq in Hl, Hs. rewrite Hs, Hl, Hre, Hk. cbn [negb orb andb].
  rewrite Hdel. cbn [mbind go_bind].
  replace (Z.lor (i32 (target_layer d)) (i32 (target_layer d))) with (target_layer d); [done|].
  rewrite Z.lor_diag. pose proof (target_layer_range d). wrap_lia.
Qed.

(** ** Properties: simulcast *)

(** C15. A switch to another layer: packets of the new layer before a key frame
    are not sent, each asks for a key frame; with the key frame the track
    leaves its old layer at the receiver and the new layer's packets follow
    the old one's without a gap in the numbers, and with the timestamps
    [ts_gap] further than the last one sent; the subscriber sees one SSRC.
    The track's current layer is then the target. *)
Theorem simulcast_switch (d : DownTrack) (r r1 r2 : R) pre k now post :
  let ssrc := rp_ssrc (Packet k) in
  dt_wf d -> reSync d = false -> lastTSCalc d <> 0 -> lastSSRC d <> ssrc ->
  current_layer d <> target_layer d ->
  Forall (fun e => rp_ssrc (Packet e.1) = ssrc /\ KeyFrame e.1 = false) pre ->
  KeyFrame k = true -> of_stream ssrc ((k, now) :: post) ->
  ask_all d r pre = Ok r1 ->
  DeleteDownTrack r1 (current_layer d) (dt_peer (d_ref d)) = Ok r2 ->
  exists d',
    simulcast_run d r (pre ++ (k, now) :: post) = Ok (d', r2)
    /\ packets (d_pacer d') = packets (d_pacer d)
         ++ map (fun e => let p := Packet e.1 in
                  p <| rp_pt := d_payloadType d |>
                    <| rp_ts := u32 (lastTS d + ts_gap d k + (rp_ts p - rp_ts (Packet k))) |>
                    <| rp_sn := u16 (lastSN d + 1 + (rp_sn p - rp_sn (Packet k))) |>
                    <| rp_ssrc := d_ssrc d |>) ((k, now) :: post)
    /\ current_layer d' = target_layer d /\ lastSSRC d' = ssrc.
Proof.
  intros ssrc Hwf Hre Hts Hs Hl Hpre Hk Hstr Ha Hdel.
  rewrite (simulcast_run_waiting _ _ _ _ _ _ Hre Hs Hl Hpre Ha).
  apply Forall_cons in Hstr as [[_ Hak] Hpost].
  cbn [simulcast_run]. rewrite (writeSimulcast_switch d r1 r2 k now Hre Hs Hl Hk Hdel).
  set (d1 := d <| spatialLayer := target_layer d |> <| reSync := false |>).
  destruct (simulcast_send_ok d1 (switch_offsets d1 k) r2 k now)
    as (d2 & -> & Hwf2 & Hst2 & Hts2 & Hp2).
  { exact Hwf. } { exact Hts. }
  { change (lastSSRC d1) with (lastSSRC d). fold ssrc. by apply Z.eqb_neq in Hs as ->. }
  cbn [mbind go_bind fst snd].
  apply stream_of_inv in Hst2 as (Hw & Hls & Hsp & _ & Hre2).
  destruct (simulcast_run_synced post d2 r2) as (d3 & -> & Hst3 & Hp3); [done| | |by rewrite Hls|].
  { by rewrite Hre2. }
  { by rewrite Hts2. }
  exists d3. apply stream_of_inv in Hst3 as (_ & Hls3 & Hsp3 & _ & _). split_and!; [done| | |].
  - rewrite Hp3, Hp2, <-app_assoc. change (d_pacer d1) with (d_pacer d). f_equal.
    trans (map (fun e => forwarded (switch_offsets d1 k) (Packet e.1)) ((k, now) :: post)).
    { cbn [app map fst]. f_equal. apply map_ext. intros e. by apply forwarded_wiring. }
    apply map_ext. intros [e t]. cbn [fst]. cbv zeta. unfold forwarded.
    change (d_payloadType (switch_offsets d1 k)) with (d_payloadType d).
    change (d_ssrc (switch_offsets d1 k)) with (d_ssrc d).
    change (tsOffset (switch_offsets d1 k))
      with (u32 (rp_ts (Packet k) - u32 (lastTS d + ts_gap d k))).
    change (snOffset (switch_offsets d1 k)) with (u16 (rp_sn (Packet k) - lastSN d - 1)).
    assert (u16 (rp_sn (Packet e) - u16 (rp_sn (Packet k) - lastSN d - 1))
      = u16 (lastSN d + 1 + (rp_sn (Packet e) - rp_sn (Packet k)))) as -> by wrap_lia.
    assert (u32 (rp_ts (Packet e) - u32 (rp_ts (Packet k) - u32 (lastTS d + ts_gap d k)))
      = u32 (lastTS d + ts_gap d k + (rp_ts (Packet e) - rp_ts (Packet k)))) as -> by wrap_lia.
    done.
  - unfold current_layer. rewrite Hsp3, Hsp.
    apply u16_small, target_layer_range.
  - by rewrite Hls3, Hls.
Qed.
End switch_lemmas.

(** ** The layer after a synchronisation *)

(** What decides the layer of a track and is not changed by its stream *)
Definition layer_state (d : DownTrack) :=
  (spatialLayer d, d_trackType d, lastSSRC d, reSync d).

Lemma layer_state_inv d d' :
  layer_state d = layer_state d' ->
  spatialLayer d = spatialLayer d' /\ d_trackType d = d_trackType d'
  /\ lastSSRC d = lastSSRC d' /\ reSync d = reSync d'.
Proof. by intros [= -> -> -> ->]. Qed.

Lemma record_sent_layer d p newSN newTS layer head d' :
  record_sent d p newSN newTS layer head = Ok d' -> layer_state d' = layer_state d.
Proof.
  unfold record_sent. destruct (d_sequencer d); intros H.
  - destruct (push _ _ _ _ _ _); [|done]. by injection H as <-.
  - by injection H as <-.
Qed.

Section layer_lemmas.
Context {R : Type} {RR : Receiver R}.

Lemma simulcast_send_layer (d d' : DownTrack) (r r' : R) e now :
  simulcast_send d r e now = Ok (d', r') ->
  layer_state d' = layer_state (d <| lastSSRC := rp_ssrc (Packet e) |>).
Proof.
  unfold simulcast_send.
  match goal with |- context [record_sent ?x _ _ _ _ _] => set (d0 := x) end.
  assert (layer_state d0 = layer_state d) as H0 by (subst d0; by repeat case_match).
  clearbody d0. apply layer_state_inv in H0 as (H1 & H2 & _ & H4).
  destruct (record_sent d0 _ _ _ _ _) as [d1|] eqn:E1; [|done]. cbn [mbind go_bind].
  apply record_sent_layer, layer_state_inv in E1 as (H1' & H2' & _ & H4').
  intros [= <- _]. unfold layer_state in *. destruct (Head e); cbn; congruence.
Qed.

(** A layer of 1 or 2, once current, has no target above it. *)
Definition settled (ssrc layer : Z) (d : DownTrack) : Prop :=
  layer_state d = (layer, SimulcastDownTrack, ssrc, false).

Lemma settled_layers ssrc layer d :
  0 < layer < 16 -> settled ssrc layer d -> current_layer d = layer /\ target_layer d = 0.
Proof.
  intros Hl [= Hs _ _ _]. unfold current_layer, target_layer. rewrite Hs. split.
  - apply u16_small. lia.
  - rewrite Z.shiftr_div_pow2 by lia. change (2 ^ 16) with 65536. wrap_lia.
Qed.

Lemma settled_switch ssrc layer d (r : R) l :
  0 < layer < 16 -> settled ssrc layer d -> SwitchSpatialLayer d r l = Ok (d, r).
Proof.
  intros Hl Hd. destruct (settled_layers _ _ _ Hl Hd) as [Hc Ht].
  unfold SwitchSpatialLayer. rewrite Hc, Ht.
  replace (layer =? 0) with false by lia. by case_bool_decide.
Qed.

Lemma settled_change ssrc layer d (r : R) loss br now :
  0 < layer < 16 -> settled ssrc layer d -> handlerLayerChange d r loss br now = Ok (d, r).
Proof.
  intros Hl [= Hs _ _ _]. unfold handlerLayerChange. rewrite Hs.
  replace (Z.shiftr layer 16) with 0
    by (rewrite Z.shiftr_div_pow2 by lia; change (2 ^ 16) with 65536; zlia).
  change 15 with (Z.ones 4). rewrite Z.land_ones by lia. change (2 ^ 4) with 16.
  rewrite Z.mod_small by lia. by replace (0 =? layer) with false by lia.
Qed.

Context (oor : float -> Z) (unm : bytes -> list rtcp_packet) (PacketList : NackPair -> list Z).

Lemma handle_packet_layer now (a a' : rtcp_acc) pkt :
  handle_packet oor PacketList now a pkt = Ok a' ->
  layer_state (a_track a') = layer_state (a_track a).
Proof.
  unfold handle_packet. destruct (failed a); [by intros [= <-]|].
  destruct pkt; try by intros [= <-].
  - destruct (d_sequencer (a_track a)) as [s|]; [|by intros [= <-]].
    destruct (nacked _ _ _ _) as [q|]; [|done]. cbn [mbind go_bind].
    destruct (0 <? len q.2); [|by intros [= <-]].
    destruct (RetransmitPackets _ _ _) as [rt|]; [|done]. by intros [= <-].
  - destruct (pliOnce a); by intros [= <-].
  - destruct (firOnce a); by intros [= <-].
Qed.

Lemma handle_packets_layer now pkts (a a' : rtcp_acc) :
  handle_packets oor PacketList now a pkts = Ok a' ->
  layer_state (a_track a') = layer_state (a_track a).
Proof.
  revert a. induction pkts as [|pkt pkts IH]; intros a; cbn [handle_packets].
  { by intros [= <-]. }
  destruct (handle_packet _ _ _ _ _) as [a1|] eqn:E; [|done]. cbn [mbind go_bind].
  intros H%IH. rewrite H. exact (handle_packet_layer _ _ _ _ E).
Qed.

Lemma settled_rtcp ssrc layer d (r : R) b now d' r' :
  0 < layer < 16 -> settled ssrc layer d ->
  handleRTCP oor unm PacketList d r b now = Ok (d', r') -> settled ssrc layer d'.
Proof.
  intros Hl Hd. unfold handleRTCP. destruct (negb (enabled d)); [by intros [= <- _]|].
  destruct (handle_packets _ _ _ _ _) as [a|] eqn:Ea; [|done]. cbn [mbind go_bind].
  apply handle_packets_layer in Ea. cbn [a_track] in Ea.
  assert (settled ssrc layer (a_track a)) as Ha by (unfold settled; congruence).
  destruct (failed a); [by intros [= <- _]|].
  rewrite (settled_change ssrc layer) by done.
  match goal with |- context [if ?b then Ok ?x else mret ?x] =>
    replace (if b then Ok x else mret x) with (Ok x) by (by destruct b) end.
  cbn [mbind go_bind fst snd].
  destruct (0 <? len (fwdPkts a)); [|by intros [= <- _]].
  destruct (SendRTCP _ _ _); [|done]. by intros [= <- _].
Qed.

Lemma settled_packet ssrc layer d (r : R) e now d' r' :
  settled ssrc layer d -> rp_ssrc (Packet e) = ssrc ->
  WriteRTP d r e now = Ok (d', r') -> settled ssrc layer d'.
Proof.
  intros Hd He. unfold WriteRTP. destruct (_ || _)%bool; [by intros [= <- _]|].
  pose proof Hd as [= Hsp Hty Hss Hre]. rewrite Hty, writeSimulcast_synced by congruence.
  intros H%simulcast_send_layer. unfold settled. rewrite H. cbn.
  unfold layer_state; cbn. congruence.
Qed.

(** The life of a track between layer switches: packets of the stream it
    last sent, and RTCP of its subscriber *)
Inductive stream_run : DownTrack -> R -> DownTrack -> R -> Prop :=
| sr_refl d r : stream_run d r d r
| sr_packet d r e now d1 r1 d2 r2 :
    rp_ssrc (Packet e) = lastSSRC d -> WriteRTP d r e now = Ok (d1, r1) ->
    stream_run d1 r1 d2 r2 -> stream_run d r d2 r2
| sr_rtcp d r b now d1 r1 d2 r2 :
    handleRTCP oor unm PacketList d r b now = Ok (d1, r1) ->
    stream_run d1 r1 d2 r2 -> stream_run d r d2 r2.

Lemma settled_run ssrc layer d r d' r' :
  0 < layer < 16 -> settled ssrc layer d -> stream_run d r d' r' -> settled ssrc layer d'.
Proof.
  intros Hl Hd Hrun. revert Hd.
  induction Hrun as [|d r e now d1 r1 d2 r2 He Hw _ IH|d r b now d1 r1 d2 r2 Hh _ IH]; intros Hd.
  - done.
  - apply IH. apply (settled_packet _ _ _ _ _ _ _ _ Hd) in Hw; [done|].
    rewrite He. by injection Hd.
  - apply IH. by apply (settled_rtcp _ _ _ _ _ _ _ _ Hl Hd) in Hh.
Qed.

(** C34. A simulcast track that synchronises to layer 1 or 2 stays there: whatever
    its subscriber reports afterwards, and whatever it forwards of that
    layer, its layer does not change, and no request to switch is carried
    out.  (The target half of [spatialLayer] is 0 from then on, which differs
    from the current layer, as if a switch were under way.) *)
Theorem layer_settles (d d1 d2 : DownTrack) (r r1 r2 : R) k now :
  d_trackType d = SimulcastDownTrack -> KeyFrame k = true ->
  reSync d = true \/ (lastSSRC d <> rp_ssrc (Packet k) /\ current_layer d <> target_layer d) ->
  0 < target_layer d <= 2 ->
  writeSimulcastRTP d r k now = Ok (d1, r1) -> stream_run d1 r1 d2 r2 ->
  current_layer d2 = target_layer d
  /\ (forall l, SwitchSpatialLayer d2 r2 l = Ok (d2, r2))
  /\ (forall loss bitrate t, handlerLayerChange d2 r2 loss bitrate t = Ok (d2, r2)).
Proof.
  intros Hty Hk Hsync Hl Hw Hrun.
  assert (settled (rp_ssrc (Packet k)) (target_layer d) d1) as H1.
  { unfold writeSimulcastRTP in Hw.
    assert ((negb (lastSSRC d =? rp_ssrc (Packet k)) || reSync d)%bool = true
      /\ ((current_layer d =? target_layer d) && negb (lastSSRC d =? 0)
          && negb (reSync d))%bool = false) as [Hs Hn].
    { destruct Hsync as [->|[Hs%Z.eqb_neq Ht%Z.eqb_neq]]; [|by rewrite Hs, Ht].
      by rewrite orb_true_r, andb_false_r. }
    rewrite Hs, Hn, Hk in Hw. cbn [negb] in Hw.
    destruct (if negb (current_layer d =? target_layer d) then _ else _) as [r3|]; [|done].
    cbn [mbind go_bind] in Hw. apply simulcast_send_layer in Hw. unfold settled. rewrite Hw.
    rewrite Z.lor_diag. unfold layer_state. cbn.
    replace (i32 (target_layer d)) with (target_layer d) by wrap_lia.
    destruct (_ && _)%bool; cbn; by rewrite Hty. }
  assert (0 < target_layer d < 16) as Hl' by lia.
  pose proof (settled_run _ _ _ _ _ _ Hl' H1 Hrun) as H2. split_and!.
  - by apply (settled_layers (rp_ssrc (Packet k))).
  - intros l. by apply (settled_switch (rp_ssrc (Packet k)) (target_layer d)).
  - intros. by apply (settled_change (rp_ssrc (Packet k)) (target_layer d)).
Qed.
End layer_lemmas.

(** ** What a compound RTCP packet asks for *)

Definition is_pli (p : rtcp_packet) : bool :=
  match p with PictureLossIndication _ _ => true | _ => false end.
Definition is_fir (p : rtcp_packet) : bool :=
  match p with FullIntraRequest _ _ => true | _ => false end.
Definition losses (pkts : list rtcp_packet) : list Z :=
  mbind (fun p => match p with ReceiverReport _ rs => map FractionLost rs | _ => [] end) pkts.

Section summary.
Context {R : Type} {RR : Receiver R}.
Context (oor : float -> Z) (PacketList : NackPair -> list Z).

Definition bitrates (pkts : list rtcp_packet) : list Z :=
  mbind (fun p => match p with
    | ReceiverEstimatedMaximumBitrate br _ => [f_to_uint 64 oor br] | _ => [] end) pkts.

(** The minimum of the bitrates seen, 0 when there is none *)
Definition min_bitrate (m : Z) (l : list Z) : Z :=
  foldl (fun m br => if ((m =? 0) || (br <? m))%bool then br else m) m l.

Lemma min_bitrate_spec l m :
  0 <= m -> Forall (fun x => 0 < x) l ->
  let n := min_bitrate m l in
  (l = [] /\ n = m) \/ (n ∈ m :: l /\ 0 < n /\ (0 < m -> n <= m) /\ Forall (fun x => n <= x) l).
Proof.
  unfold min_bitrate. revert m. induction l as [|x l IH]; intros m Hm Hl; [by left|].
  apply Forall_cons in Hl as [Hx Hl]. right. cbn [foldl].
  set (m' := if ((m =? 0) || (x <? m))%bool then x else m).
  assert (0 < m' /\ m' <= x /\ (0 < m -> m' <= m) /\ (m' = x \/ m' = m)) as (H1 & H2 & H3 & H4)
    by (subst m'; destruct (m =? 0) eqn:E1, (x <? m) eqn:E2; bool_prop; cbn; lia).
  destruct (IH m' ltac:(lia) Hl) as [[-> ->]|(Hin & Hp & Hle & Hall)].
  - split_and!; [|done|done|by repeat constructor]. rewrite !elem_of_cons. tauto.
  - revert Hin Hp Hle Hall. generalize (foldl (fun m br =>
      if ((m =? 0) || (br <? m))%bool then br else m) m' l). clearbody m'.
    intros n Hin Hp Hle Hall. rewrite !elem_of_cons in *.
    split_and!; [|done|lia|constructor; [lia|done]].
    destruct Hin as [->|Hin]; tauto.
Qed.

Lemma max_loss_spec l m :
  Forall (fun x => 0 <= x) l -> 0 <= m ->
  foldl (fun m f => if ((m =? 0) || (m <? f))%bool then f else m) m l = foldr Z.max m l.
Proof.
  intros Hl. revert m. induction Hl as [|x l Hx Hl IH]; intros m Hm; [done|]. cbn [foldl foldr].
  set (m' := if ((m =? 0) || (m <? x))%bool then x else m).
  assert (m' = Z.max x m) as ->
    by (subst m'; destruct (m =? 0) eqn:E1, (m <? x) eqn:E2; bool_prop; cbn; lia).
  rewrite IH by lia. clear. induction l as [|y l IH]; cbn; lia.
Qed.

Lemma foldr_max_base l m : 0 <= m -> foldr Z.max m l = Z.max m (foldr Z.max 0 l).
Proof. intros. induction l as [|x l IH]; cbn; lia. Qed.

(** One packet, when it does not fail *)
Lemma handle_packet_step now (a a' : rtcp_acc) pkt :
  handle_packet oor PacketList now a pkt = Ok a' -> failed a = false -> failed a' = false ->
  let d := a_track a in
  lastSSRC (a_track a') = lastSSRC d /\ d_ssrc (a_track a') = d_ssrc d
  /\ fwdPkts a' = fwdPkts a
       ++ (if (pliOnce a && is_pli pkt)%bool then [PictureLossIndication (lastSSRC d) (lastSSRC d)] else [])
       ++ (if (firOnce a && is_fir pkt)%bool then [FullIntraRequest (d_ssrc d) (lastSSRC d)] else [])
  /\ pliOnce a' = (pliOnce a && negb (is_pli pkt))%bool
  /\ firOnce a' = (firOnce a && negb (is_fir pkt))%bool
  /\ maxRatePacketLoss a' = foldl (fun m f => if ((m =? 0) || (m <? f))%bool then f else m)
       (maxRatePacketLoss a) (losses [pkt])
  /\ expectedMinBitrate a' = min_bitrate (expectedMinBitrate a) (bitrates [pkt]).
Proof.
  unfold handle_packet. intros H Hf Hf'. rewrite Hf in H.
  destruct pkt; cbn [is_pli is_fir losses bitrates mbind list_bind app negb];
    rewrite ?andb_false_r, ?andb_true_r, ?app_nil_r; try (injection H as <-).
  - destruct (d_sequencer (a_track a)) as [s|]; [|by injection H as <-].
    destruct (nacked _ _ _ _) as [q|]; [|done]. cbn [mbind go_bind] in H.
    destruct (0 <? len q.2); [|by injection H as <-].
    destruct (RetransmitPackets _ _ _) as [rt|]; [|done]. by injection H as <-.
  - destruct (pliOnce a) eqn:E; injection H as <-; cbn; by rewrite ?E, ?app_nil_r.
  - destruct (firOnce a) eqn:E; injection H as <-; cbn; by rewrite ?E, ?app_nil_r.
  - unfold min_bitrate. cbn [foldl]. by destruct (_ || _)%bool.
  - split_and!; try done.
    cbn [upd settable_rtcp_acc eta_record maxRatePacketLoss]. clear. generalize (maxRatePacketLoss a). induction reports as [|x l IH]; intros m; [done|].
    cbn. apply IH.
  - done.
  - done.
  - done.
  - done.
  - done.
Qed.

Lemma handle_packets_failed now pkts (a a' : rtcp_acc) :
  handle_packets oor PacketList now a pkts = Ok a' -> failed a = true -> failed a' = true.
Proof.
  revert a. induction pkts as [|pkt pkts IH]; intros a; cbn [handle_packets].
  { by intros [= <-]. }
  intros H Hf. unfold handle_packet in H. rewrite Hf in H. by apply (IH a).
Qed.

Lemma losses_cons pkt pkts : losses (pkt :: pkts) = losses [pkt] ++ losses pkts.
Proof. unfold losses. cbn. by rewrite app_nil_r. Qed.

Lemma bitrates_cons pkt pkts : bitrates (pkt :: pkts) = bitrates [pkt] ++ bitrates pkts.
Proof. unfold bitrates. cbn. by rewrite app_nil_r. Qed.

(** What is forwarded, counted by kind *)
Lemma handle_packets_spec now pkts (a a' : rtcp_acc) :
  handle_packets oor PacketList now a pkts = Ok a' -> failed a' = false ->
  let d := a_track a in
  exists fwd, fwdPkts a' = fwdPkts a ++ fwd
  /\ filter (fun p => is_pli p = true) fwd
     = (if (pliOnce a && existsb is_pli pkts)%bool
        then [PictureLossIndication (lastSSRC d) (lastSSRC d)] else [])
  /\ filter (fun p => is_pli p = false) fwd
     = (if (firOnce a && existsb is_fir pkts)%bool
        then [FullIntraRequest (d_ssrc d) (lastSSRC d)] else [])
  /\ maxRatePacketLoss a' = foldl (fun m f => if ((m =? 0) || (m <? f))%bool then f else m)
       (maxRatePacketLoss a) (losses pkts)
  /\ expectedMinBitrate a' = min_bitrate (expectedMinBitrate a) (bitrates pkts).
Proof.
  revert a. induction pkts as [|pkt pkts IH]; intros a H Hf'.
  { cbn in H. injection H as <-. exists []. cbn. rewrite app_nil_r, !andb_false_r. done. }
  cbn [handle_packets] in H.
  destruct (handle_packet _ _ _ a pkt) as [a1|] eqn:E; [|done]. cbn [mbind go_bind] in H.
  destruct (failed a1) eqn:Ef1; [by rewrite (handle_packets_failed _ _ _ _ H Ef1) in Hf'|].
  destruct (failed a) eqn:Ef.
  { unfold handle_packet in E. rewrite Ef in E. injection E as <-. congruence. }
  destruct (handle_packet_step _ _ _ _ E Ef Ef1) as (Hs & Hd & Hfwd & Hp & Hfi & Hm & Hb).
  destruct (IH a1 H Hf') as (fwd & Hfwd' & Hpli & Hfir & Hm' & Hb').
  rewrite Hs, ?Hd, Hp, Hfi in *. eexists. rewrite Hfwd', Hfwd, <-app_assoc.
  split; [reflexivity|]. rewrite !filter_app, Hpli, Hfir, losses_cons, bitrates_cons.
  rewrite foldl_app, <-Hm. unfold min_bitrate in *. rewrite foldl_app, <-Hb. cbn [existsb].
  split_and!; [| |done|done]; clear;
    destruct (pliOnce a), (firOnce a), pkt; cbn; try reflexivity; by rewrite ?app_nil_r.
Qed.

(** A compound packet of the subscriber: of its key frame requests of each
    kind at most one goes to the publisher, for the stream forwarded last;
    the loss used for choosing the layer is the largest reported, the bitrate
    the smallest estimate. *)
Theorem rtcp_summary now (d : DownTrack) (r : R) pkts a :
  Forall (fun x => is_u8 x) (losses pkts) -> Forall (fun x => 0 < x) (bitrates pkts) ->
  handle_packets oor PacketList now (RtcpAcc d r true true 0 0 [] false) pkts = Ok a ->
  failed a = false ->
  filter (fun p => is_pli p = true) (fwdPkts a)
    = (if existsb is_pli pkts then [PictureLossIndication (lastSSRC d) (lastSSRC d)] else [])
  /\ filter (fun p => is_pli p = false) (fwdPkts a)
    = (if existsb is_fir pkts then [FullIntraRequest (d_ssrc d) (lastSSRC d)] else [])
  /\ maxRatePacketLoss a = foldr Z.max 0 (losses pkts)
  /\ (expectedMinBitrate a = 0 <-> bitrates pkts = [])
  /\ (bitrates pkts <> [] ->
      expectedMinBitrate a ∈ bitrates pkts /\ Forall (fun x => expectedMinBitrate a <= x) (bitrates pkts)).
Proof.
  intros Hl Hb Hrun Hf.
  destruct (handle_packets_spec _ _ _ _ Hrun Hf) as (fwd & Hfwd & Hpli & Hfir & Hm & Hmin).
  cbn [a_track fwdPkts pliOnce firOnce maxRatePacketLoss expectedMinBitrate andb app] in *.
  rewrite Hfwd. split; [done|]. split; [done|]. split.
  { rewrite Hm. apply max_loss_spec; [|lia]. eapply Forall_impl; [exact Hl|]. cbn. lia. }
  rewrite Hmin. destruct (min_bitrate_spec (bitrates pkts) 0 ltac:(lia) Hb)
    as [[Hnil ->]|(Hin & Hp & _ & Hall)]; [by rewrite Hnil|].
  apply elem_of_cons in Hin as [Hin|Hin]; [lia|]. split; [|done].
  split; [lia|]. intros Hnil. rewrite Hnil in Hin. by apply elem_of_nil in Hin.
Qed.
End summary.

(** ** Concrete tracks *)

(** A receiver that records what it is asked to send *)
Definition rtcp_log : Type := list (list rtcp_packet).
#[local] Instance log_receiver : Receiver rtcp_log := {
  SendRTCP r now p := Ok (r ++ [p]);
  DeleteDownTrack r layer id := Ok r;
  SubDownTrack r track layer := Ok (r, true);
  GetBitrate r := [100000; 300000; 900000];
  RetransmitPackets r track metas := Ok (r, true) }.

Definition ex_track (ty : DownTrackType) : DownTrack :=
  (NewDownTrack (MkRTPCodec "video/VP8" 90000 EmptyString 96) "t" "s" (DtRef 0 "p") 0)
    <| d_trackType := ty |> <| d_bound := true |> <| enabled := true |> <| reSync := true |>
    <| d_ssrc := 7 |> <| d_payloadType := 102 |> <| d_sequencer := Some (newSequencer 0) |>.

(** A packet of a publisher's stream *)
Definition ex_ext (ssrc sn ts arrival : Z) (key : bool) : ExtPacket :=
  MkExtPacket true 0 arrival (RtpPacket false 96 sn ts ssrc [] [1; 2; 3]) None key.

Definition ex_simple : DownTrack :=
  (ex_track SimpleDownTrack) <| lastSN := 65535 |> <| lastTS := 4294967295 |>.

Lemma simple_stream_witness :
  exists d', simple_run ex_simple ([] : rtcp_log)
      [(ex_ext 1 10 500 0 false, 0); (ex_ext 1 11 600 0 true, 0); (ex_ext 1 13 800 0 false, 0)]
    = Ok (d', [[PictureLossIndication 7 1]])
  /\ map (fun p => (rp_sn p, rp_ts p, rp_ssrc p, rp_pt p)) (packets (d_pacer d'))
     = [(0, 0, 7, 102); (2, 200, 7, 102)].
Proof.
  destruct (simple_stream ex_simple ([] : rtcp_log) [[PictureLossIndication 7 1]]
    [(ex_ext 1 10 500 0 false, 0)] (ex_ext 1 11 600 0 true) 0 [(ex_ext 1 13 800 0 false, 0)])
    as (d' & Hrun & Hp).
  - exact (new_ring_wf 0).
  - reflexivity.
  - constructor; [vm_compute; reflexivity|constructor].
  - reflexivity.
  - reflexivity.
  - exists d'. split; [exact Hrun|]. rewrite Hp. vm_compute. reflexivity.
Defined.

Definition ex_switching : DownTrack :=
  (ex_track SimulcastDownTrack) <| reSync := false |> <| lastSSRC := 1 |>
    <| lastSN := 65535 |> <| lastTS := 1000 |> <| lastTSCalc := 1000000 |>
    <| spatialLayer := Z.shiftl 2 16 |>.

Lemma simulcast_switch_witness :
  exists d', simulcast_run ex_switching ([] : rtcp_log)
      [(ex_ext 2 10 500 2000000 false, 0); (ex_ext 2 11 600 1000000000 true, 0);
       (ex_ext 2 12 700 1000000000 false, 0)]
    = Ok (d', [[PictureLossIndication 7 2]])
  /\ map (fun p => (rp_sn p, rp_ts p, rp_ssrc p)) (packets (d_pacer d'))
     = [(0, 1089, 7); (1, 1189, 7)]
  /\ current_layer d' = 2.
Proof.
  destruct (simulcast_switch ex_switching ([] : rtcp_log) [[PictureLossIndication 7 2]]
    [[PictureLossIndication 7 2]] [(ex_ext 2 10 500 2000000 false, 0)]
    (ex_ext 2 11 600 1000000000 true) 0 [(ex_ext 2 12 700 1000000000 false, 0)])
    as (d' & Hrun & Hp & Hl & _).
  - exact (new_ring_wf 0).
  - reflexivity.
  - done.
  - done.
  - done.
  - by repeat constructor.
  - reflexivity.
  - by repeat constructor.
  - reflexivity.
  - reflexivity.
  - exists d'. split; [exact Hrun|]. rewrite Hp. split; [vm_compute; reflexivity|].
    rewrite Hl. vm_compute. reflexivity.
Defined.

(** The same track once layer 2 is current, and the report that asks for a
    lower layer *)
Lemma layer_settles_witness :
  exists d1, writeSimulcastRTP ex_switching ([] : rtcp_log) (ex_ext 2 11 600 1000000000 true) 0
    = Ok (d1, [])
  /\ handlerLayerChange d1 ([] : rtcp_log) 255 1 1 = Ok (d1, []).
Proof.
  destruct (writeSimulcastRTP ex_switching ([] : rtcp_log) (ex_ext 2 11 600 1000000000 true) 0)
    as [[d1 r1]|] eqn:E; [|by vm_compute in E].
  assert (match writeSimulcastRTP ex_switching ([] : rtcp_log) (ex_ext 2 11 600 1000000000 true) 0
    with Ok (_, r1) => r1 = [] | Panic => True end) as Hr by (vm_compute; reflexivity).
  rewrite E in Hr. subst r1. exists d1. split; [done|].
  eapply (layer_settles (fun _ => 0) (fun _ => []) (fun _ => []) ex_switching d1 d1 [] [] []
    (ex_ext 2 11 600 1000000000 true) 0).
  - reflexivity.
  - reflexivity.
  - right. done.
  - by vm_compute.
  - exact E.
  - constructor.
Defined.

Definition ex_rtcp : list rtcp_packet :=
  [PictureLossIndication 5 7; ReceiverReport 5 [MkReceptionReport 7 3 0 0 0 0 0; MkReceptionReport 7 40 0 0 0 0 0];
   PictureLossIndication 5 7; FullIntraRequest 5 7;
   ReceiverEstimatedMaximumBitrate (f32_of_Z 500000) [7]; ReceiverEstimatedMaximumBitrate (f32_of_Z 300000) [7]].

Lemma rtcp_summary_witness :
  exists a, handle_packets (fun _ => 0) (fun _ => []) 0
      (RtcpAcc ex_switching ([] : rtcp_log) true true 0 0 [] false) ex_rtcp = Ok a
  /\ maxRatePacketLoss a = 40 /\ length (filter (fun p => is_pli p = true) (fwdPkts a)) = 1%nat.
Proof.
  destruct (handle_packets (fun _ => 0) (fun _ => []) 0
      (RtcpAcc ex_switching ([] : rtcp_log) true true 0 0 [] false) ex_rtcp) as [a|] eqn:E;
    [|by vm_compute in E].
  assert (match handle_packets (fun _ => 0) (fun _ => []) 0
      (RtcpAcc ex_switching ([] : rtcp_log) true true 0 0 [] false) ex_rtcp
    with Ok a => failed a = false | Panic => True end) as Hf by (vm_compute; reflexivity).
  rewrite E in Hf. exists a. split; [done|].
  destruct (rtcp_summary (fun _ => 0) (fun _ => []) 0 ex_switching ([] : rtcp_log) ex_rtcp a)
    as (Hp & _ & Hm & _).
  - vm_compute. by repeat constructor.
  - vm_compute. by repeat constructor.
  - exact E.
  - exact Hf.
  - rewrite Hm, Hp. split; vm_compute; reflexivity.
Defined.
