(* ===== verification/MediaEngine.v ===== *)
(** * Media engines ([internal/sfu/mediaengine.go])

    The codecs and header extensions that a publisher's connection and a
    subscriber's accept.  They are registered with pion, one call after the
    other; the first refusal is an error.  The URIs of the extensions are
    constants of pion. *)

From stdpp Require Import gmap strings.
From S2P Require Import Prelude GoNum GoSlice GoFloat Nack Bucket Rtp Buffer Factory Pacer SfuHelper DownTrack.
#[local] Open Scope Z_scope.

(** ** Data *)

Definition mimeTypeH264 : string := "video/h264".
Definition mimeTypeOpus : string := "audio/opus".
Definition mimeTypeVP8 : string := "video/vp8".
Definition mimeTypeVP9 : string := "video/vp9".
Definition frameMarking : string := "urn:ietf:params:rtp-hdrext:framemarking".

(** A codec as it is registered: its feedback is a type and a parameter. *)
Record codec_reg := MkReg { reg_codec : RTPCodec; reg_channels : Z; reg_feedback : list (string * string) }.

(** The calls of [RegisterCodec] and [RegisterHeaderExtension] *)
Inductive reg_call :=
| RegisterCodec (c : codec_reg) (kind : RTPCodecType)
| RegisterHeaderExtension (uri : string) (kind : RTPCodecType).

(** ** The tables *)

Definition videoRTCPFeedback : list (string * string) :=
  [("goog-remb", EmptyString); ("ccm", "fir"); ("nack", EmptyString); ("nack", "pli")]%string.

Definition opus : codec_reg :=
  MkReg (MkRTPCodec mimeTypeOpus 48000 "minptime=10;useinbandfec=1" 111) 2 [].

Definition video_codecs : list codec_reg :=
  map (fun c => MkReg c 0 videoRTCPFeedback) [
    MkRTPCodec mimeTypeVP8 90000 EmptyString 96;
    MkRTPCodec mimeTypeVP9 90000 "profile-id=0" 98;
    MkRTPCodec mimeTypeVP9 90000 "profile-id=1" 100;
    MkRTPCodec mimeTypeH264 90000 "level-asymmetry-allowed=1;packetization-mode=1;profile-level-id=42001f" 102;
    MkRTPCodec mimeTypeH264 90000 "level-asymmetry-allowed=1;packetization-mode=0;profile-level-id=42001f" 127;
    MkRTPCodec mimeTypeH264 90000 "level-asymmetry-allowed=1;packetization-mode=1;profile-level-id=42e01f" 125;
    MkRTPCodec mimeTypeH264 90000 "level-asymmetry-allowed=1;packetization-mode=0;profile-level-id=42e01f" 108;
    MkRTPCodec mimeTypeH264 90000 "level-asymmetry-allowed=1;packetization-mode=1;profile-level-id=640032" 123].

Section engines.
Context (SDESMidURI SDESRTPStreamIDURI TransportCCURI AudioLevelURI : string)
  (accepts : list reg_call -> reg_call -> bool).

(** One call after the other; [None] is an error. *)
Fixpoint register_all (done : list reg_call) (calls : list reg_call) : option (list reg_call) :=
  match calls with
  | [] => Some done
  | c :: calls => if accepts done c then register_all (done ++ [c]) calls else None
  end.

Definition getMediaEngine : option (list reg_call) :=
  register_all [] (RegisterCodec opus TypeAudio :: map (fun c => RegisterCodec c TypeVideo) video_codecs
    ++ map (fun uri => RegisterHeaderExtension uri TypeVideo)
         [SDESMidURI; SDESRTPStreamIDURI; TransportCCURI; frameMarking]
    ++ map (fun uri => RegisterHeaderExtension uri TypeAudio)
         [SDESMidURI; SDESRTPStreamIDURI; AudioLevelURI]).

Definition getSubscriberMediaEngine : option (list reg_call) :=
  register_all [] (RegisterCodec opus TypeAudio :: map (fun c => RegisterCodec c TypeVideo) video_codecs
    ++ map (fun uri => RegisterHeaderExtension uri TypeVideo)
         [SDESMidURI; SDESRTPStreamIDURI; frameMarking]
    ++ map (fun uri => RegisterHeaderExtension uri TypeAudio)
         [SDESMidURI; SDESRTPStreamIDURI]).

(** The codecs of an engine *)
Definition engine_codecs (me : list reg_call) : list (codec_reg * RTPCodecType) :=
  omap (fun c => match c with RegisterCodec c k => Some (c, k) | _ => None end) me.

Lemma register_all_some done calls me :
  register_all done calls = Some me -> me = done ++ calls.
Proof.
  revert done. induction calls as [|c calls IH]; intros done; cbn [register_all].
  - intros [= <-]. by rewrite app_nil_r.
  - destruct (accepts done c); [|done]. intros ->%IH. by rewrite <-app_assoc.
Qed.

(** What a track of the codec is bound with, when pion negotiated what was
    registered *)
Definition bind_codec (c : codec_reg) : RTPCodecParameters :=
  MkCodec (c_MimeType (reg_codec c)) (c_ClockRate (reg_codec c)) (map fst (reg_feedback c)).
End engines.

(** ** Properties *)

Lemma publisher_codecs a b c e accepts me :
  getMediaEngine a b c e accepts = Some me ->
  engine_codecs me = (opus, TypeAudio) :: map (fun c => (c, TypeVideo)) video_codecs.
Proof. intros ->%register_all_some. reflexivity. Qed.

Lemma subscriber_codecs a b accepts me :
  getSubscriberMediaEngine a b accepts = Some me ->
  engine_codecs me = (opus, TypeAudio) :: map (fun c => (c, TypeVideo)) video_codecs.
Proof. intros ->%register_all_some. reflexivity. Qed.

(** Each of a finite list of codecs, one goal each *)
Ltac each_codec H :=
  repeat (apply elem_of_cons in H as [H|H]; [injection H as -> ->|]); [..|by apply elem_of_nil in H].

Lemma search_finds c k :
  (c, k) ∈ (opus, TypeAudio) :: map (fun c => (c, TypeVideo)) video_codecs ->
  codecParametersFuzzySearch (reg_codec c) (map reg_codec (opus :: video_codecs)) = Some (reg_codec c)
  /\ String.prefix "video/" (c_MimeType (reg_codec c)) = bool_decide (k = TypeVideo)
  /\ u8 (c_PayloadType (reg_codec c)) = c_PayloadType (reg_codec c).
Proof.
  intros H. each_codec H; split_and!; vm_compute; reflexivity.
Qed.

(** Every codec that a publisher may send can be passed on: a down track of
    it that a subscriber's connection binds finds the same codec again, takes
    its payload type, and records what it sends exactly if it is video. *)
Theorem every_codec_binds mid rid tcc lvl accepts accepts' me sme c k f d ssrc now :
  getMediaEngine mid rid tcc lvl accepts = Some me ->
  getSubscriberMediaEngine mid rid accepts' = Some sme ->
  (c, k) ∈ engine_codecs me -> d_codec d = reg_codec c -> d_sequencer d = None ->
  let '(_, d', codec) := d_Bind f d (map reg_codec (engine_codecs sme).*1) ssrc now in
  codec = Some (reg_codec c) /\ d_bound d' = true /\ d_ssrc d' = ssrc
  /\ d_payloadType d' = c_PayloadType (reg_codec c)
  /\ (is_Some (d_sequencer d') <-> k = TypeVideo).
Proof.
  intros ->%publisher_codecs Hs Hin Hd Hseq. rewrite (subscriber_codecs _ _ _ _ Hs).
  destruct (search_finds c k Hin) as (H1 & H2 & H3).
  change (map reg_codec (((opus, TypeAudio) :: map (fun c => (c, TypeVideo)) video_codecs).*1))
    with (map reg_codec (opus :: video_codecs)).
  unfold d_Bind. rewrite Hd, H1, H3. destruct (GetOrNew f RTCPBufferPacket ssrc) as [f' o].
  generalize (Sequencer.newSequencer now). intros sq.
  match goal with |- context [String.prefix _ (c_MimeType (d_codec ?x))] =>
    change (d_codec x) with (d_codec d) end.
  rewrite Hd, H2. case_bool_decide as Hk; (split_and!; [done|reflexivity|reflexivity|reflexivity|]).
  - split; [done|intros _]. eexists. reflexivity.
  - match goal with |- is_Some (d_sequencer ?x) <-> _ => change (d_sequencer x) with (d_sequencer d) end.
    rewrite Hseq. split; [by intros []|done].
Qed.

(** The feedback that [Bind] looks for, one flag each *)
Lemma feedback_flags fbs b :
  let b' := foldl (fun b fb =>
              if decide (fb = "goog-remb"%string) then b <| remb := true |>
              else if decide (fb = "transport-cc"%string) then b <| twcc := true |>
              else if decide (fb = "nack"%string) then b <| b_nack := true |> else b) b fbs in
  pPackets b' = pPackets b /\ bucket b' = bucket b /\ codecType b' = codecType b
  /\ remb b' = remb b || bool_decide ("goog-remb"%string ∈ fbs)
  /\ twcc b' = twcc b || bool_decide ("transport-cc"%string ∈ fbs)
  /\ b_nack b' = b_nack b || bool_decide ("nack"%string ∈ fbs).
Proof.
  assert (forall (x y : string) l, bool_decide (x ∈ y :: l) = bool_decide (y = x) || bool_decide (x ∈ l)) as Hc.
  { intros x y l. apply eq_iff_eq_true. rewrite orb_true_iff, !bool_decide_eq_true, elem_of_cons. naive_solver. }
  revert b. induction fbs as [|fb fbs IH]; intros b; cbn [foldl]; [by rewrite !orb_false_r|].
  set (x := if decide _ then _ else _).
  assert (pPackets x = pPackets b /\ bucket x = bucket b /\ codecType x = codecType b
    /\ remb x = remb b || bool_decide (fb = "goog-remb"%string)
    /\ twcc x = twcc b || bool_decide (fb = "transport-cc"%string)
    /\ b_nack x = b_nack b || bool_decide (fb = "nack"%string)) as (X1 & X2 & X3 & X4 & X5 & X6).
  { subst x.
    destruct (decide (fb = "goog-remb"%string)) as [->|];
      [|destruct (decide (fb = "transport-cc"%string)) as [->|];
        [|destruct (decide (fb = "nack"%string)) as [->|]]];
      split_and!; first [rewrite bool_decide_true, orb_true_r by done; reflexivity
        |rewrite bool_decide_false, orb_false_r by done; reflexivity|reflexivity]. }
  clearbody x. rewrite !Hc, !orb_assoc, <-X1, <-X2, <-X3, <-X4, <-X5, <-X6. apply IH.
Qed.

(** A fresh buffer, bound for one audio or video codec *)
Lemma Bind_fresh oor unm ext al uri ssrc c exts maxBr pool now :
  let m := ToLower (MimeType c) in
  let video := bool_decide (String.prefix "audio/" m = false /\ String.prefix "video/" m = true) in
  String.prefix "audio/" m = true \/ video = true ->
  exists b, Bind oor unm ext al uri (NewBuffer ssrc) false (MkParams [c] exts) maxBr pool now = Ok (b, [])
    /\ Buffer.bound b = true /\ codecType b = (if video then TypeVideo else TypeAudio)
    /\ remb b = video && bool_decide ("goog-remb"%string ∈ RTCPFeedback c)
    /\ twcc b = video && bool_decide ("transport-cc"%string ∈ RTCPFeedback c)
    /\ b_nack b = video && bool_decide ("nack"%string ∈ RTCPFeedback c).
Proof.
  intros m video Hm. unfold Bind. cbn [Codecs HeaderExtensions]. fold m.
  set (b1 := (NewBuffer ssrc) <| clockRate := _ |> <| maxBitrate := _ |> <| mime := _ |>).
  change (mime b1) with m.
  set (b2 := if String.prefix "audio/" m then _ else _).
  assert (pPackets b2 = [] /\ is_Some (bucket b2) /\ codecType b2 = (if video then TypeVideo else TypeAudio)
    /\ remb b2 = false /\ twcc b2 = false /\ b_nack b2 = false) as (P2 & (bk & B2) & C2 & R2 & T2 & N2).
  { subst b2 video. destruct (String.prefix "audio/" m); [|destruct (String.prefix "video/" m)].
    - rewrite bool_decide_false by (by intros []). split_and!; try reflexivity. by eexists.
    - rewrite bool_decide_true by done. split_and!; try reflexivity. by eexists.
    - destruct Hm as [Hm|Hm]; [done|]. by apply bool_decide_eq_true in Hm as [_ ?]. }
  clearbody b2. clear b1.
  set (b3 := match List.find _ exts with Some _ => _ | None => _ end).
  assert (pPackets b3 = [] /\ bucket b3 = Some bk /\ codecType b3 = (if video then TypeVideo else TypeAudio)
    /\ remb b3 = false /\ twcc b3 = false /\ b_nack b3 = false) as (P3 & B3 & C3 & R3 & T3 & N3)
    by (subst b3; by destruct (List.find _ exts)).
  clearbody b3.
  pose proof (feedback_flags (RTCPFeedback c) b3) as (F1 & F2 & F3 & F4 & F5 & F6).
  destruct video; cbn [andb].
  - rewrite decide_True by done. set (b4 := foldl _ _ _) in *. clearbody b4.
    rewrite F2, B3, F1, P3. cbn [calc_all mbind go_bind mret go_ret fst snd].
    eexists. split; [reflexivity|]. rewrite R3 in F4. rewrite T3 in F5. rewrite N3 in F6.
    split_and!; [reflexivity|transitivity (codecType b4); [reflexivity|congruence]
      |exact F4|exact F5|exact F6].
  - rewrite decide_False by congruence. rewrite B3, P3. cbn [calc_all mbind go_bind mret go_ret fst snd].
    eexists. split; [reflexivity|]. split_and!; [reflexivity|exact C3|exact R3|exact T3|exact N3].
Qed.

(** The publishers' codecs do not offer transport-wide feedback: whatever
    header extensions are negotiated, a fresh buffer that is bound for one of
    them counts no transport-wide numbers; for video it asks for bandwidth
    (REMB) and for lost packets. *)
Theorem twcc_never_on oor unm ext al uri mid rid tcc lvl accepts me c k ssrc exts maxBr pool now :
  getMediaEngine mid rid tcc lvl accepts = Some me -> (c, k) ∈ engine_codecs me ->
  exists b, Bind oor unm ext al uri (NewBuffer ssrc) false (MkParams [bind_codec c] exts) maxBr pool now
              = Ok (b, [])
    /\ Buffer.bound b = true /\ codecType b = k /\ twcc b = false
    /\ remb b = bool_decide (k = TypeVideo) /\ b_nack b = bool_decide (k = TypeVideo).
Proof.
  intros ->%publisher_codecs Hin.
  destruct (Bind_fresh oor unm ext al uri ssrc (bind_codec c) exts maxBr pool now)
    as (b & Hb & Hbd & Hk & Hr & Ht & Hn).
  - each_codec Hin; vm_compute; auto.
  - exists b. split; [exact Hb|]. split; [exact Hbd|]. rewrite Hk, Hr, Ht, Hn. 
    clear - Hin. each_codec Hin; split_and!; vm_compute; reflexivity.
Qed.

Lemma every_codec_binds_witness :
  exists f d', d_Bind NewBufferFactory
      (NewDownTrack (reg_codec opus) "t" "s" (DtRef 0 "p") 0)
      (map reg_codec (opus :: video_codecs)) 77 0 = (f, d', Some (reg_codec opus))
    /\ d_payloadType d' = 111 /\ ~ is_Some (d_sequencer d').
Proof.
  pose proof (every_codec_binds "mid" "rid" "twcc" "lvl" (fun _ _ => true) (fun _ _ => true) _ _ opus TypeAudio
    NewBufferFactory (NewDownTrack (reg_codec opus) "t" "s" (DtRef 0 "p") 0) 77 0 eq_refl eq_refl
    ltac:(left) eq_refl eq_refl) as H.
  change (map reg_codec (engine_codecs _).*1) with (map reg_codec (opus :: video_codecs)) in H.
  destruct (d_Bind _ _ _ _ _) as [[f d'] codec]. destruct H as (-> & _ & _ & Hp & Hs).
  exists f, d'. split; [done|]. split; [exact Hp|]. rewrite Hs. discriminate.
Defined.

Lemma twcc_never_on_witness :
  exists b, Bind (fun _ => 0) ex_unmarshal Buffer.ex_ext ex_level "twcc" (NewBuffer 99) false
      (MkParams [bind_codec (MkReg (MkRTPCodec mimeTypeVP8 90000 EmptyString 96) 0 videoRTCPFeedback)]
         [("twcc"%string, 3)]) 1500 [] 0 = Ok (b, [])
    /\ twcc b = false /\ remb b = true.
Proof.
  destruct (twcc_never_on (fun _ => 0) ex_unmarshal Buffer.ex_ext ex_level "twcc" "mid" "rid" "twcc" "lvl"
    (fun _ _ => true) _ (MkReg (MkRTPCodec mimeTypeVP8 90000 EmptyString 96) 0 videoRTCPFeedback) TypeVideo 99
    [("twcc"%string, 3)] 1500 [] 0 eq_refl ltac:(right; left)) as (b & H1 & _ & _ & H2 & H3 & _).
  exists b. split; [exact H1|]. split; [exact H2|]. exact H3.
Defined.
