(* ===== verification/Receiver.v ===== *)
(** * Receivers ([internal/sfu/receiver.go])

    A [WebRTCReceiver] owns the up to three layers of one published track: it
    reads each layer's packets from the buffer of the layer and hands them to
    the down tracks of that layer, answers NACKs from the buffers, and passes
    RTCP to the publisher.  It implements the interface of the down tracks.

    [rcv] is the receiver as a goroutine of it sees the world: the receiver,
    the buffers (shared with the factory, by address), and the layer whose
    lock the goroutine holds.  The locks are [sync.Mutex]: locking one that
    the same goroutine holds blocks it for ever, which is [Panic] here.  So
    is a send on a channel that is full: it goes on only when the receiving
    end has taken something, and is then a step from another state. *)

From stdpp Require Import gmap.
From S2P Require Import Prelude GoNum GoSlice GoFloat Nack Bucket Sequencer Rtp Buffer Factory Pacer SfuHelper DownTrack.
#[local] Open Scope Z_scope.

(** ** Data *)

(** [webrtc.TrackRemote]: its RID and SSRC *)
Record TrackRemote := MkTrackRemote { t_RID : string; t_SSRC : Z }.

(** A task of [nackWorker] *)
Record nack_job := MkJob { j_track : dt_ref; j_packets : list packetMeta }.

(** The three layers are lists of length three; a nil slice of down tracks is
    [None].  [rtcpCh] is what is in the channel, which the receivers and the
    buffers of a publisher share and the router's [sendRTCP] empties. *)
Record WebRTCReceiver := MkReceiver {
  w_peerID : string;
  w_trackID : string;
  w_streamID : string;
  w_kind : RTPCodecType;
  lastPli : Z;
  w_codec : RTPCodec;
  rtcpCh : list (list rtcp_packet);
  buffers : list (option nat);
  upTracks : list (option TrackRemote);
  downTracks : list (option (list dt_ref));
  nackJobs : list nack_job;
  nackStopped : bool;
  isSimulcast : bool;
  w_closeOnce : bool }.
#[export] Instance settable_WebRTCReceiver : Settable WebRTCReceiver := fun w =>
  MkReceiver (w_peerID w) (w_trackID w) (w_streamID w) (w_kind w) (lastPli w) (w_codec w)
    (rtcpCh w) (buffers w) (upTracks w) (downTracks w) (nackJobs w) (nackStopped w)
    (isSimulcast w) (w_closeOnce w).

Record rcv := MkRcv { rv : WebRTCReceiver; rv_bufs : list Buffer; held : option Z }.
#[export] Instance settable_rcv : Settable rcv := fun r =>
  MkRcv (rv r) (rv_bufs r) (held r).

Definition NewWebRTCReceiver (track : TrackRemote) (trackID streamID : string)
    (kind : RTPCodecType) (codec : RTPCodec) (pid : string) : WebRTCReceiver :=
  MkReceiver pid trackID streamID kind 0 codec [] [None; None; None] [None; None; None]
    [None; None; None] [] false (negb (bool_decide (t_RID track = EmptyString))) false.

Definition SSRC (w : WebRTCReceiver) (layer : Z) : go Z :=
  t ← go_index (upTracks w) layer;
  mret (match t with Some t => t_SSRC t | None => 0 end).

(** ** Tracks in *)

Definition rid_layer (rid : string) : nat :=
  if bool_decide (rid = fullResolution) then 2%nat
  else if bool_decide (rid = halfResolution) then 1%nat else 0%nat.

(** [AddUpTrack]; its last line starts [writeRTP] of the layer *)
Definition AddUpTrack (w : WebRTCReceiver) (track : TrackRemote) (buff : nat) : WebRTCReceiver :=
  let layer := rid_layer (t_RID track) in
  w <| upTracks := <[layer := Some track]> (upTracks w) |>
    <| buffers := <[layer := Some buff]> (buffers w) |>
    <| downTracks := <[layer := Some []]> (downTracks w) |>.

(** ** Locks and layers *)

(** Index of the layer, its lock not being held: [w.locks[layer].Lock()] *)
Definition lock_layer (r : rcv) (layer : Z) : go (option (list dt_ref)) :=
  if bool_decide (held r = Some layer) then Panic
  else go_index (downTracks (rv r)) layer.

Definition set_layer (r : rcv) (layer : Z) (dts : option (list dt_ref)) : rcv :=
  r <| rv := (rv r) <| downTracks := <[Z.to_nat layer := dts]> (downTracks (rv r)) |> |>.

(** The loop over [upTracks] of [AddDownTrack]: the first layer there is, or
    the last one when the best is asked for *)
Fixpoint pick_layer (best : bool) (i layer : Z) (ts : list (option TrackRemote)) : Z :=
  match ts with
  | [] => layer
  | Some _ :: ts => if best then pick_layer best (i + 1) i ts else i
  | None :: ts => pick_layer best (i + 1) layer ts
  end.

(** [AddDownTrack]: the receiver and the track afterwards; [pool] is the
    buffer that [packetFactory] hands out. *)
Definition AddDownTrack (r : rcv) (track : DownTrack) (pool : bytes) (bestQualityFirst : bool)
  : go (rcv * DownTrack) :=
  let layer := if isSimulcast (rv r) then pick_layer bestQualityFirst 0 0 (upTracks (rv r)) else 0 in
  let track :=
    if isSimulcast (rv r)
    then (SetInitialLayers track layer) <| maxSpatialLayer := 2 |>
           <| d_trackType := SimulcastDownTrack |> <| d_payload := Some pool |>
    else (SetInitialLayers track 0) <| d_trackType := SimpleDownTrack |> in
  dts ← lock_layer r layer;
  mret (set_layer r layer (Some (default [] dts ++ [d_ref track])), track).

Definition w_GetBitrate (r : rcv) : list Z :=
  map (fun b => match b ≫= fun a => rv_bufs r !! a with Some b => bitrate b | None => 0 end)
    (buffers (rv r)).

(** The last element replaces the one at [idx]. *)
Definition swap_remove {A} (l : list A) (idx : nat) : list A :=
  match last l with
  | Some x => take (length l - 1) (<[idx := x]> l)
  | None => l
  end.

Definition w_DeleteDownTrack (r : rcv) (layer : Z) (id : string) : go rcv :=
  dts ← lock_layer r layer;
  match list_find (fun dt => dt_peer dt = id) (default [] dts) with
  | Some (idx, _) => mret (set_layer r layer (Some (swap_remove (default [] dts) idx)))
  | None => mret r
  end.

Definition w_SubDownTrack (r : rcv) (track : dt_ref) (layer : Z) : go (rcv * bool) :=
  dts ← lock_layer r layer;
  match dts with
  | Some dts => mret (set_layer r layer (Some (dts ++ [track])), true)
  | None => mret (r, false)
  end.

(** ** RTCP to the publisher *)

(** 500 ms *)
Definition pli_pause : Z := 500000000.

(** The capacity of the channel, from [newRouter] *)
Definition rtcpCh_cap : nat := 10.

Definition can_send (r : rcv) : Prop := (length (rtcpCh (rv r)) < rtcpCh_cap)%nat.
#[export] Instance can_send_dec r : Decision (can_send r).
Proof. unfold can_send. apply _. Defined.

(** [w.rtcpCh <- p]: it goes on when there is room. *)
Definition put_rtcp (r : rcv) (p : list rtcp_packet) : go rcv :=
  if decide (can_send r) then mret (r <| rv := (rv r) <| rtcpCh := rtcpCh (rv r) ++ [p] |> |>) else Panic.

(** [sendRTCP] of the router takes the next message. *)
Definition take_rtcp (r : rcv) : rcv := r <| rv := (rv r) <| rtcpCh := tail (rtcpCh (rv r)) |> |>.

(** The lock [rtcpMu] is held while a request waits for room, so that no
    other request passes it. *)
Definition w_SendRTCP (r : rcv) (now : Z) (p : list rtcp_packet) : go rcv :=
  p0 ← go_index p 0;
  match p0 with
  | PictureLossIndication _ _ =>
      if now - lastPli (rv r) <? pli_pause then mret r
      else put_rtcp (r <| rv := (rv r) <| lastPli := now |> |>) p
  | _ => put_rtcp r p
  end.

(** ** Retransmission *)

(** [RetransmitPackets]; false is [io.ErrClosedPipe]. *)
Definition w_RetransmitPackets (r : rcv) (track : dt_ref) (packets : list packetMeta)
  : go (rcv * bool) :=
  if nackStopped (rv r) then mret (r, false)
  else mret (r <| rv := (rv r) <| nackJobs := nackJobs (rv r) ++ [MkJob track packets] |> |>, true).

#[export] Instance webrtc_receiver : Receiver rcv := {
  SendRTCP := w_SendRTCP;
  DeleteDownTrack := w_DeleteDownTrack;
  SubDownTrack := w_SubDownTrack;
  GetBitrate := w_GetBitrate;
  RetransmitPackets := w_RetransmitPackets }.

(** The task submitted by [RetransmitPackets], run by the worker: what it
    enqueues.  [packetFactory]'s buffers have 1460 bytes; [unmarshal] is
    [rtp.Packet.Unmarshal], [None] an error.  The packets are values here;
    that their bytes stay in those buffers, and how long, is in [Resend]
    ([resend_memory]). *)
Section retransmission.
Context (unmarshal : bytes -> option rtp_packet).

Definition resent (d : DownTrack) (meta : packetMeta) (p : rtp_packet) : rtp_packet :=
  p <| rp_sn := targetSeqNo meta |> <| rp_ts := pm_timestamp meta |>
    <| rp_ssrc := d_ssrc d |> <| rp_pt := d_payloadType d |>.

Fixpoint run_job (r : rcv) (d : DownTrack) (packets : list packetMeta) : go DownTrack :=
  match packets with
  | [] => mret d
  | meta :: packets =>
      b ← go_index (buffers (rv r)) (pm_layer meta);
      match b ≫= fun a => rv_bufs r !! a with
      | None => mret d
      | Some b =>
          g ← GetPacket b 1460 (sourceSeqNo meta);
          let '(pktLen, data, err) := g in
          match err with
          | Some EOF => mret d
          | Some _ => run_job r d packets
          | None =>
              match unmarshal data with
              | None => run_job r d packets
              | Some p => run_job r (d <| d_pacer := Enqueue (d_pacer d) (resent d meta p) |>) packets
              end
          end
      end
  end.
End retransmission.

(** ** Forwarding and closing *)

(** The down tracks, by address *)
Abbreviation tracks := (gmap nat DownTrack).

(** One packet of [writeRTP]'s loop over the down tracks of a layer, the
    lock held.  [WriteRTP] returns no error, so none is marked for deletion. *)
Fixpoint write_all (r : rcv) (ds : tracks) (e : ExtPacket) (now : Z) (l : list dt_ref)
  : go (rcv * tracks) :=
  match l with
  | [] => mret (r, ds)
  | dt :: l =>
      match ds !! dt_addr dt with
      | None => Panic
      | Some d =>
          s ← WriteRTP d r e now;
          write_all s.2 (<[dt_addr dt := s.1]> ds) e now l
      end
  end.

Definition write_packet (r : rcv) (ds : tracks) (layer : Z) (e : ExtPacket) (now : Z)
  : go (rcv * tracks) :=
  dts ← lock_layer r layer;
  s ← write_all (r <| held := Some layer |>) ds e now (default [] dts);
  mret (s.1 <| held := None |>, s.2).

(** Close the down tracks of one layer: which of them run their close handler *)
Fixpoint close_all (ds : tracks) (l : list dt_ref) : tracks * list dt_ref :=
  match l with
  | [] => (ds, [])
  | dt :: l =>
      match ds !! dt_addr dt with
      | None => close_all ds l
      | Some d =>
          let '(d', _, first) := d_Close d in
          let s := close_all (<[dt_addr dt := d']> ds) l in
          (s.1, if first then dt :: s.2 else s.2)
      end
  end.

(** [closeTracks], and the end of [writeRTP], which calls it once *)
Definition closeTracks (w : WebRTCReceiver) (ds : tracks) : WebRTCReceiver * tracks * list dt_ref :=
  let s := close_all ds (concat (map (default []) (downTracks w))) in
  (w <| downTracks := map (fmap (fun _ => [])) (downTracks w) |> <| nackStopped := true |>,
   s.1, s.2).

Definition writeRTP_end (w : WebRTCReceiver) (ds : tracks) : WebRTCReceiver * tracks * list dt_ref :=
  if w_closeOnce w then (w, ds, [])
  else closeTracks (w <| w_closeOnce := true |>) ds.

(** ** RTCP to the publisher: lemmas *)

Lemma put_rtcp_ok r p :
  can_send r -> put_rtcp r p = Ok (r <| rv := (rv r) <| rtcpCh := rtcpCh (rv r) ++ [p] |> |>).
Proof. intros H. unfold put_rtcp. by rewrite decide_True. Qed.

(** A request for a key frame does not wait. *)
Definition sendable (r : rcv) (now : Z) : Prop := can_send r \/ now - lastPli (rv r) < pli_pause.

(** Everything but the channel and the time of the last request, and the
    bound of the channel *)
Definition but_rtcp (r r' : rcv) : Prop :=
  (exists last ch, r' = r <| rv := (rv r) <| lastPli := last |> <| rtcpCh := ch |> |>)
  /\ ((length (rtcpCh (rv r)) <= rtcpCh_cap)%nat -> (length (rtcpCh (rv r')) <= rtcpCh_cap)%nat).

Lemma but_rtcp_refl r : but_rtcp r r.
Proof. split; [|done]. exists (lastPli (rv r)), (rtcpCh (rv r)). by destruct r as [[]]. Qed.

Lemma put_rtcp_inv r p r' :
  put_rtcp r p = Ok r' -> can_send r /\ r' = r <| rv := (rv r) <| rtcpCh := rtcpCh (rv r) ++ [p] |> |>.
Proof. unfold put_rtcp. destruct (decide _); [|done]. by intros [= <-]. Qed.

Lemma send_rtcp_but r now p r' : w_SendRTCP r now p = Ok r' -> but_rtcp r r'.
Proof.
  unfold w_SendRTCP. destruct (go_index p 0) as [p0|]; [|done]. cbn [mbind go_bind].
  assert (forall last, put_rtcp (r <| rv := (rv r) <| lastPli := last |> |>) p = Ok r' -> but_rtcp r r') as Hput.
  { intros last [Hc ->]%put_rtcp_inv. unfold can_send in Hc. cbn in Hc. split; [by eexists _, _|].
    intros _. cbn. rewrite length_app. cbn. lia. }
  assert (put_rtcp r p = Ok r' -> but_rtcp r r') as Hput'.
  { intros H. apply (Hput (lastPli (rv r))). rewrite <-H. by destruct r as [[]]. }
  destruct p0; try exact Hput'. destruct (_ <? _); [|apply Hput].
  intros [= <-]. apply but_rtcp_refl.
Qed.

Lemma put_but r p r' : put_rtcp r p = Ok r' -> but_rtcp r r'.
Proof.
  intros [Hc ->]%put_rtcp_inv. split; [exists (lastPli (rv r)), (rtcpCh (rv r) ++ [p]); by destruct r as [[]]|].
  intros _. unfold can_send in Hc. cbn. rewrite length_app. cbn. lia.
Qed.

Lemma take_but r : but_rtcp r (take_rtcp r).
Proof.
  split; [exists (lastPli (rv r)), (tail (rtcpCh (rv r))); by destruct r as [[]]|].
  cbn. destruct (rtcpCh (rv r)); cbn; lia.
Qed.

(** With room every message is sent; and a request for a key frame never
    waits twice at the same time. *)
Lemma send_rtcp_room r now p : p <> [] -> can_send r -> is_ok (w_SendRTCP r now p) = true.
Proof.
  intros Hp Hr. unfold w_SendRTCP. destruct p as [|p0 p]; [done|].
  change (go_index (p0 :: p) 0) with (Ok p0). cbn [mbind go_bind].
  destruct p0; try by rewrite put_rtcp_ok. destruct (_ <? _); [done|]. by rewrite put_rtcp_ok.
Qed.

Lemma send_pli_goes r now s1 s2 p :
  sendable r now -> exists r', w_SendRTCP r now (PictureLossIndication s1 s2 :: p) = Ok r' /\ sendable r' now.
Proof.
  intros Hs. unfold w_SendRTCP. change (go_index _ 0) with (Ok (PictureLossIndication s1 s2)). cbn [mbind go_bind].
  destruct (now - lastPli (rv r) <? pli_pause) eqn:E; [by exists r|]. bool_prop.
  destruct Hs as [Hc|Hc]; [|lia]. rewrite put_rtcp_ok by exact Hc. eexists. split; [reflexivity|].
  right. cbn. unfold pli_pause. lia.
Qed.

(** The channel within its capacity *)
Definition bounded (r : rcv) : Prop := (length (rtcpCh (rv r)) <= rtcpCh_cap)%nat.

Lemma send_rtcp_bounded r now p r' : w_SendRTCP r now p = Ok r' -> bounded r -> bounded r'.
Proof. intros H. by apply send_rtcp_but in H as [_ ?]. Qed.

(** With room before or after the router has taken a message *)
Lemma bounded_room r : bounded r -> can_send r \/ length (rtcpCh (rv r)) = rtcpCh_cap /\ can_send (take_rtcp r).
Proof.
  unfold bounded, can_send. cbn. destruct (decide (length (rtcpCh (rv r)) = rtcpCh_cap)) as [E|E]; [|left; lia].
  right. split; [done|]. destruct (rtcpCh (rv r)); [done|]. cbn in *. lia.
Qed.

(** What the calls of down tracks leave alone, but for [SendRTCP] *)
Definition rtcp_side (r : rcv) := (rtcpCh (rv r), lastPli (rv r), rv_bufs r).

Lemma delete_side r layer id r' : w_DeleteDownTrack r layer id = Ok r' -> rtcp_side r' = rtcp_side r.
Proof.
  unfold w_DeleteDownTrack. destruct (lock_layer r layer) as [dts|]; [|done]. cbn [mbind go_bind mret go_ret].
  destruct (list_find _ _) as [[i x]|]; by intros [= <-].
Qed.

Lemma sub_side r ref layer s : w_SubDownTrack r ref layer = Ok s -> rtcp_side s.1 = rtcp_side r.
Proof.
  unfold w_SubDownTrack. destruct (lock_layer r layer) as [[dts|]|]; [| |done];
    cbn [mbind go_bind mret go_ret]; by intros [= <-].
Qed.

Lemma resend_side r ref ms s : w_RetransmitPackets r ref ms = Ok s -> rtcp_side s.1 = rtcp_side r.
Proof. unfold w_RetransmitPackets. destruct (nackStopped _); by intros [= <-]. Qed.

Lemma add_side r t pool best s : AddDownTrack r t pool best = Ok s -> rtcp_side s.1 = rtcp_side r.
Proof.
  unfold AddDownTrack. destruct (lock_layer _ _) as [dts|]; [|done]. cbn [mbind go_bind mret go_ret].
  by intros [= <-].
Qed.

(** Messages given to a channel with room, or given and gone through *)
Definition goes {A} (r : rcv) (now : Z) (m : go A) : Prop := is_ok m = true \/ sendable r now.

Lemma goes_head {A B} r now (m : go A) (k : A -> go B) : goes r now (x ← m; k x) -> goes r now m.
Proof. intros [H|H]; [left|by right]. by destruct m. Qed.

(** A packet asks for key frames at one time, and so at most once. *)
Lemma write_sendable d (r : rcv) e now d' r' :
  WriteRTP d r e now = Ok (d', r') -> sendable r now -> sendable r' now.
Proof.
  apply (write_keeps (fun r => sendable r now)).
  - intros r0 s m r1 Hw Hs. destruct (send_pli_goes r0 now s m [] Hs) as (r2 & Hw' & H2).
    change (w_SendRTCP r0 now [PictureLossIndication s m] = Ok r1) in Hw. congruence.
  - intros r0 l id r1 [= H1 H2 _]%delete_side. unfold sendable, can_send. by rewrite H1, H2.
Qed.

Lemma write_bounded d (r : rcv) e now d' r' : WriteRTP d r e now = Ok (d', r') -> bounded r -> bounded r'.
Proof.
  apply (write_keeps bounded).
  - intros r0 s m r1. apply send_rtcp_bounded.
  - intros r0 l id r1 [= H1 _ _]%delete_side. unfold bounded. by rewrite H1.
Qed.

Lemma rtcp_bounded oor unm PacketList d (r : rcv) bs now s :
  handleRTCP oor unm PacketList d r bs now = Ok s -> bounded r -> bounded s.2.
Proof.
  apply (rtcp_keeps bounded).
  - intros r0 p r1. apply send_rtcp_bounded.
  - intros r0 dt l q [= H1 _ _]%sub_side. unfold bounded. by rewrite H1.
  - intros r0 dt ms q [= H1 _ _]%resend_side. unfold bounded. by rewrite H1.
Qed.

(** The buffers are not touched. *)
Lemma write_bufs d (r : rcv) e now d' r' : WriteRTP d r e now = Ok (d', r') -> rv_bufs r' = rv_bufs r.
Proof.
  intros H. refine (write_keeps (fun x => rv_bufs x = rv_bufs r) d r e now d' r' _ _ H eq_refl).
  - intros r0 s m r1 ((last & ch & ->) & _)%send_rtcp_but. done.
  - intros r0 l id r1 [= _ _ H1]%delete_side. congruence.
Qed.

Lemma rtcp_bufs oor unm PacketList d (r : rcv) bs now s :
  handleRTCP oor unm PacketList d r bs now = Ok s -> rv_bufs s.2 = rv_bufs r.
Proof.
  intros H. refine (rtcp_keeps (fun x => rv_bufs x = rv_bufs r) oor unm PacketList d r bs now s _ _ _ H eq_refl).
  - intros r0 p r1 ((last & ch & ->) & _)%send_rtcp_but. done.
  - intros r0 dt l q [= _ _ H1]%sub_side. congruence.
  - intros r0 dt ms q [= _ _ H1]%resend_side. congruence.
Qed.

Lemma write_all_keeps (P : rcv -> Prop) l r ds e now s :
  (forall d (r : rcv) d' r', WriteRTP d r e now = Ok (d', r') -> P r -> P r') ->
  write_all r ds e now l = Ok s -> P r -> P s.1.
Proof.
  intros HP. revert r ds. induction l as [|dt l IH]; intros r ds; cbn [write_all]; [by intros [= <-]|].
  destruct (ds !! dt_addr dt) as [d|]; [|done]. destruct (WriteRTP d r e now) as [[d1 r1]|] eqn:E; [|done].
  cbn [mbind go_bind fst snd]. intros H Hr. apply (IH r1 _ H). by eapply HP.
Qed.

(** What one packet for all tracks of a layer keeps; [P] must not depend on
    the locks held. *)
Lemma write_packet_keeps (P : rcv -> Prop) r ds k e now s :
  (forall d (r : rcv) d' r', WriteRTP d r e now = Ok (d', r') -> P r -> P r') ->
  (forall r h, P r -> P (r <| held := h |>)) ->
  write_packet r ds k e now = Ok s -> P r -> P s.1.
Proof.
  intros HP Hh. unfold write_packet. destruct (lock_layer r k) as [dts|]; [|done]. cbn [mbind go_bind].
  destruct (write_all _ _ _ _ _) as [s1|] eqn:E; [|done]. cbn [mbind go_bind mret go_ret]. intros [= <-] Hr.
  cbn [fst]. apply Hh. apply (write_all_keeps P _ _ _ _ _ _ HP E). by apply Hh.
Qed.

Lemma write_packet_bounded r ds k e now s : write_packet r ds k e now = Ok s -> bounded r -> bounded s.1.
Proof. apply write_packet_keeps; [|done]. intros d r0 d' r'. apply write_bounded. Qed.

Lemma write_packet_bufs r ds k e now s : write_packet r ds k e now = Ok s -> rv_bufs s.1 = rv_bufs r.
Proof.
  intros H. refine (write_packet_keeps (fun x => rv_bufs x = rv_bufs r) r ds k e now s _ _ H eq_refl); [|done].
  intros d r0 d' r' Hw. by rewrite (write_bufs _ _ _ _ _ _ Hw).
Qed.

Definition starts_with_pli (p : list rtcp_packet) : bool :=
  match p with PictureLossIndication _ _ :: _ => true | _ => false end.

(** A message for the publisher: when it came, whether through [SendRTCP] of
    this receiver or put on the channel by another goroutine (the callbacks of
    buffers and of the TWCC responder, other receivers), and what it says *)
Record rtcp_msg := Msg { m_at : Z; m_here : bool; m_pkts : list rtcp_packet }.

(** The messages that the pause between requests concerns *)
Definition limited (m : rtcp_msg) : bool := (m_here m && starts_with_pli (m_pkts m))%bool.

(** Messages come, and the router takes messages out of the channel. *)
Inductive sends : rcv -> list rtcp_msg -> list (list rtcp_packet) -> rcv -> Prop :=
| sd_nil r : sends r [] [] r
| sd_send r now p r1 l out r' :
    w_SendRTCP r now p = Ok r1 -> sends r1 l out r' -> sends r (Msg now true p :: l) out r'
| sd_other r now p r1 l out r' :
    put_rtcp r p = Ok r1 -> sends r1 l out r' -> sends r (Msg now false p :: l) out r'
| sd_take r p ch l out r' :
    rtcpCh (rv r) = p :: ch -> sends (take_rtcp r) l out r' -> sends r l (p :: out) r'.

(** Of the messages [l], those that [last], the time of the latest request
    sent, and the ones before let through *)
Fixpoint throttle (last : Z) (l : list rtcp_msg) : list rtcp_msg :=
  match l with
  | [] => []
  | m :: l =>
      if limited m
      then if m_at m - last <? pli_pause then throttle last l else m :: throttle (m_at m) l
      else m :: throttle last l
  end.

Lemma sends_throttle r l out r' :
  sends r l out r' -> out ++ rtcpCh (rv r') = rtcpCh (rv r) ++ map m_pkts (throttle (lastPli (rv r)) l).
Proof.
  induction 1 as [r|r now p r1 l out r' Hs _ IH|r now p r1 l out r' Hs _ IH|r p ch l out r' Hch _ IH].
  - by rewrite app_nil_r.
  - rewrite IH. clear IH. unfold w_SendRTCP in Hs. destruct p as [|p0 p]; [done|].
    change (go_index (p0 :: p) 0) with (Ok p0) in Hs. cbn [mbind go_bind] in Hs. cbn [throttle limited m_here andb m_pkts].
    assert (starts_with_pli (p0 :: p) = false -> put_rtcp r (p0 :: p) = Ok r1 ->
      rtcpCh (rv r1) ++ map m_pkts (throttle (lastPli (rv r1)) l)
      = rtcpCh (rv r) ++ map m_pkts (if starts_with_pli (p0 :: p)
          then if now - lastPli (rv r) <? pli_pause then throttle (lastPli (rv r)) l
               else Msg now true (p0 :: p) :: throttle now l
          else Msg now true (p0 :: p) :: throttle (lastPli (rv r)) l)) as Hput.
    { intros -> [_ ->]%put_rtcp_inv. cbn. by rewrite <-app_assoc. }
    destruct p0; try (by apply Hput). cbn [starts_with_pli m_at]. destruct (_ <? _); [by injection Hs as <-|].
    apply put_rtcp_inv in Hs as [_ ->]. cbn. by rewrite <-app_assoc.
  - rewrite IH. apply put_rtcp_inv in Hs as [_ ->]. cbn. by rewrite <-app_assoc.
  - cbn [app]. rewrite IH, Hch. cbn. by rewrite Hch.
Qed.

(** The times at which a request was sent *)
Definition pli_times (l : list rtcp_msg) : list Z := map m_at (filter (fun m => limited m = true) l).

Fixpoint spaced (last : Z) (ts : list Z) : Prop :=
  match ts with
  | [] => True
  | t :: ts => pli_pause <= t - last /\ spaced t ts
  end.

Lemma pli_times_cons m l : pli_times (m :: l) = (if limited m then [m_at m] else []) ++ pli_times l.
Proof. unfold pli_times. rewrite filter_cons. case_decide as E; [by rewrite E|by destruct (limited m)]. Qed.

Lemma throttle_spaced last l : spaced last (pli_times (throttle last l)).
Proof.
  revert last. induction l as [|m l IH]; intros last; [done|]. cbn [throttle].
  destruct (limited m) eqn:E; [destruct (m_at m - last <? pli_pause) eqn:Et|];
    rewrite ?pli_times_cons, ?E; [apply IH| |apply IH]. bool_prop. split; [done|apply IH].
Qed.

Lemma throttle_kept last l x :
  x ∈ l -> Forall (fun m => last <= m_at m) l -> StronglySorted (fun m m' => m_at m <= m_at m') l ->
  x ∈ throttle last l
  \/ (limited x = true
      /\ exists t, t ∈ last :: pli_times (throttle last l) /\ t <= m_at x < t + pli_pause).
Proof.
  revert last. induction l as [|m l IH]; intros last Hx Hlast Hs; [by apply elem_of_nil in Hx|].
  apply Forall_cons in Hlast as [Hn Hlast]. apply StronglySorted_inv in Hs as [Hs Hnow].
  cbn [throttle]. apply elem_of_cons in Hx as [->|Hx].
  - destruct (limited m) eqn:E; [|left; set_solver].
    destruct (m_at m - last <? pli_pause) eqn:Et; [|left; set_solver]. bool_prop.
    right. split; [done|]. exists last. split; [set_solver|]. lia.
  - destruct (limited m) eqn:E; [destruct (m_at m - last <? pli_pause) eqn:Et|].
    + by apply IH.
    + destruct (IH (m_at m) Hx Hnow Hs) as [?|(Hp & t & Ht & Hr)]; [left; set_solver|].
      right. split; [done|]. exists t. rewrite pli_times_cons, E. split; [set_solver|done].
    + destruct (IH last Hx Hlast Hs) as [?|(Hp & t & Ht & Hr)]; [left; set_solver|].
      right. split; [done|]. exists t. rewrite pli_times_cons, E. done.
Qed.

Lemma throttle_others last l :
  filter (fun m => limited m = false) (throttle last l) = filter (fun m => limited m = false) l.
Proof.
  revert last. induction l as [|m l IH]; intros last; [done|]. cbn [throttle].
  destruct (limited m) eqn:E; [destruct (_ <? _)|];
    rewrite ?filter_cons, ?E; repeat case_decide; try done. by rewrite IH.
Qed.

(** ** Properties: RTCP to the publisher *)

(** C30. The requests for key frames that are passed to [SendRTCP], that is, the
    messages whose first packet is a PLI: the publisher is sent them at least
    half a second apart, whatever else comes and whenever the router empties
    the channel; one that is not passed on, with all that follows its PLI, has
    one that was passed on less than half a second before it.  A message that
    starts with another packet, and what other goroutines put on the channel,
    are passed on whatever they hold, PLIs and FIRs included.  All that is
    passed on reaches the router in order, and with room in the channel no
    call waits. *)
Theorem pli_throttled r l out r' :
  sends r l out r' ->
  Forall (fun m => lastPli (rv r) <= m_at m) l -> StronglySorted (fun m m' => m_at m <= m_at m') l ->
  exists kept,
    out ++ rtcpCh (rv r') = rtcpCh (rv r) ++ map m_pkts kept
    /\ spaced (lastPli (rv r)) (pli_times kept)
    /\ filter (fun m => limited m = false) kept = filter (fun m => limited m = false) l
    /\ (forall x, x ∈ l -> x ∈ kept \/ (limited x = true
         /\ exists t, t ∈ lastPli (rv r) :: pli_times kept /\ t <= m_at x < t + pli_pause))
    /\ (forall now p, p <> [] -> can_send r' -> is_ok (w_SendRTCP r' now p) = true).
Proof.
  intros Hrun Hl Hs. exists (throttle (lastPli (rv r)) l).
  split_and!; [by apply sends_throttle|apply throttle_spaced|apply throttle_others| |].
  - intros x Hx. by apply throttle_kept.
  - intros now p Hp Hc. by apply send_rtcp_room.
Qed.

(** ** Retransmission: lemmas *)

(** A NACK for one packet in the sequencer's window, not asked for before *)
Lemma nacked_one refTime PacketList s H log e m np :
  seq_ok s H log -> Sequencer.fresh s -> (e, m) ∈ log -> H - 499 < e -> PacketList np = [e mod 65536] ->
  exists s', nacked PacketList refTime s [np] = Ok (s', [m <| lastNack := refTime |>])
    /\ seq_ok s' H log.
Proof.
  intros Hok Hf Hm He Hnp.
  destruct (seq_pair_ok refTime s H log e m Hok Hm He) as (s' & t & Hl & Hpair & _ & Hok').
  assert (t = 0) as ->.
  { unfold Sequencer.fresh in Hf. rewrite Forall_lookup in Hf. exact (Hf _ _ Hl). }
  exists s'. split; [|done]. cbn [nacked]. rewrite Hnp. cbn [getSeqNoPairs]. rewrite Hpair.
  cbn [mbind go_bind mret go_ret fst snd]. reflexivity.
Qed.

Section nack.
Context (oor : float -> Z) (PacketList : NackPair -> list Z) (unmarshal : bytes -> option rtp_packet).

(** The task for one record whose packet is in the cache *)
Lemma run_job_one (r : rcv) (d : DownTrack) meta a b n data p :
  go_index (buffers (rv r)) (pm_layer meta) = Ok (Some a) -> rv_bufs r !! a = Some b ->
  GetPacket b 1460 (sourceSeqNo meta) = Ok (n, data, None) -> unmarshal data = Some p ->
  run_job unmarshal r d [meta]
  = Ok (d <| d_pacer := Enqueue (d_pacer d) (resent d meta p) |>).
Proof.
  intros Hi Hb Hg Hu. cbn [run_job]. rewrite Hi. cbn [mbind go_bind option_bind].
  rewrite Hb, Hg. cbn [mbind go_bind]. by rewrite Hu.
Qed.

End nack.

(** ** Concrete receivers *)

Definition ex_codec : RTPCodec := MkRTPCodec "audio/OPUS" 48000 EmptyString 111.

(** An audio track whose buffer holds packet 5 *)
Definition ex_recv : rcv :=
  MkRcv (AddUpTrack (NewWebRTCReceiver (MkTrackRemote EmptyString 99) "t" "s" TypeAudio ex_codec "pub")
           (MkTrackRemote EmptyString 99) 0%nat) [ex_buffer [(5, 0)]] None.

Definition ex_packet : rtp_packet := RtpPacket false 111 5 4800 99 [] [1; 2; 3].

(** A down track that sent it under number 3 *)
Definition ex_sender : DownTrack :=
  (NewDownTrack ex_codec "t" "s" (DtRef 7 "sub") 0) <| snOffset := 2 |> <| d_ssrc := 55 |>
    <| d_sequencer := match push (newSequencer 0) 5 3 4800 0 true with
                      | Ok s => Some s.1 | Panic => None end |>.

(** A request, one too early with a FIR behind it, a FIR that the router
    gets with a request behind it, and a message of another goroutine *)
Definition ex_msgs : list rtcp_msg :=
  [Msg 500000000 true [PictureLossIndication 1 99];
   Msg 600000000 true [PictureLossIndication 1 99; FullIntraRequest 1 99];
   Msg 700000000 true [FullIntraRequest 1 99; PictureLossIndication 1 99];
   Msg 800000000 false [PictureLossIndication 1 99]].

Lemma pli_throttled_witness :
  exists r' (kept : list rtcp_msg),
    sends ex_recv ex_msgs [[PictureLossIndication 1 99]] r'
    /\ length (rtcpCh (rv r')) = 2%nat
    /\ spaced (lastPli (rv ex_recv)) (pli_times kept)
    /\ [[PictureLossIndication 1 99]] ++ rtcpCh (rv r') = rtcpCh (rv ex_recv) ++ map m_pkts kept.
Proof.
  assert (exists r', sends ex_recv ex_msgs [[PictureLossIndication 1 99]] r'
    /\ length (rtcpCh (rv r')) = 2%nat) as (r' & Hrun & Hlen).
  { eexists. split.
    - eapply sd_send; [vm_compute; reflexivity|]. eapply sd_take; [reflexivity|].
      eapply sd_send; [vm_compute; reflexivity|]. eapply sd_send; [vm_compute; reflexivity|].
      eapply sd_other; [vm_compute; reflexivity|]. apply sd_nil.
    - reflexivity. }
  destruct (pli_throttled ex_recv ex_msgs _ r' Hrun) as (kept & H1 & H2 & _).
  - repeat constructor; cbn; lia.
  - repeat constructor; cbn; lia.
  - by exists r', kept.
Defined.
