(* ===== verification/Resend.v ===== *)
(** * The memory of packets sent again ([receiver.go], [sfu.go])

    The task that answers a NACK takes a buffer of [packetFactory] for each
    packet, reads the cached packet into it, and queues a packet whose payload
    and header extensions are slices of that buffer.  When the task is done it
    puts its last buffer back into the pool, although the packet in it may
    still be in the pacer's queue.  [run_job] of [Receiver] takes the packets
    as values; here they are read from memory when they are sent, and the two
    are compared. *)

From stdpp Require Import gmap.
From S2P Require Import Prelude GoNum GoSlice GoFloat Nack Bucket Sequencer Rtp Buffer Factory Pacer SfuHelper DownTrack Receiver.
#[local] Open Scope Z_scope.

(** ** Memory *)

(** The buffers by address; those in the pool; those that other goroutines
    hold ([RetransmitPackets] of other receivers, [AddDownTrack]) *)
Record memory := MkMem { heap : gmap nat bytes; pool : list nat; taken : gset nat }.
#[export] Instance settable_memory : Settable memory := fun m => MkMem (heap m) (pool m) (taken m).

(** The length of the buffers that the pool makes, and a new one *)
Definition packet_len : nat := 1460.
Definition new_buf : bytes := replicate packet_len 0.
#[global] Arguments packet_len : simpl never.
#[global] Arguments new_buf : simpl never.

(** [packetFactory.Get()]: the pool hands out any of its buffers, here the
    one at place [i], or, if there is none there, makes a new one. *)
Definition pool_get (m : memory) (i : nat) : memory * nat :=
  match pool m !! i with
  | Some a => (m <| pool := delete i (pool m) |>, a)
  | None => let a := fresh (dom (heap m)) in
            (m <| heap := <[a := new_buf]> (heap m) |>, a)
  end.

Definition pool_put (m : memory) (a : nat) : memory := m <| pool := pool m ++ [a] |>.

(** [copy(buf, data)] *)
Definition mem_write (m : memory) (a : nat) (data : bytes) : memory :=
  m <| heap := alter (fun l => blit l 0 data) a (heap m) |>.

(** What the other goroutines do: take a buffer, write to one of theirs, put
    one of theirs back. *)
Inductive others_step : memory -> memory -> Prop :=
| os_get m i : others_step m ((pool_get m i).1 <| taken := {[(pool_get m i).2]} ∪ taken m |>)
| os_write m a data :
    a ∈ taken m -> (length data <= packet_len)%nat -> others_step m (mem_write m a data)
| os_put m a : a ∈ taken m -> others_step m (pool_put (m <| taken := taken m ∖ {[a]} |>) a).

(** ** The task *)

(** A packet in a pacer's queue: its header, and where the bytes of its
    extensions and of its payload are: the buffer, offsets and lengths *)
Abbreviation place := (nat * nat)%type.
Record queued := MkQueued {
  q_header : rtp_packet; q_buf : nat; q_ext : list (Z * place); q_payload : place }.

Definition bytes_at (m : memory) (a : nat) (p : place) : bytes := sub (default [] (heap m !! a)) p.1 p.2.

(** The packet that is sent when the memory is [m] *)
Definition resolve (m : memory) (q : queued) : rtp_packet :=
  let h := q_header q in
  RtpPacket (rp_marker h) (rp_pt h) (rp_sn h) (rp_ts h) (rp_ssrc h)
    (map (fun x => (x.1, bytes_at m (q_buf q) x.2)) (q_ext q)) (bytes_at m (q_buf q) (q_payload q)).

Section task.
(** [rtp.Packet.Unmarshal], and where in its input the slices lie that it
    makes *)
Context (unmarshal : bytes -> option rtp_packet) (layout : bytes -> list (Z * place) * place).

(** [gets] are the choices of the pool.  [last] is the buffer that [pktBuff]
    holds. *)
Fixpoint job_loop (r : rcv) (d : DownTrack) (metas : list packetMeta) (gets : list nat)
    (m : memory) (last : option nat) : go (memory * option nat * list queued) :=
  match metas with
  | [] => mret (m, last, [])
  | meta :: metas =>
      let '(m, a) := pool_get m (default (length (pool m)) (head gets)) in
      b ← go_index (buffers (rv r)) (pm_layer meta);
      match b ≫= fun x => rv_bufs r !! x with
      | None => mret (m, Some a, [])
      | Some b =>
          g ← GetPacket b (Z.of_nat packet_len) (sourceSeqNo meta);
          let '(pktLen, data, err) := g in
          match err with
          | Some EOF => mret (m, Some a, [])
          | Some _ => job_loop r d metas (tail gets) m (Some a)
          | None =>
              let m := mem_write m a data in
              match unmarshal data with
              | None => job_loop r d metas (tail gets) m (Some a)
              | Some p =>
                  s ← job_loop r d metas (tail gets) m (Some a);
                  mret (s.1, MkQueued (resent d meta p) a (layout data).1 (layout data).2 :: s.2)
              end
          end
      end
  end.

(** The whole task.  It is submitted for one packet at least. *)
Definition job (r : rcv) (d : DownTrack) (metas : list packetMeta) (gets : list nat) (m : memory)
  : go (memory * option nat * list queued) :=
  s ← job_loop r d metas gets m None;
  mret (match s.1.2 with Some a => pool_put s.1.1 a | None => s.1.1 end, s.1.2, s.2).
End task.

(** The packets, given to the pacer as values *)
Definition enqueue_all (d : DownTrack) (ps : list rtp_packet) : DownTrack :=
  d <| d_pacer := (d_pacer d) <| packets := packets (d_pacer d) ++ ps |> |>.

(** ** The discipline of the pool *)

Record mem_ok (m : memory) : Prop := {
  mo_nodup : NoDup (pool m);
  mo_pool : forall a, a ∈ pool m -> is_Some (heap m !! a) /\ a ∉ taken m;
  mo_taken : forall a, a ∈ taken m -> is_Some (heap m !! a);
  mo_len : forall a l, heap m !! a = Some l -> length l = packet_len }.

(** A buffer that is neither in the pool nor in other hands *)
Definition mine (m : memory) (a : nat) : Prop := is_Some (heap m !! a) /\ a ∉ pool m /\ a ∉ taken m.

(** [m'] has at [a] what [m] has. *)
Definition same_at (a : nat) (m m' : memory) : Prop := heap m' !! a = heap m !! a.

#[export] Instance same_at_preorder a : PreOrder (same_at a).
Proof. unfold same_at. split; [done|]. intros x y z. congruence. Qed.

Lemma get_spec m i :
  mem_ok m ->
  let m' := (pool_get m i).1 in let a := (pool_get m i).2 in
  mem_ok m' /\ mine m' a /\ taken m' = taken m
  /\ (forall b, b ∈ pool m' <-> b ∈ pool m /\ b <> a)
  /\ (forall b, is_Some (heap m !! b) -> same_at b m m')
  /\ (forall b, mine m b -> b <> a).
Proof.
  intros [H1 H2 H3 H4]. unfold pool_get. destruct (pool m !! i) as [a|] eqn:Ei; cbn zeta; cbn [fst snd].
  - pose proof (delete_Permutation _ _ _ Ei) as Hp. pose proof H1 as Hnd. rewrite Hp in Hnd.
    apply NoDup_cons in Hnd as [Hni Hnd].
    assert (forall b, b ∈ pool m <-> b = a \/ b ∈ delete i (pool m)) as Hel.
    { intros b. rewrite <-elem_of_cons. exact (elem_of_Permutation_proper b _ _ Hp). }
    assert (a ∈ pool m) as Hin by (by eapply list_elem_of_lookup_2). destruct (H2 a Hin) as [Hs Ht].
    split; [|split; [by split_and!|]].
    { split; cbn; try done. intros b Hb. apply H2, Hel. by right. }
    split; [done|]. split; [|split; [done|]].
    + intros b. cbn. rewrite Hel. split; [|naive_solver]. intros Hb. split; [by right|]. by intros ->.
    + intros b (_ & Hb & _) ->. done.
  - set (a := fresh (dom (heap m))).
    assert (heap m !! a = None) as Ha by (apply not_elem_of_dom, is_fresh).
    assert (forall b, is_Some (heap m !! b) -> b <> a) as Hne by (intros b [x Hx] ->; congruence).
    assert (forall b, is_Some (heap m !! b) -> same_at b m (m <| heap := <[a := new_buf]> (heap m) |>)) as Hsame.
    { intros b Hb. unfold same_at. cbn. rewrite lookup_insert_ne; [done|]. intros E. by apply (Hne b). }
    split; [split; cbn; try done|split; [split_and!; cbn|split; [done|split; [|split; [done|]]]]].
    + intros b Hb. destruct (H2 b Hb) as [Hs Ht]. specialize (Hsame b Hs). cbv [same_at] in Hsame. cbn in Hsame. by rewrite Hsame.
    + intros b Hb. specialize (H3 b Hb). specialize (Hsame b H3). cbv [same_at] in Hsame. cbn in Hsame. by rewrite Hsame.
    + intros b l [[<- <-]|[_ Hl]]%lookup_insert_Some; [apply length_replicate|by eapply H4].
    + rewrite lookup_insert_eq. by eexists.
    + intros Hin. destruct (H2 a Hin) as [[x Hx] _]. congruence.
    + intros Hin. destruct (H3 a Hin) as [x Hx]. congruence.
    + intros b. cbn. split; [|tauto]. intros Hb. split; [done|]. apply Hne, H2, Hb.
    + intros b (Hb & _). by apply Hne.
Qed.

Lemma write_spec m a data :
  mem_ok m -> (length data <= packet_len)%nat ->
  mem_ok (mem_write m a data) /\ (forall b, mine m b -> mine (mem_write m a data) b)
  /\ (forall b, b <> a -> same_at b m (mem_write m a data)).
Proof.
  intros [H1 H2 H3 H4] Hd.
  assert (forall b, is_Some (heap (mem_write m a data) !! b) <-> is_Some (heap m !! b)) as Hs.
  { intros b. cbn. apply lookup_alter_is_Some. }
  split; [split; try done|split].
  - intros b Hb. rewrite Hs. by apply H2.
  - intros b Hb. rewrite Hs. by apply H3.
  - intros b l. cbn. destruct (decide (b = a)) as [->|Hn].
    + rewrite lookup_alter_eq. destruct (heap m !! a) as [l0|] eqn:E; [|done]. intros [= <-].
      rewrite length_blit; [by eapply H4|lia].
    + rewrite lookup_alter_ne by done. apply H4.
  - intros b (Hb & ? & ?). split; [by apply Hs|done].
  - intros b Hn. unfold same_at. cbn. by rewrite lookup_alter_ne.
Qed.

Lemma put_spec m a : mem_ok m -> mine m a -> mem_ok (pool_put m a).
Proof.
  intros [H1 H2 H3 H4] (Hs & Hp & Ht). split; cbn; try done.
  - apply NoDup_app. split_and!; [done| |apply NoDup_singleton]. by intros b Hb ->%list_elem_of_singleton.
  - intros b [Hb| ->%list_elem_of_singleton]%elem_of_app; [by apply H2|done].
Qed.

(** ** What the others can touch *)

Lemma others_step_ok m m' : mem_ok m -> others_step m m' -> mem_ok m'.
Proof.
  intros Hm Hst. destruct Hst as [m i|m a data Ha Hd|m a Ha].
  - destruct (get_spec m i Hm) as ([H1 H2 H3 H4] & (Hs & Hp & _) & Ht & _ & Hsame & _).
    split; cbn; try done.
    + intros b Hb. destruct (H2 b Hb) as [? Hb']. rewrite Ht in Hb'. split; [done|].
      rewrite elem_of_union, elem_of_singleton. intros [->|?]; done.
    + intros b. rewrite elem_of_union, elem_of_singleton. intros [->|Hb]; [done|].
      rewrite <-Ht in Hb. by apply H3.
  - by apply write_spec.
  - destruct Hm as [H1 H2 H3 H4]. split; cbn; try done.
    + apply NoDup_app. split_and!; [done| |apply NoDup_singleton]. intros b Hb ->%list_elem_of_singleton.
      by destruct (H2 a Hb).
    + intros b [Hb| ->%list_elem_of_singleton]%elem_of_app; [|split; [by apply H3|set_solver]].
      destruct (H2 b Hb). split; [done|set_solver].
    + intros b Hb. apply H3. set_solver.
Qed.

Lemma mine_step m m' a : mem_ok m -> mine m a -> others_step m m' -> mine m' a /\ same_at a m m'.
Proof.
  intros Hm Ha Hst. destruct Hst as [m i|m b data Hb Hd|m b Hb].
  - destruct (get_spec m i Hm) as (_ & _ & Ht & Hp & Hsame & Hne).
    pose proof (Hne a Ha) as Hn. destruct Ha as (Hs & Hpa & Hta). pose proof (Hsame a Hs) as He.
    split; [|exact He]. split_and!; cbn; [by rewrite He| |set_solver]. rewrite Hp. tauto.
  - destruct (write_spec m b data Hm Hd) as (_ & Hmine & Hsame). split; [by apply Hmine|].
    apply Hsame. intros ->. by destruct Ha as (_ & _ & ?).
  - destruct Ha as (Hs & Hp & Ht). split; [|done]. split_and!; cbn; [done| |set_solver].
    rewrite elem_of_app, list_elem_of_singleton. intros [?| ->]; done.
Qed.

Lemma mine_forever m m' a : mem_ok m -> mine m a -> rtc others_step m m' -> same_at a m m'.
Proof.
  intros Hm Ha. induction 1 as [|m m1 m2 Hs _ IH]; [done|].
  destruct (mine_step _ _ _ Hm Ha Hs) as [H1 H2]. etransitivity; [exact H2|].
  apply IH; [by eapply others_step_ok|done].
Qed.

(** Steps after which nobody else holds the buffer [a] *)
Definition leaves (a : nat) (m m' : memory) : Prop := others_step m m' /\ a ∉ taken m'.

Lemma pooled_same m m' a : mem_ok m -> a ∈ pool m -> rtc (leaves a) m m' -> same_at a m m'.
Proof.
  intros Hm Ha Hrun. induction Hrun as [|m m1 m2 [Hs Hl] _ IH]; [done|].
  assert (a ∈ pool m1 /\ same_at a m m1) as [H1 H2].
  { pose proof (mo_pool _ Hm a Ha) as [Hsome Ht]. destruct Hs as [m i|m b data Hb Hd|m b Hb].
    - destruct (get_spec m i Hm) as (_ & _ & _ & Hp & Hsame & _). cbn in *. split; [|by apply Hsame].
      apply Hp. split; [done|]. intros E. apply Hl. set_solver.
    - split; [done|]. destruct (write_spec m b data Hm Hd) as (_ & _ & Hsame). apply Hsame. by intros ->.
    - split; [|done]. cbn. apply elem_of_app. by left. }
  etransitivity; [exact H2|]. apply IH; [by eapply others_step_ok|done].
Qed.

(** A buffer in the pool may be handed out and written. *)
Lemma pooled_overwritten m a data :
  mem_ok m -> a ∈ pool m -> (length data <= packet_len)%nat ->
  exists m', rtc others_step m m' /\ heap m' !! a = (fun l => blit l 0 data) <$> heap m !! a.
Proof.
  intros Hm [i Hi]%list_elem_of_lookup_1 Hd.
  assert (pool_get m i = (m <| pool := delete i (pool m) |>, a)) as Hg by (unfold pool_get; by rewrite Hi).
  eexists. split.
  - eapply rtc_l; [apply (os_get m i)|]. eapply rtc_l; [|apply rtc_refl].
    apply (os_write _ a data); [|done]. rewrite Hg. cbn. set_solver.
  - rewrite Hg. cbn. apply lookup_alter_eq.
Qed.

Lemma resolve_same m m' q : same_at (q_buf q) m m' -> resolve m' q = resolve m q.
Proof. unfold same_at, resolve, bytes_at. by intros ->. Qed.

(** ** The task and the packets as values *)

Definition fits (data : bytes) (p : place) : Prop := (p.1 + p.2 <= length data)%nat.

Section task_lemmas.
Context (unmarshal : bytes -> option rtp_packet) (layout : bytes -> list (Z * place) * place).
(** What [Unmarshal] makes of its input are slices of it. *)
Context (unmarshal_layout : forall data p, unmarshal data = Some p ->
  rp_payload p = sub data (layout data).2.1 (layout data).2.2 /\ fits data (layout data).2
  /\ rp_ext p = map (fun x => (x.1, sub data x.2.1 x.2.2)) (layout data).1
  /\ Forall (fun x => fits data x.2) (layout data).1).
#[local] Abbreviation job_loop := (job_loop unmarshal layout).
#[local] Abbreviation job := (job unmarshal layout).
#[local] Abbreviation run_job := (run_job unmarshal).

Lemma GetPacket_fits b cap sn n data :
  GetPacket b cap sn = Ok (n, data, None) -> len data <= cap.
Proof.
  unfold GetPacket, getPacket. destruct (closed b); [done|]. destruct (bucket b) as [k|]; [|done].
  destruct (get k sn) as [p|]; [|done]. cbn [mbind go_bind mret go_ret].
  destruct (cap <? len (default [] p)) eqn:E; [done|]. destruct p; [|done]. intros [= _ <-]. by bool_prop.
Qed.

Lemma bytes_at_write m a l data p :
  heap m !! a = Some l -> length l = packet_len -> (length data <= packet_len)%nat -> fits data p ->
  bytes_at (mem_write m a data) a p = sub data p.1 p.2.
Proof.
  intros Hl Hlen Hd Hf. unfold bytes_at. cbn. rewrite lookup_alter_eq, Hl. cbn [fmap option_fmap option_map default].
  rewrite <-(Nat.add_0_l p.1) at 1. apply sub_blit_in; [lia|exact Hf].
Qed.

Lemma job_loop_pacer r (d : DownTrack) x metas gets m last :
  job_loop r (d <| d_pacer := x |>) metas gets m last = job_loop r d metas gets m last.
Proof.
  revert gets m last. induction metas as [|meta metas IH]; intros gets m last; [done|]. cbn [Resend.job_loop].
  destruct (pool_get _ _) as [m1 a]. destruct (go_index _ _) as [b|]; [|done]. cbn [mbind go_bind].
  destruct (b ≫= _) as [bu|]; [|done]. destruct (GetPacket _ _ _) as [[[n data] err]|]; [|done]. cbn [mbind go_bind].
  destruct err as [[]|]; by rewrite ?IH.
Qed.

Lemma enqueue_cons (d : DownTrack) p ps :
  enqueue_all (d <| d_pacer := Enqueue (d_pacer d) p |>) ps = enqueue_all d (p :: ps).
Proof. unfold enqueue_all, Enqueue. cbn. by rewrite <-app_assoc. Qed.

Lemma enqueue_nil (d : DownTrack) : enqueue_all d [] = d.
Proof. unfold enqueue_all. destruct d as []. cbn. rewrite app_nil_r. by destruct d_pacer. Qed.


(** What the loop is known to do from memory [m] *)
Record loop_done (m : memory) (r : rcv) (d : DownTrack) (metas : list packetMeta)
    (s : memory * option nat * list queued) : Prop := {
  ld_ok : mem_ok s.1.1;
  ld_last : forall a, s.1.2 = Some a -> mine s.1.1 a;
  ld_same : forall b, mine m b -> mine s.1.1 b /\ same_at b m s.1.1;
  ld_queue : Forall (fun q => mine s.1.1 (q_buf q) /\ ~ mine m (q_buf q)) s.2;
  ld_nodup : NoDup (map q_buf s.2);
  ld_fits : Forall (fun q => (q_payload q).1 + (q_payload q).2 <= packet_len)%nat s.2;
  ld_run : run_job r d metas = Ok (enqueue_all d (map (resolve s.1.1) s.2)) }.

Lemma loop_done_stop m m1 r d metas a :
  mem_ok m1 -> mine m1 a -> (forall b, mine m b -> mine m1 b /\ same_at b m m1) ->
  run_job r d metas = Ok d -> loop_done m r d metas (m1, Some a, []).
Proof.
  intros H1 H2 H3 H4. split; cbn; first [done|by intros b [= <-]|by apply NoDup_nil|by rewrite enqueue_nil].
Qed.

(** One packet more in front *)
Lemma loop_done_trans m m1 r d metas metas0 s :
  (forall b, mine m b -> mine m1 b /\ same_at b m m1) -> run_job r d metas0 = run_job r d metas ->
  loop_done m1 r d metas s -> loop_done m r d metas0 s.
Proof.
  intros Hm Hr [H1 H2 H3 H4 H5 H6 H7]. split; try done.
  - intros b Hb. destruct (Hm b Hb) as [Hb1 He]. destruct (H3 b Hb1) as [? He'].
    split; [done|]. by etransitivity.
  - eapply Forall_impl; [exact H4|]. cbn. intros q [? Hn]. split; [done|]. intros Hq. by apply Hn, Hm.
  - by rewrite Hr.
Qed.

Lemma get_mine m i b :
  mem_ok m -> mine m b -> mine (pool_get m i).1 b /\ same_at b m (pool_get m i).1.
Proof.
  intros Hm Hb. destruct (get_spec m i Hm) as (_ & _ & Ht & Hp & Hsame & _).
  destruct Hb as (Hs & Hpb & Htb). pose proof (Hsame b Hs) as He. split; [|done].
  split_and!; [by rewrite He|rewrite Hp; tauto|by rewrite Ht].
Qed.

(** A packet read into the buffer [a] and queued, and then the rest *)
Lemma loop_done_queue m1 r (d : DownTrack) metas metas0 meta a data p s :
  mem_ok m1 -> mine m1 a -> (length data <= packet_len)%nat -> unmarshal data = Some p ->
  loop_done (mem_write m1 a data) r (d <| d_pacer := Enqueue (d_pacer d) (resent d meta p) |>) metas s ->
  run_job r d metas0 = run_job r (d <| d_pacer := Enqueue (d_pacer d) (resent d meta p) |>) metas ->
  forall m, (forall b, mine m b -> mine m1 b /\ same_at b m m1 /\ b <> a) ->
  loop_done m r d metas0 (s.1, MkQueued (resent d meta p) a (layout data).1 (layout data).2 :: s.2).
Proof.
  intros Hm Ha Hd Hu [H1 H2 H3 H4 H5 H6 H7] Hr m Hmine.
  destruct (write_spec m1 a data Hm Hd) as (_ & Hkeep & Hsame).
  destruct (H3 a (Hkeep a Ha)) as [Ha' Hea].
  destruct (unmarshal_layout data p Hu) as (Hpl & Hfp & Hex & Hfe).
  split; cbn [fst snd]; try done.
  - intros b Hb. destruct (Hmine b Hb) as (Hb1 & He1 & Hn). destruct (H3 b (Hkeep b Hb1)) as [? He2].
    split; [done|]. etransitivity; [exact He1|]. etransitivity; [by apply Hsame|done].
  - constructor.
    + split; [done|]. cbn. intros Hb. by destruct (Hmine a Hb) as (_ & _ & ?).
    + eapply Forall_impl; [exact H4|]. cbn. intros q [? Hn]. split; [done|]. intros Hq.
      apply Hn, Hkeep, Hmine, Hq.
  - cbn [map q_buf]. constructor; [|done]. intros (q & Hq & Hin)%list_elem_of_fmap.
    rewrite Forall_forall in H4. destruct (H4 q Hin) as [_ Hn]. apply Hn. rewrite <-Hq. by apply Hkeep.
  - constructor; [|done]. unfold fits in Hfp. cbn. lia.
  - rewrite Hr, H7, enqueue_cons. cbn [map]. do 3 f_equal.
    destruct Ha as ([l Hl] & _). pose proof (mo_len _ Hm _ _ Hl) as Hlen.
    assert (forall x, fits data x -> bytes_at s.1.1 a x = sub data x.1 x.2) as Hat.
    { intros x Hx. rewrite <-(bytes_at_write m1 a l data x Hl Hlen Hd Hx). unfold bytes_at.
      cbv [same_at] in Hea. by rewrite Hea. }
    unfold resolve. cbn [q_header q_buf q_ext q_payload]. rewrite (Hat _ Hfp), <-Hpl.
    assert (map (fun x => (x.1, bytes_at s.1.1 a x.2)) (layout data).1 = rp_ext p) as ->.
    { rewrite Hex. apply map_ext_in. intros x Hx%list_elem_of_In. rewrite Forall_forall in Hfe.
      by rewrite (Hat _ (Hfe x Hx)). }
    by destruct p.
Qed.

Lemma job_loop_spec r (d : DownTrack) metas gets m last :
  mem_ok m -> (forall a, last = Some a -> mine m a) ->
  match job_loop r d metas gets m last with
  | Ok s => loop_done m r d metas s
  | Panic => run_job r d metas = Panic
  end.
Proof.
  revert d gets m last. induction metas as [|meta metas IH]; intros d gets m last Hm Hlast.
  { cbn. split; cbn; first [done|by apply NoDup_nil|by rewrite enqueue_nil]. }
  cbn [Resend.job_loop Receiver.run_job].
  set (i := default (length (pool m)) (head gets)).
  pose proof (get_spec m i Hm) as (Hm1 & Ha & _ & _ & _ & Hne). pose proof (fun b => get_mine m i b Hm) as Hmine.
  destruct (pool_get m i) as [m1 a]. cbn [fst snd] in *.
  destruct (go_index (buffers (rv r)) (pm_layer meta)) as [b|] eqn:Ei; [|done]. cbn [mbind go_bind].
  destruct (b ≫= _) as [bu|] eqn:Eb; [|apply loop_done_stop; try done; cbn; by rewrite Ei; cbn; rewrite Eb].
  change (Z.of_nat packet_len) with 1460.
  destruct (GetPacket bu 1460 (sourceSeqNo meta)) as [[[n data] err]|] eqn:Eg; [|done]. cbn [mbind go_bind].
  assert (forall x, run_job r x (meta :: metas) = match err with
    | Some EOF => mret x
    | Some _ => run_job r x metas
    | None => match unmarshal data with
              | None => run_job r x metas
              | Some p => run_job r (x <| d_pacer := Enqueue (d_pacer x) (resent x meta p) |>) metas
              end
    end) as Hrun.
  { intros x. cbn [Receiver.run_job]. rewrite Ei. cbn [mbind go_bind]. rewrite Eb, Eg. by destruct err as [[]|]. }
  assert (forall m2, mem_ok m2 -> mine m2 a -> (forall b, mine m1 b -> b <> a -> mine m2 b /\ same_at b m1 m2) ->
    run_job r d (meta :: metas) = run_job r d metas ->
    match job_loop r d metas (tail gets) m2 (Some a) with
    | Ok s => loop_done m r d (meta :: metas) s
    | Panic => run_job r d metas = Panic
    end) as Hskip.
  { intros m2 Hm2 Ha2 Hmine2 Hr. specialize (IH d (tail gets) m2 (Some a) Hm2 ltac:(by intros ? [= <-])).
    destruct (job_loop _ _ _ _ _ _) as [s|]; [|done]. eapply loop_done_trans; [|exact Hr|exact IH].
    intros x Hx. destruct (Hmine x Hx) as [H1 H2]. destruct (Hmine2 x H1 (Hne x Hx)) as [H3 H4].
    split; [done|]. by etransitivity. }
  destruct err as [er|].
  { destruct er; [apply loop_done_stop; try done; by rewrite Hrun|apply Hskip..]; try done; by rewrite Hrun. }
  assert (length data <= packet_len)%nat as Hd.
  { apply GetPacket_fits in Eg. unfold len in Eg. unfold packet_len. lia. }
  destruct (write_spec m1 a data Hm1 Hd) as (Hm2 & Hk2 & Hs2).
  destruct (unmarshal data) as [p|] eqn:Eu.
  2: { apply Hskip; [done|by apply Hk2| |by rewrite Hrun]. intros x Hx Hn. split; [by apply Hk2|by apply Hs2]. }
  specialize (IH (d <| d_pacer := Enqueue (d_pacer d) (resent d meta p) |>) (tail gets) (mem_write m1 a data) (Some a) Hm2).
  rewrite job_loop_pacer in IH. specialize (IH ltac:(intros ? [= <-]; by apply Hk2)).
  destruct (job_loop r d metas _ _ _) as [s|]; [|done]. cbn [mbind go_bind mret go_ret].
  eapply (loop_done_queue m1); try done.
  intros x Hx. destruct (Hmine x Hx) as [H1 H2]. split_and!; [done..|by apply Hne].
Qed.

(** What becomes of a packet in the queue: the buffer that the task did not
    put back nobody else can write; the one in the pool may be handed out. *)
Definition lives (m : memory) (last : option nat) (q : queued) : Prop :=
  (Some (q_buf q) <> last -> forall m2, rtc others_step m m2 -> resolve m2 q = resolve m q)
  /\ (Some (q_buf q) = last ->
       (forall m2, rtc (leaves (q_buf q)) m m2 -> resolve m2 q = resolve m q)
       /\ forall data, fits data (q_payload q) -> (length data <= packet_len)%nat ->
            exists m2, rtc others_step m m2
              /\ rp_payload (resolve m2 q) = sub data (q_payload q).1 (q_payload q).2).

Lemma job_spec r (d : DownTrack) metas gets m :
  mem_ok m ->
  match job r d metas gets m with
  | Ok (m', last, qs) =>
      run_job r d metas = Ok (enqueue_all d (map (resolve m') qs))
      /\ NoDup (map q_buf qs) /\ Forall (lives m' last) qs
  | Panic => run_job r d metas = Panic
  end.
Proof.
  intros Hm. unfold Resend.job. pose proof (job_loop_spec r d metas gets m None Hm ltac:(done)) as H.
  destruct (job_loop r d metas gets m None) as [[[m1 last] qs]|]; [|done]. cbn [mbind go_bind mret go_ret fst snd].
  destruct H as [H1 H2 _ H4 H5 H6 H7]. cbn [fst snd] in *.
  set (m' := match last with Some a => pool_put m1 a | None => m1 end).
  assert (forall q, resolve m' q = resolve m1 q) as Hres.
  { intros q. apply resolve_same. subst m'. by destruct last. }
  assert (mem_ok m') as Hm'.
  { subst m'. destruct last as [a|]; [|done]. apply put_spec; [done|by apply H2]. }
  split; [|split; [done|]].
  { rewrite H7. do 2 f_equal. apply map_ext. intros q. by rewrite Hres. }
  apply Forall_forall. intros q Hq. rewrite Forall_forall in H4, H6.
  destruct (H4 q Hq) as [Hmine _]. pose proof (H6 q Hq) as Hfit. split.
  - intros Hn m2 Hrun. apply resolve_same. eapply mine_forever; [exact Hm'| |exact Hrun].
    subst m'. destruct last as [a|]; [|done]. destruct Hmine as (? & Hp & ?). split_and!; [done| |done].
    cbn. rewrite elem_of_app, list_elem_of_singleton. intros [?|E]; [done|]. by rewrite E in Hn.
  - intros Hl. assert (q_buf q ∈ pool m') as Hin.
    { subst m'. rewrite <-Hl. cbn. apply elem_of_app. right. by apply list_elem_of_singleton. }
    split.
    + intros m2 Hrun. apply resolve_same. by eapply pooled_same.
    + intros data Hf Hd. destruct (pooled_overwritten m' _ data Hm' Hin Hd) as (m2 & Hrun & Hh).
      exists m2. split; [done|]. destruct (mo_pool _ Hm' _ Hin) as [[l Hl'] _].
      unfold resolve. cbn [rp_payload]. unfold bytes_at. rewrite Hh, Hl'. cbn [fmap option_fmap option_map default].
      pose proof (mo_len _ Hm' _ _ Hl'). rewrite <-(Nat.add_0_l (q_payload q).1) at 1. apply sub_blit_in; [lia|exact Hf].
Qed.

(** ** Properties *)

(** C31. The memory of the packets that a task sends again: whatever the pool
    hands out, the packets that lie in memory when the task is done are those
    it was asked for, each in a buffer of its own; all but the last stay what
    they are until they are sent, whatever other goroutines do; the last one
    stays what it is until somebody else is handed its buffer, which the task
    has put back into the pool, and then it may become any other packet that
    is written there. *)
Theorem resend_memory r (d : DownTrack) metas gets m :
  mem_ok m ->
  match job r d metas gets m with
  | Ok (m', last, qs) =>
      run_job r d metas = Ok (enqueue_all d (map (resolve m') qs))
      /\ NoDup (map q_buf qs)
      /\ forall q, q ∈ qs ->
           (Some (q_buf q) <> last -> forall m2, rtc others_step m' m2 -> resolve m2 q = resolve m' q)
           /\ (Some (q_buf q) = last ->
                (forall m2, rtc (leaves (q_buf q)) m' m2 -> resolve m2 q = resolve m' q)
                /\ forall data, fits data (q_payload q) -> (length data <= packet_len)%nat ->
                     exists m2, rtc others_step m' m2
                       /\ rp_payload (resolve m2 q) = sub data (q_payload q).1 (q_payload q).2)
  | Panic => run_job r d metas = Panic
  end.
Proof.
  intros Hm. pose proof (job_spec r d metas gets m Hm) as H.
  destruct (job r d metas gets m) as [[[m' last] qs]|]; [|done]. destruct H as (H1 & H2 & H3).
  split_and!; [done..|]. rewrite Forall_forall in H3. exact H3.
Qed.

End task_lemmas.

(** ** The audio track of [Receiver] *)

Definition ex_layout (l : bytes) : list (Z * place) * place := ([], (12%nat, (length l - 12)%nat)).

Lemma ex_layout_ok data p :
  ex_unmarshal (Some data) = Some p ->
  rp_payload p = sub data (ex_layout data).2.1 (ex_layout data).2.2 /\ fits data (ex_layout data).2
  /\ rp_ext p = map (fun x => (x.1, sub data x.2.1 x.2.2)) (ex_layout data).1
  /\ Forall (fun x => fits data x.2) (ex_layout data).1.
Proof.
  do 12 (destruct data as [|? data]; [done|]). cbn [ex_unmarshal]. intros [= <-].
  unfold ex_layout, fits, sub. cbn [fst snd rp_payload rp_ext map length].
  split_and!; [cbn; by rewrite drop_0, Nat.sub_0_r, firstn_all|lia|done|constructor].
Qed.

Definition ex_memory : memory := MkMem ∅ [] ∅.

Lemma ex_memory_ok : mem_ok ex_memory.
Proof. by split; [apply NoDup_nil|intros a ?%elem_of_nil|intros a ?%not_elem_of_empty|]. Qed.


(** Packets 5 and 6 sent again *)
Definition ex_two : rcv := ex_recv <| rv_bufs := [ex_buffer [(5, 0); (6, 0)]] |>.
Definition ex_metas : list packetMeta := [PacketMeta 5 3 4800 0 0; PacketMeta 6 4 5760 0 0].

Lemma resend_memory_witness :
  exists m' a q1 q2,
    job (fun b => ex_unmarshal (Some b)) ex_layout ex_two ex_sender ex_metas [] ex_memory
      = Ok (m', Some a, [q1; q2])
    /\ q_buf q1 <> a /\ q_buf q2 = a
    /\ (forall m2, rtc others_step m' m2 -> resolve m2 q1 = resolve m' q1)
    /\ exists m2, rtc others_step m' m2 /\ rp_payload (resolve m2 q2) = [7; 7; 7].
Proof.
  pose proof (resend_memory (fun b => ex_unmarshal (Some b)) ex_layout ex_layout_ok ex_two ex_sender
    ex_metas [] ex_memory ex_memory_ok) as H.
  destruct (job _ _ ex_two ex_sender ex_metas [] ex_memory) as [[[m' last] qs]|] eqn:E.
  2: { exfalso. assert (is_ok (job (fun b => ex_unmarshal (Some b)) ex_layout ex_two ex_sender ex_metas [] ex_memory)
         = true) as Hk by (vm_compute; reflexivity). by rewrite E in Hk. }
  assert (Some (last, map q_buf qs, map q_payload qs)
    = Some (Some 1%nat, [0%nat; 1%nat], [(12%nat, 3%nat); (12%nat, 3%nat)])) as Hq.
  { assert (match job (fun b => ex_unmarshal (Some b)) ex_layout ex_two ex_sender ex_metas [] ex_memory with
      | Ok (m', last, qs) => Some (last, map q_buf qs, map q_payload qs) | Panic => None end
      = Some (Some 1%nat, [0%nat; 1%nat], [(12%nat, 3%nat); (12%nat, 3%nat)])) as Hk by (vm_compute; reflexivity).
    by rewrite E in Hk. }
  clear E. destruct H as (_ & _ & H). destruct qs as [|q1 [|q2 [|]]]; try discriminate Hq.
  injection Hq as -> Hb1 Hb2 Hp1 Hp2. exists m', 1%nat, q1, q2. split; [reflexivity|].
  destruct (H q1) as [Ha _]; [by left|]. destruct (H q2) as [_ Hb]; [by right; left|].
  rewrite Hb1 in Ha. rewrite Hb2, Hp2 in Hb. destruct (Hb eq_refl) as [_ Hc].
  split; [rewrite Hb1; discriminate|]. split; [exact Hb2|]. split; [exact (Ha ltac:(discriminate))|].
  destruct (Hc (replicate 12 0 ++ [7; 7; 7])) as (m2 & Hrun & Hpl); [unfold fits; cbn; lia|unfold packet_len; cbn; lia|].
  exists m2. split; [exact Hrun|exact Hpl].
Defined.
