(* ===== verification/Layers.v ===== *)
(** * Down tracks and the layers they hang on

    The receiver and its down tracks together ([receiver.go] with
    [downtrack.go]): which layers' lists a down track is in while it waits
    for its first key frame, forwards a layer, or switches to another one,
    under every interleaving of packets, RTCP and new tracks.  A goroutine
    that holds the lock of a layer may not lock it again. *)

From stdpp Require Import gmap.
From S2P Require Import Prelude GoNum GoSlice GoFloat Nack Sequencer Rtp Buffer Factory Pacer SfuHelper DownTrack Receiver.
#[local] Open Scope Z_scope.

(** ** The lists of the layers *)

Definition lay (r : rcv) (k : Z) : list dt_ref :=
  default [] (default None (downTracks (rv r) !! Z.to_nat k)).

(** Three layers, and what the lists do not depend on *)
Definition three (r : rcv) : Prop :=
  length (downTracks (rv r)) = 3%nat /\ length (buffers (rv r)) = 3%nat.

Definition same_lists (r r' : rcv) : Prop :=
  downTracks (rv r') = downTracks (rv r) /\ upTracks (rv r') = upTracks (rv r)
  /\ isSimulcast (rv r') = isSimulcast (rv r) /\ buffers (rv r') = buffers (rv r)
  /\ held r' = held r.

#[export] Instance same_lists_equiv : Equivalence same_lists.
Proof.
  unfold same_lists. split.
  - intros r. done.
  - intros r r' (-> & -> & -> & -> & ->). done.
  - intros r1 r2 r3 (-> & -> & -> & -> & ->) (-> & -> & -> & -> & ->). done.
Qed.

#[export] Instance lay_proper : Proper (same_lists ==> eq ==> eq) lay.
Proof. intros r r' (Hd & _) k ? <-. unfold lay. by rewrite Hd. Qed.

#[export] Instance three_proper : Proper (same_lists ==> iff) three.
Proof. intros r r' (Hd & _ & _ & Hb & _). unfold three. by rewrite Hd, Hb. Qed.

Lemma lock_layer_ok r k :
  three r -> 0 <= k < 3 -> held r <> Some k ->
  lock_layer r k = Ok (default None (downTracks (rv r) !! Z.to_nat k)).
Proof.
  intros H3 Hk Hh. unfold lock_layer. rewrite bool_decide_false by done.
  destruct (go_index_ok (downTracks (rv r)) k) as (x & -> & ->); [|done].
  unfold len. rewrite (proj1 H3). lia.
Qed.

Lemma lay_set_eq r k l : three r -> 0 <= k < 3 -> lay (set_layer r k (Some l)) k = l.
Proof.
  intros H3 Hk. unfold lay. cbn.
  rewrite list_lookup_insert_eq; [done|]. destruct H3 as [H3 _]. lia.
Qed.

Lemma lay_set_ne r k k' l :
  0 <= k -> 0 <= k' -> k <> k' -> lay (set_layer r k (Some l)) k' = lay r k'.
Proof. intros. unfold lay. cbn. rewrite list_lookup_insert_ne; [done|lia]. Qed.

Lemma three_set r k l : three r -> three (set_layer r k l).
Proof. unfold three. cbn. by rewrite length_insert. Qed.


(** Taking a track out of a layer *)
Lemma swap_remove_Permutation {A} (l : list A) idx x :
  l !! idx = Some x -> l ≡ₚ x :: swap_remove l idx.
Proof.
  intros Hx. destruct l as [|y l' _] using rev_ind; [done|].
  unfold swap_remove. rewrite last_snoc, length_app. cbn [length].
  replace (length l' + 1 - 1)%nat with (length l') by lia.
  destruct (decide (idx < length l')%nat) as [Hi|Hi].
  - rewrite lookup_app_l in Hx by done. rewrite insert_app_l by done.
    rewrite take_app_length' by (by rewrite length_insert).
    rewrite insert_take_drop by done. rewrite <-(take_drop_middle l' idx x Hx) at 1.
    rewrite <-app_assoc. cbn [app]. rewrite <-Permutation_middle. constructor.
    apply Permutation_app_head. by rewrite Permutation_app_comm.
  - assert (idx = length l') as ->.
    { apply lookup_lt_Some in Hx. rewrite length_app in Hx. cbn in Hx. lia. }
    rewrite lookup_app_r, Nat.sub_diag in Hx by lia. injection Hx as ->.
    rewrite insert_app_r_alt, Nat.sub_diag by lia. cbn.
    rewrite take_app_length. by rewrite Permutation_app_comm.
Qed.

(** What one list becomes; the others stay. *)
Record relist (r r' : rcv) (k : Z) (l : list dt_ref) : Prop := {
  rl_at : lay r' k = l;
  rl_other : forall k', 0 <= k' -> k' <> k -> lay r' k' = lay r k';
  rl_up : upTracks (rv r') = upTracks (rv r);
  rl_none : forall k', downTracks (rv r') !! k' = Some None <-> downTracks (rv r) !! k' = Some None;
  rl_three : three r';
  rl_sim : isSimulcast (rv r') = isSimulcast (rv r);
  rl_held : held r' = held r }.

Lemma set_layer_relist r k l :
  three r -> 0 <= k < 3 -> (exists l', downTracks (rv r) !! Z.to_nat k = Some (Some l')) ->
  relist r (set_layer r k (Some l)) k l.
Proof.
  intros H3 Hk [l' Hl]. split; try done.
  - by apply lay_set_eq.
  - intros k' ? ?. apply lay_set_ne; lia.
  - intros k'. cbn. rewrite list_lookup_insert.
    case_decide as Hd; [|done]. destruct Hd as [<- _]. rewrite Hl. naive_solver.
  - by apply three_set.
Qed.

Lemma delete_relist r k dt :
  three r -> 0 <= k < 3 -> held r <> Some k -> dt ∈ lay r k -> NoDup (map dt_peer (lay r k)) ->
  exists r' l, w_DeleteDownTrack r k (dt_peer dt) = Ok r' /\ relist r r' k l
    /\ lay r k ≡ₚ dt :: l.
Proof.
  intros H3 Hk Hh Hin Hnd. unfold w_DeleteDownTrack.
  rewrite lock_layer_ok by done. cbn [mbind go_bind].
  change (default [] (default None (downTracks (rv r) !! Z.to_nat k))) with (lay r k).
  destruct (list_find (fun d => dt_peer d = dt_peer dt) (lay r k)) as [[i x]|] eqn:E.
  - apply list_find_Some in E as (Hi & Hp & _).
    assert (x = dt) as ->.
    { apply list_elem_of_lookup in Hin as [j Hj].
      assert (i = j) as <-; [|congruence].
      apply (proj1 (NoDup_alt _) Hnd i j (dt_peer dt)); rewrite list_lookup_fmap.
      - by rewrite Hi, <-Hp.
      - by rewrite Hj. }
    eexists _, _. split; [reflexivity|]. split; [|by apply swap_remove_Permutation].
    apply set_layer_relist; [done|done|].
    unfold lay in Hin. destruct (downTracks (rv r) !! Z.to_nat k) as [[l'|]|];
      [by exists l'|by apply elem_of_nil in Hin..].
  - apply list_find_None in E. rewrite Forall_forall in E. by destruct (E dt Hin).
Qed.

(** ** Phases of a down track

    [Waiting l]: hung on layer [l], nothing sent; [Settled l]: forwarding
    layer [l]; [Switching l t]: forwarding layer [l] until a key frame of
    layer [t] arrives. *)
Inductive dt_phase := Waiting (l : Z) | Settled (l : Z) | Switching (l t : Z).

(** The layers whose lists the track is in *)
Definition members (ph : dt_phase) : list Z :=
  match ph with Waiting l | Settled l => [l] | Switching l t => [l; t] end.

Definition is_layer (l : Z) : Prop := l = 0 \/ l = 1 \/ l = 2.

Section phases.
(** The SSRCs of the publisher's layers *)
Context (ssrc : Z -> Z).

Definition phase_ok (ph : dt_phase) (d : DownTrack) : Prop :=
  match ph with
  | Waiting l => is_layer l /\ reSync d = enabled d
      /\ spatialLayer d = Z.shiftl l 16 + l /\ lastSSRC d = 0
  | Settled l => is_layer l /\ enabled d = true
      /\ layer_state d = (l, SimulcastDownTrack, ssrc l, false)
  | Switching l t => is_layer l /\ is_layer t /\ l <> t /\ enabled d = true
      /\ layer_state d = (Z.shiftl t 16 + l, SimulcastDownTrack, ssrc l, false)
  end.

(** What forwarding a packet does not change *)
Definition same_track (d d' : DownTrack) : Prop :=
  d_ref d' = d_ref d /\ d_trackType d' = d_trackType d /\ enabled d' = enabled d
  /\ d_bound d' = d_bound d /\ (dt_wf d -> dt_wf d').

#[export] Instance same_track_preorder : PreOrder same_track.
Proof.
  unfold same_track. split; [by intros d|].
  intros d1 d2 d3 (H1 & H2 & H3 & H4 & H5) (H6 & H7 & H8 & H9 & H10).
  split_and!; [congruence..|auto].
Qed.

Lemma is_layer_range l : is_layer l -> 0 <= l < 3.
Proof. unfold is_layer. lia. Qed.

Lemma layer_halves t l d :
  is_layer l -> is_layer t -> spatialLayer d = Z.shiftl t 16 + l ->
  current_layer d = l /\ target_layer d = t.
Proof.
  unfold is_layer, current_layer, target_layer. intros Hl Ht ->.
  destruct Hl as [->|[->| ->]], Ht as [->|[->| ->]]; split; reflexivity.
Qed.

Lemma layer_lor t l : is_layer l -> is_layer t ->
  Z.lor (i32 (Z.shiftl t 16)) (i32 l) = Z.shiftl t 16 + l.
Proof. unfold is_layer. intros [->|[->| ->]] [->|[->| ->]]; reflexivity. Qed.

Lemma simulcast_send_total (d : DownTrack) (r : rcv) e now :
  dt_wf d ->
  exists d', simulcast_send d r e now = Ok (d', r) /\ same_track d d'
    /\ layer_state d' = layer_state (d <| lastSSRC := rp_ssrc (Packet e) |>)
    /\ len (packets (d_pacer d')) = len (packets (d_pacer d)) + 1.
Proof.
  intros Hwf. destruct (simulcast_send d r e now) as [[d' r']|] eqn:E.
  - pose proof (simulcast_send_layer _ _ _ _ _ _ E) as Hls.
    unfold simulcast_send in E.
    match goal with H : context [record_sent ?x _ _ _ _ _] |- _ => set (d0 := x) in H end.
    assert (same_track d d0 /\ d_pacer d0 = d_pacer d) as [H0 Hp0]
      by (subst d0; split; repeat case_match; try reflexivity; by split_and!).
    clearbody d0.
    edestruct (record_sent_ok d0 (Packet e)) as (s' & Hrec & Hs').
    { destruct H0 as (_ & _ & _ & _ & Hw). by apply Hw. }
    rewrite Hrec in E. cbn [mbind go_bind mret go_ret] in E. injection E as <- <-.
    eexists. split; [reflexivity|]. split; [|split; [exact Hls|]].
    + etransitivity; [exact H0|]. destruct d0, (Head e); split_and!; try reflexivity; intros _; exact Hs'.
    + rewrite <-Hp0. destruct d0, (Head e); cbn; unfold Enqueue; cbn; by rewrite len_app.
  - exfalso. unfold simulcast_send in E.
    match goal with H : context [record_sent ?x _ _ _ _ _] |- _ => set (d0 := x) in H end.
    assert (dt_wf d0) as H0 by (subst d0; repeat case_match; exact Hwf).
    clearbody d0. edestruct (record_sent_ok d0 (Packet e)) as (s' & Hrec & Hs'); [exact H0|].
    by rewrite Hrec in E.
Qed.
End phases.

Lemma but_same r r' : but_rtcp r r' -> same_lists r r'.
Proof. intros [(last & ch & ->) _]. done. Qed.

(** A request for a key frame, by a track of a packet that goes through *)
Lemma ask_same (d : DownTrack) (r : rcv) p now :
  goes r now (ask_keyframe d r p now) -> exists r1, ask_keyframe d r p now = Ok r1 /\ same_lists r r1.
Proof.
  unfold ask_keyframe. change (@SendRTCP rcv webrtc_receiver) with w_SendRTCP.
  intros [H|H]; [|destruct (send_pli_goes r now (d_ssrc d) (rp_ssrc p) [] H) as (r1 & Hr1 & _); rewrite Hr1 in *];
    (destruct (w_SendRTCP _ _ _) as [r2|] eqn:E; [|done]); exists r2; (split; [done|]);
    apply but_same; by eapply send_rtcp_but.
Qed.

Lemma settle_phase ssrc (d : DownTrack) d' k :
  is_layer k -> enabled d = true -> d_trackType d = SimulcastDownTrack -> same_track d d' ->
  layer_state d' = (k, d_trackType d, ssrc k, false) ->
  phase_ok ssrc (Settled k) d'.
Proof.
  intros Hk He Ht (_ & _ & He' & _) Hl. split_and!; [done|congruence|]. by rewrite Hl, Ht.
Qed.

(** The track after a packet does not depend on the receiver. *)
Lemma simulcast_send_indep (d d1 d2 : DownTrack) (r1 r2 : rcv) e now :
  simulcast_send d r2 e now = Ok (d2, r2) -> simulcast_send d r1 e now = Ok (d1, r1) -> d2 = d1.
Proof.
  unfold simulcast_send. destruct (record_sent _ _ _ _ _ _); [|done].
  cbn [mbind go_bind mret go_ret]. by intros [<- _]%ok_pair_inj [<- _]%ok_pair_inj.
Qed.

Section write.
Context (ssrc : Z -> Z)
  (ssrc_inj : forall k l, is_layer k -> is_layer l -> ssrc k = ssrc l -> k = l).

(** A packet offered to a track waiting for its first key frame *)
Lemma write_waiting l d (r : rcv) e now :
  dt_wf d -> d_trackType d = SimulcastDownTrack -> enabled d = true ->
  phase_ok ssrc (Waiting l) d -> rp_ssrc (Packet e) = ssrc l -> goes r now (writeSimulcastRTP d r e now) ->
  exists d' r1 ph', writeSimulcastRTP d r e now = Ok (d', r1) /\ same_track d d'
    /\ phase_ok ssrc ph' d' /\ members ph' = [l] /\ same_lists r r1.
Proof.
  intros Hwf Hty Hen (Hl & Hre & Hsp & Hls) He Hg. rewrite Hen in Hre.
  destruct (layer_halves l l d Hl Hl Hsp) as [Hc Ht].
  revert Hg. unfold writeSimulcastRTP. rewrite Hls, Hre, Hc, Ht, Z.eqb_refl. rewrite orb_true_r, andb_false_r.
  set (d1 := if (true && negb (lastTSCalc d =? 0))%bool then d <| lastTSCalc := Arrival e |> else d).
  assert (same_track d d1 /\ layer_state d1 = layer_state d) as [H1 Hls1]
    by (subst d1; destruct (_ && _)%bool; by split_and!).
  clearbody d1. destruct (KeyFrame e); cbn [negb]; intros Hg.
  - cbn [mbind go_bind mret go_ret].
    destruct (simulcast_send_total
      (d1 <| spatialLayer := Z.lor (i32 l) (i32 l) |> <| reSync := false |>) r e now)
      as (d' & Hs & Hsame & Hls' & _).
    { by apply H1. }
    exists d', r, (Settled l). split_and!; [exact Hs|..|reflexivity|reflexivity].
    + etransitivity; [exact H1|exact Hsame].
    + apply settle_phase with (d := d); [done..|etransitivity; [exact H1|exact Hsame]|].
      rewrite Hls', He. unfold layer_state. cbn. destruct H1 as (_ & -> & _).
      repeat f_equal. destruct Hl as [->|[->| ->]]; reflexivity.
  - apply goes_head in Hg. destruct (ask_same d1 r (Packet e) now Hg) as (r1 & Hr1 & Hsame). rewrite Hr1.
    cbn [mbind go_bind mret go_ret].
    exists d1, r1, (Waiting l). split_and!; [done|exact H1| |reflexivity|done].
    apply layer_state_inv in Hls1 as (Hs1 & _ & Hl1 & Hr).
    destruct H1 as (_ & _ & He1 & _). split_and!; [done|congruence..].
Qed.

(** The first packets of the target layer *)
Lemma write_switching l k d (r : rcv) e now :
  dt_wf d -> phase_ok ssrc (Switching l k) d -> rp_ssrc (Packet e) = ssrc k ->
  goes r now (writeSimulcastRTP d r e now) ->
  (exists r1, writeSimulcastRTP d r e now = Ok (d, r1) /\ same_lists r r1)
  \/ (exists d', same_track d d' /\ phase_ok ssrc (Settled k) d'
       /\ writeSimulcastRTP d r e now
          = (r1 ← w_DeleteDownTrack r l (dt_peer (d_ref d)); mret (d', r1))).
Proof.
  intros Hwf (Hl & Hk & Hne & Hen & Hst) He Hg. pose proof Hst as [= Hsp Hty Hls Hre].
  destruct (layer_halves k l d Hl Hk Hsp) as [Hc Ht].
  assert (lastSSRC d =? rp_ssrc (Packet e) = false) as Hss.
  { apply Z.eqb_neq. rewrite Hls, He. intros E. by apply Hne, ssrc_inj. }
  assert (l =? k = false) as Hlk by (by apply Z.eqb_neq).
  revert Hg. unfold writeSimulcastRTP. rewrite Hss, Hre, Hc, Ht, Hlk. cbn [negb orb andb].
  destruct (KeyFrame e); cbn [negb]; intros Hg.
  - right.
    destruct (simulcast_send_total
      (d <| spatialLayer := Z.lor (i32 k) (i32 k) |> <| reSync := false |>) r e now)
      as (d' & Hs & Hsame & Hls' & _); [exact Hwf|].
    exists d'. split; [exact Hsame|]. split.
    + apply settle_phase with (d := d); [done..|].
      rewrite Hls', He. unfold layer_state. cbn. repeat f_equal.
      destruct Hk as [->|[->| ->]]; reflexivity.
    + change (@DeleteDownTrack rcv webrtc_receiver) with w_DeleteDownTrack.
      destruct (w_DeleteDownTrack r l (dt_peer (d_ref d))) as [r1|]; [|done].
      cbn [mbind go_bind mret go_ret].
      destruct (simulcast_send_total
        (d <| spatialLayer := Z.lor (i32 k) (i32 k) |> <| reSync := false |>) r1 e now)
        as (d'' & Hs' & _); [exact Hwf|]. rewrite Hs'.
      apply simulcast_send_indep with (r1 := r) (d1 := d') in Hs'; [by subst|done].
  - left. apply goes_head in Hg. destruct (ask_same d r (Packet e) now Hg) as (r1 & Hr1 & Hsame). rewrite Hr1.
    by exists r1.
Qed.
End write.

(** ** The invariant

    [rinv h r ds]: the goroutine holds the lock [h]; every down track of
    [ds] is in the lists its phase says, once in each, and in no other; no
    list names another track. *)
Section invariant.
Context (ssrc : Z -> Z)
  (ssrc_inj : forall k l, is_layer k -> is_layer l -> ssrc k = ssrc l -> k = l).

Definition hung (r : rcv) (ref : dt_ref) (ph : dt_phase) : Prop :=
  forall k, is_layer k -> (ref ∈ lay r k <-> k ∈ members ph).

Record track_ok (r : rcv) (a : nat) (d : DownTrack) : Prop := {
  tk_addr : dt_addr (d_ref d) = a;
  tk_wf : dt_wf d;
  tk_type : d_trackType d = SimulcastDownTrack;
  tk_phase : exists ph, phase_ok ssrc ph d /\ hung r (d_ref d) ph }.

Record rinv (h : option Z) (r : rcv) (ds : tracks) : Prop := {
  ri_held : held r = h;
  ri_three : three r;
  ri_sim : isSimulcast (rv r) = true;
  ri_uplen : length (upTracks (rv r)) = 3%nat;
  ri_up : forall k : nat, downTracks (rv r) !! k = Some None <-> upTracks (rv r) !! k = Some None;
  ri_track : forall a d, ds !! a = Some d -> track_ok r a d;
  ri_mem : forall k dt, is_layer k -> dt ∈ lay r k ->
    exists d, ds !! dt_addr dt = Some d /\ d_ref d = dt;
  ri_peer : forall a b d e, ds !! a = Some d -> ds !! b = Some e ->
    dt_peer (d_ref d) = dt_peer (d_ref e) -> a = b;
  ri_nodup : forall k, is_layer k -> NoDup (lay r k) }.

(** What changes of the lists and what may not *)
Record reshaped (r r' : rcv) : Prop := {
  rs_three : three r';
  rs_sim : isSimulcast (rv r') = isSimulcast (rv r);
  rs_up : upTracks (rv r') = upTracks (rv r);
  rs_none : forall k : nat, downTracks (rv r') !! k = Some None <-> downTracks (rv r) !! k = Some None;
  rs_held : held r' = held r }.

Lemma same_reshaped r r' : three r -> same_lists r r' -> reshaped r r'.
Proof. intros H3 Hs. split; try apply Hs; [by rewrite <-Hs|]. by rewrite (proj1 Hs). Qed.

Lemma relist_reshaped r r' k l : relist r r' k l -> reshaped r r'.
Proof. intros []. by split. Qed.

Lemma rinv_update_track h r r' ds a d d' ph' :
  rinv h r ds -> ds !! a = Some d ->
  d_ref d' = d_ref d -> d_trackType d' = d_trackType d -> (dt_wf d -> dt_wf d') ->
  phase_ok ssrc ph' d' -> reshaped r r' ->
  (forall k dt, is_layer k -> dt ∈ lay r' k <->
     (dt <> d_ref d /\ dt ∈ lay r k) \/ (dt = d_ref d /\ k ∈ members ph')) ->
  (forall k, is_layer k -> NoDup (lay r' k)) ->
  rinv h r' (<[a := d']> ds).
Proof.
  intros Hr Ha Href Hty Hwf Hph Hs Hm Hnd. pose proof (ri_track _ _ _ Hr _ _ Ha) as Hd.
  split.
  - rewrite (rs_held _ _ Hs). apply Hr.
  - apply Hs.
  - rewrite (rs_sim _ _ Hs). apply Hr.
  - rewrite (rs_up _ _ Hs). apply Hr.
  - intros k. rewrite (rs_none _ _ Hs), (rs_up _ _ Hs). apply Hr.
  - intros b e [[<- <-]|[Hne He]]%lookup_insert_Some.
    + split; [by rewrite Href, (tk_addr _ _ _ Hd)|apply Hwf, Hd|rewrite Hty; apply Hd|].
      exists ph'. split; [done|]. intros k Hk. rewrite Href, Hm by done. tauto.
    + destruct (ri_track _ _ _ Hr _ _ He) as [H1 H2 H3 (ph & Hp & Hh)].
      split; [done..|]. exists ph. split; [done|]. intros k Hk. rewrite Hm, <-(Hh k Hk) by done.
      assert (d_ref e <> d_ref d); [|tauto]. intros E. apply Hne.
      by rewrite <-(tk_addr _ _ _ Hd), <-H1, E.
  - intros k dt Hk. rewrite Hm by done. intros [[Hne Hin]|[-> _]].
    + destruct (ri_mem _ _ _ Hr k dt Hk Hin) as (e & He & Hre).
      destruct (decide (dt_addr dt = a)) as [<-|Hn]; [congruence|].
      exists e. by rewrite lookup_insert_ne by done.
    + exists d'. rewrite (tk_addr _ _ _ Hd), lookup_insert_eq. done.
  - assert (forall b e, <[a:=d']> ds !! b = Some e ->
      exists e0, ds !! b = Some e0 /\ d_ref e0 = d_ref e) as Hold.
    { intros b e [[<- <-]|[_ He]]%lookup_insert_Some; [exists d|exists e]; done. }
    intros b c e f (e0 & He & <-)%Hold (f0 & Hf & <-)%Hold. by apply (ri_peer _ _ _ Hr).
  - done.
Qed.

Lemma rinv_update h r r' ds a d d' ph' :
  rinv h r ds -> ds !! a = Some d -> same_track d d' -> phase_ok ssrc ph' d' ->
  reshaped r r' ->
  (forall k dt, is_layer k -> dt ∈ lay r' k <->
     (dt <> d_ref d /\ dt ∈ lay r k) \/ (dt = d_ref d /\ k ∈ members ph')) ->
  (forall k, is_layer k -> NoDup (lay r' k)) ->
  rinv h r' (<[a := d']> ds).
Proof.
  intros Hr Ha (Href & Hty & _ & _ & Hwf). by apply rinv_update_track.
Qed.

(** A track whose lists stay *)
Lemma rinv_same h r r' ds a d d' ph ph' :
  rinv h r ds -> ds !! a = Some d -> same_track d d' -> phase_ok ssrc ph' d' ->
  hung r (d_ref d) ph -> members ph' = members ph -> same_lists r r' ->
  rinv h r' (<[a := d']> ds).
Proof.
  intros Hr Ha Hd Hph Hh Hm Hs. eapply rinv_update; try done.
  - by apply same_reshaped; [apply Hr|].
  - intros k dt Hk. rewrite <-Hs, Hm, <-(Hh k Hk).
    destruct (decide (dt = d_ref d)) as [->|]; naive_solver.
  - intros k Hk. rewrite <-Hs. by apply Hr.
Qed.

Lemma lay_peers h r ds k : rinv h r ds -> is_layer k -> NoDup (map dt_peer (lay r k)).
Proof.
  intros Hr Hk. apply NoDup_alt. intros i j p Hi Hj.
  rewrite list_lookup_fmap in Hi, Hj.
  destruct (lay r k !! i) as [x|] eqn:Ex; [|done]. destruct (lay r k !! j) as [y|] eqn:Ey; [|done].
  injection Hi as <-. injection Hj as Hp.
  destruct (ri_mem _ _ _ Hr k x Hk) as (d & Hd & Hdx); [by eapply list_elem_of_lookup_2|].
  destruct (ri_mem _ _ _ Hr k y Hk) as (e & He & Hey); [by eapply list_elem_of_lookup_2|].
  apply (proj1 (NoDup_alt _) (ri_nodup _ _ _ Hr k Hk) i j x); [done|]. rewrite Ey. f_equal.
  assert (dt_addr y = dt_addr x) as Ha by (eapply (ri_peer _ _ _ Hr); [done..|congruence]).
  rewrite Ha in He. congruence.
Qed.

(** ** Packets *)

Lemma elem_lay_split r r' k l dt :
  relist r r' k l -> is_layer k -> NoDup (lay r k) -> lay r k ≡ₚ dt :: l ->
  forall x, x ∈ lay r' k <-> x <> dt /\ x ∈ lay r k.
Proof.
  intros Hrl Hk Hnd Hp x. rewrite (rl_at _ _ _ _ Hrl), Hp, elem_of_cons.
  rewrite Hp in Hnd. apply NoDup_cons in Hnd as [Hdt _]. naive_solver.
Qed.

(** The key frame of the target layer takes the track out of the old one. *)
Lemma rinv_settle h r ds a d d' l k :
  rinv h r ds -> ds !! a = Some d -> same_track d d' ->
  is_layer l -> is_layer k -> l <> k -> h = Some k ->
  hung r (d_ref d) (Switching l k) -> phase_ok ssrc (Settled k) d' ->
  exists r', w_DeleteDownTrack r l (dt_peer (d_ref d)) = Ok r'
    /\ rinv h r' (<[a := d']> ds) /\ lay r' k = lay r k.
Proof.
  intros Hr Ha Hd Hl Hk Hne -> Hh Hph.
  destruct (delete_relist r l (d_ref d)) as (r' & l' & Hdel & Hrl & Hperm).
  - apply Hr.
  - by apply is_layer_range.
  - rewrite (ri_held _ _ _ Hr). by intros [= ->].
  - apply Hh; [done|]. cbn. set_solver.
  - by eapply lay_peers.
  - assert (forall k', is_layer k' -> k' <> l -> lay r' k' = lay r k') as Hoth.
    { intros k' Hk' Hn. apply (rl_other _ _ _ _ Hrl); [by apply is_layer_range|done]. }
    exists r'. split; [done|]. split; [|by apply Hoth].
    eapply rinv_update; try done; [by eapply relist_reshaped| |].
    + intros k' dt Hk'. cbn [members]. rewrite list_elem_of_singleton.
      destruct (decide (k' = l)) as [->|Hn].
      * rewrite (elem_lay_split _ _ _ _ _ Hrl Hl (ri_nodup _ _ _ Hr l Hl) Hperm). naive_solver.
      * rewrite Hoth by done. specialize (Hh k' Hk'). cbn in Hh.
        rewrite elem_of_cons, list_elem_of_singleton in Hh.
        destruct (decide (dt = d_ref d)) as [->|]; [|naive_solver]. naive_solver.
    + intros k' Hk'. destruct (decide (k' = l)) as [->|Hn]; [|rewrite Hoth by done; by apply Hr].
      rewrite (rl_at _ _ _ _ Hrl). pose proof (ri_nodup _ _ _ Hr l Hl) as Hnd.
      rewrite Hperm in Hnd. by apply NoDup_cons in Hnd as [_ ?].
Qed.

Lemma write_settled d (r : rcv) e now k :
  dt_wf d -> phase_ok ssrc (Settled k) d \/ (exists t, phase_ok ssrc (Switching k t) d) ->
  rp_ssrc (Packet e) = ssrc k ->
  exists d', writeSimulcastRTP d r e now = Ok (d', r) /\ same_track d d'
    /\ layer_state d' = layer_state d.
Proof.
  intros Hwf Hph He.
  assert (lastSSRC d = ssrc k /\ reSync d = false) as [Hs Hre].
  { destruct Hph as [(_ & _ & [= _ _ ? ?])|(t & _ & _ & _ & _ & [= _ _ ? ?])]; done. }
  rewrite writeSimulcast_synced by congruence.
  destruct (simulcast_send_total d r e now Hwf) as (d' & H1 & H2 & H3 & _).
  exists d'. split; [done|]. split; [done|]. rewrite H3, He, <-Hs. by destruct d.
Qed.

Lemma write_track r ds k dt e now :
  rinv (Some k) r ds -> is_layer k -> dt ∈ lay r k -> rp_ssrc (Packet e) = ssrc k ->
  (forall d, ds !! dt_addr dt = Some d -> goes r now (WriteRTP d r e now)) ->
  exists d d' r', ds !! dt_addr dt = Some d /\ WriteRTP d r e now = Ok (d', r')
    /\ rinv (Some k) r' (<[dt_addr dt := d']> ds) /\ lay r' k = lay r k.
Proof.
  intros Hr Hk Hin He Hg. destruct (ri_mem _ _ _ Hr k dt Hk Hin) as (d & Hd & <-).
  destruct (ri_track _ _ _ Hr _ _ Hd) as [_ Hwf Hty (ph & Hph & Hh)].
  specialize (Hg d Hd). exists d. unfold WriteRTP in *. destruct (negb (enabled d) || negb (d_bound d))%bool eqn:Hen.
  { exists d, r. split; [done|]. split; [done|]. split; [|done].
    by apply (rinv_same (Some k) r r ds _ d d ph ph). }
  bool_prop. rewrite Hty in *. apply Hh in Hin as Hkm; [|done].
  assert (forall d' r' ph', writeSimulcastRTP d r e now = Ok (d', r') -> same_track d d' ->
    phase_ok ssrc ph' d' -> members ph' = members ph -> same_lists r r' ->
    exists d'' r'', ds !! dt_addr (d_ref d) = Some d
      /\ writeSimulcastRTP d r e now = Ok (d'', r'')
      /\ rinv (Some k) r'' (<[dt_addr (d_ref d) := d'']> ds) /\ lay r'' k = lay r k) as Hsame.
  { intros d' r' ph' Hw Hst Hp' Hm Hsl. exists d', r'. split; [done|]. split; [done|].
    split; [by apply (rinv_same (Some k) r r' ds _ d d' ph ph')|]. by rewrite Hsl. }
  destruct ph as [l|l|l t]; cbn [members] in Hkm;
    rewrite ?elem_of_cons, ?elem_of_nil in Hkm.
  - destruct Hkm as [->|[]].
    destruct (write_waiting ssrc l d r e now Hwf Hty) as (d' & r' & ph' & ? & ? & ? & ? & ?);
      [done..|]. by apply (Hsame d' r' ph').
  - destruct Hkm as [->|[]].
    destruct (write_settled d r e now l Hwf (or_introl Hph) He) as (d' & Hw & Hst & Hls).
    apply (Hsame d' r (Settled l)); try done.
    destruct Hph as (H1 & H2 & H3). destruct Hst as (_ & _ & He' & _).
    split; [done|]. split; congruence.
  - destruct Hkm as [->|[->|[]]].
    + destruct (write_settled d r e now l Hwf (or_intror (ex_intro _ t Hph)) He)
        as (d' & Hw & Hst & Hls).
      apply (Hsame d' r (Switching l t)); try done.
      destruct Hph as (H1 & H2 & H3 & H4 & H5). destruct Hst as (_ & _ & He' & _).
      split_and!; congruence || done.
    + destruct (write_switching ssrc ssrc_inj l t d r e now Hwf Hph He)
        as [(r' & Hw & Hsl)|(d' & Hst & Hph' & Hw)]; [done| |].
      * by apply (Hsame d r' (Switching l t)).
      * destruct Hph as (Hl & _ & Hne & _).
        destruct (rinv_settle (Some t) r ds _ d d' l t Hr Hd Hst Hl Hk Hne eq_refl Hh Hph')
          as (r' & Hdel & Hr' & Hlay).
        exists d', r'. rewrite Hw, Hdel. done.
Qed.

Lemma write_all_ok l r ds k e now :
  rinv (Some k) r ds -> is_layer k -> (forall dt, dt ∈ l -> dt ∈ lay r k) ->
  rp_ssrc (Packet e) = ssrc k -> goes r now (write_all r ds e now l) ->
  exists r' ds', write_all r ds e now l = Ok (r', ds') /\ rinv (Some k) r' ds'.
Proof.
  revert r ds. induction l as [|dt l IH]; intros r ds Hr Hk Hl He Hg.
  { by exists r, ds. }
  cbn [write_all] in *.
  destruct (write_track r ds k dt e now Hr Hk) as (d & d' & r' & Hd & Hw & Hr' & Hlay); [set_solver|done| |].
  { intros d Hd. rewrite Hd in Hg. by apply goes_head in Hg. }
  rewrite Hd, Hw in *. cbn [mbind go_bind fst snd] in *.
  apply IH; [done|done| |done|].
  - intros x Hx. rewrite Hlay. set_solver.
  - destruct Hg as [Hg|Hg]; [by left|right]. by eapply write_sendable.
Qed.

Lemma rinv_hold h h' r ds : rinv h r ds -> rinv h' (r <| held := h' |>) ds.
Proof. intros [H1 H2 H3 H4 H5 H6 H7 H8 H9]. split; try done. intros a d Had. by destruct (H6 a d Had). Qed.

Lemma write_packet_ok r ds k e now :
  rinv None r ds -> is_layer k -> rp_ssrc (Packet e) = ssrc k -> goes r now (write_packet r ds k e now) ->
  exists r' ds', write_packet r ds k e now = Ok (r', ds') /\ rinv None r' ds'.
Proof.
  intros Hr Hk He. unfold write_packet.
  rewrite lock_layer_ok; [|apply Hr|by apply is_layer_range|by rewrite (ri_held _ _ _ Hr)].
  cbn [mbind go_bind].
  change (default [] (default None (downTracks (rv r) !! Z.to_nat k))) with (lay r k). intros Hg%goes_head.
  destruct (write_all_ok (lay r k) (r <| held := Some k |>) ds k e now) as (r' & ds' & -> & Hr');
    [by eapply rinv_hold|done|done|done|exact Hg|].
  cbn [mbind go_bind mret go_ret fst snd]. eexists _, _. split; [reflexivity|]. by eapply rinv_hold.
Qed.
End invariant.

(** ** RTCP of a subscriber *)

Lemma nacked_total refTime PacketList pairs s :
  ring_wf s -> exists s' l, nacked PacketList refTime s pairs = Ok (s', l) /\ ring_wf s'.
Proof.
  revert s. induction pairs as [|np pairs IH]; intros s Hs; [by eexists _, _|].
  cbn [nacked]. destruct (getSeqNoPairs_total refTime (PacketList np) s Hs) as (s1 & l1 & -> & H1).
  cbn [mbind go_bind fst snd]. destruct (IH s1 H1) as (s2 & l2 & -> & H2). by eexists _, _.
Qed.

Section rtcp.
Context (oor : float -> Z) (unm : bytes -> list rtcp_packet) (PacketList : NackPair -> list Z).

(** A track's RTCP handler keeps what the lists depend on. *)
Definition acc_kept (a a' : rtcp_acc (R:=rcv)) : Prop :=
  same_track (a_track a) (a_track a') /\ layer_state (a_track a') = layer_state (a_track a)
  /\ same_lists (a_recv a) (a_recv a') /\ rtcp_side (a_recv a') = rtcp_side (a_recv a).

Lemma handle_packet_kept now (a : rtcp_acc) pkt :
  dt_wf (a_track a) ->
  exists a', handle_packet oor PacketList now a pkt = Ok a' /\ acc_kept a a'.
Proof.
  intros Hwf.
  destruct (handle_packet oor PacketList now a pkt) as [a'|] eqn:E.
  - exists a'. split; [done|]. pose proof (handle_packet_layer _ _ _ _ _ _ E) as Hls.
    unfold acc_kept. rewrite Hls. revert E. unfold handle_packet.
    destruct (failed a); [by intros [= <-]|]. destruct pkt; try by intros [= <-].
    + unfold dt_wf in Hwf. destruct (d_sequencer (a_track a)) as [s|] eqn:Es; [|by intros [= <-]].
      edestruct (nacked_total) as (s' & l & -> & Hs'); [exact Hwf|]. cbn [mbind go_bind fst snd].
      destruct (0 <? len l); [|intros [= <-]; by split_and!].
      change (@RetransmitPackets rcv webrtc_receiver) with w_RetransmitPackets.
      unfold w_RetransmitPackets. destruct (nackStopped _); cbn [mbind go_bind mret go_ret];
        intros [= <-]; by split_and!.
    + destruct (pliOnce a); by intros [= <-].
    + destruct (firOnce a); by intros [= <-].
    + intros [= <-]. destruct (_ || _)%bool; by split_and!.
  - exfalso. revert E. unfold handle_packet.
    destruct (failed a); [done|]. destruct pkt; try done.
    + unfold dt_wf in Hwf. destruct (d_sequencer (a_track a)) as [s|] eqn:Es; [|done].
      edestruct (nacked_total) as (s' & l & -> & Hs'); [exact Hwf|]. cbn [mbind go_bind fst snd].
      destruct (0 <? len l); [|done].
      change (@RetransmitPackets rcv webrtc_receiver) with w_RetransmitPackets.
      unfold w_RetransmitPackets. by destruct (nackStopped _).
    + by destruct (pliOnce a).
    + by destruct (firOnce a).
Qed.

Lemma handle_packets_kept now pkts (a : rtcp_acc) :
  dt_wf (a_track a) ->
  exists a', handle_packets oor PacketList now a pkts = Ok a' /\ acc_kept a a'.
Proof.
  revert a. induction pkts as [|pkt pkts IH]; intros a Hwf.
  { exists a. by split. }
  cbn [handle_packets]. destruct (handle_packet_kept now a pkt Hwf) as (a1 & -> & H1 & H2 & H3 & H7).
  cbn [mbind go_bind]. destruct (IH a1) as (a2 & -> & H4 & H5 & H6 & H8).
  { destruct H1 as (_ & _ & _ & _ & Hw). by apply Hw. }
  exists a2. split; [done|]. split_and!; [by etransitivity|by rewrite H5|by etransitivity|congruence].
Qed.
End rtcp.

Section switching.
Context (ssrc : Z -> Z).

Lemma phase_kept ph d d' :
  same_track d d' -> layer_state d' = layer_state d -> phase_ok ssrc ph d -> phase_ok ssrc ph d'.
Proof.
  intros (_ & _ & He & _) Hls. apply layer_state_inv in Hls as Hinv.
  destruct Hinv as (Hs & _ & Hl & Hr).
  destruct ph; cbn [phase_ok]; rewrite ?Hls, ?He, ?Hs, ?Hl, ?Hr; tauto.
Qed.

Lemma rinv_kept h r r' ds a d d' :
  rinv ssrc h r ds -> ds !! a = Some d -> same_track d d' -> layer_state d' = layer_state d ->
  same_lists r r' -> rinv ssrc h r' (<[a := d']> ds).
Proof.
  intros Hr Ha Hd Hls Hs. destruct (ri_track _ _ _ _ Hr _ _ Ha) as [_ _ _ (ph & Hph & Hh)].
  apply (rinv_same ssrc h r r' ds a d d' ph ph); try done. by apply (phase_kept ph d d').
Qed.

(** A track that forwards layer 0 may hang itself on layer 1 as well. *)
Lemma switch_up r ds a d :
  rinv ssrc None r ds -> ds !! a = Some d -> phase_ok ssrc (Settled 0) d ->
  exists d' r', SwitchSpatialLayer d r 1 = Ok (d', r') /\ same_track d d'
    /\ rinv ssrc None r' (<[a := d']> ds).
Proof.
  intros Hr Ha Hph. pose proof Hph as (_ & Hen & Hls).
  pose proof Hls as [= Hsp Hty Hss Hre].
  destruct (ri_track _ _ _ _ Hr _ _ Ha) as [_ _ _ (ph & Hph' & Hh)].
  assert (members ph = [0]) as Hm.
  { destruct ph as [l|l|l t]; cbn [phase_ok] in Hph'.
    - destruct Hph' as (_ & E & _). congruence.
    - destruct Hph' as (_ & _ & [= E _ _ _]). cbn. congruence.
    - destruct Hph' as (Hl & Ht & Hne & _ & [= E _ _ _]). exfalso. rewrite Hsp in E.
      destruct Hl as [->|[->| ->]], Ht as [->|[->| ->]]; try done; by apply Hne. }
  unfold SwitchSpatialLayer, current_layer, target_layer. rewrite Hty, Hsp.
  rewrite bool_decide_true by done.
  change (negb (u16 0 =? u16 (Z.shiftr 0 16)) || (u16 0 =? u16 1))%bool with false. cbv iota.
  change (@SubDownTrack rcv webrtc_receiver) with w_SubDownTrack. unfold w_SubDownTrack.
  pose proof (ri_three _ _ _ _ Hr) as H3.
  rewrite lock_layer_ok; [|done|lia|by rewrite (ri_held _ _ _ _ Hr)]. cbn [mbind go_bind].
  destruct (downTracks (rv r) !! Z.to_nat 1) as [[dts|]|] eqn:E; cbn [default mbind go_bind mret go_ret fst snd].
  2, 3: exists d, r; split; [reflexivity|split; [reflexivity|]];
    by apply (rinv_kept _ r r ds a d d).
  eexists _, (set_layer r 1 (Some (dts ++ [d_ref d]))). split; [reflexivity|].
  split; [by split_and!|].
  assert (relist r (set_layer r 1 (Some (dts ++ [d_ref d]))) 1 (dts ++ [d_ref d])) as Hrl
    by (apply set_layer_relist; [done|lia|by exists dts]).
  assert (lay r 1 = dts) as Hlay by (unfold lay; by rewrite E).
  assert (is_layer 0 /\ is_layer 1) as [L0 L1] by (unfold is_layer; lia).
  assert (d_ref d ∉ lay r 1) as Hni by (rewrite (Hh 1 L1), Hm; set_solver).
  apply (rinv_update ssrc None r _ ds a d _ (Switching 0 1)); try done.
  - split_and!; try done. unfold layer_state. cbn. by rewrite Hty, Hss, Hre.
  - by apply relist_reshaped with 1 (dts ++ [d_ref d]).
  - intros k dt Hk. cbn [members]. rewrite elem_of_cons, list_elem_of_singleton.
    destruct (decide (k = 1)) as [->|Hn].
    + rewrite (rl_at _ _ _ _ Hrl), <-Hlay, elem_of_app, list_elem_of_singleton.
      destruct (decide (dt = d_ref d)) as [->|]; naive_solver.
    + rewrite (rl_other _ _ _ _ Hrl) by (done || by apply is_layer_range).
      specialize (Hh k Hk). rewrite Hm, list_elem_of_singleton in Hh.
      destruct (decide (dt = d_ref d)) as [->|]; naive_solver.
  - intros k Hk. cbn [fst]. destruct (decide (k = 1)) as [->|Hn].
    + rewrite (rl_at _ _ _ _ Hrl), <-Hlay, NoDup_app. split_and!.
      * by apply Hr.
      * intros x Hx ->%list_elem_of_singleton. done.
      * apply NoDup_singleton.
    + rewrite (rl_other _ _ _ _ Hrl) by (done || by apply is_layer_range). by apply Hr.
Qed.

Lemma change_layer r ds a d loss br now :
  rinv ssrc None r ds -> ds !! a = Some d -> enabled d = true -> reSync d = false ->
  exists d' r', handlerLayerChange d r loss br now = Ok (d', r')
    /\ rinv ssrc None r' (<[a := d']> ds).
Proof.
  intros Hr Ha Hen Hre. assert (rinv ssrc None r (<[a := d]> ds)) as Hsame
    by by apply (rinv_kept _ r r ds a d d).
  destruct (ri_track _ _ _ _ Hr _ _ Ha) as [_ Hwf _ (ph & Hph & Hh)].
  destruct ph as [l|l|l t].
  { destruct Hph as (_ & E & _). congruence. }
  2: { exists d, r. split; [|done]. unfold handlerLayerChange.
       destruct Hph as (Hl & Ht & Hne & _ & [= Hsp _ _ _]). rewrite Hsp.
       destruct Hl as [->|[->| ->]], Ht as [->|[->| ->]]; try done; by destruct Hne. }
  pose proof Hph as (Hl & _ & Hls). destruct (decide (l = 0)) as [->|Hl0].
  2: { exists d, r. split; [|done]. apply (settled_change (ssrc l) l); [|done].
       unfold is_layer in Hl. lia. }
  pose proof Hls as [= Hsp _ _ _]. unfold handlerLayerChange. rewrite Hsp.
  change (Z.shiftr 0 16 =? Z.land 0 15) with true. cbn [andb].
  destruct (switchDelay d <? now); [|by exists d, r].
  change (@GetBitrate rcv webrtc_receiver) with w_GetBitrate.
  destruct (go_index_ok (w_GetBitrate r) (Z.land 0 15)) as (cbr & -> & _).
  { unfold len, w_GetBitrate. rewrite length_map. rewrite (proj2 (ri_three _ _ _ _ Hr)).
    change (Z.land 0 15) with 0. lia. }
  cbn [mbind go_bind].
  assert (exists s, (if loss <=? 5 then
      s ← (if ((u64 (3 * cbr) / 2 <=? br) && (Z.land 0 15 + 1 <=? maxSpatialLayer d)
              && (Z.land 0 15 + 1 <=? 2))%bool
           then SwitchSpatialLayer d r (Z.land 0 15 + 1) else mret (d, r));
      mret (s.1 <| switchDelay := now + switch_pause |>, s.2)
    else mret (d, r)) = Ok s /\ rinv ssrc None s.2 (<[a := s.1]> ds)) as (s & -> & Hs).
  { assert (forall d1 r1, rinv ssrc None r1 (<[a := d1]> ds) ->
      rinv ssrc None r1 (<[a := d1 <| switchDelay := now + switch_pause |>]> ds)) as Hdelay.
    { intros d1 r1 H1. rewrite <-(insert_insert_eq ds a _ d1).
      apply (rinv_kept None r1 r1 _ a d1); try done. by rewrite lookup_insert_eq. }
    destruct (loss <=? 5); [|by exists (d, r)].
    destruct (_ && _)%bool.
    - change (Z.land 0 15 + 1) with 1.
      destruct (switch_up r ds a d Hr Ha Hph) as (d1 & r1 & -> & _ & H1).
      eexists. split; [reflexivity|]. by apply Hdelay.
    - eexists. split; [reflexivity|]. by apply Hdelay. }
  cbn [mbind go_bind]. destruct (25 <=? loss); [|by exists s.1, s.2; destruct s].
  change (0 <? Z.land 0 15) with false. rewrite andb_false_r. cbn [mbind go_bind mret go_ret].
  eexists _, _. split; [reflexivity|]. cbn [fst snd].
  rewrite <-(insert_insert_eq ds a _ s.1).
  apply (rinv_kept None s.2 s.2 _ a s.1); try done. by rewrite lookup_insert_eq.
Qed.

Lemma rtcp_ok oor unm PacketList r ds a d b now :
  rinv ssrc None r ds -> ds !! a = Some d -> reSync d = false ->
  is_ok (handleRTCP oor unm PacketList d r b now) = true \/ can_send r ->
  exists d' r', handleRTCP oor unm PacketList d r b now = Ok (d', r')
    /\ rinv ssrc None r' (<[a := d']> ds).
Proof.
  intros Hr Ha Hre. unfold handleRTCP.
  destruct (enabled d) eqn:Hen; cbn [negb].
  2: { intros _. exists d, r. split; [done|]. by apply (rinv_kept _ r r ds a d d). }
  destruct (handle_packets_kept oor PacketList now (unm b) (RtcpAcc d r true true 0 0 [] false))
    as (acc & -> & H1 & H2 & H3 & H4); [by eapply tk_wf, ri_track|].
  cbn [mbind go_bind a_track a_recv] in *.
  pose proof (rinv_kept None r _ ds a d _ Hr Ha H1 H2 H3) as Hr1.
  destruct (failed acc); [intros _; by eexists _, _|].
  apply layer_state_inv in H2 as (_ & _ & _ & Hre1). destruct H1 as (_ & _ & Hen1 & _).
  assert (exists s, (if ((bool_decide (d_trackType (a_track acc) = SimulcastDownTrack)
      && negb (maxRatePacketLoss acc =? 0)) || negb (expectedMinBitrate acc =? 0))%bool
    then handlerLayerChange (a_track acc) (a_recv acc) (maxRatePacketLoss acc) (expectedMinBitrate acc) now
    else mret (a_track acc, a_recv acc)) = Ok s
    /\ rinv ssrc None s.2 (<[a := s.1]> ds) /\ (can_send r -> can_send s.2)) as (s & -> & Hs & Hcan).
  { assert (can_send r -> can_send (a_recv acc)) as H5.
    { injection H4 as H4 _ _. unfold can_send. by rewrite H4. }
    destruct (_ || _)%bool; [|by exists (a_track acc, a_recv acc)].
    destruct (change_layer _ _ a (a_track acc) (maxRatePacketLoss acc) (expectedMinBitrate acc) now Hr1)
      as (d2 & r2 & Hch & Hr2); [by rewrite lookup_insert_eq|congruence..|]. rewrite Hch.
    rewrite insert_insert_eq in Hr2. exists (d2, r2). split_and!; [done..|]. intros Hc%H5.
    refine (change_keeps can_send _ _ _ _ _ _ _ Hch Hc).
    intros r0 dt l q [= Hq _ _]%sub_side. unfold can_send. by rewrite Hq. }
  cbn [mbind go_bind]. destruct (0 <? len (fwdPkts acc)) eqn:Ef; [|intros _; by exists s.1, s.2; destruct s].
  change (@SendRTCP rcv webrtc_receiver) with w_SendRTCP. intros Hg.
  assert (is_ok (w_SendRTCP s.2 now (fwdPkts acc)) = true) as Hgo.
  { destruct Hg as [Hg|Hc]; [by destruct (w_SendRTCP _ _ _)|].
    apply send_rtcp_room; [intros E; by rewrite E in Ef|auto]. }
  destruct (w_SendRTCP s.2 now (fwdPkts acc)) as [r2|] eqn:Hr2; [|done].
  apply send_rtcp_but, but_same in Hr2 as Hsame.
  cbn [mbind go_bind mret go_ret]. eexists _, _. split; [reflexivity|].
  rewrite <-(insert_insert_eq ds a _ s.1).
  apply (rinv_kept None s.2 r2 _ a s.1); try done. by rewrite lookup_insert_eq.
Qed.
End switching.

(** ** Tracks that come *)

Lemma pick_layer_none best i layer ts :
  Forall (fun t => t = None) ts -> pick_layer best i layer ts = layer.
Proof. intros H. revert i. induction H as [|t ts -> _ IH]; intros i; [done|apply IH]. Qed.

(** A layer that is there is picked, if there is one. *)
Lemma pick_layer_up best i layer ts :
  Exists (fun t => t <> None) ts ->
  exists (j : nat) t, ts !! j = Some (Some t) /\ pick_layer best i layer ts = i + Z.of_nat j.
Proof.
  revert i layer. induction ts as [|[t|] ts IH]; intros i layer Hex; cbn [pick_layer].
  - by apply Exists_nil in Hex.
  - destruct best; [|exists 0%nat, t; split; [done|lia]].
    destruct (decide (Exists (fun t => t <> None) ts)) as [Hts|Hts].
    + destruct (IH (i + 1) i Hts) as (j & t' & Hj & ->). exists (S j), t'. split; [done|lia].
    + exists 0%nat, t. split; [done|]. rewrite pick_layer_none; [lia|].
      apply Forall_forall. intros x Hx. destruct x as [x|]; [|done]. exfalso. apply Hts.
      apply Exists_exists. by exists (Some x).
  - apply Exists_cons in Hex as [[]|Hts]; [done|].
    destruct (IH (i + 1) layer Hts) as (j & t' & Hj & ->). exists (S j), t'. split; [done|lia].
Qed.

Section world.
Context (ssrc : Z -> Z)
  (ssrc_inj : forall k l, is_layer k -> is_layer l -> ssrc k = ssrc l -> k = l).

Lemma rinv_add r ds c id sid a peer now pool best r' d' :
  rinv ssrc None r ds -> ds !! a = None ->
  (forall b d, ds !! b = Some d -> dt_peer (d_ref d) <> peer) ->
  Exists (fun t => t <> None) (upTracks (rv r)) ->
  AddDownTrack r (NewDownTrack c id sid (DtRef a peer) now) pool best = Ok (r', d') ->
  rinv ssrc None r' (<[a := d']> ds).
Proof.
  intros Hr Ha Hpeer Hup. unfold AddDownTrack. rewrite (ri_sim _ _ _ _ Hr).
  destruct (pick_layer_up best 0 0 _ Hup) as (j & t & Hj & ->). rewrite Z.add_0_l.
  pose proof (lookup_lt_Some _ _ _ Hj) as Hj3. rewrite (ri_uplen _ _ _ _ Hr) in Hj3.
  set (l := Z.of_nat j). assert (is_layer l) as Hl by (unfold is_layer, l; lia).
  assert (exists dts, downTracks (rv r) !! Z.to_nat l = Some (Some dts)) as [dts Hdts].
  { unfold l. rewrite Nat2Z.id. destruct (downTracks (rv r) !! j) as [[dts|]|] eqn:E.
    - by exists dts.
    - apply (ri_up _ _ _ _ Hr) in E. congruence.
    - apply lookup_ge_None in E. rewrite (proj1 (ri_three _ _ _ _ Hr)) in E. lia. }
  rewrite lock_layer_ok; [|apply Hr|by apply is_layer_range|by rewrite (ri_held _ _ _ _ Hr)].
  rewrite Hdts. cbn [default mbind go_bind mret go_ret]. intros [<- <-]%ok_pair_inj.
  assert (relist r (set_layer r l (Some (dts ++ [DtRef a peer]))) l (dts ++ [DtRef a peer])) as Hrl
    by (apply set_layer_relist; [apply Hr|by apply is_layer_range|by exists dts]).
  assert (lay r l = dts) as Hlay by (unfold lay; by rewrite Hdts).
  assert (forall k dt, is_layer k ->
    dt ∈ lay (set_layer r l (Some (dts ++ [DtRef a peer]))) k
    <-> dt ∈ lay r k \/ (k = l /\ dt = DtRef a peer)) as Hm.
  { intros k dt Hk. destruct (decide (k = l)) as [->|Hn].
    - rewrite (rl_at _ _ _ _ Hrl), <-Hlay, elem_of_app, list_elem_of_singleton. tauto.
    - rewrite (rl_other _ _ _ _ Hrl) by (done || by apply is_layer_range). tauto. }
  assert (forall k dt, is_layer k -> dt ∈ lay r k -> dt_peer dt <> peer /\ dt_addr dt <> a) as Hold.
  { intros k dt Hk Hin. destruct (ri_mem _ _ _ _ Hr k dt Hk Hin) as (d & Hd & <-).
    split; [by eapply Hpeer|]. intros <-. congruence. }
  match goal with |- rinv _ _ ?x _ =>
    change x with (set_layer r l (Some (dts ++ [DtRef a peer]))) end.
  split; try apply Hr.
  - apply Hrl.
  - intros k. rewrite (rl_none _ _ _ _ Hrl). apply Hr.
  - intros b e [[<- <-]|[Hne He]]%lookup_insert_Some.
    + split; try done. exists (Waiting l). split.
      * split_and!; try done. cbn. by apply layer_lor.
      * intros k Hk. rewrite Hm by done. cbn. rewrite list_elem_of_singleton.
        split; [|naive_solver]. intros [Hin|[-> _]]; [|done].
        by destruct (Hold k _ Hk Hin) as [[]].
    + destruct (ri_track _ _ _ _ Hr _ _ He) as [H1 H2 H3 (ph & Hp & Hh)].
      split; try done. exists ph. split; [done|]. intros k Hk. rewrite Hm, <-(Hh k Hk) by done.
      split; [|tauto]. intros [?|[_ E]]; [done|]. by destruct (Hpeer b e He); rewrite E.
  - intros k dt Hk [Hin|[-> ->]]%Hm; [| |done].
    + destruct (ri_mem _ _ _ _ Hr k dt Hk Hin) as (e & He & Hre). exists e.
      rewrite lookup_insert_ne; [done|]. destruct (Hold k dt Hk Hin). congruence.
    + eexists. cbn [dt_addr]. by rewrite lookup_insert_eq.
  - intros b c0 e f [[<- <-]|[Hb He]]%lookup_insert_Some [[<- <-]|[Hc Hf]]%lookup_insert_Some Hp;
      try done.
    + cbn in Hp. by destruct (Hpeer c0 f Hf).
    + cbn in Hp. by destruct (Hpeer b e He).
    + by apply (ri_peer _ _ _ _ Hr b c0 e f).
  - intros k Hk. destruct (decide (k = l)) as [->|Hn].
    + rewrite (rl_at _ _ _ _ Hrl), <-Hlay, NoDup_app. split_and!.
      * by apply Hr.
      * intros x Hx ->%list_elem_of_singleton. by destruct (Hold l _ Hk Hx).
      * apply NoDup_singleton.
    + rewrite (rl_other _ _ _ _ Hrl) by (done || by apply is_layer_range). by apply Hr.
Qed.

Lemma rid_layer_is rid : is_layer (Z.of_nat (rid_layer rid)).
Proof. unfold rid_layer, is_layer. repeat case_bool_decide; lia. Qed.

(** A layer of the publisher that was not there *)
Lemma rinv_up r ds track buff :
  rinv ssrc None r ds -> upTracks (rv r) !! rid_layer (t_RID track) = Some None ->
  rinv ssrc None (r <| rv := AddUpTrack (rv r) track buff |>) ds.
Proof.
  intros Hr Hn. pose proof Hr as [H1 H2 H3 Hul H4 H5 H6 H7 H8].
  set (l := rid_layer (t_RID track)) in *. set (r' := r <| rv := _ |>).
  assert (forall k, lay r' k = lay r k) as Hlay.
  { intros k. unfold lay. change (downTracks (rv r')) with (<[l := Some []]> (downTracks (rv r))).
    destruct (decide (Z.to_nat k = l)) as [->|E]; [|by rewrite list_lookup_insert_ne by done].
    apply H4 in Hn. rewrite Hn, list_lookup_insert_eq; [done|]. by eapply lookup_lt_Some. }
  split; try done.
  - destruct H2. split; cbn; by rewrite length_insert.
  - cbn. by rewrite length_insert.
  - intros k.
    change (upTracks (rv r')) with (<[l := Some track]> (upTracks (rv r))).
    change (downTracks (rv r')) with (<[l := Some []]> (downTracks (rv r))).
    destruct (decide (l = k)) as [<-|E]; [|by rewrite !list_lookup_insert_ne by done].
    rewrite !list_lookup_insert_eq; [done| |]; [by eapply lookup_lt_Some|].
    apply H4 in Hn. by eapply lookup_lt_Some.
  - intros a d Ha. destruct (H5 a d Ha) as [? ? ? (ph & Hp & Hh)]. split; [done..|].
    exists ph. split; [done|]. intros k Hk. rewrite Hlay. by apply Hh.
  - intros k dt Hk. rewrite Hlay. by apply H6.
  - intros k Hk. rewrite Hlay. by apply H8.
Qed.

(** Binding makes a track that waits forward the next key frame. *)
Lemma rinv_bind r ds a d f hs sn now f' d' o :
  rinv ssrc None r ds -> ds !! a = Some d -> enabled d = false ->
  d_Bind f d hs sn now = (f', d', o) -> rinv ssrc None r (<[a := d']> ds).
Proof.
  intros Hr Ha Hen Hb.
  destruct (ri_track _ _ _ _ Hr _ _ Ha) as [_ Hwf _ (ph & Hph & Hh)].
  assert (exists l, ph = Waiting l) as [l ->].
  { destruct ph as [l|l|l t]; [by exists l| |]; exfalso.
    - destruct Hph as (_ & E & _). congruence.
    - destruct Hph as (_ & _ & _ & E & _). congruence. }
  assert (d_ref d' = d_ref d /\ d_trackType d' = d_trackType d /\ dt_wf d'
    /\ phase_ok ssrc (Waiting l) d') as (H1 & H2 & H3 & H4).
  { destruct Hph as (Hl & Hre & Hsp & Hss). unfold d_Bind in Hb.
    destruct (codecParametersFuzzySearch (d_codec d) hs) as [c|].
    - destruct (GetOrNew f RTCPBufferPacket sn) as [f1 o1].
      assert (d' = (let d := d <| d_ssrc := sn |> <| d_payloadType := u8 (c_PayloadType c) |>
          <| reSync := true |> <| enabled := true |> in
        (if String.prefix "video/" (c_MimeType (d_codec d))
         then d <| d_sequencer := Some (newSequencer now) |> else d) <| d_bound := true |>)) as ->
        by by injection Hb as _ <- _.
      cbv zeta. destruct (String.prefix _ _); split_and!; try done; apply new_ring_wf.
    - injection Hb as _ <- _. by split_and!. }
  eapply rinv_update_track; try done.
  - apply same_reshaped; [apply Hr|done].
  - intros k dt Hk. rewrite <-(Hh k Hk). destruct (decide (dt = d_ref d)) as [->|]; naive_solver.
  - by apply Hr.
Qed.

(** ** The receiver and its down tracks, step by step *)

Context (oor : float -> Z) (unm : bytes -> list rtcp_packet) (PacketList : NackPair -> list Z).

(** A publisher's layer appears that was not there; a subscriber's down track
    is added and bound; a packet of layer [k] is forwarded; a down track that
    has sent a packet gets RTCP; another goroutine puts a message on the
    channel of the router, and the router takes one out. *)
Inductive world_step : rcv * tracks -> rcv * tracks -> Prop :=
| ws_up r ds track buff :
    upTracks (rv r) !! rid_layer (t_RID track) = Some None ->
    world_step (r, ds) (r <| rv := AddUpTrack (rv r) track buff |>, ds)
| ws_add r ds c id sid a peer now pool best r' d' :
    ds !! a = None -> (forall b d, ds !! b = Some d -> dt_peer (d_ref d) <> peer) ->
    Exists (fun t => t <> None) (upTracks (rv r)) ->
    AddDownTrack r (NewDownTrack c id sid (DtRef a peer) now) pool best = Ok (r', d') ->
    world_step (r, ds) (r', <[a := d']> ds)
| ws_bind r ds a d f hs sn now f' d' o :
    ds !! a = Some d -> enabled d = false -> d_Bind f d hs sn now = (f', d', o) ->
    world_step (r, ds) (r, <[a := d']> ds)
| ws_packet r ds k e now r' ds' :
    is_layer k -> rp_ssrc (Packet e) = ssrc k -> write_packet r ds k e now = Ok (r', ds') ->
    world_step (r, ds) (r', ds')
| ws_rtcp r ds a d b now d' r' :
    ds !! a = Some d -> reSync d = false ->
    handleRTCP oor unm PacketList d r b now = Ok (d', r') ->
    world_step (r, ds) (r', <[a := d']> ds)
| ws_other r ds p r' : put_rtcp r p = Ok r' -> world_step (r, ds) (r', ds)
| ws_take r ds p ch : rtcpCh (rv r) = p :: ch -> world_step (r, ds) (take_rtcp r, ds).

Definition new_world (w : WebRTCReceiver) : rcv * tracks := (MkRcv w [] None, ∅).

Lemma new_world_inv track id sid kind codec pid :
  t_RID track <> EmptyString ->
  let s := new_world (NewWebRTCReceiver track id sid kind codec pid) in rinv ssrc None s.1 s.2.
Proof.
  intros Hrid s. split; try done.
  - cbn. by rewrite bool_decide_false.
  - intros [|[|[|k]]]; done.
  - intros k dt [->|[->| ->]] Hin; by apply elem_of_nil in Hin.
  - intros k [->|[->| ->]]; constructor.
Qed.

(** Only the channel is different. *)
Lemma rinv_channel h r r' ds : rinv ssrc h r ds -> but_rtcp r r' -> rinv ssrc h r' ds.
Proof.
  intros [H1 H2 H3 H4 H5 H6 H7 H8 H9] [(last & ch & ->) _]. split; try done.
  intros a d Ha. by destruct (H6 a d Ha).
Qed.

Lemma world_step_inv s s' :
  world_step s s' -> rinv ssrc None s.1 s.2 -> rinv ssrc None s'.1 s'.2.
Proof.
  destruct 1; cbn [fst snd]; intros Hr.
  - by apply rinv_up.
  - by eapply rinv_add.
  - by eapply rinv_bind.
  - destruct (write_packet_ok ssrc ssrc_inj r ds k e now) as (r1 & ds1 & Hw & Hinv); [done..|left; by rewrite H1|].
    rewrite Hw in *. match goal with H : Ok _ = Ok _ |- _ => by apply ok_pair_inj in H as [<- <-] end.
  - destruct (rtcp_ok ssrc oor unm PacketList r ds a d b now) as (d1 & r1 & Hw & Hinv); [done..|left; by rewrite H1|].
    rewrite Hw in *. match goal with H : Ok _ = Ok _ |- _ => by apply ok_pair_inj in H as [<- <-] end.
  - eapply rinv_channel; [done|]. by eapply put_but.
  - eapply rinv_channel; [done|]. apply take_but.
Qed.

Lemma world_run_inv s s' :
  rtc world_step s s' -> rinv ssrc None s.1 s.2 -> rinv ssrc None s'.1 s'.2.
Proof. induction 1 as [|s1 s2 s3 Hs _ IH]; [done|]. intros Hr. by apply IH, (world_step_inv s1). Qed.

Lemma world_step_bounded s s' : world_step s s' -> bounded s.1 -> bounded s'.1.
Proof.
  destruct 1; cbn [fst snd]; intros Hb; try done.
  - match goal with H : AddDownTrack _ _ _ _ = _ |- _ => pose proof (add_side _ _ _ _ _ H) as [= Hch _ _] end.
    unfold bounded. cbn [fst] in *. by rewrite Hch.
  - match goal with H : write_packet _ _ _ _ _ = _ |- _ => by apply (write_packet_bounded _ _ _ _ _ _ H) end.
  - match goal with H : handleRTCP _ _ _ _ _ _ _ = _ |- _ => by apply (rtcp_bounded _ _ _ _ _ _ _ _ H) end.
  - match goal with H : put_rtcp _ _ = _ |- _ => by apply put_but in H as [_ H]; apply H end.
  - by apply take_but.
Qed.

Lemma world_run_bounded s s' : rtc world_step s s' -> bounded s.1 -> bounded s'.1.
Proof. induction 1 as [|s1 s2 s3 Hs _ IH]; [done|]. intros Hb. by apply IH, (world_step_bounded s1). Qed.

Lemma phase_layers ph d :
  phase_ok ssrc ph d ->
  is_layer (current_layer d) /\ current_layer d ∈ members ph
  /\ forall k, k ∈ members ph -> k = current_layer d \/ k = target_layer d.
Proof.
  destruct ph as [l|l|l t]; cbn [phase_ok members].
  - intros (Hl & _ & Hsp & _). destruct (layer_halves l l d Hl Hl Hsp) as [-> ->]. set_solver.
  - intros (Hl & _ & [= Hsp _ _ _]).
    destruct (layer_halves 0 l d Hl (or_introl eq_refl)) as [-> ->]; [by rewrite Hsp|]. set_solver.
  - intros (Hl & Ht & _ & _ & [= Hsp _ _ _]). destruct (layer_halves t l d Hl Ht Hsp) as [-> ->].
    split_and!; [done|set_solver|]. intros k. rewrite elem_of_cons, list_elem_of_singleton. tauto.
Qed.

(** ** Properties: attachment *)

(** C5. Whatever layers, tracks, packets and RTCP come, in whatever order, as
    long as no second up track of a layer comes and the RTCP of a track comes
    after its first key frame ([early_switch_blocks] shows what happens
    otherwise): every down track is in the list of its current layer exactly
    once, it is in the list of another layer only if that is its target, and
    the lists hold nothing else.  While there is room for one message in the
    channel to the router, no packet and no RTCP panics, takes a lock twice or
    waits; and the channel is never beyond its capacity, so that there is room
    as soon as the router has taken a message. *)
Theorem down_tracks_attached track id sid kind codec pid r ds :
  t_RID track <> EmptyString ->
  rtc world_step (new_world (NewWebRTCReceiver track id sid kind codec pid)) (r, ds) ->
  (forall a d, ds !! a = Some d ->
     d_ref d ∈ lay r (current_layer d)
     /\ forall k, is_layer k -> d_ref d ∈ lay r k -> k = current_layer d \/ k = target_layer d)
  /\ (forall k dt, is_layer k -> dt ∈ lay r k ->
       NoDup (lay r k) /\ exists d, ds !! dt_addr dt = Some d /\ d_ref d = dt)
  /\ (forall k e now, is_layer k -> rp_ssrc (Packet e) = ssrc k -> can_send r ->
       is_ok (write_packet r ds k e now) = true)
  /\ (forall a d b now, ds !! a = Some d -> reSync d = false -> can_send r ->
       is_ok (handleRTCP oor unm PacketList d r b now) = true)
  /\ (can_send r \/ length (rtcpCh (rv r)) = rtcpCh_cap
       /\ can_send (take_rtcp r) /\ world_step (r, ds) (take_rtcp r, ds)).
Proof.
  intros Hrid Hrun.
  pose proof (world_run_inv _ _ Hrun (new_world_inv _ _ _ _ _ _ Hrid)) as Hr. cbn [fst snd] in Hr.
  assert (bounded r) as Hb.
  { apply (world_run_bounded _ _ Hrun). unfold bounded, rtcpCh_cap. cbn. lia. }
  split_and!.
  - intros a d Ha. destruct (ri_track _ _ _ _ Hr _ _ Ha) as [_ _ _ (ph & Hph & Hh)].
    pose proof (phase_layers _ _ Hph) as (Hc & Hcm & Hct).
    split; [by apply Hh|]. intros k Hk Hin%Hh; auto.
  - intros k dt Hk Hin. split; [by apply Hr|]. by apply (ri_mem _ _ _ _ Hr k).
  - intros k e now Hk He Hc.
    destruct (write_packet_ok ssrc ssrc_inj r ds k e now Hr Hk He) as (? & ? & -> & _); [by right; left|done].
  - intros a d b now Ha Hre Hc.
    destruct (rtcp_ok ssrc oor unm PacketList r ds a d b now Hr Ha Hre) as (? & ? & -> & _); [by right|done].
  - destruct (bounded_room r Hb) as [?|[Hf Hc]]; [by left|right]. split_and!; [done..|].
    destruct (rtcpCh (rv r)) as [|p ch] eqn:E; [done|]. by eapply ws_take.
Qed.
End world.

(** ** Switching before the first key frame *)

(** C33. A switch that is asked for before the track has forwarded anything is
    not safe: when the estimate of the subscriber's bandwidth arrives while
    a track on layer 0 still waits for its first key frame, the track is hung
    on layer 1 too, and the next key frame of layer 0 makes the goroutine
    that forwards layer 0, which holds the layer's lock, lock it once more
    to take the track out: it blocks for ever, and with it every down track
    of the layer. *)
Theorem early_switch_blocks (r : rcv) (ds : tracks) (d : DownTrack) rest dts br cbr now :
  three r -> held r = None -> lay r 0 = d_ref d :: rest ->
  downTracks (rv r) !! 1%nat = Some (Some dts) ->
  d_trackType d = SimulcastDownTrack -> enabled d = true -> d_bound d = true ->
  reSync d = true -> spatialLayer d = 0 -> maxSpatialLayer d = 2 -> switchDelay d < now ->
  w_GetBitrate r !! 0%nat = Some cbr -> u64 (3 * cbr) / 2 <= br ->
  exists d' r',
    handlerLayerChange d r 0 br now = Ok (d', r')
    /\ forall e t, KeyFrame e = true ->
         write_packet r' (<[dt_addr (d_ref d) := d']> ds) 0 e t = Panic.
Proof.
  intros H3 Hh Hlay H1 Hty Hen Hb Hre Hsp Hmax Hdel Hcbr Hbr.
  set (r1 := set_layer r 1 (Some (dts ++ [d_ref d]))).
  set (d1 := d <| spatialLayer := Z.lor (i32 (Z.shiftl 1 16)) (i32 0) |>
               <| switchDelay := now + switch_pause |>).
  exists d1, r1. split.
  - unfold handlerLayerChange, SwitchSpatialLayer, current_layer, target_layer. rewrite Hsp.
    change (Z.shiftr 0 16 =? Z.land 0 15) with true.
    apply Z.ltb_lt in Hdel as ->. cbn [andb].
    change (@GetBitrate rcv webrtc_receiver) with w_GetBitrate.
    rewrite (go_index_Some (w_GetBitrate r) (Z.land 0 15) cbr) by (done || apply Hcbr). cbn [mbind go_bind].
    change (0 <=? 5) with true. change (25 <=? 0) with false. cbv iota.
    rewrite Hmax. apply Z.leb_le in Hbr as ->.
    change (Z.land 0 15 + 1 <=? 2) with true. cbn [andb].
    rewrite Hty, bool_decide_true by done.
    change (negb (u16 0 =? u16 (Z.shiftr 0 16)) || (u16 0 =? u16 (Z.land 0 15 + 1)))%bool with false.
    cbv iota. change (@SubDownTrack rcv webrtc_receiver) with w_SubDownTrack.
    unfold w_SubDownTrack. change (Z.land 0 15 + 1) with 1.
    rewrite (lock_layer_ok r 1); [|exact H3|lia|by rewrite Hh].
    change (Z.to_nat 1) with 1%nat. rewrite H1. reflexivity.
  - intros e t Hk. unfold write_packet.
    rewrite lock_layer_ok; [|by apply three_set|lia|change (held r1) with (held r); congruence]. cbn [mbind go_bind].
    change (default [] (default None (downTracks (rv r1) !! Z.to_nat 0))) with (lay r1 0).
    assert (lay r1 0 = d_ref d :: rest) as -> by (unfold r1; by rewrite lay_set_ne by lia).
    cbn [write_all]. rewrite lookup_insert_eq. unfold WriteRTP.
    change (enabled d1) with (enabled d). change (d_bound d1) with (d_bound d).
    change (d_trackType d1) with (d_trackType d). rewrite Hen, Hb, Hty. cbn [negb orb].
    unfold writeSimulcastRTP. change (reSync d1) with (reSync d). rewrite Hre, Hk.
    change (current_layer d1) with 0. change (target_layer d1) with 1. rewrite orb_true_r.
    change (0 =? 1) with false. cbn [negb andb].
    change (@DeleteDownTrack rcv webrtc_receiver) with w_DeleteDownTrack.
    unfold w_DeleteDownTrack, lock_layer. cbn [upd settable_rcv eta_record held].
    rewrite bool_decide_true by done. reflexivity.
Qed.

(** ** Concrete worlds *)

Definition ex_ssrc (l : Z) : Z := 100 + l.

Lemma ex_ssrc_inj k l : is_layer k -> is_layer l -> ex_ssrc k = ex_ssrc l -> k = l.
Proof. unfold ex_ssrc. lia. Qed.

Definition ex_codec : RTPCodec := MkRTPCodec "video/VP8" 90000 EmptyString 96.

(** Layers 0 and 1 up, without buffers that have a bitrate yet *)
Definition ex_receiver : WebRTCReceiver :=
  AddUpTrack
    (AddUpTrack
       (NewWebRTCReceiver (MkTrackRemote "q" 100) "t" "s" TypeVideo ex_codec "pub")
       (MkTrackRemote "q" 100) 0%nat)
    (MkTrackRemote "h" 101) 1%nat.

Definition ex_fresh : DownTrack := NewDownTrack ex_codec "t" "s" (DtRef 7 "sub") 0.

(** After [AddDownTrack], not for the best quality, and after [Bind] *)
Definition ex_hung : rcv * DownTrack :=
  match AddDownTrack (MkRcv ex_receiver [] None) ex_fresh [] false with
  | Ok s => s
  | Panic => (MkRcv ex_receiver [] None, ex_fresh)
  end.
Definition ex_added : rcv * DownTrack :=
  (ex_hung.1, (d_Bind NewBufferFactory ex_hung.2 [ex_codec] 7 0).1.2).

Lemma early_switch_blocks_witness :
  exists d' r', handlerLayerChange ex_added.2 ex_added.1 0 500000 1 = Ok (d', r')
    /\ write_packet r' (<[7%nat := d']> ∅) 0 (ex_ext 100 1 1 1 true) 2 = Panic.
Proof.
  destruct (early_switch_blocks ex_added.1 ∅ ex_added.2 [] [] 500000 0 1) as (d' & r' & H & Hw).
  - by vm_compute.
  - by vm_compute.
  - vm_compute. reflexivity.
  - vm_compute. reflexivity.
  - vm_compute. reflexivity.
  - vm_compute. reflexivity.
  - vm_compute. reflexivity.
  - vm_compute. reflexivity.
  - vm_compute. reflexivity.
  - vm_compute. reflexivity.
  - by vm_compute.
  - vm_compute. reflexivity.
  - by vm_compute.
  - exists d', r'. split; [exact H|]. exact (Hw (ex_ext 100 1 1 1 true) 2 eq_refl).
Defined.

(** The same track without the RTCP, run by the steps of the world *)
Definition ex_ds : gmap nat DownTrack := <[7%nat := ex_added.2]> (<[7%nat := ex_hung.2]> ∅).

Lemma ex_run :
  rtc (world_step ex_ssrc (fun _ => 0) (fun _ => []) (fun _ => []))
    (new_world (NewWebRTCReceiver (MkTrackRemote "q" 100) "t" "s" TypeVideo ex_codec "pub"))
    (ex_added.1, ex_ds).
Proof.
  eapply rtc_l; [apply (ws_up _ _ _ _ _ _ (MkTrackRemote "q" 100) 0%nat); vm_compute; reflexivity|].
  eapply rtc_l; [apply (ws_up _ _ _ _ _ _ (MkTrackRemote "h" 101) 1%nat); vm_compute; reflexivity|].
  apply rtc_l with (ex_hung.1, <[7%nat := ex_hung.2]> ∅).
  { apply (ws_add _ _ _ _ _ _ ex_codec "t" "s" 7 "sub" 0 [] false); [done| | |].
    - intros b d Hb. by rewrite lookup_empty in Hb.
    - by left.
    - vm_compute. reflexivity. }
  eapply rtc_l; [|apply rtc_refl].
  eapply (ws_bind _ _ _ _ _ _ 7%nat _ NewBufferFactory [ex_codec] 7 0).
  - apply lookup_insert_eq.
  - vm_compute. reflexivity.
  - vm_compute. reflexivity.
Qed.

Lemma down_tracks_attached_witness :
  is_ok (write_packet ex_added.1 ex_ds 0 (ex_ext 100 1 1 1 true) 2) = true.
Proof.
  eapply (down_tracks_attached ex_ssrc ex_ssrc_inj (fun _ => 0) (fun _ => []) (fun _ => [])
    (MkTrackRemote "q" 100) "t" "s" TypeVideo ex_codec "pub").
  - done.
  - exact ex_run.
  - by left.
  - reflexivity.
  - apply (bool_decide_unpack _). vm_compute. done.
Defined.
