(* ===== verification/Pipeline.v ===== *)
(** * The way of a packet ([buffer.go], [receiver.go], [downtrack.go],
      [pacer.go] together)

    The stations of the way of a packet, put together: the goroutine that
    reads the publisher's connection writes to the buffer, which sends on its
    channel; [writeRTP] takes from the channel and hands to the down tracks;
    each down track's pacer sends.  Meanwhile the subscribers' RTCP arrives,
    the worker answers NACKs, and down tracks are added.  [pipe_step] is the
    interleaving of all these goroutines for a track without simulcast, whose
    only layer is layer 0, with the router's loop that takes the RTCP for the
    publisher out of its channel.  A packet is a value here: how long the
    memory behind its payload keeps is [stored_slice_lives] of [Bucket], and
    [resend_memory] of [Resend] for packets sent again. *)

From stdpp Require Import gmap.
From S2P Require Import Prelude GoNum GoSlice GoFloat Nack Bucket Helper Sequencer Rtp Buffer Factory Pacer SfuHelper DownTrack Receiver Layers.
#[local] Open Scope Z_scope.

(** ** States and steps *)

(** The receiver with its buffer and [rtcpCh]; the buffer's channel; the down
    tracks; what [Write] has still to send, its lock held; whether the
    router's [sendRTCP] runs *)
Record pipe := MkPipe {
  pl_rcv : rcv;
  pl_chan : list ExtPacket;
  pl_downs : tracks;
  pl_todo : list buf_event;
  pl_open : bool }.

(** What can be seen: a packet of the publisher, with what of it the buffer
    sends on the channel; a packet taken out of the channel; packets sent
    again to the down track [a]; a packet that its pacer sends *)
Inductive pipe_obs :=
| Received (pkt : bytes) (eps : list ExtPacket)
| Forwarded (e : ExtPacket)
| Resent (a : nat) (ps : list rtp_packet)
| OnWire (a : nat) (p : rtp_packet).

Definition chan_packets (evs : list buf_event) : list ExtPacket :=
  omap (fun e => match e with ToChan ep => Some ep | _ => None end) evs.

(** A packet from the wire that fits a slot of the cache *)
Definition wire_bytes (pkt : bytes) : Prop := Forall (fun x => is_u8 x) pkt /\ len pkt <= maxPktSize - 2.

Definition put_job (r : rcv) (jobs : list nack_job) : rcv :=
  r <| rv := (rv r) <| nackJobs := jobs |> |>.

Section pipeline.
Context (oor : float -> Z) (unm : option bytes -> option rtp_packet)
  (gext : rtp_packet -> Z -> option bytes) (al : bytes -> option Z) (cb : bool)
  (rtcp_unm : bytes -> list rtcp_packet) (PacketList : NackPair -> list Z)
  (written : rtp_packet -> Z).

(** Callbacks that do not send on the channels modelled; the packets of the
    TWCC responder are among the messages of other goroutines. *)
Definition silent (e : buf_event) : Prop :=
  match e with ToChan _ | Feedback _ => False | _ => True end.

(** [Write] sends what [calc] says in order, each send waiting for room, and
    keeps the buffer's lock until it is done: the worker waits for it.  The
    worker sends the packets of a job one by one, and may give up a job after
    any of them.  Other goroutines (the TWCC responder, the publisher's other
    buffers and receivers) send on [rtcpCh] too, and the router takes messages
    out of it until it is stopped.  Times are of type [int64], SSRCs
    [uint32]. *)
Inductive pipe_step : pipe -> list pipe_obs -> pipe -> Prop :=
| pl_write r ch ds o ba b pkt now now' b' evs res :
    buffers (rv r) !! 0%nat = Some (Some ba) -> rv_bufs r !! ba = Some b -> wire_bytes pkt -> is_i64 now ->
    Write oor unm gext al b cb pkt now now' = Ok (b', evs, res) ->
    pipe_step (MkPipe r ch ds [] o) [Received pkt (chan_packets evs)]
      (MkPipe (r <| rv_bufs := <[ba := b']> (rv_bufs r) |>) ch ds evs o)
| pl_put r ch ds e todo o :
    (length ch < packetChan_cap)%nat ->
    pipe_step (MkPipe r ch ds (ToChan e :: todo) o) [] (MkPipe r (ch ++ [e]) ds todo o)
| pl_feedback r ch ds p todo o r' :
    put_rtcp r p = Ok r' -> pipe_step (MkPipe r ch ds (Feedback p :: todo) o) [] (MkPipe r' ch ds todo o)
| pl_silent r ch ds e todo o :
    silent e -> pipe_step (MkPipe r ch ds (e :: todo) o) [] (MkPipe r ch ds todo o)
| pl_forward r e ch ds todo o now r' ds' :
    write_packet r ds 0 e now = Ok (r', ds') ->
    pipe_step (MkPipe r (e :: ch) ds todo o) [Forwarded e] (MkPipe r' ch ds' todo o)
| pl_rtcp r ch ds todo o a d bs now d' r' :
    ds !! a = Some d -> handleRTCP oor rtcp_unm PacketList d r bs now = Ok (d', r') ->
    pipe_step (MkPipe r ch ds todo o) [] (MkPipe r' ch (<[a := d']> ds) todo o)
| pl_resend r ch ds o ref m ms ms' jobs d d' ps :
    nackJobs (rv r) = MkJob ref (m :: ms) :: jobs -> ds !! dt_addr ref = Some d ->
    run_job (fun b => unm (Some b)) r d [m] = Ok d' -> ms' = ms \/ ms' = [] ->
    packets (d_pacer d') = packets (d_pacer d) ++ ps ->
    pipe_step (MkPipe r ch ds [] o) [Resent (dt_addr ref) ps]
      (MkPipe (put_job r (MkJob ref ms' :: jobs)) ch (<[dt_addr ref := d']> ds) [] o)
| pl_resent r ch ds todo o ref jobs :
    nackJobs (rv r) = MkJob ref [] :: jobs ->
    pipe_step (MkPipe r ch ds todo o) [] (MkPipe (put_job r jobs) ch ds todo o)
| pl_add r ch ds todo o c id sid a peer now pool best r' d' :
    ds !! a = None ->
    AddDownTrack r (NewDownTrack c id sid (DtRef a peer) now) pool best = Ok (r', d') ->
    pipe_step (MkPipe r ch ds todo o) [] (MkPipe r' ch (<[a := d']> ds) todo o)
| pl_bind r ch ds todo o a d f hs sn now f' d' ok :
    ds !! a = Some d -> enabled d = false -> is_u32 sn -> d_Bind f d hs sn now = (f', d', ok) ->
    pipe_step (MkPipe r ch ds todo o) [] (MkPipe r ch (<[a := d']> ds) todo o)
| pl_pacer r ch ds todo o a d out p' :
    ds !! a = Some d -> pacer_step oor written (d_pacer d) out p' ->
    (out = None -> packets p' = packets (d_pacer d)) ->
    pipe_step (MkPipe r ch ds todo o) (match out with Some p => [OnWire a p] | None => [] end)
      (MkPipe r ch (<[a := d <| d_pacer := p' |>]> ds) todo o)
| pl_other r ch ds todo o p r' :
    put_rtcp r p = Ok r' -> pipe_step (MkPipe r ch ds todo o) [] (MkPipe r' ch ds todo o)
| pl_take r ch ds todo p rch :
    rtcpCh (rv r) = p :: rch -> pipe_step (MkPipe r ch ds todo true) [] (MkPipe (take_rtcp r) ch ds todo true)
| pl_stop r ch ds todo :
    pipe_step (MkPipe r ch ds todo true) [] (MkPipe r ch ds todo false).

Inductive pipe_run (s0 : pipe) : list pipe_obs -> pipe -> Prop :=
| pr_start : pipe_run s0 [] s0
| pr_step tr s obs s' : pipe_run s0 tr s -> pipe_step s obs s' -> pipe_run s0 (tr ++ obs) s'.

(** ** Traces *)

Definition accepted (tr : list pipe_obs) : list ExtPacket :=
  concat (map (fun o => match o with Received _ eps => eps | _ => [] end) tr).
Definition taken (tr : list pipe_obs) : list ExtPacket :=
  omap (fun o => match o with Forwarded e => Some e | _ => None end) tr.
Definition resent_to (a : nat) (tr : list pipe_obs) : list rtp_packet :=
  concat (map (fun o => match o with Resent b ps => if decide (b = a) then ps else [] | _ => [] end) tr).
Definition on_wire (a : nat) (tr : list pipe_obs) : list rtp_packet :=
  omap (fun o => match o with OnWire b p => if decide (b = a) then Some p else None | _ => None end) tr.

Lemma accepted_app t u : accepted (t ++ u) = accepted t ++ accepted u.
Proof. unfold accepted. by rewrite map_app, concat_app. Qed.
Lemma taken_app t u : taken (t ++ u) = taken t ++ taken u.
Proof. apply omap_app. Qed.
Lemma resent_to_app a t u : resent_to a (t ++ u) = resent_to a t ++ resent_to a u.
Proof. unfold resent_to. by rewrite map_app, concat_app. Qed.
Lemma on_wire_app a t u : on_wire a (t ++ u) = on_wire a t ++ on_wire a u.
Proof. apply omap_app. Qed.

(** What the down track [d] makes of the packets: nothing before the first
    one it may start with, then the renumbered stream of [simple_stream] *)
Fixpoint from_start (d : DownTrack) (l : list ExtPacket) : list ExtPacket :=
  match l with
  | [] => []
  | e :: l => if waits d e then from_start d l else e :: l
  end.

Definition renumbered (d : DownTrack) (k e : ExtPacket) : rtp_packet :=
  let p := Packet e in
  p <| rp_pt := d_payloadType d |>
    <| rp_ts := u32 ((if lastSN d =? 0 then rp_ts (Packet k) - tsOffset d else lastTS d + 1)
                     + (rp_ts p - rp_ts (Packet k))) |>
    <| rp_sn := u16 ((if lastSN d =? 0 then rp_sn (Packet k) - snOffset d else lastSN d + 1)
                     + (rp_sn p - rp_sn (Packet k))) |>
    <| rp_ssrc := d_ssrc d |>.

Definition stream (d : DownTrack) (l : list ExtPacket) : list rtp_packet :=
  match from_start d l with
  | [] => []
  | k :: post => map (renumbered d k) (k :: post)
  end.
End pipeline.

(** The elements of two lists, each in its order *)
Inductive interleave {A} : list A -> list A -> list A -> Prop :=
| il_nil : interleave [] [] []
| il_left l k m x : interleave l k m -> interleave (l ++ [x]) k (m ++ [x])
| il_right l k m x : interleave l k m -> interleave l (k ++ [x]) (m ++ [x]).

(** ** The buffer's end *)

Definition cache_ok (b : Buffer) : Prop := forall k, bucket b = Some k -> bucket_wf k.

Lemma chan_packets_app l k : chan_packets (l ++ k) = chan_packets l ++ chan_packets k.
Proof. apply omap_app. Qed.

Lemma side_no_packets evs : Forall side_event evs -> chan_packets evs = [].
Proof. induction 1 as [|e l He _ IH]; [done|]. by destruct e. Qed.

Lemma get_u16_range l v : Forall (fun x => is_u8 x) l -> get_u16 l = Ok v -> is_u16 v.
Proof.
  destruct l as [|hi [|lo l]]; [done..|]. intros [H1 [H2 _]%Forall_cons]%Forall_cons. cbn.
  intros [= <-]. rewrite of_be16_add by done. lia.
Qed.

Lemma track_sn_cache b sn t b' :
  track_sn b sn t = Ok b' -> cache_ok b -> cache_ok b' /\ mime b' = mime b.
Proof.
  unfold track_sn. intros H Hb. destruct (PacketCount (stats b) =? 0).
  - destruct (bucket b) as [k|] eqn:E'; [|done]. injection H as <-. split; [|done].
    intros k' [= <-]. destruct (Hb k E'). constructor; try done. apply u16_range.
  - revert H. destruct (top_bit_clear _); [|by intros [= <-]].
    destruct (sn <? maxSeqNo b); by intros [= <-].
Qed.

Lemma mime_codec b b' pl : mime b' = mime b -> codec_payload b' pl = codec_payload b pl.
Proof. unfold codec_payload. by intros ->. Qed.

Lemma probe_bucket b sn v : bucket (probe b sn v) = bucket b.
Proof.
  unfold probe. case_test; [|done]. destruct v as [pld|]; repeat case_test; by destruct b.
Qed.

Lemma time_stats_bucket b ts t : bucket (time_stats b ts t) = bucket b.
Proof. unfold time_stats. destruct b. cbn. repeat case_test; reflexivity. Qed.

Lemma report_bucket oor b t now : bucket (report oor b t now).1 = bucket b.
Proof.
  unfold report, getRTCP, buildReceptionReport, buildREMBPacket. case_test; [|done].
  cbv zeta. destruct (remb _ && _)%bool; by destruct b.
Qed.

Lemma calc_packet_bucket oor gext al b cb sn head p t now b' evs :
  calc_packet oor gext al b cb sn head p t now = Ok (b', evs) -> bucket b' = bucket b.
Proof.
  intros [[-> _]|(v & key & evs' & _ & -> & _)]%calc_packet_inv; [done|].
  by rewrite report_bucket, time_stats_bucket, probe_bucket.
Qed.

Section accept.
Context (oor : float -> Z) (unm : option bytes -> option rtp_packet)
  (gext : rtp_packet -> Z -> option bytes) (al : bytes -> option Z) (cb : bool).
(** [rtp.Packet.Unmarshal] of no bytes is an error. *)
Context (unm_nil : unm None = None).

(** What [calc] sends on the channel for packet [sn] *)
Definition sends (b b' : Buffer) (pkt : bytes) (sn now : Z) (eps : list ExtPacket) : Prop :=
  match unm (Some pkt) with
  | None => eps = []
  | Some p =>
      match codec_payload b (rp_payload p) with
      | Ok (Some (v, key)) =>
          let head := sn =? maxSeqNo b' in
          eps = [MkExtPacket head (b_cycles b') now p v key] \/ head = false /\ eps = []
      | _ => eps = []
      end
  end.

Lemma calc_sends b pkt t now b' evs :
  cache_ok b -> wire_bytes pkt -> calc oor unm gext al b cb pkt t now = Ok (b', evs) ->
  cache_ok b' /\ exists sn, pkt_sn pkt = Ok sn /\ sends b b' pkt sn t (chan_packets evs).
Proof.
  intros Hb [Hby Hlen] (b1 & sn & head & stored & lost & Hst & Hb')%calc_inv.
  apply calc_store_inv in Hst as (hd & b0 & k & x & Hs & Hu & Htr & Hk & -> & Ha & ->).
  assert (is_u16 sn) as Hsn.
  { eapply get_u16_range; [|exact Hu]. unfold go_slice in Hs. case_match; [|done].
    injection Hs as <-. by apply Forall_sub. }
  destruct (track_sn_cache _ _ _ _ Htr Hb) as [Hb0 Hm].
  destruct (addPacket_total k pkt sn (sn =? maxSeqNo b0) (Hb0 k Hk) Hlen Hsn)
    as (x' & st & l & Ha' & Hwf & _ & _ & Hstored).
  cbn [fst snd] in Ha. rewrite Ha in Ha'. injection Ha' as -> -> ->.
  set (b1 := (count_packet b0 (len pkt)) <| bucket := Some x' |>) in *.
  assert (cache_ok b1) as Hb1 by (by intros k' [= <-]).
  assert (maxSeqNo b1 = maxSeqNo b0 /\ mime b1 = mime b) as [Hmax Hmime] by done.
  clearbody b1.
  assert (cache_ok b' /\ (maxSeqNo b', b_cycles b') = (maxSeqNo b1, b_cycles b1)) as [Hc [= Hmx Hcy]].
  { destruct Hb' as [(-> & _ & _)|(p & evs' & _ & Hp & _)]; [done|]. split.
    - unfold cache_ok. by rewrite (calc_packet_bucket _ _ _ _ _ _ _ _ _ _ _ _ Hp).
    - apply calc_packet_numbering in Hp. by injection Hp as _ -> ->. }
  split; [done|]. exists sn. split; [unfold pkt_sn; rewrite Hs; exact Hu|].
  rewrite <-Hmax in *. rewrite <-Hmx in *. clear Hmx Hmax. unfold sends.
  destruct Hb' as [(-> & -> & Hn)|(p & evs' & Hp & Hcp & ->)].
  - rewrite (side_no_packets _ (lost_events_side _ _)).
    destruct Hstored as [[-> Hl]| ->]; [|by rewrite Hn].
    destruct (unm (Some pkt)) as [p|]; [|done].
    destruct (codec_payload b (rp_payload p)) as [[[v key]|]|]; [by right|done..].
  - destruct Hstored as [[-> _]| ->]; [by rewrite unm_nil in Hp|]. rewrite Hp.
    rewrite chan_packets_app, (side_no_packets _ (lost_events_side _ _)). cbn [app].
    unfold calc_packet in Hcp. rewrite (mime_codec b) in Hcp by done.
    destruct (codec_payload b (rp_payload p)) as [[[v key]|]|]; cbn [mbind go_bind mret go_ret] in Hcp;
      [|by injection Hcp as _ <-|done].
    destruct (ext_events _ _ _ _ _ _) as [ev2|] eqn:He; [|done]. injection Hcp as _ <-. left.
    cbn [mbind go_bind mret go_ret].
    match goal with |- chan_packets (?x :: ?y) = _ => change (chan_packets (x :: y)) with
      (MkExtPacket (sn =? maxSeqNo b') (b_cycles b1) t p v key :: chan_packets y) end.
    rewrite Hcy, chan_packets_app, (side_no_packets _ (ext_events_side _ _ _ _ _ _ _ He)).
    by rewrite (side_no_packets _ (report_side _ _ _ _)).
Qed.

Lemma write_cache b pkt now now' b' evs res :
  cache_ok b -> wire_bytes pkt -> Write oor unm gext al b cb pkt now now' = Ok (b', evs, res) ->
  cache_ok b'.
Proof.
  intros Hb Hw. unfold Write. destruct (closed b); [by intros [= <- _ _]|].
  destruct (negb (bound b)); [by intros [= <- _ _]|].
  destruct (calc _ _ _ _ _ _ _ _ _) as [[b2 ev]|] eqn:E; [|done]. cbn [mbind go_bind mret go_ret].
  intros [= -> _ _]. by eapply calc_sends.
Qed.

(** A packet that fits the cache, written to a bound buffer: if it is the
    newest, parses and its payload is understood, it is sent on the channel
    as it came, with its arrival; a late one is either sent so too or
    dropped, and nothing else is ever sent. *)
Theorem write_accepts b pkt sn now now' b' evs res :
  cache_ok b -> wire_bytes pkt -> bound b = true -> closed b = false -> pkt_sn pkt = Ok sn ->
  Write oor unm gext al b cb pkt now now' = Ok (b', evs, res) ->
  sends b b' pkt sn now (chan_packets evs).
Proof.
  intros Hb Hw Hbd Hcl Hsn. unfold Write. rewrite Hcl, Hbd. cbn [negb].
  destruct (calc _ _ _ _ _ _ _ _ _) as [[b2 ev]|] eqn:E; [|done]. cbn [mbind go_bind mret go_ret].
  intros [= -> -> _]. destruct (calc_sends _ _ _ _ _ _ Hb Hw E) as (_ & sn' & Hsn' & H). congruence.
Qed.
End accept.

(** ** A down track *)

(** The offsets that the first packet sent sets *)
Definition synced (d : DownTrack) (k : ExtPacket) : DownTrack :=
  (if negb (lastSN d =? 0)
   then d <| snOffset := u16 (rp_sn (Packet k) - lastSN d - 1) |>
          <| tsOffset := u32 (rp_ts (Packet k) - lastTS d - 1) |>
   else d) <| lastSSRC := rp_ssrc (Packet k) |> <| reSync := false |>.

Lemma renumbered_forwarded d k e : renumbered d k e = forwarded (synced d k) (Packet e).
Proof.
  unfold renumbered, forwarded. cbv zeta.
  assert (d_payloadType (synced d k) = d_payloadType d /\ d_ssrc (synced d k) = d_ssrc d) as [-> ->]
    by (unfold synced; by destruct (lastSN d =? 0)).
  match goal with |- context [u32 (?x + ?y)] => assert (u32 (x + y)
    = u32 (rp_ts (Packet e) - tsOffset (synced d k))) as -> end.
  { unfold synced. destruct (lastSN d =? 0);
      cbn [negb upd settable_DownTrack eta_record tsOffset]; wrap_lia. }
  match goal with |- context [u16 (?x + ?y)] => assert (u16 (x + y)
    = u16 (rp_sn (Packet e) - snOffset (synced d k))) as -> end; [|done].
  unfold synced. destruct (lastSN d =? 0);
    cbn [negb upd settable_DownTrack eta_record snOffset]; wrap_lia.
Qed.

Definition ident (d : DownTrack) := (d_ref d, d_trackType d, enabled d, d_bound d, spatialLayer d).

(** What is remembered of the last packet sent *)
Definition last_sent (d : DownTrack) := (lastSN d, lastTS d, lastSSRC d, lastTSCalc d).

(** What only forwarding a packet, or binding, changes of a track *)
Definition at_rest (d d' : DownTrack) : Prop :=
  ident d' = ident d /\ wiring d' = wiring d /\ last_sent d' = last_sent d
  /\ (dt_wf d -> dt_wf d').

#[export] Instance at_rest_preorder : PreOrder at_rest.
Proof.
  unfold at_rest. split; [by intros d|].
  intros d1 d2 d3 (H1 & H2 & H3 & H4) (H5 & H6 & H7 & H8). split_and!; [congruence..|auto].
Qed.

Definition same_rcv (r r' : rcv) : Prop := same_lists r r' /\ rv_bufs r' = rv_bufs r.

#[export] Instance same_rcv_preorder : PreOrder same_rcv.
Proof.
  unfold same_rcv. split; [by intros r|]. intros r1 r2 r3 [H1 H2] [H3 H4].
  split; [by etransitivity|congruence].
Qed.

Lemma but_same_rcv r r' : but_rtcp r r' -> same_rcv r r'.
Proof. intros [(last & ch & ->) _]. done. Qed.

Lemma ask_same_rcv (d : DownTrack) (r : rcv) p now :
  goes r now (ask_keyframe d r p now) -> exists r1, ask_keyframe d r p now = Ok r1 /\ same_rcv r r1.
Proof.
  intros H. destruct (ask_same d r p now H) as (r1 & Hr1 & _). exists r1. split; [done|].
  apply but_same_rcv. exact (send_rtcp_but _ _ _ _ Hr1).
Qed.

Lemma simple_send_ident (d : DownTrack) (r : rcv) e d' r' :
  simple_send d r e = Ok (d', r') -> ident d' = ident d.
Proof.
  unfold simple_send. destruct (record_sent _ _ _ _ _ _) as [d1|] eqn:E; [|done].
  assert (ident d1 = ident d) as <-.
  { unfold record_sent in E. destruct (d_sequencer _); [|by injection E as <-].
    destruct (push _ _ _ _ _ _); [|done]. by injection E as <-. }
  cbn [mbind go_bind mret go_ret]. clear E. intros [<- _]%ok_pair_inj. by destruct (Head e).
Qed.

(** A packet offered to a simple track: it waits, or sends it. *)
Lemma write_simple (d : DownTrack) (r : rcv) e now :
  dt_wf d -> goes r now (writeSimpleRTP d r e now) ->
  exists d' r', writeSimpleRTP d r e now = Ok (d', r') /\ dt_wf d' /\ ident d' = ident d
    /\ same_rcv r r'
    /\ ((reSync d = true /\ waits d e = true /\ d' = d)
        \/ ((reSync d = true -> waits d e = false)
            /\ let d1 := if reSync d then synced d e else d in
               wiring d' = wiring d1
               /\ packets (d_pacer d') = packets (d_pacer d) ++ [forwarded d1 (Packet e)])).
Proof.
  intros Hwf. unfold writeSimpleRTP. destruct (reSync d) eqn:Hre.
  - fold (waits d e). destruct (waits d e) eqn:Hw; intros Hg.
    + apply goes_head in Hg. destruct (ask_same_rcv d r (Packet e) now Hg) as (r' & -> & Hs).
      cbn [mbind go_bind mret go_ret]. exists d, r'. split_and!; try done. by left.
    + set (d1 := synced d e).
      match goal with |- context [simple_send ?x r e] => change x with d1 end.
      assert (dt_wf d1 /\ d_pacer d1 = d_pacer d /\ ident d1 = ident d) as (H1 & Hp & Hi)
        by (subst d1; unfold synced; by destruct (lastSN d =? 0)).
      destruct (simple_send_ok d1 r e H1) as (d' & Hs & Hwf' & Hwr & Hpk).
      rewrite Hs. exists d', r. split_and!; try done.
      * rewrite <-Hi. by eapply simple_send_ident.
      * right. split; [done|]. cbv zeta. by rewrite Hwr, Hpk, Hp.
  - intros _. destruct (simple_send_ok d r e Hwf) as (d' & Hs & Hwf' & Hwr & Hpk).
    rewrite Hs. exists d', r. split_and!; try done; [by eapply simple_send_ident|].
    right. by split.
Qed.

(** RTCP does not disturb the stream of a simple track. *)
Section simple_rtcp.
Context (oor : float -> Z) (rtcp_unm : bytes -> list rtcp_packet) (PacketList : NackPair -> list Z).

Definition acc_rest (a a' : rtcp_acc (R:=rcv)) : Prop :=
  at_rest (a_track a) (a_track a') /\ packets (d_pacer (a_track a')) = packets (d_pacer (a_track a))
  /\ same_rcv (a_recv a) (a_recv a') /\ rtcp_side (a_recv a') = rtcp_side (a_recv a).

Lemma handle_packet_rest now (a : rtcp_acc) pkt :
  dt_wf (a_track a) ->
  exists a', handle_packet oor PacketList now a pkt = Ok a' /\ acc_rest a a'.
Proof.
  intros Hwf. unfold handle_packet.
  assert (forall a', a_track a' = a_track a -> a_recv a' = a_recv a -> acc_rest a a') as Hsame
    by (intros a' H1 H2; unfold acc_rest; rewrite H1, H2; by split_and!).
  destruct (failed a); [exists a; split; [done|by apply Hsame]|].
  destruct pkt; try (eexists; split; [reflexivity|by apply Hsame]).
  - unfold dt_wf in Hwf. destruct (d_sequencer (a_track a)) as [s|] eqn:Es;
      [|exists a; split; [done|by apply Hsame]].
    edestruct nacked_total as (s' & l & -> & Hs'); [exact Hwf|]. cbn [mbind go_bind fst snd].
    destruct (0 <? len l); [|eexists; split; [reflexivity|by split_and!]].
    change (@RetransmitPackets rcv webrtc_receiver) with w_RetransmitPackets.
    unfold w_RetransmitPackets. destruct (nackStopped _); cbn [mbind go_bind mret go_ret];
      (eexists; split; [reflexivity|by split_and!]).
  - destruct (pliOnce a); eexists; (split; [reflexivity|by apply Hsame]).
  - destruct (firOnce a); eexists; (split; [reflexivity|by apply Hsame]).
  - destruct (_ || _)%bool; eexists; (split; [reflexivity|by split_and!]).
Qed.

Lemma handle_packets_rest now pkts (a : rtcp_acc) :
  dt_wf (a_track a) ->
  exists a', handle_packets oor PacketList now a pkts = Ok a' /\ acc_rest a a'.
Proof.
  revert a. induction pkts as [|pkt pkts IH]; intros a Hwf; [by exists a|]. cbn [handle_packets].
  destruct (handle_packet_rest now a pkt Hwf) as (a1 & -> & (H1 & H2 & H3 & H7)). cbn [mbind go_bind].
  destruct (IH a1) as (a2 & -> & (H4 & H5 & H6 & H8)); [by apply H1|]. exists a2. split; [done|].
  split_and!; [by etransitivity|congruence|by etransitivity|congruence].
Qed.

Lemma change_simple (d : DownTrack) (r : rcv) loss br now :
  d_trackType d = SimpleDownTrack -> length (buffers (rv r)) = 3%nat -> spatialLayer d = 0 ->
  exists d', handlerLayerChange d r loss br now = Ok (d', r) /\ at_rest d d'
    /\ packets (d_pacer d') = packets (d_pacer d).
Proof.
  intros Ht Hb Hsp. unfold handlerLayerChange. rewrite Hsp.
  change (Z.land 0 15) with 0. change (Z.shiftr 0 16) with 0.
  destruct ((0 =? 0) && (switchDelay d <? now))%bool; [|by exists d].
  change (@GetBitrate rcv webrtc_receiver r) with (w_GetBitrate r).
  assert (forall t : DownTrack, d_trackType t = SimpleDownTrack ->
    forall l, SwitchSpatialLayer t r l = Ok (t, r)) as Hsw
    by (intros t Hty l; unfold SwitchSpatialLayer; by rewrite Hty).
  destruct (go_index_ok (w_GetBitrate r) 0) as (cbr & -> & _).
  { unfold len, w_GetBitrate. rewrite length_map, Hb. lia. }
  cbn [mbind go_bind].
  assert (forall (t : DownTrack) x, at_rest t (t <| switchDelay := x |>)) as Hd
    by (intros; by split_and!).
  assert (exists t, (if loss <=? 5
     then s ← (if ((u64 (3 * cbr) / 2 <=? br) && (0 + 1 <=? maxSpatialLayer d) && (0 + 1 <=? 2))%bool
               then SwitchSpatialLayer d r (0 + 1) else mret (d, r));
          mret (s.1 <| switchDelay := now + switch_pause |>, s.2)
     else mret (d, r)) = Ok (t, r) /\ at_rest d t /\ packets (d_pacer t) = packets (d_pacer d)
       /\ d_trackType t = SimpleDownTrack) as (t & -> & H1 & H2 & H3).
  { destruct (loss <=? 5); [|by exists d].
    rewrite (Hsw d Ht). destruct (_ && _ && _)%bool; cbn [mbind go_bind mret go_ret fst snd];
      (eexists; split; [reflexivity|]); by split_and!. }
  cbn [mbind go_bind]. destruct (25 <=? loss); [|by exists t].
  rewrite andb_false_r. cbn [mbind go_bind mret go_ret fst snd].
  eexists. split; [reflexivity|]. split; [|done]. etransitivity; [exact H1|apply Hd].
Qed.

Lemma rtcp_simple (d : DownTrack) (r : rcv) bs now :
  dt_wf d -> d_trackType d = SimpleDownTrack -> length (buffers (rv r)) = 3%nat -> spatialLayer d = 0 ->
  is_ok (handleRTCP oor rtcp_unm PacketList d r bs now) = true \/ can_send r ->
  exists d' r', handleRTCP oor rtcp_unm PacketList d r bs now = Ok (d', r')
    /\ at_rest d d' /\ packets (d_pacer d') = packets (d_pacer d) /\ same_rcv r r'.
Proof.
  intros Hwf Ht Hb Hsp. unfold handleRTCP.
  assert (at_rest d d /\ same_rcv r r) as [Hd0 Hr0] by by split.
  destruct (negb (enabled d)); [intros _; by exists d, r|].
  destruct (handle_packets_rest now (rtcp_unm bs) (RtcpAcc d r true true 0 0 [] false))
    as (a & Ha & (H1 & H2 & H3 & Hside)); [done|].
  rewrite Ha. cbn [mbind go_bind a_track a_recv] in *. clear Ha.
  destruct (failed a); [intros _; by eexists _, _|].
  assert (exists t, (if ((bool_decide (d_trackType (a_track a) = SimulcastDownTrack)
      && negb (maxRatePacketLoss a =? 0)) || negb (expectedMinBitrate a =? 0))%bool
    then handlerLayerChange (a_track a) (a_recv a) (maxRatePacketLoss a) (expectedMinBitrate a) now
    else mret (a_track a, a_recv a)) = Ok (t, a_recv a) /\ at_rest d t
      /\ packets (d_pacer t) = packets (d_pacer d)) as (t & -> & H4 & H5).
  { destruct (_ || _)%bool; [|by exists (a_track a)].
    destruct (change_simple (a_track a) (a_recv a) (maxRatePacketLoss a) (expectedMinBitrate a) now)
      as (t & Ht' & H4 & H5).
    - destruct H1 as ([= _ H1 _ _ _] & _). congruence.
    - destruct H3 as [(_ & _ & _ & -> & _) _]. done.
    - destruct H1 as ([= _ _ _ _ H1] & _). congruence.
    - exists t. split; [done|]. split; [by etransitivity|congruence]. }
  cbn [mbind go_bind fst snd]. destruct (0 <? len (fwdPkts a)) eqn:Ef; [|intros _; by eexists _, _].
  change (@SendRTCP rcv webrtc_receiver) with w_SendRTCP. intros Hg.
  assert (is_ok (w_SendRTCP (a_recv a) now (fwdPkts a)) = true) as Hgo.
  { destruct Hg as [Hg|Hc]; [by destruct (w_SendRTCP _ _ _)|].
    apply send_rtcp_room; [intros E; by rewrite E in Ef|]. injection Hside as Hch _ _.
    unfold can_send. by rewrite Hch. }
  destruct (w_SendRTCP (a_recv a) now (fwdPkts a)) as [r2|] eqn:Hr2; [|done].
  apply send_rtcp_but, but_same_rcv in Hr2 as Hs.
  cbn [mbind go_bind mret go_ret]. eexists _, _. split; [reflexivity|]. split_and!; try done.
  by etransitivity.
Qed.
End simple_rtcp.

(** ** The invariant *)

(** [sinv h r ds]: the goroutine holds the lock [h]; the tracks are exactly
    those of layer 0, each once, and none of them is a simulcast track. *)
Record sinv (h : option Z) (r : rcv) (ds : tracks) : Prop := {
  si_held : held r = h;
  si_three : three r;
  si_simple : isSimulcast (rv r) = false;
  si_list : forall dt, dt ∈ lay r 0 -> exists d, ds !! dt_addr dt = Some d /\ d_ref d = dt;
  si_nodup : NoDup (lay r 0);
  si_track : forall a d, ds !! a = Some d -> dt_addr (d_ref d) = a /\ d_ref d ∈ lay r 0
    /\ dt_wf d /\ d_trackType d = SimpleDownTrack /\ spatialLayer d = 0;
  si_cache : forall ba b, rv_bufs r !! ba = Some b -> cache_ok b }.

(** What the invariant knows of a track *)
Definition hook (d : DownTrack) := (d_ref d, d_trackType d, spatialLayer d).

Lemma ident_hook d d' : ident d' = ident d -> hook d' = hook d.
Proof. unfold hook. by intros [= -> -> _ _ ->]. Qed.

Lemma sinv_update h r r' ds a d d' :
  sinv h r ds -> same_rcv r r' -> ds !! a = Some d -> hook d' = hook d -> (dt_wf d -> dt_wf d') ->
  sinv h r' (<[a := d']> ds).
Proof.
  intros [H1 H2 H3 H4 H5 H6 H7] [Hs Hb] Ha [= Hr Ht Hsp] Hwf.
  pose proof Hs as (_ & _ & Esim & _ & Ehd). split.
  - congruence.
  - by rewrite <-Hs.
  - congruence.
  - intros dt. rewrite <-Hs. intros Hin. destruct (H4 dt Hin) as (d0 & Hd & Hrf).
    destruct (decide (dt_addr dt = a)) as [E|E].
    + exists d'. rewrite <-E, lookup_insert_eq. split; [done|].
      replace d0 with d in Hrf by congruence. congruence.
    + exists d0. by rewrite lookup_insert_ne.
  - by rewrite <-Hs.
  - intros b d0 [[<- <-]|[Hn Hd]]%lookup_insert_Some; rewrite <-Hs.
    + destruct (H6 _ _ Ha) as (? & ? & ? & ? & ?). rewrite Hr, Ht, Hsp. split_and!; auto.
    + by apply H6.
  - by rewrite Hb.
Qed.

Lemma sinv_hold h h' r ds : sinv h r ds -> sinv h' (r <| held := h' |>) ds.
Proof. by intros []. Qed.

Lemma sinv_channel h r r' ds : sinv h r ds -> but_rtcp r r' -> sinv h r' ds.
Proof. intros [] [(last & ch & ->) _]. by split. Qed.

(** One packet, offered to tracks of the layer: each of them gets it once. *)
Lemma write_all_simple l h r ds e now :
  sinv h r ds -> (forall dt, dt ∈ l -> dt ∈ lay r 0) -> NoDup l -> goes r now (write_all r ds e now l) ->
  exists r' ds', write_all r ds e now l = Ok (r', ds') /\ sinv h r' ds' /\ same_rcv r r'
    /\ forall a d, ds !! a = Some d -> exists d', ds' !! a = Some d' /\ ident d' = ident d
         /\ if decide (d_ref d ∈ l)
            then exists r1 r2, WriteRTP (R:=rcv) d r1 e now = Ok (d', r2)
            else d' = d.
Proof.
  revert r ds. induction l as [|dt l IH]; intros r ds Hi Hl Hnd Hg.
  { exists r, ds. split; [done|]. split; [done|]. split; [done|]. intros a d Ha. exists d.
    split; [done|]. split; [done|]. by rewrite decide_False by (by apply not_elem_of_nil). }
  apply NoDup_cons in Hnd as [Hni Hnd].
  destruct (si_list _ _ _ Hi dt) as (d & Hd & Hrf); [set_solver|].
  destruct (si_track _ _ _ Hi _ _ Hd) as (_ & _ & Hwf & Hty & _).
  cbn [write_all] in *. rewrite Hd in *. apply goes_head in Hg as Hg1.
  assert (exists d' r1, WriteRTP d r e now = Ok (d', r1) /\ dt_wf d' /\ ident d' = ident d
    /\ same_rcv r r1) as (d' & r1 & Hw & Hwf' & Hid & Hs).
  { revert Hg1. unfold WriteRTP. rewrite Hty. destruct (_ || _)%bool; [intros _; by exists d, r|]. intros Hg1.
    destruct (write_simple d r e now Hwf Hg1) as (d' & r1 & ? & ? & ? & ? & _). by exists d', r1. }
  rewrite Hw in *. cbn [mbind go_bind fst snd] in *.
  assert (sinv h r1 (<[dt_addr dt := d']> ds)) as Hi1 by (eapply sinv_update; try done; by apply ident_hook).
  destruct (IH r1 (<[dt_addr dt := d']> ds)) as (r2 & ds2 & Hw2 & Hi2 & Hs2 & Htr); [done| |done| |].
  { intros x Hx. destruct Hs as [Hs _]. rewrite <-Hs. set_solver. }
  { destruct Hg as [Hg|Hg]; [by left|right]. by eapply write_sendable. }
  exists r2, ds2. split; [done|]. split; [done|]. split; [by etransitivity|]. intros a d0 Ha.
  destruct (decide (a = dt_addr dt)) as [->|Hn].
  - replace d0 with d in * by congruence. destruct (Htr (dt_addr dt) d') as (d2 & H1 & H2 & H3).
    { by rewrite lookup_insert_eq. }
    exists d2. split; [done|]. split; [congruence|].
    assert (d_ref d' = dt) as Hrf' by (injection Hid; congruence).
    rewrite decide_False in H3 by (by rewrite Hrf'). subst d2.
    rewrite decide_True by (rewrite Hrf; left). by exists r, r1.
  - destruct (Htr a d0) as (d2 & H1 & H2 & H3); [by rewrite lookup_insert_ne|].
    exists d2. split; [done|]. split; [done|].
    assert (d_ref d0 <> dt) as Hne.
    { intros <-. destruct (si_track _ _ _ Hi _ _ Ha) as [? _]. congruence. }
    destruct (decide (d_ref d0 ∈ l)) as [Hin|Hin];
      [rewrite decide_True by (by right)|rewrite decide_False by set_solver]; done.
Qed.

Lemma write_packet_simple r ds e now :
  sinv None r ds -> goes r now (write_packet r ds 0 e now) ->
  exists r' ds', write_packet r ds 0 e now = Ok (r', ds') /\ sinv None r' ds' /\ rv_bufs r' = rv_bufs r
    /\ forall a d, ds !! a = Some d -> exists d' r1 r2, ds' !! a = Some d' /\ ident d' = ident d
         /\ WriteRTP (R:=rcv) d r1 e now = Ok (d', r2).
Proof.
  intros Hi. unfold write_packet.
  rewrite lock_layer_ok; [|apply Hi|lia|by rewrite (si_held _ _ _ Hi)]. cbn [mbind go_bind].
  change (default [] (default None (downTracks (rv r) !! Z.to_nat 0))) with (lay r 0). intros Hg%goes_head.
  destruct (write_all_simple (lay r 0) (Some 0) (r <| held := Some 0 |>) ds e now)
    as (r' & ds' & -> & Hi' & [_ Hb] & Htr); [by eapply sinv_hold|done|apply Hi|exact Hg|].
  cbn [mbind go_bind mret go_ret fst snd]. exists (r' <| held := None |>), ds'.
  split; [done|]. split; [by eapply sinv_hold|]. split; [done|]. intros a d Ha.
  destruct (Htr a d Ha) as (d' & H1 & H2 & H3).
  rewrite decide_True in H3 by (by apply (si_track _ _ _ Hi a)).
  destruct H3 as (r1 & r2 & H3). by exists d', r1, r2.
Qed.

(** ** The stream of a track *)

(** Where the track [d0] is after the packets [fwd] *)
Definition at_stream (d0 : DownTrack) (fwd : list ExtPacket) (d : DownTrack) : Prop :=
  ident d = ident d0
  /\ match from_start d0 fwd with
     | [] => wiring d = wiring d0 /\ last_sent d = last_sent d0
     | k :: _ => wiring d = wiring (synced d0 k)
     end.

Lemma at_rest_stream d0 fwd d d' : at_stream d0 fwd d -> at_rest d d' -> at_stream d0 fwd d'.
Proof.
  intros [H1 H2] (H3 & H4 & H5 & _). split; [congruence|].
  destruct (from_start d0 fwd); [destruct H2; split; congruence|congruence].
Qed.

Lemma from_start_snoc d l e :
  from_start d (l ++ [e])
  = match from_start d l with
    | [] => if waits d e then [] else [e]
    | k :: post => k :: post ++ [e]
    end.
Proof.
  induction l as [|x l IH]; cbn; [done|]. destruct (waits d x); [exact IH|done].
Qed.

Lemma wiring_inv d d' :
  wiring d = wiring d' ->
  snOffset d = snOffset d' /\ tsOffset d = tsOffset d' /\ d_ssrc d = d_ssrc d'
  /\ d_payloadType d = d_payloadType d' /\ reSync d = reSync d' /\ d_codec d = d_codec d'.
Proof. by intros [= -> -> -> -> -> ->]. Qed.

Lemma waits_codec d d' e : d_codec d = d_codec d' -> waits d e = waits d' e.
Proof. unfold waits, Kind. by intros ->. Qed.

Lemma synced_codec d k : d_codec (synced d k) = d_codec d.
Proof. unfold synced. by destruct (lastSN d =? 0). Qed.

Lemma synced_wiring d d0 k :
  wiring d = wiring d0 -> last_sent d = last_sent d0 ->
  wiring (synced d k) = wiring (synced d0 k).
Proof.
  intros (H1 & H2 & H3 & H4 & H5 & H6)%wiring_inv [= Hn Ht _ _]. unfold synced. rewrite Hn, Ht.
  destruct (lastSN d0 =? 0); unfold wiring; cbn [negb upd settable_DownTrack eta_record snOffset
    tsOffset d_ssrc d_payloadType reSync d_codec]; congruence.
Qed.

Lemma stream_snoc (d0 : DownTrack) fwd (d : DownTrack) (r1 : rcv) e now d' r2 :
  reSync d0 = true -> enabled d0 = true -> d_bound d0 = true -> d_trackType d0 = SimpleDownTrack ->
  dt_wf d -> at_stream d0 fwd d -> WriteRTP d r1 e now = Ok (d', r2) ->
  at_stream d0 (fwd ++ [e]) d'
  /\ exists new, stream d0 (fwd ++ [e]) = stream d0 fwd ++ new
       /\ packets (d_pacer d') = packets (d_pacer d) ++ new /\ (new = [] \/ exists x, new = [x]).
Proof.
  intros Hre Hen Hbd Hty Hwf [Hid Hat]. pose proof Hid as [= _ Ht He Hb _].
  unfold WriteRTP. rewrite Ht, He, Hb, Hty, Hen, Hbd. cbn [negb orb]. intros Hwr.
  destruct (write_simple d r1 e now Hwf) as (d1 & r3 & Hwr' & Hwf1 & Hid1 & _ & Hcase); [left; by rewrite Hwr|].
  rewrite Hwr' in Hwr. revert Hwr. intros [<- _]%ok_pair_inj. unfold at_stream, stream. rewrite from_start_snoc.
  assert (ident d1 = ident d0) as Hid' by congruence.
  destruct (from_start d0 fwd) as [|k post].
  - destruct Hat as [Hw Hl]. pose proof (wiring_inv _ _ Hw) as (_ & _ & _ & _ & Hr & Hc).
    rewrite (waits_codec d d0) in Hcase by done. rewrite Hr, Hre in Hcase.
    destruct Hcase as [(_ & -> & ->)|[Hwt Hcase]].
    + split; [done|]. exists []. rewrite !app_nil_r. auto.
    + rewrite Hwt by done. destruct Hcase as [Hw1 Hp1].
      pose proof (synced_wiring _ _ e Hw Hl) as Hws.
      split; [split; [done|congruence]|]. exists [renumbered d0 e e].
      split; [done|]. split; [|by right; eexists].
      by rewrite Hp1, renumbered_forwarded, (forwarded_wiring _ _ _ Hws).
  - pose proof (wiring_inv _ _ Hat) as (_ & _ & _ & _ & Hr & _).
    assert (reSync d = false) as Hrf by (rewrite Hr; done). rewrite Hrf in Hcase.
    destruct Hcase as [(? & _)|[_ [Hw1 Hp1]]]; [done|].
    split; [split; [done|congruence]|]. exists [renumbered d0 k e].
    split; [by rewrite app_comm_cons, map_app|]. split; [|by right; eexists].
    by rewrite Hp1, renumbered_forwarded, (forwarded_wiring _ _ _ Hat).
Qed.

(** ** Runs *)

Lemma run_job_rest unm (r : rcv) l (d d' : DownTrack) :
  run_job unm r d l = Ok d' -> exists p, d' = d <| d_pacer := p |>.
Proof.
  revert d. induction l as [|m l IH]; intros d; cbn [run_job].
  { intros [= <-]. exists (d_pacer d). by destruct d. }
  assert (Ok d = Ok d' -> exists p, d' = d <| d_pacer := p |>) as Hd
    by (intros [= <-]; exists (d_pacer d); by destruct d).
  destruct (go_index _ _) as [b|]; [|done]. cbn [mbind go_bind].
  destruct (_ ≫= _) as [bu|]; [|exact Hd]. destruct (GetPacket _ _ _) as [[[n dat] err]|]; [|done].
  cbn [mbind go_bind]. destruct err as [[]|]; [exact Hd|apply IH|apply IH|].
  destruct (unm dat) as [p|]; [|apply IH]. intros [q ->]%IH. exists q. by destruct d.
Qed.

Lemma add_simple r ds c id sid a peer now pool best r' d' :
  sinv None r ds -> ds !! a = None ->
  AddDownTrack r (NewDownTrack c id sid (DtRef a peer) now) pool best = Ok (r', d') ->
  sinv None r' (<[a := d']> ds).
Proof.
  intros Hi Ha. unfold AddDownTrack. rewrite (si_simple _ _ _ Hi).
  rewrite lock_layer_ok; [|apply Hi|lia|by rewrite (si_held _ _ _ Hi)].
  cbn [mbind go_bind mret go_ret]. fold (lay r 0). intros [<- <-]%ok_pair_inj.
  change (default [] (default None (downTracks (rv r) !! Z.to_nat 0))) with (lay r 0).
  set (r1 := set_layer r 0 (Some (lay r 0 ++ [DtRef a peer]))).
  match goal with |- sinv None ?x _ => change x with r1 end.
  assert (lay r1 0 = lay r 0 ++ [DtRef a peer]) as Hlay by (apply lay_set_eq; [apply Hi|lia]).
  assert (forall dt, dt ∈ lay r 0 -> dt_addr dt <> a) as Hold.
  { intros dt Hin <-. destruct (si_list _ _ _ Hi dt Hin) as (? & ? & _). congruence. }
  split; try apply Hi.
  - by apply three_set, Hi.
  - intros dt. rewrite Hlay, elem_of_app, list_elem_of_singleton. intros [Hin| ->].
    + destruct (si_list _ _ _ Hi dt Hin) as (d & Hd & Hrf). exists d.
      rewrite lookup_insert_ne; [done|]. specialize (Hold _ Hin). congruence.
    + eexists. cbn [dt_addr]. by rewrite lookup_insert_eq.
  - rewrite Hlay, NoDup_app. split_and!; [apply Hi| |apply NoDup_singleton].
    intros dt Hin ->%list_elem_of_singleton. by apply (Hold _ Hin).
  - intros b d. rewrite Hlay. intros [[<- <-]|[Hn Hd]]%lookup_insert_Some.
    + split_and!; try done. cbn. rewrite elem_of_app. right. by apply list_elem_of_singleton.
    + destruct (si_track _ _ _ Hi _ _ Hd) as (? & ? & ? & ? & ?). split_and!; try done.
      rewrite elem_of_app. by left.
Qed.

Lemma bind_hook f d hs sn now f' d' o :
  d_Bind f d hs sn now = (f', d', o) -> hook d' = hook d /\ (dt_wf d -> dt_wf d').
Proof.
  unfold d_Bind. destruct (codecParametersFuzzySearch (d_codec d) hs) as [c|]; [|by intros [= _ <- _]].
  destruct (GetOrNew f RTCPBufferPacket sn) as [f1 o1]. intros E.
  assert (d' = (let d := d <| d_ssrc := sn |> <| d_payloadType := u8 (c_PayloadType c) |>
      <| reSync := true |> <| enabled := true |> in
    (if String.prefix "video/" (c_MimeType (d_codec d))
     then d <| d_sequencer := Some (newSequencer now) |> else d) <| d_bound := true |>)) as ->
    by by injection E as _ <- _.
  cbv zeta. destruct (String.prefix _ _); (split; [done|intros Hwf]); [apply new_ring_wf|exact Hwf].
Qed.

Section runs.
Context (oor : float -> Z) (unm : option bytes -> option rtp_packet)
  (gext : rtp_packet -> Z -> option bytes) (al : bytes -> option Z) (cb : bool)
  (rtcp_unm : bytes -> list rtcp_packet) (PacketList : NackPair -> list Z)
  (written : rtp_packet -> Z).
Context (unm_nil : unm None = None).
#[local] Abbreviation pipe_step := (pipe_step oor unm gext al cb rtcp_unm PacketList written).
#[local] Abbreviation pipe_run := (pipe_run oor unm gext al cb rtcp_unm PacketList written).

(** What the buffer's channel holds and will be given; and what is known of the
    track [a], which was [d0], after the trace [tr] *)
Definition coming (s : pipe) : list ExtPacket := pl_chan s ++ chan_packets (pl_todo s).

Definition delivered (s0 : pipe) (a : nat) (d0 : DownTrack) (tr : list pipe_obs) (s : pipe) : Prop :=
  coming s0 ++ accepted tr = taken tr ++ coming s
  /\ exists d ins, pl_downs s !! a = Some d /\ at_stream d0 (taken tr) d
       /\ interleave (stream d0 (taken tr)) (resent_to a tr) ins
       /\ packets (d_pacer d0) ++ ins = on_wire a tr ++ packets (d_pacer d).

(** Steps that no trace shows *)
Lemma delivered_quiet s0 a d0 tr s s' :
  delivered s0 a d0 tr s -> coming s' = coming s ->
  (forall d, pl_downs s !! a = Some d -> exists d', pl_downs s' !! a = Some d' /\ at_rest d d'
     /\ packets (d_pacer d') = packets (d_pacer d)) ->
  delivered s0 a d0 (tr ++ []) s'.
Proof.
  intros (H1 & d & ins & H2 & H3 & H4 & H5) Hc Hd. rewrite app_nil_r. unfold delivered. rewrite Hc.
  split; [done|]. destruct (Hd d H2) as (d' & Hd' & Hr & Hp). exists d', ins.
  split_and!; [done|by eapply at_rest_stream|done|congruence].
Qed.

Lemma quiet_insert (ds : tracks) b a d1 d' :
  ds !! b = Some d1 -> at_rest d1 d' -> packets (d_pacer d') = packets (d_pacer d1) ->
  forall d, ds !! a = Some d -> exists d2, <[b := d']> ds !! a = Some d2 /\ at_rest d d2
     /\ packets (d_pacer d2) = packets (d_pacer d).
Proof.
  intros Hb Hr Hp d Ha. destruct (decide (b = a)) as [->|Hn].
  - exists d'. rewrite lookup_insert_eq. by replace d with d1 by congruence.
  - exists d. by rewrite lookup_insert_ne.
Qed.

Definition live (d : DownTrack) : Prop :=
  reSync d = true /\ enabled d = true /\ d_bound d = true /\ d_trackType d = SimpleDownTrack.

(** A packet more in the channel, one taken out of it, and packets sent again *)
Lemma delivered_received s0 a d0 tr s pkt eps s' :
  delivered s0 a d0 tr s -> coming s' = coming s ++ eps -> pl_downs s' = pl_downs s ->
  delivered s0 a d0 (tr ++ [Received pkt eps]) s'.
Proof.
  intros (H5 & d & ins & H6 & H7 & H8 & H9) Hc Hd.
  unfold delivered. rewrite accepted_app, taken_app, resent_to_app, on_wire_app, Hc, Hd. cbn.
  rewrite !app_nil_r. split; [by rewrite app_assoc, H5, <-!app_assoc|]. by exists d, ins.
Qed.

Lemma delivered_forwarded s0 a d0 tr r e ch ds todo o now r' ds' :
  live d0 -> sinv None r ds -> delivered s0 a d0 tr (MkPipe r (e :: ch) ds todo o) ->
  write_packet r ds 0 e now = Ok (r', ds') ->
  sinv None r' ds' /\ delivered s0 a d0 (tr ++ [Forwarded e]) (MkPipe r' ch ds' todo o).
Proof.
  intros (Hre & Hen & Hbd & Hty) Hi (H5 & d & ins & H6 & H7 & H8 & H9) E. unfold coming in H5 at 2.
  cbn [pl_chan pl_downs pl_todo] in *.
  destruct (write_packet_simple r ds e now Hi) as (r1 & ds1 & Hw & Hi1 & _ & Htr); [left; by rewrite E|].
  rewrite Hw in E. apply ok_pair_inj in E as [<- <-]. split; [done|].
  destruct (Htr a d H6) as (d' & r2 & r3 & Hd' & _ & HW).
  destruct (stream_snoc d0 (taken tr) d r2 e now d' r3 Hre Hen Hbd Hty) as (Hat & new & Hs & Hp & Hn);
    [by apply (si_track _ _ _ Hi a)|done..|].
  unfold delivered. rewrite accepted_app, taken_app, resent_to_app, on_wire_app. unfold coming at 2.
  cbn [pl_chan pl_downs pl_todo]. cbn [accepted taken resent_to on_wire map concat omap list_omap app].
  rewrite !app_nil_r. split; [by rewrite H5, <-app_assoc|]. exists d', (ins ++ new).
  rewrite Hs, Hp, !app_assoc, H9. split_and!; try done.
  destruct Hn as [->|[x ->]]; [by rewrite !app_nil_r|by constructor].
Qed.

Lemma interleave_resent (l m ps : list rtp_packet) o :
  interleave l m o -> interleave l (m ++ ps) (o ++ ps).
Proof.
  intros H. induction ps as [|x ps IH] using rev_ind; [by rewrite !app_nil_r|].
  rewrite !app_assoc. by constructor.
Qed.

Lemma delivered_resent s0 a d0 tr s b d p ps s' :
  delivered s0 a d0 tr s -> pl_downs s !! b = Some d -> packets p = packets (d_pacer d) ++ ps ->
  coming s' = coming s -> pl_downs s' = <[b := d <| d_pacer := p |>]> (pl_downs s) ->
  delivered s0 a d0 (tr ++ [Resent b ps]) s'.
Proof.
  intros (H5 & d1 & ins & H6 & H7 & H8 & H9) Hd Hp Hc Hds.
  unfold delivered. rewrite accepted_app, taken_app, resent_to_app, on_wire_app, Hc, Hds.
  cbn [accepted taken resent_to on_wire map concat omap list_omap app].
  rewrite !app_nil_r. split; [done|]. destruct (decide (b = a)) as [<-|Hn].
  - replace d with d1 in * by congruence. exists (d1 <| d_pacer := p |>), (ins ++ ps).
    rewrite lookup_insert_eq. split_and!; [done|by eapply at_rest_stream|by apply interleave_resent|].
    cbn [upd settable_DownTrack eta_record d_pacer]. by rewrite Hp, !app_assoc, H9.
  - exists d1, ins. rewrite lookup_insert_ne, app_nil_r by done. done.
Qed.

(** A packet that leaves a pacer *)
Lemma delivered_wire s0 a d0 tr s b d p p' s' :
  delivered s0 a d0 tr s -> pl_downs s !! b = Some d -> packets (d_pacer d) = p :: packets p' ->
  coming s' = coming s -> pl_downs s' = <[b := d <| d_pacer := p' |>]> (pl_downs s) ->
  delivered s0 a d0 (tr ++ [OnWire b p]) s'.
Proof.
  intros (H5 & d1 & ins & H6 & H7 & H8 & H9) Hd Hp Hc Hds.
  unfold delivered. rewrite accepted_app, taken_app, resent_to_app, on_wire_app, Hc, Hds.
  cbn [accepted taken resent_to on_wire map concat omap list_omap app].
  rewrite !app_nil_r. split; [done|]. destruct (decide (b = a)) as [->|Hn].
  - replace d with d1 in * by congruence. eexists _, ins. rewrite lookup_insert_eq.
    split_and!; [done|by eapply at_rest_stream|done|].
    cbn [upd settable_DownTrack eta_record d_pacer]. rewrite <-app_assoc. cbn [app]. congruence.
  - exists d1, ins. by rewrite lookup_insert_ne, app_nil_r.
Qed.

Lemma pipe_step_inv s0 a d0 tr s obs s' :
  live d0 -> sinv None (pl_rcv s) (pl_downs s) -> delivered s0 a d0 tr s -> pipe_step s obs s' ->
  sinv None (pl_rcv s') (pl_downs s') /\ delivered s0 a d0 (tr ++ obs) s'.
Proof.
  intros Hlive Hi Hdel Hst. destruct Hst; cbn [pl_rcv pl_downs] in *.
  - split.
    + destruct Hi. split; try done. intros ba' b0. cbn [upd settable_rcv eta_record rv_bufs].
      destruct (decide (ba = ba')) as [<-|Hn]; [|rewrite list_lookup_insert_ne by done; by apply si_cache0].
      rewrite list_lookup_insert_eq by (by eapply lookup_lt_Some). intros [= <-].
      eapply (write_cache oor unm gext al cb unm_nil b); try done. by eapply si_cache0.
    + eapply delivered_received; [done| |done]. unfold coming. cbn. by rewrite app_nil_r.
  - split; [done|]. eapply delivered_quiet; [done| |intros d Hd; by exists d].
    unfold coming. cbn. by rewrite <-app_assoc.
  - split; [by eapply sinv_channel, put_but|]. eapply delivered_quiet; [done..|intros d Hd; by exists d].
  - split; [done|]. eapply delivered_quiet; [done| |intros d Hd; by exists d]. by destruct e.
  - by eapply delivered_forwarded.
  - destruct (si_track _ _ _ Hi _ _ H) as (_ & _ & Hwf & Hty1 & Hsp1).
    destruct (rtcp_simple oor rtcp_unm PacketList d r bs now Hwf Hty1) as (d1 & r1 & Hw & Hr & Hp & Hs);
      [apply Hi|done|left; by rewrite H0|].
    match goal with H : handleRTCP _ _ _ _ _ _ _ = _ |- _ => rewrite Hw in H; apply ok_pair_inj in H as [<- <-] end.
    split; [eapply sinv_update; try done; [apply ident_hook, Hr|apply Hr]|].
    eapply delivered_quiet; [done..|]. by apply (quiet_insert ds a0 a d).
  - match goal with H : run_job _ _ _ _ = _ |- _ => destruct (run_job_rest _ _ _ _ _ H) as [p ->] end.
    split; [by eapply (sinv_update None r)|]. by eapply delivered_resent.
  - split; [by destruct Hi|]. eapply delivered_quiet; [done..|]. cbn. intros d Hd. by exists d.
  - split; [by eapply add_simple|]. eapply delivered_quiet; [done..|]. cbn. intros d Hd. exists d.
    split; [|done]. rewrite lookup_insert_ne; [done|]. congruence.
  - match goal with H : d_Bind _ _ _ _ _ = _ |- _ => destruct (bind_hook _ _ _ _ _ _ _ _ H) as [Hh Hw] end.
    split; [by eapply sinv_update|]. eapply delivered_quiet; [done..|]. cbn. intros d1 Hd1.
    exists d1. split; [|done]. rewrite lookup_insert_ne; [done|]. intros ->.
    destruct Hlive as (_ & Hen & _), Hdel as (_ & d2 & ? & Hd2 & [[= _ _ He _ _] _] & _). cbn in Hd2. congruence.
  - split; [by eapply sinv_update|]. destruct out as [q|].
    + inversion H0; subst. eapply delivered_wire; [done..| |done|done]. done.
    + eapply delivered_quiet; [done..|]. apply (quiet_insert ds a0 a d); [done|by split_and!|]. by apply H1.
  - split; [by eapply sinv_channel, put_but|]. eapply delivered_quiet; [done..|intros d Hd; by exists d].
  - split; [by eapply sinv_channel, take_but|]. eapply delivered_quiet; [done..|intros d Hd; by exists d].
  - split; [done|]. eapply delivered_quiet; [done..|intros d Hd; by exists d].
Qed.

(** The channel to the router keeps its bound. *)
Lemma pipe_step_bounded s obs s' : pipe_step s obs s' -> bounded (pl_rcv s) -> bounded (pl_rcv s').
Proof.
  destruct 1; cbn [pl_rcv]; intros Hb; try done.
  - by apply (put_but r p r').
  - by apply (write_packet_bounded _ _ _ _ _ _ H).
  - by apply (rtcp_bounded _ _ _ _ _ _ _ _ H0).
  - pose proof (add_side _ _ _ _ _ H0) as [= Hch _ _]. unfold bounded. by rewrite Hch.
  - by apply (put_but r p r').
  - by apply take_but.
Qed.

(** C1. A track without simulcast, from the wire to the wire: whatever else the
    goroutines do in between, what a down track that was just bound has been
    given to send is the publisher's stream from the first packet it may
    start with, renumbered by one offset, in order, none lost and none twice,
    among the packets sent again on request; what its pacer has sent,
    followed by its queue, is what it was given; what [writeRTP] has taken,
    followed by the channel and what the buffer is about to put on it, is
    what the buffer accepted.  A packet is the value it had when it was
    given.  No packet makes [writeRTP] panic or take a lock twice, nor does
    it wait while the channel to the router has room for one message; when
    that is full, the router's loop, while it runs, makes room by taking one
    ([stop_strands_senders] is about the time after). *)
Theorem end_to_end s0 tr s a d0 :
  live d0 -> sinv None (pl_rcv s0) (pl_downs s0) -> bounded (pl_rcv s0) -> pl_downs s0 !! a = Some d0 ->
  pipe_run s0 tr s ->
  coming s0 ++ accepted tr = taken tr ++ coming s
  /\ (exists d ins, pl_downs s !! a = Some d
       /\ interleave (stream d0 (taken tr)) (resent_to a tr) ins
       /\ packets (d_pacer d0) ++ ins = on_wire a tr ++ packets (d_pacer d))
  /\ (can_send (pl_rcv s) -> forall e now, is_ok (write_packet (pl_rcv s) (pl_downs s) 0 e now) = true)
  /\ (can_send (pl_rcv s) \/ length (rtcpCh (rv (pl_rcv s))) = rtcpCh_cap
       /\ (pl_open s = true -> exists s', pipe_step s [] s' /\ can_send (pl_rcv s')
             /\ pl_rcv s' = take_rtcp (pl_rcv s) /\ pl_downs s' = pl_downs s)).
Proof.
  intros Hl Hi Hb Ha Hrun.
  assert (sinv None (pl_rcv s) (pl_downs s) /\ bounded (pl_rcv s) /\ delivered s0 a d0 tr s)
    as (Hs & Hbs & H1 & d & ins & H2 & _ & H3 & H4).
  { induction Hrun as [|tr s obs s' _ (IHi & IHb & IHd) Hst].
    - split; [done|]. split; [done|]. split; [by rewrite app_nil_r|]. exists d0, [].
      split; [done|]. split; [by split|]. split; [constructor|by rewrite app_nil_r].
    - destruct (pipe_step_inv s0 a d0 tr s obs s' Hl IHi IHd Hst) as [? ?].
      split_and!; [done| |done]. by eapply pipe_step_bounded. }
  split; [done|]. split; [by exists d, ins|]. split.
  - intros Hc e now. destruct (write_packet_simple _ _ e now Hs) as (? & ? & -> & _); [by right; left|done].
  - destruct (bounded_room _ Hbs) as [?|[Hf Hc]]; [by left|right]. split; [done|]. intros Ho.
    destruct s as [r ch ds todo o]. cbn [pl_rcv pl_open pl_downs] in *. subst o.
    destruct (rtcpCh (rv r)) as [|p rch] eqn:E; [done|].
    exists (MkPipe (take_rtcp r) ch ds todo true). split_and!; try done. by eapply pl_take.
Qed.
End runs.

(** ** An audio track with one subscriber *)

Definition ex_opus : RTPCodec := MkRTPCodec "audio/opus" 48000 EmptyString 111.
Definition ex_pipe_buffer : Buffer := (from_ok ex_audio (NewBuffer 99, [])).1.
Definition ex_pipe_rcv : rcv :=
  MkRcv (AddUpTrack (NewWebRTCReceiver (MkTrackRemote EmptyString 99) "t" "s" TypeAudio ex_opus "pub")
           (MkTrackRemote EmptyString 99) 0%nat) [ex_pipe_buffer] None.
Definition ex_pipe_new : DownTrack := NewDownTrack ex_opus "t" "s" (DtRef 7 "sub") 0.
Definition ex_pipe_hung : rcv * DownTrack :=
  from_ok (AddDownTrack ex_pipe_rcv ex_pipe_new [] false) (ex_pipe_rcv, ex_pipe_new).
Definition ex_pipe_bound : DownTrack := (d_Bind NewBufferFactory ex_pipe_hung.2 [ex_opus] 55 0).1.2.
Definition ex_pipe : pipe := MkPipe ex_pipe_hung.1 [] (<[7%nat := ex_pipe_bound]> ∅) [] true.

Lemma ex_pipe_inv : sinv None (pl_rcv ex_pipe) (pl_downs ex_pipe).
Proof.
  assert (sinv None ex_pipe_rcv ∅) as H0.
  { split; try done.
    - intros dt Hin. by apply elem_of_nil in Hin.
    - constructor.
    - intros [|ba] b; [|done]. intros Hb k Hk.
      change (Some ex_pipe_buffer = Some b) in Hb. apply (inj Some) in Hb as <-.
      assert (bucket ex_pipe_buffer = Some (NewBucket ex_pool false)) as Hb by (vm_compute; reflexivity).
      rewrite Hb in Hk. apply (inj Some) in Hk as <-. apply (rf_wf _ _ (refines_new ex_pool false ltac:(vm_compute; done))). }
  assert (sinv None ex_pipe_hung.1 (<[7%nat := ex_pipe_hung.2]> ∅)) as H1.
  { apply (add_simple ex_pipe_rcv ∅ ex_opus "t" "s" 7 "sub" 0 [] false); [done|done|].
    fold ex_pipe_new. unfold ex_pipe_hung. rewrite <-surjective_pairing.
    refine (from_ok_eq _ _ _). vm_compute. reflexivity. }
  unfold ex_pipe, ex_pipe_bound. cbn [pl_rcv pl_downs].
  destruct (d_Bind NewBufferFactory ex_pipe_hung.2 [ex_opus] 55 0) as [[f' d'] o] eqn:E. cbn [fst snd].
  destruct (bind_hook _ _ _ _ _ _ _ _ E) as [Hh Hw].
  rewrite <-(insert_insert_eq ∅ 7%nat d' ex_pipe_hung.2).
  apply (sinv_update None ex_pipe_hung.1 ex_pipe_hung.1 _ 7 ex_pipe_hung.2 d'); done.
Qed.

(** A packet arrives, is forwarded, and leaves at the next tick. *)
Definition ex_first : bytes := ex_pkt 10 0.
Definition ex_written : Buffer * list buf_event * (Z * option buf_error) :=
  from_ok (Write (fun _ => 0) ex_unmarshal Buffer.ex_ext ex_level ex_pipe_buffer false ex_first 0 0)
    (ex_pipe_buffer, [], (0, None)).
Definition ex_sent : ExtPacket := MkExtPacket true 0 0 (RtpPacket false 111 10 0 99 [] [1; 2; 3]) None false.

Definition ex_pipe_trace : list pipe_obs :=
  [Received ex_first (chan_packets ex_written.1.2); Forwarded ex_sent;
   OnWire 7 (RtpPacket false 111 10 0 55 [] [1; 2; 3])].
Abbreviation ex_pipe_run := (pipe_run (fun _ => 0) ex_unmarshal Buffer.ex_ext ex_level false
  (fun _ => []) (fun _ => []) (fun _ => 15)).

Lemma ex_pipe_runs : exists s, ex_pipe_run ex_pipe ex_pipe_trace s.
Proof.
  set (r1 := (pl_rcv ex_pipe) <| rv_bufs := <[0%nat := ex_written.1.1]> (rv_bufs (pl_rcv ex_pipe)) |>).
  set (f := from_ok (write_packet r1 (pl_downs ex_pipe) 0 ex_sent 1) (r1, ∅)).
  set (d1 := default ex_pipe_bound (f.2 !! 7%nat)).
  set (p1 := (d_pacer d1) <| phase := Sending 1 8000000 |>).
  set (d2 := d1 <| d_pacer := p1 |>).
  set (p2 := p1 <| packets := [] |> <| lastSend := 8000000 |> <| phase := Sending (1 - 15) 8000000 |>).
  exists (MkPipe f.1 [] (<[7%nat := d2 <| d_pacer := p2 |>]> (<[7%nat := d2]> f.2)) [] true).
  change ex_pipe_trace with ((((([] ++ [Received ex_first (chan_packets ex_written.1.2)]) ++ []) ++ [Forwarded ex_sent]) ++ [])
    ++ [OnWire 7 (RtpPacket false 111 10 0 55 [] [1; 2; 3])]).
  eapply pr_step; [eapply pr_step; [eapply pr_step; [eapply pr_step; [eapply pr_step; [apply pr_start|]|]|]|]|].
  - apply (pl_write _ _ _ _ _ _ _ _ (pl_rcv ex_pipe) [] (pl_downs ex_pipe) true 0 ex_pipe_buffer ex_first 0 0
      ex_written.1.1 ex_written.1.2 ex_written.2).
    + vm_compute. reflexivity.
    + reflexivity.
    + split; [|by vm_compute]. apply (bool_decide_unpack _). vm_compute. done.
    + done.
    + rewrite <-!surjective_pairing. refine (from_ok_eq _ _ _). vm_compute. reflexivity.
  - assert (ex_written.1.2 = [ToChan ex_sent]) as -> by (vm_compute; reflexivity).
    apply pl_put. apply (bool_decide_unpack _). vm_compute. done.
  - apply pl_forward with (now := 1). fold r1. rewrite <-(surjective_pairing f). refine (from_ok_eq _ _ _).
    vm_compute. reflexivity.
  - apply (pl_pacer _ _ _ _ _ _ _ _ f.1 [] f.2 [] true 7 d1 None p1).
    + vm_compute. reflexivity.
    + assert (p1 = (d_pacer d1) <| phase := Sending (tick_budget (fun _ => 0) (d_pacer d1) 8000000) 8000000 |>)
        as -> by (vm_compute; reflexivity).
      apply step_tick; vm_compute; done.
    + intros _. unfold p1. generalize (d_pacer d1). by intros [].
  - apply (pl_pacer _ _ _ _ _ _ _ _ f.1 [] (<[7%nat := d2]> f.2) [] true 7 d2
      (Some (RtpPacket false 111 10 0 55 [] [1; 2; 3])) p2).
    + apply lookup_insert_eq.
    + assert (d_pacer d2 = p1) as -> by (unfold d2; generalize d1; by intros []).
      apply (step_send (fun _ => 0) (fun _ => 15) p1 1 8000000 (RtpPacket false 111 10 0 55 [] [1; 2; 3]) []);
        vm_compute; reflexivity.
    + intros H. discriminate H.
Qed.

Lemma end_to_end_witness :
  exists s, ex_pipe_run ex_pipe ex_pipe_trace s
    /\ on_wire 7 ex_pipe_trace = [RtpPacket false 111 10 0 55 [] [1; 2; 3]]
    /\ exists d ins, pl_downs s !! 7%nat = Some d
         /\ interleave (stream ex_pipe_bound [ex_sent]) [] ins
         /\ ins = on_wire 7 ex_pipe_trace ++ packets (d_pacer d).
Proof.
  destruct ex_pipe_runs as [s Hrun]. exists s. split; [exact Hrun|]. split; [reflexivity|].
  apply (end_to_end _ _ _ _ _ _ _ _ eq_refl ex_pipe _ _ 7%nat ex_pipe_bound) in Hrun
    as (_ & (d & ins & H1 & H2 & H3) & _);
    [|by vm_compute|exact ex_pipe_inv|apply (bool_decide_unpack _); vm_compute; done|reflexivity].
  exists d, ins. split; [exact H1|]. split; [exact H2|].
  assert (packets (d_pacer ex_pipe_bound) = []) as Hp by (vm_compute; reflexivity).
  rewrite Hp in H3. exact H3.
Defined.

Lemma write_accepts_witness :
  chan_packets ex_written.1.2 = [ex_sent]
  /\ sends ex_unmarshal ex_pipe_buffer ex_written.1.1 ex_first 10 0 (chan_packets ex_written.1.2).
Proof.
  split; [vm_compute; reflexivity|].
  eapply (write_accepts (fun _ => 0) ex_unmarshal Buffer.ex_ext ex_level false eq_refl ex_pipe_buffer ex_first 10 0 0
    ex_written.1.1 ex_written.1.2 ex_written.2).
  - apply (si_cache _ _ _ ex_pipe_inv 0%nat). reflexivity.
  - split; [|by vm_compute]. apply (bool_decide_unpack _). vm_compute. done.
  - vm_compute. reflexivity.
  - vm_compute. reflexivity.
  - vm_compute. reflexivity.
  - rewrite <-!surjective_pairing. refine (from_ok_eq _ _ _). vm_compute. reflexivity.
Defined.
