(* ===== verification/Simulcast.v ===== *)
(** * The way of a packet with simulcast ([buffer.go], [receiver.go],
      [downtrack.go], [pacer.go] together)

    The pipeline of [Pipeline] for a track of up to three layers: each layer
    has its own buffer, channel and [writeRTP] goroutine, and a down track
    moves from layer to layer.  The specification is what a subscriber may
    expect: whole stretches of the layers, one after the other, each from a
    key frame on, under one continuous numbering. *)

From stdpp Require Import gmap.
From S2P Require Import Prelude GoNum GoSlice GoFloat Nack Bucket Helper Sequencer Rtp Buffer Factory Pacer SfuHelper DownTrack Receiver Layers Pipeline.
#[local] Open Scope Z_scope.

(** ** What a subscriber sees

    [picked l segs]: of the packets [l] of all layers, in the order in which
    they were forwarded, the stretches [segs] are sent: none of the layer
    that is being sent is left out, and another layer is entered with a key
    frame. *)
Abbreviation p_ssrc e := (rp_ssrc (Packet e)).

Definition seg_ssrc (segs : list (list ExtPacket)) : option Z :=
  match last segs with Some (k :: _) => Some (p_ssrc k) | _ => None end.

Inductive picked : list ExtPacket -> list (list ExtPacket) -> Prop :=
| pk_nil : picked [] []
| pk_drop l segs e : picked l segs -> seg_ssrc segs <> Some (p_ssrc e) -> picked (l ++ [e]) segs
| pk_more l segs k post e :
    picked l (segs ++ [k :: post]) -> p_ssrc e = p_ssrc k ->
    picked (l ++ [e]) (segs ++ [k :: post ++ [e]])
| pk_switch l segs e :
    picked l segs -> seg_ssrc segs <> Some (p_ssrc e) -> KeyFrame e = true ->
    picked (l ++ [e]) (segs ++ [[e]]).

(** The last newest packet sent, as the subscriber saw it, and when the last
    packet sent arrived *)
Record mark := Mark { mk_sn : Z; mk_ts : Z; mk_arrival : Z }.

(** How far the timestamps go on at a switch, [at] being the arrival of the
    last packet: the milliseconds since then, times 90, divided by 1000 *)
Definition switch_gap (arrival : Z) (k : ExtPacket) : Z :=
  let td := u32 (go_div (i64 (go_div (i64 (Arrival k - arrival)) 1000000 * 90)) 1000) in
  if td =? 0 then 1 else td.

(** Number and timestamp of the first packet of a stretch: those it has at
    first, later those that follow the last newest one *)
Definition base (m : option mark) (k : ExtPacket) : Z * Z :=
  match m with
  | None => (rp_sn (Packet k), rp_ts (Packet k))
  | Some m => (mk_sn m + 1, mk_ts m + switch_gap (mk_arrival m) k)
  end.

Definition shifted (d0 : DownTrack) (b : Z * Z) (k e : ExtPacket) : rtp_packet :=
  let p := Packet e in
  p <| rp_pt := d_payloadType d0 |>
    <| rp_ts := u32 (b.2 + (rp_ts p - rp_ts (Packet k))) |>
    <| rp_sn := u16 (b.1 + (rp_sn p - rp_sn (Packet k))) |>
    <| rp_ssrc := d_ssrc d0 |>.

Definition mark_packet (b : Z * Z) (k : ExtPacket) (m : mark) (e : ExtPacket) : mark :=
  if Head e
  then Mark (u16 (b.1 + (rp_sn (Packet e) - rp_sn (Packet k))))
         (u32 (b.2 + (rp_ts (Packet e) - rp_ts (Packet k)))) (Arrival e)
  else Mark (mk_sn m) (mk_ts m) (Arrival e).

Definition start_mark (m : option mark) (k : ExtPacket) : mark :=
  match m with None => Mark (rp_sn (Packet k)) (rp_ts (Packet k)) 0 | Some m => m end.

(** A stretch after what was sent before, and all stretches *)
Definition cast_seg (d0 : DownTrack) (st : option mark * list rtp_packet) (seg : list ExtPacket)
  : option mark * list rtp_packet :=
  match seg with
  | [] => st
  | k :: _ =>
      let b := base st.1 k in
      (Some (foldl (mark_packet b k) (start_mark st.1 k) seg), st.2 ++ map (shifted d0 b k) seg)
  end.

Definition cast_all (d0 : DownTrack) (segs : list (list ExtPacket)) : option mark * list rtp_packet :=
  foldl (cast_seg d0) (None, []) segs.

Definition cast (d0 : DownTrack) (segs : list (list ExtPacket)) : list rtp_packet := (cast_all d0 segs).2.

(** The packets of a layer as the publisher sent them: none is missing, and
    none late; and what is sent, numbered without a gap *)
Record in_order (l : list ExtPacket) : Prop := {
  io_head : Forall (fun e => Head e = true) l;
  io_next : forall i e e', l !! i = Some e -> l !! S i = Some e' ->
    rp_sn (Packet e') = u16 (rp_sn (Packet e) + 1) }.

Definition numbered (l : list rtp_packet) : Prop :=
  forall i p p', l !! i = Some p -> l !! S i = Some p' -> rp_sn p' = u16 (rp_sn p + 1).

Definition of_layer (s : Z) (l : list ExtPacket) : list ExtPacket := filter (fun e => p_ssrc e = s) l.

Lemma cast_all_snoc d0 segs seg : cast_all d0 (segs ++ [seg]) = cast_seg d0 (cast_all d0 segs) seg.
Proof. unfold cast_all. by rewrite foldl_app. Qed.

(** One packet more in the last stretch *)
Lemma cast_seg_more d0 st k post e m :
  (cast_seg d0 st (k :: post)).1 = Some m ->
  cast_seg d0 st (k :: post ++ [e])
  = (Some (mark_packet (base st.1 k) k m e),
     (cast_seg d0 st (k :: post)).2 ++ [shifted d0 (base st.1 k) k e]).
Proof.
  unfold cast_seg. cbn [fst snd]. intros Hm. apply (inj Some) in Hm as <-.
  by rewrite app_comm_cons, foldl_app, map_app, app_assoc.
Qed.

(** ** Continuous numbers *)

Lemma numbered_snoc l x :
  numbered l -> (forall p, last l = Some p -> rp_sn x = u16 (rp_sn p + 1)) -> numbered (l ++ [x]).
Proof.
  intros Hl Hx i p p' Hi Hj. destruct (decide (S i < length l)%nat) as [Hlt|Hge].
  - rewrite lookup_app_l in Hi, Hj by lia. by apply (Hl i).
  - pose proof (lookup_lt_Some _ _ _ Hj) as Hs. rewrite length_app in Hs. cbn in Hs.
    rewrite lookup_app_r in Hj by lia. replace (S i - length l)%nat with 0%nat in Hj by lia.
    injection Hj as <-. rewrite lookup_app_l in Hi by lia. apply Hx. rewrite last_lookup.
    by replace (pred (length l)) with i by lia.
Qed.

Lemma in_order_snoc l e :
  in_order (l ++ [e]) ->
  in_order l /\ Head e = true /\ forall e0, last l = Some e0 -> rp_sn (Packet e) = u16 (rp_sn (Packet e0) + 1).
Proof.
  intros [Hh Hn]. apply Forall_app in Hh as [Hh He]. apply Forall_cons in He as [He _]. split; [split; [done|]|split; [done|]].
  - intros i x y Hx Hy. apply (Hn i); by apply lookup_app_l_Some.
  - intros e0. rewrite last_lookup. intros H0. apply (Hn (pred (length l))); [by apply lookup_app_l_Some|].
    apply lookup_lt_Some in H0 as Hlt.
    rewrite lookup_app_r by lia. by replace (S (pred (length l)) - length l)%nat with 0%nat by lia.
Qed.

Lemma of_layer_snoc s l e :
  of_layer s (l ++ [e]) = of_layer s l ++ (if decide (p_ssrc e = s) then [e] else []).
Proof. unfold of_layer. rewrite filter_app, filter_cons. by case_decide. Qed.

Lemma in_order_prefix l e :
  (forall s, in_order (of_layer s (l ++ [e]))) -> forall s, in_order (of_layer s l).
Proof.
  intros Ho s. specialize (Ho s). rewrite of_layer_snoc in Ho.
  destruct (decide _); [|by rewrite app_nil_r in Ho]. by apply in_order_snoc in Ho as [? _].
Qed.

(** What is sent while the layers come in order: the last packet sent, and
    the last one of the layer that is being sent *)
Definition cast_tail (d0 : DownTrack) (l : list ExtPacket) (segs : list (list ExtPacket)) : Prop :=
  match last segs with
  | None => cast d0 segs = []
  | Some [] => False
  | Some (k :: post) => exists e0 p m,
      last (k :: post) = Some e0 /\ last (of_layer (p_ssrc k) l) = Some e0
      /\ last (cast d0 segs) = Some p /\ (cast_all d0 segs).1 = Some m /\ mk_sn m = rp_sn p
      /\ rp_sn p = u16 ((base (cast_all d0 (take (length segs - 1) segs)).1 k).1
                        + (rp_sn (Packet e0) - rp_sn (Packet k)))
  end.

Lemma take_snoc_pred {A} (l : list A) x : take (length (l ++ [x]) - 1) (l ++ [x]) = l.
Proof.
  rewrite length_app. replace (length l + length [x] - 1)%nat with (length l) by (cbn; lia).
  apply take_app_length.
Qed.

Lemma cast_numbered d0 l segs :
  picked l segs -> (forall s, in_order (of_layer s l)) -> numbered (cast d0 segs) /\ cast_tail d0 l segs.
Proof.
  induction 1 as [|l segs e _ IH Hs|l segs k post e _ IH He|l segs e _ IH Hs _]; intros Ho.
  - by split.
  - destruct (IH (in_order_prefix _ _ Ho)) as [H1 H2].
    split; [done|]. unfold cast_tail, seg_ssrc in *. destruct (last segs) as [[|k post]|]; [done| |done].
    rewrite of_layer_snoc, decide_False by congruence. by rewrite app_nil_r.
  - destruct (IH (in_order_prefix _ _ Ho)) as [H1 H2].
    unfold cast_tail in *. rewrite last_snoc, take_snoc_pred in *.
    destruct H2 as (e0 & p & m & L1 & L2 & L3 & L4 & L5 & L6).
    specialize (Ho (p_ssrc k)). rewrite of_layer_snoc, decide_True in Ho by done.
    apply in_order_snoc in Ho as (_ & Hh & Hn). specialize (Hn e0 L2).
    unfold cast in *. rewrite cast_all_snoc in *. pose proof (cast_seg_more d0 _ k post e m L4) as ->. cbn [fst snd].
    set (b := base (cast_all d0 segs).1 k) in *.
    assert (rp_sn (shifted d0 b k e) = u16 (b.1 + (rp_sn (Packet e) - rp_sn (Packet k)))) as Hsn by done.
    split.
    + apply numbered_snoc; [done|]. intros p' Hp'. replace p' with p by congruence. rewrite Hsn, L6, Hn. wrap_lia.
    + exists e, (shifted d0 b k e), (mark_packet b k m e).
      rewrite app_comm_cons, !last_snoc, of_layer_snoc, decide_True, last_snoc by done.
      split_and!; try done. unfold mark_packet. by rewrite Hh.
  - destruct (IH (in_order_prefix _ _ Ho)) as [H1 H2].
    specialize (Ho (p_ssrc e)). rewrite of_layer_snoc, decide_True in Ho by done.
    apply in_order_snoc in Ho as (_ & Hh & _).
    assert (forall p, last (cast d0 segs) = Some p -> exists m, (cast_all d0 segs).1 = Some m /\ mk_sn m = rp_sn p) as Hm.
    { intros p Hp. unfold cast_tail in H2. destruct (last segs) as [[|k post]|]; [done| |by rewrite H2 in Hp].
      destruct H2 as (e0 & p' & m & _ & _ & L3 & L4 & L5 & _). exists m. split; [done|congruence]. }
    unfold cast_tail. rewrite last_snoc, take_snoc_pred. unfold cast in *. rewrite cast_all_snoc. cbn [cast_seg fst snd map].
    set (b := base (cast_all d0 segs).1 e).
    assert (rp_sn (shifted d0 b e e) = u16 b.1) as Hsn by (cbn; f_equal; lia).
    split.
    + apply numbered_snoc; [done|]. intros p Hp. destruct (Hm p Hp) as (m & Em & Emk). rewrite Hsn. subst b.
      rewrite Em. cbn [base fst]. by rewrite Emk.
    + exists e, (shifted d0 b e e), (mark_packet b e (start_mark (cast_all d0 segs).1 e) e).
      rewrite !last_snoc, of_layer_snoc, decide_True, last_snoc by done.
      split_and!; try done. unfold mark_packet. by rewrite Hh.
Qed.

(** ** A simulcast track and its stretches *)

(** The track that was [d0] has sent the stretches [segs]. *)
Definition cast_inv (d0 : DownTrack) (segs : list (list ExtPacket)) (d : DownTrack) : Prop :=
  d_ssrc d = d_ssrc d0 /\ d_payloadType d = d_payloadType d0
  /\ match last segs with
     | None => reSync d = true /\ snOffset d = 0 /\ tsOffset d = 0 /\ lastSSRC d = 0 /\ lastTSCalc d = 0
     | Some [] => False
     | Some (k :: _) =>
         let b := base (cast_all d0 (take (length segs - 1) segs)).1 k in
         reSync d = false /\ lastSSRC d = p_ssrc k
         /\ snOffset d = u16 (rp_sn (Packet k) - b.1) /\ tsOffset d = u32 (rp_ts (Packet k) - b.2)
         /\ lastTSCalc d <> 0
         /\ (cast_all d0 segs).1 = Some (Mark (lastSN d) (lastTS d) (lastTSCalc d))
     end.

(** What [cast_inv] depends on *)
Definition cast_view (d : DownTrack) :=
  (d_ssrc d, d_payloadType d, reSync d, snOffset d, tsOffset d, last_sent d).

(** What of a track the stream depends on besides [cast_view] *)
Definition switched_on (d : DownTrack) := (enabled d, d_bound d, d_trackType d).

Lemma cast_inv_view d0 segs d d' : cast_view d' = cast_view d -> cast_inv d0 segs d -> cast_inv d0 segs d'.
Proof. intros [= E1 E2 E3 E4 E5 E6 E7 E8 E9]. unfold cast_inv. by rewrite E1, E2, E3, E4, E5, E6, E7, E8, E9. Qed.

Lemma at_rest_view d d' : at_rest d d' -> cast_view d' = cast_view d.
Proof. intros (_ & (H1 & H2 & H3 & H4 & H5 & _)%wiring_inv & H6 & _). unfold cast_view. congruence. Qed.

Lemma shifted_forwarded d0 d b k e :
  d_ssrc d = d_ssrc d0 -> d_payloadType d = d_payloadType d0 ->
  snOffset d = u16 (rp_sn (Packet k) - b.1) -> tsOffset d = u32 (rp_ts (Packet k) - b.2) ->
  forwarded d (Packet e) = shifted d0 b k e.
Proof.
  intros H1 H2 H3 H4. unfold forwarded, shifted. rewrite H1, H2, H3, H4.
  assert (forall x y z, u16 (x - u16 (y - z)) = u16 (z + (x - y))) as -> by (intros; wrap_lia).
  assert (forall x y z, u32 (x - u32 (y - z)) = u32 (z + (x - y))) as -> by (intros; wrap_lia).
  done.
Qed.

Lemma interleave_nil_r {A} (l m : list A) : interleave l [] m -> m = l.
Proof.
  remember [] as k eqn:E. induction 1 as [|l k m x _ IH|l k m x _ IH]; [done| |by destruct k].
  by rewrite IH.
Qed.

Section packets.
Context {R : Type} {RR : Receiver R}.

Lemma record_sent_only d p newSN newTS layer head d' :
  record_sent d p newSN newTS layer head = Ok d' -> exists s, d' = d <| d_sequencer := s |>.
Proof.
  unfold record_sent. destruct (d_sequencer d) as [s|] eqn:E.
  - destruct (push _ _ _ _ _ _) as [[s' m]|]; [|done]. intros [= <-]. by eexists.
  - intros [= <-]. exists None. destruct d. cbn in *. by subst.
Qed.

(** The track right before a packet is sent *)
Definition adjusted (d : DownTrack) (e : ExtPacket) : DownTrack :=
  if (negb (lastTSCalc d =? 0) && negb (lastSSRC d =? p_ssrc e))%bool then switch_offsets d e
  else if lastTSCalc d =? 0 then d <| lastTS := rp_ts (Packet e) |> <| lastSN := rp_sn (Packet e) |>
  else d.

Lemma simulcast_send_view (d : DownTrack) (r : R) e now d' r' :
  simulcast_send d r e now = Ok (d', r') ->
  let a := adjusted d e in
  packets (d_pacer d') = packets (d_pacer d) ++ [forwarded a (Packet e)]
  /\ d_ssrc d' = d_ssrc d /\ d_payloadType d' = d_payloadType d /\ reSync d' = reSync d
  /\ snOffset d' = snOffset a /\ tsOffset d' = tsOffset a
  /\ lastSSRC d' = p_ssrc e /\ lastTSCalc d' = Arrival e
  /\ lastSN d' = (if Head e then u16 (rp_sn (Packet e) - snOffset a) else lastSN a)
  /\ lastTS d' = (if Head e then u32 (rp_ts (Packet e) - tsOffset a) else lastTS a)
  /\ switched_on d' = switched_on d.
Proof.
  intros H a. unfold simulcast_send in H.
  match type of H with mbind _ (record_sent ?x _ _ _ _ _) = _ => change x with a in H end.
  assert (d_pacer a = d_pacer d /\ d_ssrc a = d_ssrc d /\ d_payloadType a = d_payloadType d
    /\ reSync a = reSync d /\ switched_on a = switched_on d) as (<- & <- & <- & <- & <-)
    by (subst a; unfold adjusted, switch_offsets; by repeat case_match).
  destruct (record_sent a _ _ _ _ _) as [d1|] eqn:E; [|done].
  destruct (record_sent_only _ _ _ _ _ _ _ E) as [s ->]. clear E. clearbody a.
  cbn [mbind go_bind mret go_ret] in H. apply ok_pair_inj in H as [<- _].
  destruct a, (Head e); by split_and!.
Qed.

(** A packet of the layer that is being sent *)
Lemma cast_follow d0 segs k post (d : DownTrack) (r : R) e now d' r' :
  cast_inv d0 (segs ++ [k :: post]) d -> p_ssrc e = p_ssrc k -> Arrival e <> 0 ->
  simulcast_send d r e now = Ok (d', r') ->
  cast_inv d0 (segs ++ [k :: post ++ [e]]) d' /\ switched_on d' = switched_on d
  /\ exists x, cast d0 (segs ++ [k :: post ++ [e]]) = cast d0 (segs ++ [k :: post]) ++ [x]
       /\ packets (d_pacer d') = packets (d_pacer d) ++ [x].
Proof.
  intros (H1 & H2 & Hinv) He Ha (S1 & S2 & S3 & S4 & S5 & S6 & S7 & S8 & S9 & S10 & S11)%simulcast_send_view.
  rewrite last_snoc, take_snoc_pred in Hinv. destruct Hinv as (I1 & I2 & I3 & I4 & I5 & I6).
  assert (adjusted d e = d) as Hadj.
  { unfold adjusted. rewrite I2, He, Z.eqb_refl, andb_false_r. by apply Z.eqb_neq in I5 as ->. }
  rewrite Hadj in *. set (b := base (cast_all d0 segs).1 k) in *.
  rewrite cast_all_snoc in I6. pose proof (cast_seg_more d0 (cast_all d0 segs) k post e _ I6) as Hm.
  fold b in Hm.
  assert (forwarded d (Packet e) = shifted d0 b k e) as Hf by (by apply shifted_forwarded).
  split; [|split; [done|]].
  - unfold cast_inv. rewrite last_snoc, take_snoc_pred, cast_all_snoc, Hm. cbn [fst]. fold b.
    split_and!; try congruence. f_equal. unfold mark_packet. rewrite S8, S9, S10, I3, I4.
    destruct (Head e); [|done]. f_equal; wrap_lia.
  - exists (shifted d0 b k e). rewrite <-Hf, S1. split; [|done].
    unfold cast. rewrite !cast_all_snoc, Hm, <-Hf. done.
Qed.

(** The key frame of another layer *)
Lemma cast_switch d0 segs (d : DownTrack) (r : R) e now d' r' :
  cast_inv d0 segs d -> lastTSCalc d = 0 \/ lastSSRC d <> p_ssrc e -> Arrival e <> 0 ->
  simulcast_send (d <| reSync := false |>) r e now = Ok (d', r') ->
  cast_inv d0 (segs ++ [[e]]) d' /\ switched_on d' = switched_on d
  /\ exists x, cast d0 (segs ++ [[e]]) = cast d0 segs ++ [x]
       /\ packets (d_pacer d') = packets (d_pacer d) ++ [x].
Proof.
  intros (H1 & H2 & Hinv) He Ha (S1 & S2 & S3 & S4 & S5 & S6 & S7 & S8 & S9 & S10 & S11)%simulcast_send_view.
  set (d1 := d <| reSync := false |>) in *.
  change (d_ssrc d1) with (d_ssrc d) in *. change (d_payloadType d1) with (d_payloadType d) in *.
  change (d_pacer d1) with (d_pacer d) in *. change (reSync d1) with false in *.
  set (b := base (cast_all d0 segs).1 e). set (m := start_mark (cast_all d0 segs).1 e).
  assert (snOffset (adjusted d1 e) = u16 (rp_sn (Packet e) - b.1)
    /\ tsOffset (adjusted d1 e) = u32 (rp_ts (Packet e) - b.2)
    /\ lastSN (adjusted d1 e) = mk_sn m /\ lastTS (adjusted d1 e) = mk_ts m
    /\ d_ssrc (adjusted d1 e) = d_ssrc d /\ d_payloadType (adjusted d1 e) = d_payloadType d)
    as (A1 & A2 & A3 & A4 & A5 & A6).
  { unfold adjusted. change (lastTSCalc d1) with (lastTSCalc d). change (lastSSRC d1) with (lastSSRC d).
    destruct (last segs) as [[|k post]|] eqn:El.
    - done.
    - destruct Hinv as (I1 & I2 & I3 & I4 & I5 & I6). destruct He as [He|He]; [done|].
      apply Z.eqb_neq in I5 as ->. apply Z.eqb_neq in He as ->. cbn [negb andb].
      unfold b, m. rewrite I6. unfold base, start_mark, switch_gap. cbn [mk_sn mk_ts mk_arrival fst snd].
      change (ts_gap d1 e) with (ts_gap d e). fold (ts_gap d e). unfold switch_offsets, ts_gap.
      split_and!; try reflexivity.
      + cbn. wrap_lia.
      + cbn -[u32]. wrap_lia.
    - apply last_None in El as ->. destruct Hinv as (I1 & I2 & I3 & I4 & ->). cbn [negb andb Z.eqb].
      change (cast_all d0 []) with (@None mark, @nil rtp_packet) in b, m. subst b m.
      change (snOffset (d1 <| lastTS := rp_ts (Packet e) |> <| lastSN := rp_sn (Packet e) |>)) with (snOffset d).
      change (tsOffset (d1 <| lastTS := rp_ts (Packet e) |> <| lastSN := rp_sn (Packet e) |>)) with (tsOffset d).
      cbn [base fst snd]. rewrite I2, I3, !Z.sub_diag. by split_and!. }
  assert (forwarded (adjusted d1 e) (Packet e) = shifted d0 b e e) as Hf by (apply shifted_forwarded; congruence).
  split; [|split; [done|]].
  - unfold cast_inv. rewrite last_snoc, take_snoc_pred, cast_all_snoc. fold b. cbn [cast_seg fst].
    fold b. fold m. cbn [foldl]. split_and!; try congruence.
    f_equal. unfold mark_packet. rewrite S8, S9, S10, A1, A2, A3, A4.
    destruct (Head e); [|done]. f_equal; wrap_lia.
  - exists (shifted d0 b e e). rewrite <-Hf, S1. split; [|done]. unfold cast. by rewrite cast_all_snoc, Hf.
Qed.

Lemma seg_ssrc_inv d0 segs d :
  cast_inv d0 segs d ->
  (segs = [] /\ reSync d = true /\ lastTSCalc d = 0)
  \/ exists pre k post, segs = pre ++ [k :: post] /\ reSync d = false /\ lastSSRC d = p_ssrc k
       /\ seg_ssrc segs = Some (lastSSRC d).
Proof.
  intros (_ & _ & H). destruct (last segs) as [[|k post]|] eqn:E; [done| |].
  - right. apply last_Some in E as [pre ->]. destruct H as (H1 & H2 & _).
    exists pre, k, post. split_and!; try done. unfold seg_ssrc. by rewrite last_snoc, H2.
  - left. apply last_None in E. by destruct H as (H1 & _ & _ & _ & H2).
Qed.

(** A packet of some layer, offered to the track *)
Lemma write_cast d0 l segs (d : DownTrack) (r : R) e now d' r' :
  picked l segs -> cast_inv d0 segs d -> enabled d = true -> d_bound d = true ->
  d_trackType d = SimulcastDownTrack -> Arrival e <> 0 -> WriteRTP d r e now = Ok (d', r') ->
  exists segs' new, picked (l ++ [e]) segs' /\ cast_inv d0 segs' d' /\ switched_on d' = switched_on d
    /\ cast d0 segs' = cast d0 segs ++ new /\ packets (d_pacer d') = packets (d_pacer d) ++ new
    /\ (new = [] \/ exists x, new = [x]).
Proof.
  intros Hl Hi Hen Hbd Hty Ha. unfold WriteRTP. rewrite Hen, Hbd, Hty. cbn [negb orb].
  unfold writeSimulcastRTP. pose proof (seg_ssrc_inv _ _ _ Hi) as Hcur.
  assert ((negb (lastSSRC d =? p_ssrc e) || reSync d)%bool = true -> seg_ssrc segs <> Some (p_ssrc e)
    /\ (lastTSCalc d = 0 \/ lastSSRC d <> p_ssrc e)) as Hother.
  { intros Ho. destruct Hcur as [(-> & _ & H)|(pre & k & post & -> & H1 & H2 & ->)]; [by split; [|left]|].
    rewrite H1, orb_false_r in Ho. bool_prop. split; [congruence|by right]. }
  assert (seg_ssrc segs <> Some (p_ssrc e) -> Ok (d, r) = Ok (d', r') \/ (exists r1, Ok (d, r1) = Ok (d', r')) ->
    exists segs' new, picked (l ++ [e]) segs' /\ cast_inv d0 segs' d' /\ switched_on d' = switched_on d
    /\ cast d0 segs' = cast d0 segs ++ new /\ packets (d_pacer d') = packets (d_pacer d) ++ new
    /\ (new = [] \/ exists x, new = [x])) as Hdrop.
  { intros Ho H. exists segs, []. rewrite !app_nil_r.
    assert (d' = d) as -> by (destruct H as [H|[r1 H]]; by apply ok_pair_inj in H as [<- _]).
    split; [by constructor|]. by split_and!; try left. }
  destruct (negb (lastSSRC d =? p_ssrc e) || reSync d)%bool eqn:Eo.
  - destruct (Hother eq_refl) as [Hs Ho]. clear Hother.
    destruct (_ && _ && _)%bool; [intros H; apply Hdrop; auto|].
    assert ((if (reSync d && negb (lastTSCalc d =? 0))%bool then d <| lastTSCalc := Arrival e |> else d) = d) as ->.
    { destruct Hcur as [(_ & _ & ->)|(? & ? & ? & _ & -> & _)]; [by rewrite andb_false_r|done]. }
    destruct (KeyFrame e) eqn:Ek; cbn [negb].
    + match goal with |- mbind _ ?m = _ -> _ => destruct m as [r1|]; [|done] end. cbn [mbind go_bind].
      set (ds := d <| spatialLayer := _ |>). intros H.
      destruct (cast_switch d0 segs ds r1 e now d' r') as (H1 & Hsw & x & H2 & H3); [done|done|done|exact H|].
      exists (segs ++ [[e]]), [x]. split; [by apply pk_switch|]. split_and!; try done. right. by exists x.
    + destruct (ask_keyframe d r (Packet e) now) as [r1|]; [|done]. cbn [mbind go_bind mret go_ret].
      intros H. apply Hdrop; [done|]. right. by exists r1.
  - intros H. apply orb_false_iff in Eo as [E1 E2]. apply negb_false_iff, Z.eqb_eq in E1.
    destruct Hcur as [(_ & E & _)|(pre & k & post & -> & _ & E & _)]; [congruence|].
    destruct (cast_follow d0 pre k post d r e now d' r') as (H1 & Hsw & x & H2 & H3); [done|congruence|done|done|].
    exists (pre ++ [k :: post ++ [e]]), [x]. split; [apply pk_more; [done|congruence]|].
    split_and!; try done. right. by exists x.
Qed.
End packets.

(** ** RTCP of the subscriber *)

(** What a layer change touches of a track: the layer and the pause *)
Definition relayered (d d' : DownTrack) : Prop :=
  exists x y, d' = d <| spatialLayer := x |> <| switchDelay := y |>.

Lemma relayered_refl d : relayered d d.
Proof. exists (spatialLayer d), (switchDelay d). by destruct d. Qed.

Lemma relayered_pause d d' y : relayered d d' -> relayered d (d' <| switchDelay := y |>).
Proof. intros (x & z & ->). by exists x, y. Qed.

Lemma relayered_switch d d1 (r1 : rcv) layer d' r' :
  relayered d d1 -> SwitchSpatialLayer d1 r1 layer = Ok (d', r') -> relayered d d'.
Proof.
  intros Hr. unfold SwitchSpatialLayer. destruct (bool_decide _); [|by intros [<- _]%ok_pair_inj].
  destruct (_ || _)%bool; [by intros [<- _]%ok_pair_inj|].
  destruct (SubDownTrack _ _ _) as [[r2 ok]|]; [|done]. destruct Hr as (x & y & ->).
  destruct ok; cbn [mbind go_bind snd fst mret go_ret]; intros [<- _]%ok_pair_inj.
  - by eexists _, y.
  - by exists x, y.
Qed.

Lemma relayered_change d (r : rcv) loss br now d' r' :
  handlerLayerChange d r loss br now = Ok (d', r') -> relayered d d'.
Proof.
  unfold handlerLayerChange. pose proof (relayered_refl d) as Hd.
  destruct (_ && _)%bool; [|by intros [<- _]%ok_pair_inj].
  match goal with |- mbind _ ?m = _ -> _ => destruct m as [cbr|]; [|done] end. cbn [mbind go_bind].
  match goal with |- mbind _ ?m = _ -> _ =>
    assert (forall t r1, m = Ok (t, r1) -> relayered d t) as Hfirst; [|destruct m as [[t r1]|]; [|done]] end.
  { intros t r1. destruct (loss <=? 5); [|by intros [<- _]%ok_pair_inj].
    destruct (_ && _ && _)%bool; [destruct (SwitchSpatialLayer d r _) as [[t1 r2]|] eqn:E; [|done]|];
      cbn [mbind go_bind mret go_ret fst snd]; intros [<- _]%ok_pair_inj; apply relayered_pause; [|done].
    by eapply relayered_switch. }
  specialize (Hfirst t r1 eq_refl). cbn [mbind go_bind fst snd].
  destruct (25 <=? loss); [|by intros [<- _]%ok_pair_inj].
  match goal with |- mbind _ ?m = _ -> _ => destruct m as [lower|]; [|done] end. cbn [mbind go_bind].
  destruct lower.
  - destruct (SwitchSpatialLayer t r1 _) as [[t1 r2]|] eqn:E; [|done].
    cbn [mbind go_bind mret go_ret fst snd]. intros [<- _]%ok_pair_inj.
    apply relayered_pause. by eapply relayered_switch.
  - cbn [mbind go_bind mret go_ret fst snd]. intros [<- _]%ok_pair_inj. by apply relayered_pause.
Qed.

Lemma rtcp_view oor rtcp_unm PacketList (d : DownTrack) (r : rcv) bs now d' r' :
  dt_wf d -> handleRTCP oor rtcp_unm PacketList d r bs now = Ok (d', r') ->
  cast_view d' = cast_view d /\ switched_on d' = switched_on d
  /\ packets (d_pacer d') = packets (d_pacer d).
Proof.
  intros Hwf. unfold handleRTCP.
  destruct (negb (enabled d)); [by intros [<- _]%ok_pair_inj|].
  destruct (handle_packets_rest oor PacketList now (rtcp_unm bs) (RtcpAcc d r true true 0 0 [] false))
    as (a & -> & (Hr & Hp & _)); [done|]. cbn [mbind go_bind a_track a_recv] in *.
  pose proof (at_rest_view _ _ Hr) as Hv. destruct Hr as ([= _ Ht He Hbd _] & _).
  assert (switched_on (a_track a) = switched_on d) as Hs by (unfold switched_on; congruence).
  destruct (failed a); [intros [<- _]%ok_pair_inj; by split_and!|].
  match goal with |- mbind _ ?m = _ -> _ =>
    assert (forall t r1, m = Ok (t, r1) -> relayered (a_track a) t) as Hc;
      [|destruct m as [[t r1]|]; [|done]] end.
  { intros t r1. destruct (_ || _)%bool; [apply relayered_change|].
    intros [<- _]%ok_pair_inj. apply relayered_refl. }
  destruct (Hc t r1 eq_refl) as (x & y & ->). cbn [mbind go_bind fst snd].
  set (t' := (a_track a) <| spatialLayer := x |> <| switchDelay := y |>).
  assert (cast_view t' = cast_view d /\ switched_on t' = switched_on d
    /\ packets (d_pacer t') = packets (d_pacer d)) as (H1 & H2 & H3) by (rewrite <-Hv, <-Hs, <-Hp; by destruct a).
  destruct (0 <? len (fwdPkts a)); [|intros [<- _]%ok_pair_inj; split_and!; congruence].
  destruct (SendRTCP _ _ _) as [r2|]; [|done]. cbn [mbind go_bind mret go_ret].
  intros [<- _]%ok_pair_inj. split_and!; congruence.
Qed.

(** ** One packet, all tracks of its layer *)

(** Each track of the list is given the packet once, the others are not
    touched. *)
Lemma write_all_track l r ds e now r' ds' a d :
  write_all r ds e now l = Ok (r', ds') -> NoDup (map dt_addr l) -> ds !! a = Some d ->
  exists d', ds' !! a = Some d'
    /\ if decide (a ∈ map dt_addr l)
       then exists r1 r2, WriteRTP (R:=rcv) d r1 e now = Ok (d', r2) else d' = d.
Proof.
  revert r ds d. induction l as [|dt l IH]; intros r ds d; cbn [write_all map].
  { intros [_ <-]%ok_pair_inj _ Ha. exists d. split; [done|]. by rewrite decide_False by (by apply not_elem_of_nil). }
  destruct (ds !! dt_addr dt) as [d1|] eqn:E; [|done].
  destruct (WriteRTP d1 r e now) as [[d2 r2]|] eqn:Ew; [|done]. cbn [mbind go_bind fst snd].
  intros Hw [Hni Hnd]%NoDup_cons Ha. destruct (decide (a = dt_addr dt)) as [->|Hn].
  - destruct (IH r2 (<[dt_addr dt := d2]> ds) d2 Hw Hnd) as (d' & Hd' & H); [by rewrite lookup_insert_eq|].
    rewrite decide_False in H by done. subst d'. exists d2. split; [done|].
    rewrite decide_True by left. replace d with d1 by congruence. by exists r, r2.
  - destruct (IH r2 (<[dt_addr dt := d2]> ds) d Hw Hnd) as (d' & Hd' & H); [by rewrite lookup_insert_ne|].
    exists d'. split; [done|]. destruct (decide (a ∈ map dt_addr l)) as [Hin|Hin].
    + by rewrite decide_True by (by right).
    + by rewrite decide_False by set_solver.
Qed.

Section layers.
Context (ssrc : Z -> Z)
  (ssrc_inj : forall k l, is_layer k -> is_layer l -> ssrc k = ssrc l -> k = l).

Lemma lay_addrs h r ds k : rinv ssrc h r ds -> is_layer k -> NoDup (map dt_addr (lay r k)).
Proof.
  intros Hr Hk. apply NoDup_alt. intros i j a Hi Hj. rewrite list_lookup_fmap in Hi, Hj.
  destruct (lay r k !! i) as [x|] eqn:Ex; [|done]. destruct (lay r k !! j) as [y|] eqn:Ey; [|done].
  injection Hi as <-. injection Hj as Hp.
  destruct (ri_mem _ _ _ _ Hr k x Hk) as (d & Hd & Hdx); [by eapply list_elem_of_lookup_2|].
  destruct (ri_mem _ _ _ _ Hr k y Hk) as (d2 & Hd2 & Hdy); [by eapply list_elem_of_lookup_2|].
  apply (proj1 (NoDup_alt _) (ri_nodup _ _ _ _ Hr k Hk) i j x); [done|]. rewrite Ey. congruence.
Qed.

Lemma lay_addr_iff h r ds k a d :
  rinv ssrc h r ds -> is_layer k -> ds !! a = Some d -> a ∈ map dt_addr (lay r k) <-> d_ref d ∈ lay r k.
Proof.
  intros Hr Hk Ha. pose proof (tk_addr _ _ _ _ (ri_track _ _ _ _ Hr a d Ha)) as Hd. split.
  - intros (dt & -> & Hin)%list_elem_of_fmap.
    destruct (ri_mem _ _ _ _ Hr k dt Hk Hin) as (d1 & Hd1 & <-). by replace d with d1 by congruence.
  - intros Hin. apply list_elem_of_fmap. by exists (d_ref d).
Qed.

(** A packet of layer [k]: exactly the tracks of its list are given it. *)
Lemma write_packet_track r ds k e now r' ds' a d :
  rinv ssrc None r ds -> is_layer k -> write_packet r ds k e now = Ok (r', ds') -> ds !! a = Some d ->
  exists d', ds' !! a = Some d'
    /\ if decide (d_ref d ∈ lay r k)
       then exists r1 r2, WriteRTP (R:=rcv) d r1 e now = Ok (d', r2) else d' = d.
Proof.
  intros Hr Hk. unfold write_packet.
  rewrite lock_layer_ok; [|apply Hr|by apply is_layer_range|by rewrite (ri_held _ _ _ _ Hr)].
  cbn [mbind go_bind]. change (default [] (default None (downTracks (rv r) !! Z.to_nat k))) with (lay r k).
  destruct (write_all _ _ _ _ _) as [[r1 ds1]|] eqn:Ew; [|done]. cbn [mbind go_bind mret go_ret fst snd].
  intros [<- <-]%ok_pair_inj Ha. pose proof (lay_addrs _ _ _ _ Hr Hk) as Hnd.
  destruct (write_all_track _ _ _ _ _ _ _ a d Ew Hnd Ha) as (d' & Hd' & H). exists d'. split; [done|].
  pose proof (lay_addr_iff _ _ _ _ _ _ Hr Hk Ha) as Hiff.
  destruct (decide (d_ref d ∈ lay r k)) as [Hin|Hin];
    [rewrite decide_True in H by tauto|rewrite decide_False in H by tauto]; done.
Qed.

(** A track that is not in the list of a layer is not sending that layer. *)
Lemma not_hung_other r ds k a d d0 segs e :
  rinv ssrc None r ds -> is_layer k -> ds !! a = Some d -> d_ref d ∉ lay r k -> p_ssrc e = ssrc k ->
  enabled d = true -> cast_inv d0 segs d -> seg_ssrc segs <> Some (p_ssrc e).
Proof.
  intros Hr Hk Ha Hni He Hen Hi. destruct (seg_ssrc_inv _ _ _ Hi) as [(-> & _)|(pre & kk & post & _ & Hre & _ & ->)]; [done|].
  intros [= Hs]. destruct (ri_track _ _ _ _ Hr _ _ Ha) as [_ _ _ (ph & Hph & Hh)]. apply Hni, (Hh k Hk).
  destruct ph as [l|l|l t]; cbn [members].
  - destruct Hph as (_ & E & _). congruence.
  - destruct Hph as (Hl & _ & [= _ _ E _]). apply list_elem_of_singleton, ssrc_inj; (done || congruence).
  - destruct Hph as (Hl & _ & _ & _ & [= _ _ E _]). rewrite elem_of_cons. left. apply ssrc_inj; (done || congruence).
Qed.

(** ** States and steps *)

(** The receiver with its buffers and [rtcpCh]; the channels of the three
    buffers; the down tracks; what [Write] has still to send for each buffer,
    the buffer's lock held; whether the router's [sendRTCP] runs *)
Record cast_pipe := MkCast {
  ca_rcv : rcv;
  ca_chans : list (list ExtPacket);
  ca_downs : tracks;
  ca_todo : list (list buf_event);
  ca_open : bool }.

Definition at_layer {A} (l : list (list A)) (k : Z) : list A := default [] (l !! Z.to_nat k).

Lemma at_layer_insert {A} k j (l : list (list A)) x :
  length l = 3%nat -> is_layer k -> is_layer j ->
  at_layer (<[Z.to_nat k := x]> l) j = if decide (j = k) then x else at_layer l j.
Proof.
  intros H3 Hk Hj. unfold at_layer. destruct (decide (j = k)) as [->|Hn].
  - rewrite list_lookup_insert_eq; [done|]. destruct Hk as [->|[->| ->]]; rewrite H3; cbn; lia.
  - rewrite list_lookup_insert_ne; [done|]. unfold is_layer in *. lia.
Qed.

(** What the channel of a layer holds and will be given *)
Definition c_coming (k : Z) (s : cast_pipe) : list ExtPacket :=
  at_layer (ca_chans s) k ++ chan_packets (at_layer (ca_todo s) k).

(** As [pipe_obs], with the layer of a packet *)
Inductive cast_obs :=
| CReceived (k : Z) (pkt : bytes) (eps : list ExtPacket)
| CForwarded (k : Z) (e : ExtPacket)
| CResent (a : nat) (ps : list rtp_packet)
| COnWire (a : nat) (p : rtp_packet).

Context (oor : float -> Z) (unm : option bytes -> option rtp_packet)
  (gext : rtp_packet -> Z -> option bytes) (al : bytes -> option Z) (cb : bool)
  (rtcp_unm : bytes -> list rtcp_packet) (PacketList : NackPair -> list Z)
  (written : rtp_packet -> Z).

(** As [pipe_step], with a buffer, its channel and a [writeRTP] for each
    layer.  pion gives the buffer of a layer the packets of the layer's SSRC.
    As in [world_step], a layer comes up once, and RTCP of a track before its
    first key frame is excluded: [early_switch_blocks] is what it may do. *)
Inductive cast_step : cast_pipe -> list cast_obs -> cast_pipe -> Prop :=
| ca_up r chs ds tds o track buff :
    upTracks (rv r) !! rid_layer (t_RID track) = Some None ->
    cast_step (MkCast r chs ds tds o) [] (MkCast (r <| rv := AddUpTrack (rv r) track buff |>) chs ds tds o)
| ca_write r chs ds tds o k ba b pkt now now' b' evs res :
    is_layer k -> at_layer tds k = [] ->
    buffers (rv r) !! Z.to_nat k = Some (Some ba) -> rv_bufs r !! ba = Some b ->
    wire_bytes pkt -> 0 < now -> is_i64 now -> (forall p, unm (Some pkt) = Some p -> rp_ssrc p = ssrc k) ->
    Write oor unm gext al b cb pkt now now' = Ok (b', evs, res) ->
    cast_step (MkCast r chs ds tds o) [CReceived k pkt (chan_packets evs)]
      (MkCast (r <| rv_bufs := <[ba := b']> (rv_bufs r) |>) chs ds (<[Z.to_nat k := evs]> tds) o)
| ca_put r chs ds tds o k e todo :
    is_layer k -> at_layer tds k = ToChan e :: todo -> (length (at_layer chs k) < packetChan_cap)%nat ->
    cast_step (MkCast r chs ds tds o) []
      (MkCast r (<[Z.to_nat k := at_layer chs k ++ [e]]> chs) ds (<[Z.to_nat k := todo]> tds) o)
| ca_feedback r chs ds tds o k p todo r' :
    is_layer k -> at_layer tds k = Feedback p :: todo -> put_rtcp r p = Ok r' ->
    cast_step (MkCast r chs ds tds o) [] (MkCast r' chs ds (<[Z.to_nat k := todo]> tds) o)
| ca_silent r chs ds tds o k e todo :
    is_layer k -> at_layer tds k = e :: todo -> silent e ->
    cast_step (MkCast r chs ds tds o) [] (MkCast r chs ds (<[Z.to_nat k := todo]> tds) o)
| ca_forward r chs ds tds o k e ch now r' ds' :
    is_layer k -> at_layer chs k = e :: ch -> write_packet r ds k e now = Ok (r', ds') ->
    cast_step (MkCast r chs ds tds o) [CForwarded k e] (MkCast r' (<[Z.to_nat k := ch]> chs) ds' tds o)
| ca_rtcp r chs ds tds o a d bs now d' r' :
    ds !! a = Some d -> reSync d = false -> handleRTCP oor rtcp_unm PacketList d r bs now = Ok (d', r') ->
    cast_step (MkCast r chs ds tds o) [] (MkCast r' chs (<[a := d']> ds) tds o)
| ca_resend r chs ds tds o ref m ms ms' jobs d d' ps :
    nackJobs (rv r) = MkJob ref (m :: ms) :: jobs -> at_layer tds (pm_layer m) = [] ->
    ds !! dt_addr ref = Some d -> run_job (fun b => unm (Some b)) r d [m] = Ok d' -> ms' = ms \/ ms' = [] ->
    packets (d_pacer d') = packets (d_pacer d) ++ ps ->
    cast_step (MkCast r chs ds tds o) [CResent (dt_addr ref) ps]
      (MkCast (put_job r (MkJob ref ms' :: jobs)) chs (<[dt_addr ref := d']> ds) tds o)
| ca_resent r chs ds tds o ref jobs :
    nackJobs (rv r) = MkJob ref [] :: jobs ->
    cast_step (MkCast r chs ds tds o) [] (MkCast (put_job r jobs) chs ds tds o)
| ca_add r chs ds tds o c id sid a peer now pool best r' d' :
    ds !! a = None -> (forall b d, ds !! b = Some d -> dt_peer (d_ref d) <> peer) ->
    Exists (fun t => t <> None) (upTracks (rv r)) ->
    AddDownTrack r (NewDownTrack c id sid (DtRef a peer) now) pool best = Ok (r', d') ->
    cast_step (MkCast r chs ds tds o) [] (MkCast r' chs (<[a := d']> ds) tds o)
| ca_bind r chs ds tds o a d f hs sn now f' d' ok :
    ds !! a = Some d -> enabled d = false -> is_u32 sn -> d_Bind f d hs sn now = (f', d', ok) ->
    cast_step (MkCast r chs ds tds o) [] (MkCast r chs (<[a := d']> ds) tds o)
| ca_pacer r chs ds tds o a d out p' :
    ds !! a = Some d -> pacer_step oor written (d_pacer d) out p' ->
    (out = None -> packets p' = packets (d_pacer d)) ->
    cast_step (MkCast r chs ds tds o) (match out with Some p => [COnWire a p] | None => [] end)
      (MkCast r chs (<[a := d <| d_pacer := p' |>]> ds) tds o)
| ca_other r chs ds tds o p r' :
    put_rtcp r p = Ok r' -> cast_step (MkCast r chs ds tds o) [] (MkCast r' chs ds tds o)
| ca_take r chs ds tds p rch :
    rtcpCh (rv r) = p :: rch ->
    cast_step (MkCast r chs ds tds true) [] (MkCast (take_rtcp r) chs ds tds true)
| ca_stop r chs ds tds :
    cast_step (MkCast r chs ds tds true) [] (MkCast r chs ds tds false).

Inductive cast_run (s0 : cast_pipe) : list cast_obs -> cast_pipe -> Prop :=
| cr_start : cast_run s0 [] s0
| cr_step tr s obs s' : cast_run s0 tr s -> cast_step s obs s' -> cast_run s0 (tr ++ obs) s'.

(** ** Traces *)

Definition c_accepted (k : Z) (tr : list cast_obs) : list ExtPacket :=
  concat (map (fun o => match o with CReceived j _ eps => if decide (j = k) then eps else [] | _ => [] end) tr).
Definition c_taken (k : Z) (tr : list cast_obs) : list ExtPacket :=
  omap (fun o => match o with CForwarded j e => if decide (j = k) then Some e else None | _ => None end) tr.
(** The packets of all layers *)
Definition c_offered (tr : list cast_obs) : list ExtPacket :=
  omap (fun o => match o with CForwarded _ e => Some e | _ => None end) tr.
Definition c_resent (a : nat) (tr : list cast_obs) : list rtp_packet :=
  concat (map (fun o => match o with CResent b ps => if decide (b = a) then ps else [] | _ => [] end) tr).
Definition c_wire (a : nat) (tr : list cast_obs) : list rtp_packet :=
  omap (fun o => match o with COnWire b p => if decide (b = a) then Some p else None | _ => None end) tr.

Lemma c_accepted_app k t u : c_accepted k (t ++ u) = c_accepted k t ++ c_accepted k u.
Proof. unfold c_accepted. by rewrite map_app, concat_app. Qed.
Lemma c_taken_app k t u : c_taken k (t ++ u) = c_taken k t ++ c_taken k u.
Proof. apply omap_app. Qed.
Lemma c_offered_app t u : c_offered (t ++ u) = c_offered t ++ c_offered u.
Proof. apply omap_app. Qed.
Lemma c_resent_app a t u : c_resent a (t ++ u) = c_resent a t ++ c_resent a u.
Proof. unfold c_resent. by rewrite map_app, concat_app. Qed.
Lemma c_wire_app a t u : c_wire a (t ++ u) = c_wire a t ++ c_wire a u.
Proof. apply omap_app. Qed.

(** ** The invariant *)

(** A packet of layer [k] in its channel *)
Definition chan_ok (k : Z) (e : ExtPacket) : Prop := p_ssrc e = ssrc k /\ Arrival e <> 0.

Record cinv (s : cast_pipe) : Prop := {
  ci_rinv : rinv ssrc None (ca_rcv s) (ca_downs s);
  ci_cache : forall ba b, rv_bufs (ca_rcv s) !! ba = Some b -> cache_ok b;
  ci_chans : length (ca_chans s) = 3%nat;
  ci_todo : length (ca_todo s) = 3%nat;
  ci_chan : forall k, is_layer k -> Forall (chan_ok k) (c_coming k s) }.

Lemma rinv_bufs h r ds x : rinv ssrc h r ds -> rinv ssrc h (r <| rv_bufs := x |>) ds.
Proof. intros [H1 H2 H3 H4 H5 H6 H7 H8 H9]. split; try done. intros a d Ha. by destruct (H6 a d Ha). Qed.

Lemma rinv_job h r ds x : rinv ssrc h r ds -> rinv ssrc h (put_job r x) ds.
Proof. intros [H1 H2 H3 H4 H5 H6 H7 H8 H9]. split; try done. intros a d Ha. by destruct (H6 a d Ha). Qed.

Lemma rinv_pacer h r ds a d p :
  rinv ssrc h r ds -> ds !! a = Some d -> rinv ssrc h r (<[a := d <| d_pacer := p |>]> ds).
Proof. intros Hr Ha. apply (rinv_kept ssrc h r r ds a d); try done. Qed.

Lemma write_sent (unm_nil : unm None = None) b pkt now now' b' evs res :
  cache_ok b -> wire_bytes pkt -> Write oor unm gext al b cb pkt now now' = Ok (b', evs, res) ->
  Forall (fun e => Arrival e = now /\ unm (Some pkt) = Some (Packet e)) (chan_packets evs).
Proof.
  intros Hb Hw. unfold Write. destruct (closed b); [by intros [= _ <- _]|].
  destruct (negb (bound b)); [by intros [= _ <- _]|].
  destruct (calc _ _ _ _ _ _ _ _ _) as [[b2 ev]|] eqn:E; [|done]. cbn [mbind go_bind mret go_ret].
  intros [= _ -> _]. destruct (calc_sends oor unm gext al cb unm_nil _ _ _ _ _ _ Hb Hw E) as (_ & sn & _ & Hs).
  unfold sends in Hs. destruct (unm (Some pkt)) as [p|] eqn:Eu; [|by rewrite Hs].
  destruct (codec_payload b (rp_payload p)) as [[[v key]|]|]; [|by rewrite Hs..].
  destruct Hs as [->|[_ ->]]; [|done]. by repeat constructor.
Qed.

(** A step that leaves the channels and what comes into them alone *)
Lemma cinv_quiet s s' :
  cinv s -> rinv ssrc None (ca_rcv s') (ca_downs s') -> rv_bufs (ca_rcv s') = rv_bufs (ca_rcv s) ->
  ca_chans s' = ca_chans s -> ca_todo s' = ca_todo s -> cinv s'.
Proof.
  intros [H1 H2 H3 H4 H5] Hr Hb Hc Ht. split; rewrite ?Hc, ?Ht, ?Hb; try done.
  intros k Hk. unfold c_coming. rewrite Hc, Ht. by apply H5.
Qed.

(** What a step over one layer's channel makes of what comes *)
Lemma coming_insert s r chs ds tds o k ch td j :
  length (ca_chans s) = 3%nat -> length (ca_todo s) = 3%nat -> is_layer k -> is_layer j ->
  chs = <[Z.to_nat k := ch]> (ca_chans s) -> tds = <[Z.to_nat k := td]> (ca_todo s) ->
  c_coming j (MkCast r chs ds tds o) = if decide (j = k) then ch ++ chan_packets td else c_coming j s.
Proof.
  intros H3 H4 Hk Hj -> ->. unfold c_coming. cbn [ca_chans ca_todo].
  rewrite !at_layer_insert by done. by destruct (decide (j = k)).
Qed.

Lemma at_layer_id {A} k (l : list (list A)) : length l = 3%nat -> is_layer k -> l = <[Z.to_nat k := at_layer l k]> l.
Proof.
  intros H3 Hk. symmetry. apply list_insert_id. unfold at_layer.
  destruct (lookup_lt_is_Some_2 l (Z.to_nat k)) as [x Hx]; [unfold is_layer in Hk; lia|by rewrite Hx].
Qed.

(** What is on its way after a step over the channel of layer [k] *)
Lemma coming_step s obs s' :
  cast_step s obs s' -> length (ca_chans s) = 3%nat -> length (ca_todo s) = 3%nat ->
  length (ca_chans s') = 3%nat /\ length (ca_todo s') = 3%nat
  /\ forall j, is_layer j -> c_coming j s ++ c_accepted j obs = c_taken j obs ++ c_coming j s'.
Proof.
  intros Hst H3 H4. destruct Hst; cbn [ca_chans ca_todo] in *; rewrite ?length_insert; (split; [done|]; split; [done|]);
    intros j Hj; try (by rewrite app_nil_r).
  - rewrite (coming_insert (MkCast r chs ds tds o) _ chs _ (<[Z.to_nat k := evs]> tds) _ k (at_layer chs k) evs j) by (done || by apply at_layer_id).
    cbn. rewrite app_nil_r. case_decide as E; [subst j|rewrite decide_False by congruence; by rewrite app_nil_r].
    rewrite decide_True by done. unfold c_coming. cbn [ca_chans ca_todo].
    match goal with H : at_layer tds k = [] |- _ => rewrite H end. by rewrite app_nil_r.
  - rewrite (coming_insert (MkCast r chs ds tds o) _ (<[Z.to_nat k := at_layer chs k ++ [e]]> chs) _ (<[Z.to_nat k := todo]> tds) _ k (at_layer chs k ++ [e]) todo j) by done.
    cbn. rewrite app_nil_r. case_decide as E; [subst j|done]. unfold c_coming. cbn [ca_chans ca_todo].
    match goal with H : at_layer tds k = _ |- _ => rewrite H end. cbn. by rewrite <-app_assoc.
  - rewrite (coming_insert (MkCast r chs ds tds o) _ chs _ (<[Z.to_nat k := todo]> tds) _ k (at_layer chs k) todo j) by (done || by apply at_layer_id).
    cbn. rewrite app_nil_r. case_decide as E; [subst j|done]. unfold c_coming. cbn [ca_chans ca_todo].
    by match goal with H : at_layer tds k = _ |- _ => rewrite H end.
  - rewrite (coming_insert (MkCast r chs ds tds o) _ chs _ (<[Z.to_nat k := todo]> tds) _ k (at_layer chs k) todo j) by (done || by apply at_layer_id).
    cbn. rewrite app_nil_r. case_decide as E; [subst j|done]. unfold c_coming. cbn [ca_chans ca_todo].
    match goal with H : at_layer tds k = _ |- _ => rewrite H end. by destruct e.
  - rewrite (coming_insert (MkCast r chs ds tds o) _ (<[Z.to_nat k := ch]> chs) _ tds _ k ch (at_layer tds k) j) by (done || by apply at_layer_id).
    cbn. rewrite app_nil_r. case_decide as E; [subst j|by rewrite decide_False by congruence].
    rewrite decide_True by done. unfold c_coming. cbn [ca_chans ca_todo].
    by match goal with H : at_layer chs k = _ |- _ => rewrite H end.
  - destruct out; by rewrite app_nil_r.
Qed.

(** What is taken out of a channel is of its layer. *)
Lemma taken_ok s obs s' k :
  cinv s -> cast_step s obs s' -> is_layer k -> Forall (chan_ok k) (c_taken k obs).
Proof.
  intros Hi Hst Hk. destruct (coming_step _ _ _ Hst (ci_chans _ Hi) (ci_todo _ Hi)) as (_ & _ & Hc).
  destruct Hst; try (by constructor); cbn [c_taken omap list_omap]; [|by destruct out; constructor].
  case_decide as E; [|constructor]. subst. pose proof (ci_chan _ Hi k Hk) as Hall. unfold c_coming in Hall.
  cbn [ca_chans ca_todo] in Hall. match goal with H : at_layer chs k = _ |- _ => rewrite H in Hall end.
  apply Forall_app in Hall as [Hall _]. apply Forall_cons in Hall as [Hall _]. by constructor.
Qed.

Lemma cast_step_cinv (unm_nil : unm None = None) s obs s' : cinv s -> cast_step s obs s' -> cinv s'.
Proof.
  intros Hi Hst. destruct (coming_step _ _ _ Hst (ci_chans _ Hi) (ci_todo _ Hi)) as (H3 & H4 & Hc).
  pose proof Hi as [Hr Hb _ _ Hk].
  assert (forall k, is_layer k -> Forall (chan_ok k) (c_accepted k obs) -> Forall (chan_ok k) (c_coming k s')) as Hcm.
  { intros k Hl Ha. specialize (Hc k Hl). pose proof (conj (Hk k Hl) Ha) as Hall.
    rewrite <-Forall_app, Hc in Hall. by apply Forall_app in Hall as [_ ?]. }
  destruct Hst; cbn [ca_rcv ca_chans ca_downs ca_todo] in *.
  - eapply cinv_quiet; [done| |done..]. by apply rinv_up.
  - split; cbn [ca_rcv ca_chans ca_downs ca_todo]; [by apply rinv_bufs| |done|done|].
    + intros ba' b0. cbn [upd settable_rcv eta_record rv_bufs].
      destruct (decide (ba = ba')) as [<-|Hn]; [|rewrite list_lookup_insert_ne by done; by apply Hb].
      rewrite list_lookup_insert_eq by (by eapply lookup_lt_Some). intros [= <-].
      eapply (write_cache oor unm gext al cb unm_nil b); try done. by eapply Hb.
    + intros j Hj. apply Hcm; [done|]. cbn. rewrite app_nil_r. case_decide as E; [subst j|constructor].
      eapply Forall_impl; [eapply (write_sent unm_nil b); [by eapply Hb|done..]|].
      cbv beta. intros e [Ha Hu]. split; [|lia].
      match goal with H : forall p, unm _ = Some p -> _ |- _ => by apply (H (Packet e)) end.
  - split; try done. intros j Hj. apply Hcm; [done|constructor].
  - split; cbn [ca_rcv ca_chans ca_downs ca_todo]; try done.
    + eapply rinv_channel; [done|]. by eapply put_but.
    + match goal with H : put_rtcp _ _ = _ |- _ => by apply put_rtcp_inv in H as [_ ->] end.
    + intros j Hj. apply Hcm; [done|constructor].
  - split; try done. intros j Hj. apply Hcm; [done|constructor].
  - destruct (write_packet_ok ssrc ssrc_inj r ds k e now Hr H) as (r1 & ds1 & Hw & Hr1); [|left; by rewrite H1|].
    { specialize (Hk k H). unfold c_coming in Hk. cbn [ca_chans ca_todo] in Hk. rewrite H0 in Hk.
      apply Forall_app in Hk as [Hk _]. by apply Forall_cons in Hk as [[? _] _]. }
    rewrite Hw in H1. apply ok_pair_inj in H1 as [<- <-]. split; [done| |done|done|].
    + cbn [ca_rcv]. apply write_packet_bufs in Hw. cbn [fst] in Hw. by rewrite Hw.
    + intros j Hj. apply Hcm; [done|constructor].
  - destruct (rtcp_ok ssrc oor rtcp_unm PacketList r ds a d bs now Hr H H0) as (d1 & r1 & Hw & Hr1); [left; by rewrite H1|].
    pose proof (rtcp_bufs _ _ _ _ _ _ _ _ Hw) as Hbf.
    rewrite Hw in H1. apply ok_pair_inj in H1 as [<- <-]. by eapply cinv_quiet.
  - match goal with H : run_job _ _ _ _ = _ |- _ => destruct (run_job_rest _ _ _ _ _ H) as [p ->] end.
    eapply cinv_quiet; [done| |done..]. cbn. by apply rinv_job, rinv_pacer.
  - eapply cinv_quiet; [done| |done..]. by apply rinv_job.
  - pose proof (add_side _ _ _ _ _ H2) as [= _ _ Hbf]. eapply cinv_quiet; [done| |done..]. by eapply rinv_add.
  - eapply cinv_quiet; [done| |done..]. by eapply rinv_bind.
  - eapply cinv_quiet; [done| |done..]. by apply rinv_pacer.
  - eapply cinv_quiet; [done| | |done..]; [eapply rinv_channel; [done|]; by eapply put_but|].
    by match goal with H : put_rtcp _ _ = _ |- _ => apply put_rtcp_inv in H as [_ ->] end.
  - eapply cinv_quiet; [done| |done..]. eapply rinv_channel; [done|]. apply take_but.
  - by eapply cinv_quiet.
Qed.

(** The channel to the router keeps its bound. *)
Lemma cast_step_bounded s obs s' : cast_step s obs s' -> bounded (ca_rcv s) -> bounded (ca_rcv s').
Proof.
  destruct 1; cbn [ca_rcv]; intros Hb; try done.
  - by apply (put_but r p r').
  - by apply (write_packet_bounded _ _ _ _ _ _ H1).
  - by apply (rtcp_bounded _ _ _ _ _ _ _ _ H1).
  - pose proof (add_side _ _ _ _ _ H2) as [= Hch _ _]. unfold bounded. by rewrite Hch.
  - by apply (put_but r p r').
  - by apply take_but.
Qed.

(** ** The stream of one track *)

(** What is known of the track [a], which was [d0], after the trace [tr] *)
Definition cast_delivered (a : nat) (d0 : DownTrack) (tr : list cast_obs) (s : cast_pipe) : Prop :=
  exists d segs ins, ca_downs s !! a = Some d /\ switched_on d = switched_on d0
    /\ picked (c_offered tr) segs /\ cast_inv d0 segs d
    /\ interleave (cast d0 segs) (c_resent a tr) ins
    /\ packets (d_pacer d0) ++ ins = c_wire a tr ++ packets (d_pacer d).

(** Steps that no trace shows, or that do not concern the track *)
Lemma delivered_same a d0 tr obs s s' :
  cast_delivered a d0 tr s -> c_offered obs = [] -> c_resent a obs = [] -> c_wire a obs = [] ->
  (forall d, ca_downs s !! a = Some d -> exists d', ca_downs s' !! a = Some d' /\ cast_view d' = cast_view d
     /\ switched_on d' = switched_on d /\ packets (d_pacer d') = packets (d_pacer d)) ->
  cast_delivered a d0 (tr ++ obs) s'.
Proof.
  intros (d & segs & ins & H1 & H2 & H3 & H4 & H5 & H6) E1 E2 E3 Hd.
  destruct (Hd d H1) as (d' & H1' & Hv & Hs & Hp). exists d', segs, ins.
  rewrite c_offered_app, c_resent_app, c_wire_app, E1, E2, E3, !app_nil_r, Hp.
  split_and!; try done; [congruence|by eapply cast_inv_view].
Qed.

Lemma same_insert (ds : tracks) b a d1 d' :
  ds !! b = Some d1 -> cast_view d' = cast_view d1 -> switched_on d' = switched_on d1 ->
  packets (d_pacer d') = packets (d_pacer d1) ->
  forall d, ds !! a = Some d -> exists d2, <[b := d']> ds !! a = Some d2 /\ cast_view d2 = cast_view d
     /\ switched_on d2 = switched_on d /\ packets (d_pacer d2) = packets (d_pacer d).
Proof.
  intros Hb Hv Hs Hp d Ha. destruct (decide (b = a)) as [->|Hn].
  - exists d'. rewrite lookup_insert_eq. by replace d with d1 by congruence.
  - exists d. by rewrite lookup_insert_ne.
Qed.

(** A track that is on, and belongs to a simulcast *)
Definition casting (d : DownTrack) : Prop := switched_on d = (true, true, SimulcastDownTrack).

(** A packet is forwarded. *)
Lemma delivered_packet a d0 tr s k e now s' :
  casting d0 -> cinv s -> cast_delivered a d0 tr s -> is_layer k -> chan_ok k e ->
  write_packet (ca_rcv s) (ca_downs s) k e now = Ok (ca_rcv s', ca_downs s') ->
  cast_delivered a d0 (tr ++ [CForwarded k e]) s'.
Proof.
  intros Hon [Hr _ _ _ _] (d & segs & ins & H1 & H2 & H3 & H4 & H5 & H6) Hk [He Har] Hw.
  destruct (write_packet_track _ _ _ _ _ _ _ a d Hr Hk Hw H1) as (d' & Hd' & Hdo).
  rewrite Hon in H2. pose proof H2 as [= Hen Hbd Hty].
  unfold cast_delivered. rewrite c_offered_app, c_resent_app, c_wire_app.
  cbn [c_offered c_resent c_wire omap list_omap map concat]. rewrite !app_nil_r.
  destruct (decide (d_ref d ∈ lay (ca_rcv s) k)) as [Hin|Hin].
  - destruct Hdo as (r1 & r2 & HW).
    pose proof (write_cast d0 (c_offered tr) segs d r1 e now d' r2 H3 H4 Hen Hbd Hty Har HW)
      as (segs' & new & P1 & P2 & P0 & P3 & P4 & P5).
    exists d', segs', (ins ++ new). rewrite P3, P4, !app_assoc, H6. split_and!; try done; [congruence|].
    destruct P5 as [->|[x ->]]; [by rewrite !app_nil_r|by constructor].
  - subst d'. exists d, segs, ins. split_and!; try done; [congruence|].
    apply pk_drop; [done|]. by apply (not_hung_other (ca_rcv s) (ca_downs s) k a d d0).
Qed.

Lemma cast_step_delivered a d0 tr s obs s' :
  casting d0 -> cinv s -> cast_delivered a d0 tr s -> cast_step s obs s' -> cast_delivered a d0 (tr ++ obs) s'.
Proof.
  intros Hon Hci Hdel Hst. pose proof Hci as [Hr _ _ _ _].
  pose proof (fun k => taken_ok s obs s' k Hci Hst) as Htk.
  destruct Hst; cbn [ca_rcv ca_chans ca_downs] in *;
    try (eapply delivered_same; [exact Hdel|done..|]; cbn [ca_downs]); try (intros d1 Hd1; by exists d1).
  - eapply (delivered_packet a d0 tr (MkCast r chs ds tds o)); try done.
    specialize (Htk k H). cbn in Htk. rewrite decide_True in Htk by done. by apply Forall_cons in Htk as [? _].
  - pose proof (tk_wf _ _ _ _ (ri_track _ _ _ _ Hr _ _ H)) as Hwf.
    destruct (rtcp_view _ _ _ _ _ _ _ _ _ Hwf H1) as (Hv & Hs & Hp).
    by apply (same_insert ds a0 a d).
  - match goal with H : run_job _ _ _ _ = _ |- _ => destruct (run_job_rest _ _ _ _ _ H) as [p ->] end.
    destruct Hdel as (d1 & segs & ins & K1 & K2 & K3 & K4 & K5 & K6). cbn [ca_downs] in *.
    unfold cast_delivered. rewrite c_offered_app, c_resent_app, c_wire_app. cbn [ca_downs].
    cbn [c_offered c_resent c_wire omap list_omap map concat]. rewrite !app_nil_r.
    destruct (decide (dt_addr ref = a)) as [<-|Hn].
    + replace d with d1 in * by congruence. exists (d1 <| d_pacer := p |>), segs, (ins ++ ps).
      rewrite lookup_insert_eq. split_and!; try done.
      * clear -K5. induction ps as [|x ps IH] using rev_ind; [by rewrite !app_nil_r|].
        rewrite !app_assoc. by constructor.
      * match goal with H : packets _ = packets _ ++ ps |- _ => rewrite H end. by rewrite !app_assoc, K6.
    + exists d1, segs, ins. rewrite lookup_insert_ne, app_nil_r by done. done.
  - intros d Hd. exists d. rewrite lookup_insert_ne; [done|]. congruence.
  - intros d1 Hd1. exists d1. rewrite lookup_insert_ne; [done|]. intros ->.
    destruct Hdel as (d2 & ? & ? & Hd2 & Hs2 & _). rewrite Hon in Hs2. injection Hs2. cbn in Hd2. congruence.
  - destruct out as [q|].
    + inversion H0; subst.
      destruct Hdel as (d1 & segs & ins & K1 & K2 & K3 & K4 & K5 & K6). cbn [ca_downs] in *.
      unfold cast_delivered. rewrite c_offered_app, c_resent_app, c_wire_app. cbn [ca_downs].
      cbn [c_offered c_resent c_wire omap list_omap map concat]. rewrite !app_nil_r.
      destruct (decide (a0 = a)) as [->|Hn].
      * replace d with d1 in * by congruence. eexists _, segs, ins. rewrite lookup_insert_eq.
        split_and!; try done.
        cbn [upd settable_DownTrack settable_BucketPacer eta_record d_pacer packets].
        rewrite <-app_assoc. cbn [app]. congruence.
      * exists d1, segs, ins. by rewrite lookup_insert_ne, app_nil_r.
    + eapply delivered_same; [exact Hdel|done..|]. cbn [ca_downs].
      apply (same_insert ds a0 a d); try done. by apply H1.
Qed.

(** ** Runs *)

(** The channel of each layer is first in, first out, and what [writeRTP]
    takes out of it is of the layer. *)
Definition fifo (s0 : cast_pipe) (tr : list cast_obs) (s : cast_pipe) : Prop :=
  forall k, is_layer k ->
    c_coming k s0 ++ c_accepted k tr = c_taken k tr ++ c_coming k s
    /\ of_layer (ssrc k) (c_offered tr) = c_taken k tr.

Lemma cast_step_fifo s0 tr s obs s' :
  cinv s -> fifo s0 tr s -> cast_step s obs s' -> fifo s0 (tr ++ obs) s'.
Proof.
  intros Hi Hf Hst j Hj. destruct (Hf j Hj) as [F1 F2].
  destruct (coming_step _ _ _ Hst (ci_chans _ Hi) (ci_todo _ Hi)) as (_ & _ & Hc).
  rewrite c_accepted_app, c_taken_app, c_offered_app. split.
  - by rewrite app_assoc, F1, <-!app_assoc, Hc.
  - pose proof (fun k => taken_ok s obs s' k Hi Hst) as Htk. unfold of_layer in *. rewrite filter_app, F2. f_equal.
    destruct Hst; try done; [|by destruct out]. cbn [c_offered c_taken omap list_omap].
    specialize (Htk k H). cbn in Htk. rewrite decide_True in Htk by done. apply Forall_cons in Htk as [[He _] _].
    rewrite filter_cons, filter_nil, He. destruct (decide (k = j)) as [->|Hn]; [by rewrite decide_True|].
    rewrite decide_False; [done|]. by intros E%ssrc_inj.
Qed.

(** A track that has just been bound *)
Definition unsent (d : DownTrack) : Prop :=
  casting d /\ reSync d = true /\ snOffset d = 0 /\ tsOffset d = 0 /\ lastSSRC d = 0 /\ lastTSCalc d = 0.

(** C2. A simulcast track, from the wire to the wire: whatever the goroutines of
    the three layers, the subscribers' RTCP, the layers they switch to, the
    worker and the pacers do in between, as long as no layer comes up twice
    and no RTCP of a track comes before its first key frame
    ([early_switch_blocks]): what a down track that was just bound has been
    given to send are stretches of the layers, each whole from a key frame
    on, under one numbering, among the packets sent again on request; if no
    layer has lost a packet, the numbers have no gap; what its pacer has sent,
    followed by its queue, is what it was given; each layer's channel is first
    in, first out.  A packet is the value it had when it was given.  No packet
    of a layer makes [writeRTP] panic or take a lock twice, nor does it wait
    while the channel to the router has room for one message; when that is
    full, the router's loop, while it runs, makes room by taking one. *)
Theorem simulcast_end_to_end (unm_nil : unm None = None) s0 tr s a d0 :
  cinv s0 -> bounded (ca_rcv s0) -> ca_downs s0 !! a = Some d0 -> unsent d0 -> cast_run s0 tr s ->
  (forall k, is_layer k -> c_coming k s0 ++ c_accepted k tr = c_taken k tr ++ c_coming k s)
  /\ (exists d segs ins, ca_downs s !! a = Some d
       /\ picked (c_offered tr) segs
       /\ ((forall k, is_layer k -> in_order (c_taken k tr)) -> numbered (cast d0 segs))
       /\ interleave (cast d0 segs) (c_resent a tr) ins
       /\ packets (d_pacer d0) ++ ins = c_wire a tr ++ packets (d_pacer d))
  /\ (can_send (ca_rcv s) -> forall k e now, is_layer k -> p_ssrc e = ssrc k ->
       is_ok (write_packet (ca_rcv s) (ca_downs s) k e now) = true)
  /\ (can_send (ca_rcv s) \/ length (rtcpCh (rv (ca_rcv s))) = rtcpCh_cap
       /\ (ca_open s = true -> exists s', cast_step s [] s' /\ can_send (ca_rcv s')
             /\ ca_rcv s' = take_rtcp (ca_rcv s) /\ ca_downs s' = ca_downs s)).
Proof.
  intros Hi Hb Ha (Hon & U1 & U2 & U3 & U4 & U5) Hrun.
  assert (cinv s /\ bounded (ca_rcv s) /\ fifo s0 tr s /\ cast_delivered a d0 tr s
    /\ Forall (fun e => exists k, is_layer k /\ p_ssrc e = ssrc k) (c_offered tr)) as (Hs & Hbs & Hf & Hd & Ho).
  { induction Hrun as [|tr s obs s' _ (IH1 & IHb & IH2 & IH3 & IH4) Hst].
    - split; [done|]. split; [done|]. split; [|split; [|constructor]].
      + intros k Hk. by rewrite app_nil_r.
      + exists d0, [], []. rewrite app_nil_r. split_and!; try done; constructor.
    - split; [by eapply cast_step_cinv|]. split; [by eapply cast_step_bounded|]. split; [by eapply cast_step_fifo|].
      split; [by eapply cast_step_delivered|]. rewrite c_offered_app. apply Forall_app. split; [done|].
      pose proof (fun k => taken_ok _ _ _ k IH1 Hst) as Htk.
      destruct Hst; try (by constructor); [|by destruct out; constructor].
      apply Forall_cons. split; [|constructor]. exists k. split; [done|].
      specialize (Htk k H). cbn in Htk. rewrite decide_True in Htk by done. by apply Forall_cons in Htk as [[? _] _]. }
  split; [intros k Hk; by destruct (Hf k Hk)|].
  destruct Hd as (d & segs & ins & D1 & D2 & D3 & D4 & D5 & D6). split; [|split].
  - exists d, segs, ins. split_and!; try done. intros Hin. eapply cast_numbered; [done|]. intros x.
    destruct (of_layer x (c_offered tr)) as [|e l] eqn:E; [by split|]. rewrite <-E.
    assert (e ∈ of_layer x (c_offered tr)) as He by (rewrite E; left).
    apply list_elem_of_filter in He as [<- He]. apply (proj1 (Forall_forall _ _) Ho) in He as (k & Hk & ->).
    destruct (Hf k Hk) as [_ ->]. by apply Hin.
  - intros Hc k e now Hk He. destruct Hs as [Hr _ _ _ _].
    destruct (write_packet_ok ssrc ssrc_inj _ _ k e now Hr Hk He) as (? & ? & -> & _); [by right; left|done].
  - destruct (bounded_room _ Hbs) as [?|[Hfull Hc]]; [by left|right]. split; [done|]. intros Hop.
    destruct s as [r chs ds tds op]. cbn [ca_rcv ca_open ca_downs] in *. subst op.
    destruct (rtcpCh (rv r)) as [|p rch] eqn:E; [done|].
    exists (MkCast (take_rtcp r) chs ds tds true). split_and!; try done. by eapply ca_take.
Qed.
End layers.

(** ** A track that is switched up

    The world of [Layers] with a packet in the channels of two layers: the
    first is forwarded, an estimate of the bandwidth moves the track up, the
    second follows under the next number. *)
Definition ex_low : ExtPacket := DownTrack.ex_ext 100 10 100 1 true.
Definition ex_high : ExtPacket := DownTrack.ex_ext 101 500 7000 1000000001 true.
Definition ex_cast : cast_pipe := MkCast ex_added.1 [[ex_low]; [ex_high]; []] ex_ds [[]; []; []] true.
Definition ex_remb : bytes -> list rtcp_packet := fun _ => [ReceiverEstimatedMaximumBitrate (f32_of_Z 500000) [7]].

Definition ex_cast1 : rcv * tracks := from_ok (write_packet ex_added.1 ex_ds 0 ex_low 2) (ex_added.1, ∅).
Definition ex_cast_track : DownTrack := default ex_added.2 (ex_cast1.2 !! 7%nat).
Definition ex_cast2 : DownTrack * rcv :=
  from_ok (handleRTCP (fun _ => 0) ex_remb (fun _ => []) ex_cast_track ex_cast1.1 [] 3) (ex_cast_track, ex_cast1.1).
Definition ex_cast_tracks : tracks := <[7%nat := ex_cast2.1]> ex_cast1.2.
Definition ex_cast3 : rcv * tracks :=
  from_ok (write_packet ex_cast2.2 ex_cast_tracks 1 ex_high 4) (ex_cast2.2, ∅).
Definition ex_cast_end : cast_pipe := MkCast ex_cast3.1 [[]; []; []] ex_cast3.2 [[]; []; []] true.

Abbreviation ex_cast_run := (cast_run ex_ssrc (fun _ => 0) ex_unmarshal Buffer.ex_ext ex_level false
  ex_remb (fun _ => []) (fun _ => 15)).

Lemma ex_cast_runs : ex_cast_run ex_cast [CForwarded 0 ex_low; CForwarded 1 ex_high] ex_cast_end.
Proof.
  change [CForwarded 0 ex_low; CForwarded 1 ex_high]
    with ((([] ++ [CForwarded 0 ex_low]) ++ []) ++ [CForwarded 1 ex_high]).
  eapply cr_step; [eapply cr_step; [eapply cr_step; [apply cr_start|]|]|].
  - apply (ca_forward _ _ _ _ _ _ _ _ _ ex_added.1 _ ex_ds [[]; []; []] true 0 ex_low [] 2 ex_cast1.1 ex_cast1.2);
      [by left|done|]. rewrite <-surjective_pairing. refine (from_ok_eq _ _ _). vm_compute. reflexivity.
  - apply (ca_rtcp _ _ _ _ _ _ _ _ _ ex_cast1.1 [[]; [ex_high]; []] ex_cast1.2 [[]; []; []] true 7 ex_cast_track [] 3 ex_cast2.1 ex_cast2.2).
    + vm_compute. reflexivity.
    + vm_compute. reflexivity.
    + rewrite <-surjective_pairing. refine (from_ok_eq _ _ _). vm_compute. reflexivity.
  - apply (ca_forward _ _ _ _ _ _ _ _ _ ex_cast2.2 [[]; [ex_high]; []] ex_cast_tracks [[]; []; []] true 1 ex_high [] 4 ex_cast3.1 ex_cast3.2);
      [by right; left|done|]. rewrite <-surjective_pairing. refine (from_ok_eq _ _ _). vm_compute. reflexivity.
Qed.

Lemma ex_cast_inv : cinv ex_ssrc ex_cast.
Proof.
  split.
  - apply (world_run_inv ex_ssrc ex_ssrc_inj _ _ _ _ _ ex_run), new_world_inv. done.
  - intros ba b. change (rv_bufs (ca_rcv ex_cast)) with (rv_bufs ex_added.1).
    assert (rv_bufs ex_added.1 = []) as -> by (vm_compute; reflexivity). done.
  - done.
  - done.
  - intros k [->|[->| ->]]; by repeat constructor.
Qed.

Lemma simulcast_end_to_end_witness :
  exists d segs, ca_downs ex_cast_end !! 7%nat = Some d
    /\ picked [ex_low; ex_high] segs /\ numbered (cast ex_added.2 segs)
    /\ packets (d_pacer d) = cast ex_added.2 segs
    /\ map rp_sn (packets (d_pacer d)) = [10; 11].
Proof.
  assert (unsent ex_added.2) as Hu by (by vm_compute).
  destruct (simulcast_end_to_end ex_ssrc ex_ssrc_inj (fun _ => 0) ex_unmarshal Buffer.ex_ext ex_level false
    ex_remb (fun _ => []) (fun _ => 15) eq_refl ex_cast _ _ 7%nat ex_added.2 ex_cast_inv
    ltac:(apply (bool_decide_unpack _); vm_compute; done) eq_refl Hu ex_cast_runs)
    as (_ & (d & segs & ins & H1 & H2 & H3 & H4 & H5) & _).
  exists d, segs. split; [exact H1|]. split; [exact H2|]. split.
  - apply H3. intros k [->|[->| ->]]; (split; [by repeat constructor|]); by intros [|i] e e'.
  - assert (packets (d_pacer ex_added.2) = []) as Hp by (vm_compute; reflexivity). rewrite Hp in H5.
    apply interleave_nil_r in H4. cbn [app] in H5. change (c_wire 7 [CForwarded 0 ex_low; CForwarded 1 ex_high]) with (@nil rtp_packet) in H5.
    cbn [app] in H5. split; [congruence|].
    assert (Some (map rp_sn (packets (d_pacer d))) = Some [10; 11]) as He; [|congruence].
    change (Some (map rp_sn (packets (d_pacer d)))) with ((fun d => map rp_sn (packets (d_pacer d))) <$> Some d).
    rewrite <-H1. vm_compute. reflexivity.
Defined.
