(* ===== verification/Peer.v ===== *)
(** * Peers and their signalling ([internal/sfu/peer.go], [publisher.go],
      [subscriber.go])

    A [Peer] has two peer connections: the publisher's, on which the client
    makes offers, and the subscriber's, on which the SFU makes them.  The
    connection itself is pion's: the class [PeerConnection].  Requests to
    negotiate go through a debouncer, which runs the callback once some time
    after the last request: [sub_armed] says that it will. *)

From stdpp Require Import gmap strings.
From S2P Require Import Prelude.
#[local] Open Scope Z_scope.

(** ** Data *)

(** Session descriptions and ICE candidates are what the client sent. *)
Abbreviation sdp := string (only parsing).
Abbreviation candidate := string (only parsing).

Inductive SignalingState := Stable | HaveLocalOffer | HaveRemoteOffer | ClosedState.
#[export] Instance SignalingState_eq_dec : EqDecision SignalingState.
Proof. solve_decision. Defined.

(** [webrtc.PeerConnection]; a boolean is false when an error is returned. *)
Class PeerConnection (PC : Type) := {
  pc_SetRemoteDescription : PC -> sdp -> PC * bool;
  pc_SetLocalDescription : PC -> sdp -> PC * bool;
  pc_CreateOffer : PC -> PC * option sdp;
  pc_CreateAnswer : PC -> PC * option sdp;
  pc_AddICECandidate : PC -> candidate -> PC * bool;
  pc_RemoteDescription : PC -> bool;
  pc_SignalingState : PC -> SignalingState;
  pc_Close : PC -> PC * bool }.

Inductive sfu_error :=
| ErrTransportExists | ErrNoTransportEstablished | ErrOfferIgnored | errPeerConnectionInitFailed
| errDataChannel | errPC | errCandidate.

Section peer.
Context {PC : Type} {PP : PeerConnection PC}.

(** Candidates that came before the remote description wait in a list. *)
Definition flush (pc : PC) (cs : list candidate) : PC :=
  foldl (fun pc c => (pc_AddICECandidate pc c).1) pc cs.

(** ** Publisher *)

Record Publisher := MkPublisher {
  pub_id : string;
  pub_pc : PC;
  pub_candidates : list candidate;
  pub_closeOnce : bool }.

(** [Answer]; [None] is an error. *)
Definition pub_Answer (p : Publisher) (offer : sdp) : Publisher * option sdp :=
  let '(pc, ok) := pc_SetRemoteDescription (pub_pc p) offer in
  if negb ok then (MkPublisher (pub_id p) pc (pub_candidates p) (pub_closeOnce p), None)
  else
    let pc := flush pc (pub_candidates p) in
    let with_pc pc := MkPublisher (pub_id p) pc [] (pub_closeOnce p) in
    match pc_CreateAnswer pc with
    | (pc, None) => (with_pc pc, None)
    | (pc, Some answer) =>
        let '(pc, ok) := pc_SetLocalDescription pc answer in
        (with_pc pc, if ok : bool then Some answer else None)
    end.

Definition pub_AddICECandidate (p : Publisher) (c : candidate) : Publisher * bool :=
  if pc_RemoteDescription (pub_pc p) then
    let '(pc, ok) := pc_AddICECandidate (pub_pc p) c in
    (MkPublisher (pub_id p) pc (pub_candidates p) (pub_closeOnce p), ok)
  else (MkPublisher (pub_id p) (pub_pc p) (pub_candidates p ++ [c]) (pub_closeOnce p), true).

(** [Close]; the router is stopped first. *)
Definition pub_Close (p : Publisher) : Publisher :=
  if pub_closeOnce p then p
  else MkPublisher (pub_id p) (pc_Close (pub_pc p)).1 (pub_candidates p) true.

(** ** Subscriber *)

Record Subscriber := MkSubscriber {
  sub_id : string;
  sub_pc : PC;
  sub_candidates : list candidate;
  sub_armed : bool;
  sub_closeOnce : bool }.

Definition set_sub (s : Subscriber) (pc : PC) (cs : list candidate) : Subscriber :=
  MkSubscriber (sub_id s) pc cs (sub_armed s) (sub_closeOnce s).

(** [negotiate], and the debouncer's call *)
Definition negotiate (s : Subscriber) : Subscriber :=
  MkSubscriber (sub_id s) (sub_pc s) (sub_candidates s) true (sub_closeOnce s).
Definition disarm (s : Subscriber) : Subscriber :=
  MkSubscriber (sub_id s) (sub_pc s) (sub_candidates s) false (sub_closeOnce s).

Definition sub_CreateOffer (s : Subscriber) : Subscriber * option sdp :=
  match pc_CreateOffer (sub_pc s) with
  | (pc, None) => (set_sub s pc (sub_candidates s), None)
  | (pc, Some offer) =>
      let '(pc, ok) := pc_SetLocalDescription pc offer in
      (set_sub s pc (sub_candidates s), if ok : bool then Some offer else None)
  end.

Definition sub_SetRemoteDescription (s : Subscriber) (des : sdp) : Subscriber * bool :=
  let '(pc, ok) := pc_SetRemoteDescription (sub_pc s) des in
  if negb ok then (set_sub s pc (sub_candidates s), false)
  else (set_sub s (flush pc (sub_candidates s)) [], true).

Definition sub_AddICECandidate (s : Subscriber) (c : candidate) : Subscriber * bool :=
  if pc_RemoteDescription (sub_pc s) then
    let '(pc, ok) := pc_AddICECandidate (sub_pc s) c in (set_sub s pc (sub_candidates s), ok)
  else (set_sub s (sub_pc s) (sub_candidates s ++ [c]), true).

Definition sub_Close (s : Subscriber) : Subscriber :=
  if sub_closeOnce s then s
  else MkSubscriber (sub_id s) (pc_Close (sub_pc s)).1 (sub_candidates s) (sub_armed s) true.

(** ** Peer *)

(** [p_onOffer]: whether the callback [OnOffer] is set *)
Record Peer := MkPeer {
  p_id : string;
  p_closed : bool;
  p_publisher : option Publisher;
  p_subscriber : option Subscriber;
  p_onOffer : bool;
  remoteAnswerPending : bool;
  negotiationPending : bool }.
#[export] Instance settable_Peer : Settable Peer := fun p =>
  MkPeer (p_id p) (p_closed p) (p_publisher p) (p_subscriber p) (p_onOffer p)
    (remoteAnswerPending p) (negotiationPending p).

Definition NewPeer : Peer := MkPeer EmptyString false None None false false false.

(** [Join]: with the connections that pion makes, and whether the session's
    default data channels can be opened; an error leaves behind what was
    made so far.  Entering the session is [rm_join] of [Session]. *)
Definition p_Join (p : Peer) (pid : string) (sub pub : option PC) (dcs : list bool)
  : Peer * option sfu_error :=
  match p_publisher p with
  | Some _ => (p, Some ErrTransportExists)
  | None =>
      let p := p <| p_id := pid |> in
      match sub with
      | None => (p <| p_subscriber := None |>, Some errPeerConnectionInitFailed)
      | Some spc =>
          let p := p <| p_subscriber := Some (MkSubscriber pid spc [] false false) |> in
          match pub with
          | None => (p, Some errPeerConnectionInitFailed)
          | Some ppc =>
              let p := p <| p_publisher := Some (MkPublisher pid ppc [] false) |> in
              if forallb id dcs then (p, None) else (p, Some errDataChannel)
          end
      end
  end.

(** The callback of [OnNegotiationNeeded], run by the debouncer: the offer
    created, and whether the client is told *)
Definition negotiation_needed (p : Peer) : Peer * option (sdp * bool) :=
  match p_subscriber p with
  | None => (p, None)
  | Some s =>
      let s := disarm s in
      if remoteAnswerPending p
      then (p <| p_subscriber := Some s |> <| negotiationPending := true |>, None)
      else
        match sub_CreateOffer s with
        | (s, None) => (p <| p_subscriber := Some s |>, None)
        | (s, Some offer) =>
            (p <| p_subscriber := Some s |> <| remoteAnswerPending := true |>,
             Some (offer, (p_onOffer p && negb (p_closed p))%bool))
        end
  end.

Definition p_Answer (p : Peer) (offer : sdp) : Peer * (sdp + sfu_error) :=
  match p_publisher p with
  | None => (p, inr ErrNoTransportEstablished)
  | Some pub =>
      if bool_decide (pc_SignalingState (pub_pc pub) <> Stable) then (p, inr ErrOfferIgnored)
      else
        let '(pub, a) := pub_Answer pub offer in
        (p <| p_publisher := Some pub |>, match a with Some a => inl a | None => inr errPC end)
  end.

Definition p_SetRemoteDescription (p : Peer) (answer : sdp) : Peer * option sfu_error :=
  match p_subscriber p with
  | None => (p, Some ErrNoTransportEstablished)
  | Some s =>
      match sub_SetRemoteDescription s answer with
      | (s, false) => (p <| p_subscriber := Some s |>, Some errPC)
      | (s, true) =>
          let s := if negotiationPending p then negotiate s else s in
          (p <| p_subscriber := Some s |> <| remoteAnswerPending := false |>
             <| negotiationPending := false |>, None)
      end
  end.

(** [Close]; leaving the session is [rm_leave] of
    [Session]. *)
Definition p_Close (p : Peer) : Peer :=
  p <| p_closed := true |> <| p_publisher := pub_Close <$> p_publisher p |>
    <| p_subscriber := sub_Close <$> p_subscriber p |>.

(** [Trickle]: target 0 is the publisher, 1 the subscriber. *)
Definition p_Trickle (p : Peer) (c : candidate) (target : Z) : Peer * option sfu_error :=
  match p_subscriber p, p_publisher p with
  | Some s, Some pub =>
      if target =? 0 then
        let '(pub, ok) := pub_AddICECandidate pub c in
        (p <| p_publisher := Some pub |>, if ok : bool then None else Some errCandidate)
      else if target =? 1 then
        let '(s, ok) := sub_AddICECandidate s c in
        (p <| p_subscriber := Some s |>, if ok : bool then None else Some errCandidate)
      else (p, None)
  | _, _ => (p, Some ErrNoTransportEstablished)
  end.
End peer.
Arguments Publisher : clear implicits.
Arguments Subscriber : clear implicits.
Arguments Peer : clear implicits.

(** ** What happens to a peer after it joined *)

(** [Request] is a call of [negotiate], [Fire] the debouncer's timer; the
    others are the client's messages and the end of its connection. *)
Inductive peer_event :=
| Request | Fire
| RemoteOffer (offer : sdp) | RemoteAnswer (answer : sdp) | Trickle (c : candidate) (target : Z)
| CloseEvent.

(** What the rest of the world sees of the negotiation of the subscriber *)
Inductive peer_obs := Offered (offer : sdp) (told : bool) | Accepted (answer : sdp).

Section run.
Context {PC : Type} {PP : PeerConnection PC}.

Definition peer_step (p : Peer PC) (ev : peer_event) : Peer PC * list peer_obs :=
  match ev with
  | Request => (p <| p_subscriber := negotiate <$> p_subscriber p |>, [])
  | Fire =>
      if default false (sub_armed <$> p_subscriber p) then
        match negotiation_needed p with
        | (p, Some (o, told)) => (p, [Offered o told])
        | (p, None) => (p, [])
        end
      else (p, [])
  | RemoteOffer o => ((p_Answer p o).1, [])
  | RemoteAnswer a =>
      match p_SetRemoteDescription p a with
      | (p, None) => (p, [Accepted a])
      | (p, Some _) => (p, [])
      end
  | Trickle c target => ((p_Trickle p c target).1, [])
  | CloseEvent => (p_Close p, [])
  end.

Fixpoint peer_run (p : Peer PC) (evs : list peer_event) : Peer PC * list peer_obs :=
  match evs with
  | [] => (p, [])
  | ev :: evs =>
      let '(p, o) := peer_step p ev in
      let '(p, os) := peer_run p evs in (p, o ++ os)
  end.

(** ** Offers *)

(** At most one offer is out. *)
Fixpoint alternates (pending : bool) (os : list peer_obs) : Prop :=
  match os with
  | [] => True
  | Offered _ _ :: os => pending = false /\ alternates true os
  | Accepted _ :: os => alternates false os
  end.

Fixpoint pending_after (pending : bool) (os : list peer_obs) : bool :=
  match os with
  | [] => pending
  | Offered _ _ :: os => pending_after true os
  | Accepted _ :: os => pending_after false os
  end.

Lemma alternates_app b os os' :
  alternates b os -> alternates (pending_after b os) os' -> alternates b (os ++ os').
Proof.
  revert b. induction os as [|[o t|a] os IH]; intros b; cbn; [done| |apply IH].
  intros [-> H] H'. split; [done|]. by apply IH.
Qed.

Lemma pending_after_app b os os' :
  pending_after b (os ++ os') = pending_after (pending_after b os) os'.
Proof. revert b. induction os as [|[o t|a] os IH]; intros b; cbn; done. Qed.

Lemma peer_step_alternates (p p' : Peer PC) ev os :
  peer_step p ev = (p', os) ->
  alternates (remoteAnswerPending p) os
  /\ remoteAnswerPending p' = pending_after (remoteAnswerPending p) os.
Proof.
  destruct ev; cbn [peer_step].
  - by intros [= <- <-].
  - destruct (default false _); [|by intros [= <- <-]]. unfold negotiation_needed.
    destruct (p_subscriber p) as [s|]; [|by intros [= <- <-]].
    destruct (remoteAnswerPending p) eqn:E; [by intros [= <- <-]|].
    destruct (sub_CreateOffer (disarm s)) as [s' [o|]]; by intros [= <- <-].
  - intros [= <- <-]. unfold p_Answer. destruct (p_publisher p); [|done].
    case_bool_decide; [done|]. by destruct (pub_Answer _ _).
  - unfold p_SetRemoteDescription. destruct (p_subscriber p) as [s|]; [|by intros [= <- <-]].
    destruct (sub_SetRemoteDescription s answer) as [s' []]; by intros [= <- <-].
  - intros [= <- <-]. unfold p_Trickle.
    destruct (p_subscriber p), (p_publisher p); try done.
    destruct (target =? 0); [by destruct (pub_AddICECandidate _ _)|].
    destruct (target =? 1); [by destruct (sub_AddICECandidate _ _)|done].
  - by intros [= <- <-].
Qed.

(** C10. Whatever the client sends, whenever the timer fires, however often a
    negotiation is asked for, and even after the peer was closed: a new offer
    is made only when the answer to the one before was accepted, and
    [remoteAnswerPending] says whether an offer is out. *)
Theorem offers_alternate (p : Peer PC) evs :
  alternates (remoteAnswerPending p) (peer_run p evs).2
  /\ remoteAnswerPending (peer_run p evs).1
     = pending_after (remoteAnswerPending p) (peer_run p evs).2.
Proof.
  revert p. induction evs as [|ev evs IH]; intros p; [done|]. cbn [peer_run].
  destruct (peer_step p ev) as [p1 os1] eqn:E1.
  destruct (peer_step_alternates _ _ _ _ E1) as [H1 H2].
  specialize (IH p1). destruct (peer_run p1 evs) as [p2 os2]. destruct IH as [H3 H4].
  cbn [fst snd] in *. rewrite H2 in H3, H4. split; [by apply alternates_app|].
  by rewrite H4, pending_after_app.
Qed.

(** ** Requests *)

(** A negotiation will be started: by the timer, or once the answer to the
    offer that is out was accepted. *)
Definition wanted (p : Peer PC) : Prop :=
  exists s, p_subscriber p = Some s
    /\ (sub_armed s = true \/ (negotiationPending p = true /\ remoteAnswerPending p = true)).

Definition is_offer (o : peer_obs) : bool := match o with Offered _ _ => true | _ => false end.

(** Pion makes offers and accepts answers. *)
Definition offers_succeed : Prop :=
  forall pc, exists o, (pc_CreateOffer pc).2 = Some o
    /\ (pc_SetLocalDescription (pc_CreateOffer pc).1 o).2 = true.
Definition answers_succeed : Prop := forall pc a, (pc_SetRemoteDescription pc a).2 = true.

Lemma create_offer_ok s :
  offers_succeed -> exists s' o, sub_CreateOffer s = (s', Some o) /\ sub_armed s' = sub_armed s.
Proof.
  intros H. unfold sub_CreateOffer. destruct (H (sub_pc s)) as (o & Ho & Hl).
  destruct (pc_CreateOffer (sub_pc s)) as [pc o']. cbn in Ho, Hl. subst o'.
  destruct (pc_SetLocalDescription pc o) as [pc' ok]. cbn in Hl. subst ok. by eexists _, _.
Qed.

Lemma peer_step_wanted (p p' : Peer PC) ev os :
  offers_succeed -> wanted p -> peer_step p ev = (p', os) -> existsb is_offer os = false -> wanted p'.
Proof.
  intros Hof (s & Hs & Hw). unfold wanted. destruct ev; cbn [peer_step].
  - intros [= <- <-] _. exists (negotiate s). cbn. rewrite Hs. split; [done|by left].
  - rewrite Hs. cbn [fmap option_fmap option_map default].
    destruct (sub_armed s) eqn:Ea; [|intros [= <- <-] _; exists s; by rewrite Ea].
    unfold negotiation_needed. rewrite Hs. destruct (remoteAnswerPending p) eqn:Er.
    + intros [= <- <-] _. exists (disarm s). split; [done|]. right. by split.
    + destruct (create_offer_ok (disarm s) Hof) as (s' & o & -> & _). by intros [= <- <-].
  - intros [= <- <-] _. exists s. unfold p_Answer. destruct (p_publisher p); [|done].
    case_bool_decide; [done|]. by destruct (pub_Answer _ _).
  - unfold p_SetRemoteDescription. rewrite Hs. unfold sub_SetRemoteDescription.
    destruct (pc_SetRemoteDescription (sub_pc s) answer) as [pc []]; cbn [negb];
      intros [= <- <-] _; eexists; (split; [reflexivity|]); [|exact Hw].
    left. destruct (negotiationPending p) eqn:En; [done|]. destruct Hw as [?|[]]; done.
  - intros [= <- <-] _. unfold p_Trickle. rewrite Hs. destruct (p_publisher p) as [pub|]; [|by exists s].
    destruct (target =? 0); [destruct (pub_AddICECandidate _ _); by exists s|].
    destruct (target =? 1); [|by exists s]. unfold sub_AddICECandidate.
    destruct (pc_RemoteDescription _); [destruct (pc_AddICECandidate _ _)|];
      (eexists; split; [reflexivity|exact Hw]).
  - intros [= <- <-] _. eexists. cbn. rewrite Hs. split; [reflexivity|].
    unfold sub_Close. by destruct (sub_closeOnce s).
Qed.

Lemma peer_run_wanted evs (p : Peer PC) :
  offers_succeed -> wanted p -> existsb is_offer (peer_run p evs).2 = false -> wanted (peer_run p evs).1.
Proof.
  intros Hof. revert p. induction evs as [|ev evs IH]; intros p Hw; [done|]. cbn [peer_run].
  destruct (peer_step p ev) as [p1 os1] eqn:E1. specialize (IH p1).
  destruct (peer_run p1 evs) as [p2 os2] eqn:E2. cbn [fst snd] in *.
  rewrite existsb_app. intros [H1 H2]%orb_false_iff.
  apply IH; [by eapply peer_step_wanted|done].
Qed.

Lemma wanted_served (p : Peer PC) a :
  offers_succeed -> answers_succeed -> wanted p ->
  existsb is_offer (peer_run p [Fire; RemoteAnswer a; Fire]).2 = true.
Proof.
  intros Hof Han (s & Hs & Hw). cbn [peer_run].
  assert (forall (q : Peer PC) t, p_subscriber q = Some t -> sub_armed t = true ->
    remoteAnswerPending q = false -> existsb is_offer (peer_step q Fire).2 = true) as Hfire.
  { intros q t Ht Ha Hq. cbn [peer_step]. rewrite Ht. cbn. rewrite Ha. unfold negotiation_needed.
    rewrite Ht, Hq. by destruct (create_offer_ok (disarm t) Hof) as (s' & o & -> & _). }
  assert (forall (q : Peer PC) t, p_subscriber q = Some t -> negotiationPending q = true ->
    existsb is_offer (let '(p, o) := peer_step q (RemoteAnswer a) in
      let '(p, os) := (let '(p, o) := peer_step p Fire in (p, o ++ [])) in (p, o ++ os)).2 = true) as Hans.
  { intros q t Ht Hq.
    assert (exists q1 t1, peer_step q (RemoteAnswer a) = (q1, [Accepted a])
      /\ p_subscriber q1 = Some t1 /\ sub_armed t1 = true /\ remoteAnswerPending q1 = false)
      as (q1 & t1 & -> & Ht1 & Ha1 & Hq1).
    { cbn [peer_step]. unfold p_SetRemoteDescription, sub_SetRemoteDescription. rewrite Ht.
      specialize (Han (sub_pc t) a).
      destruct (pc_SetRemoteDescription (sub_pc t) a) as [pc ok]. cbn in Han. subst ok.
      cbn [negb]. rewrite Hq. by eexists _, _. }
    specialize (Hfire q1 t1 Ht1 Ha1 Hq1). destruct (peer_step q1 Fire) as [p3 o3].
    cbn [snd app] in *. by rewrite app_nil_r. }
  destruct (sub_armed s) eqn:Ea.
  - destruct (remoteAnswerPending p) eqn:Er.
    + assert (peer_step p Fire = (p <| p_subscriber := Some (disarm s) |> <| negotiationPending := true |>, [])) as ->.
      { cbn [peer_step]. rewrite Hs. cbn [fmap option_fmap option_map default]. rewrite Ea.
        unfold negotiation_needed. by rewrite Hs, Er. }
      match goal with |- context [peer_step ?q (RemoteAnswer a)] =>
        specialize (Hans q (disarm s) eq_refl eq_refl) end.
      destruct (peer_step _ (RemoteAnswer a)) as [p2 o2]. destruct (peer_step p2 Fire) as [p3 o3]. done.
    + specialize (Hfire p s Hs Ea Er). destruct (peer_step p Fire) as [p1 o1].
      destruct (peer_step p1 _) as [p2 o2]. destruct (peer_step p2 Fire) as [p3 o3].
      cbn [snd] in *. by rewrite existsb_app, Hfire.
  - destruct Hw as [?|[Hn _]]; [done|].
    assert (peer_step p Fire = (p, [])) as -> by (cbn [peer_step]; rewrite Hs; cbn; by rewrite Ea).
    specialize (Hans p s Hs Hn).
    destruct (peer_step _ (RemoteAnswer a)) as [p2 o2]. destruct (peer_step p2 Fire) as [p3 o3]. done.
Qed.

Lemma peer_run_cons (p : Peer PC) ev evs :
  (peer_run p (ev :: evs)).1 = (peer_run (peer_step p ev).1 evs).1.
Proof. cbn [peer_run]. destruct (peer_step p ev) as [p1 o]. cbn [fst]. by destruct (peer_run p1 evs). Qed.

Lemma peer_run_app (p : Peer PC) evs evs' :
  peer_run p (evs ++ evs')
  = ((peer_run (peer_run p evs).1 evs').1, (peer_run p evs).2 ++ (peer_run (peer_run p evs).1 evs').2).
Proof.
  revert p. induction evs as [|ev evs IH]; intros p; cbn [app peer_run fst snd].
  { by destruct (peer_run p evs'). }
  destruct (peer_step p ev) as [p1 os1]. rewrite IH.
  destruct (peer_run p1 evs) as [p2 os2]. cbn [fst snd]. by rewrite app_assoc.
Qed.

(** C9. A request to negotiate is served: whatever happens after it (also that
    the timer fires while an offer is out), the client gets an offer made
    after the request, at the latest when the timer fires, the client
    answers what it has, and the timer fires again. *)
Theorem request_served (p : Peer PC) evs a :
  offers_succeed -> answers_succeed -> is_Some (p_subscriber p) ->
  existsb is_offer (peer_run p (Request :: evs ++ [Fire; RemoteAnswer a; Fire])).2 = true.
Proof.
  intros Hof Han [s Hs]. change (Request :: evs ++ ?l) with ((Request :: evs) ++ l).
  rewrite peer_run_app. cbn [snd]. rewrite existsb_app.
  destruct (existsb is_offer (peer_run p (Request :: evs)).2) eqn:E; [done|].
  cbn [orb]. apply wanted_served; [done|done|]. cbn [peer_run peer_step] in *.
  set (p1 := p <| p_subscriber := negotiate <$> p_subscriber p |>) in *.
  pose proof (peer_run_wanted evs p1 Hof) as H. destruct (peer_run p1 evs) as [p2 os2].
  cbn [fst snd app] in *. apply H; [|done]. exists (negotiate s). unfold p1. cbn. rewrite Hs.
  split; [done|by left].
Qed.

(** ** Candidates *)

(** [given pc]: the candidates handed to the connection so far; what pion
    documents of its remote description *)
Class CandidateLaws (given : PC -> list candidate) : Prop := {
  given_add : forall pc c, given (pc_AddICECandidate pc c).1 = given pc ++ [c];
  given_remote : forall pc a, given (pc_SetRemoteDescription pc a).1 = given pc;
  given_local : forall pc a, given (pc_SetLocalDescription pc a).1 = given pc;
  given_offer : forall pc, given (pc_CreateOffer pc).1 = given pc;
  given_answer : forall pc, given (pc_CreateAnswer pc).1 = given pc;
  given_close : forall pc, given (pc_Close pc).1 = given pc;
  remote_add : forall pc c, pc_RemoteDescription (pc_AddICECandidate pc c).1 = pc_RemoteDescription pc;
  remote_local : forall pc a, pc_RemoteDescription (pc_SetLocalDescription pc a).1 = pc_RemoteDescription pc;
  remote_offer : forall pc, pc_RemoteDescription (pc_CreateOffer pc).1 = pc_RemoteDescription pc;
  remote_answer : forall pc, pc_RemoteDescription (pc_CreateAnswer pc).1 = pc_RemoteDescription pc;
  remote_close : forall pc, pc_RemoteDescription (pc_Close pc).1 = pc_RemoteDescription pc;
  remote_set : forall pc a, pc_RemoteDescription (pc_SetRemoteDescription pc a).1
    = ((pc_SetRemoteDescription pc a).2 || pc_RemoteDescription pc)%bool }.

Section candidates.
Context (given : PC -> list candidate) `{!CandidateLaws given}.

(** All that came is handed over, in order, or waits for the description. *)
Definition cand_ok (pc : PC) (waiting came : list candidate) : Prop :=
  given pc ++ waiting = came /\ (pc_RemoteDescription pc = true -> waiting = []).

Lemma flush_spec pc cs :
  given (flush pc cs) = given pc ++ cs /\ pc_RemoteDescription (flush pc cs) = pc_RemoteDescription pc.
Proof.
  unfold flush. revert pc. induction cs as [|c cs IH]; intros pc; cbn [foldl].
  { by rewrite app_nil_r. }
  destruct (IH (pc_AddICECandidate pc c).1) as [-> ->].
  by rewrite given_add, remote_add, <-app_assoc.
Qed.

Lemma cand_set pc pc' ok a cs came :
  pc_SetRemoteDescription pc a = (pc', ok) -> cand_ok pc cs came ->
  if ok then cand_ok (flush pc' cs) [] came else cand_ok pc' cs came.
Proof.
  intros E [H1 H2]. pose proof (given_remote pc a) as Hg. pose proof (remote_set pc a) as Hr.
  rewrite E in Hg, Hr. cbn [fst snd] in *. destruct ok; unfold cand_ok.
  - destruct (flush_spec pc' cs) as [-> _]. rewrite Hg, app_nil_r. done.
  - rewrite Hg, Hr. done.
Qed.

Lemma cand_add pc c cs came :
  cand_ok pc cs came ->
  if pc_RemoteDescription pc then cand_ok (pc_AddICECandidate pc c).1 cs (came ++ [c])
  else cand_ok pc (cs ++ [c]) (came ++ [c]).
Proof.
  intros [H1 H2]. destruct (pc_RemoteDescription pc) eqn:E; unfold cand_ok.
  - rewrite given_add. rewrite (H2 eq_refl) in *. rewrite app_nil_r in *. by rewrite H1.
  - rewrite E. by rewrite app_assoc, H1.
Qed.

Definition peer_cand (p : Peer PC) (to_pub to_sub : list candidate) : Prop :=
  match p_publisher p with Some pub => cand_ok (pub_pc pub) (pub_candidates pub) to_pub | None => False end
  /\ match p_subscriber p with Some s => cand_ok (sub_pc s) (sub_candidates s) to_sub | None => False end.

(** The candidates the client sent for one of the two connections *)
Definition trickled (target : Z) (evs : list peer_event) : list candidate :=
  omap (fun ev => match ev with
    | Trickle c t => if t =? target then Some c else None | _ => None end) evs.

Lemma pub_answer_cand pub o came :
  cand_ok (pub_pc pub) (pub_candidates pub) came ->
  cand_ok (pub_pc (pub_Answer pub o).1) (pub_candidates (pub_Answer pub o).1) came.
Proof.
  intros H. unfold pub_Answer. destruct (pc_SetRemoteDescription (pub_pc pub) o) as [pc ok] eqn:E.
  pose proof (cand_set _ _ _ _ _ _ E H) as H1. destruct ok; cbn [negb]; [|exact H1].
  set (pc1 := flush pc (pub_candidates pub)) in *.
  pose proof (given_answer pc1) as Hg. pose proof (remote_answer pc1) as Hr.
  destruct (pc_CreateAnswer pc1) as [pc2 [ans|]]; cbn [fst] in *.
  - pose proof (given_local pc2 ans) as Hg2. pose proof (remote_local pc2 ans) as Hr2.
    destruct (pc_SetLocalDescription pc2 ans) as [pc3 ok]; cbn [fst] in *.
    unfold cand_ok in *. cbn. rewrite Hg2, Hr2, Hg, Hr. done.
  - unfold cand_ok in *. cbn. rewrite Hg, Hr. done.
Qed.

Lemma create_offer_cand s came :
  cand_ok (sub_pc s) (sub_candidates s) came ->
  cand_ok (sub_pc (sub_CreateOffer s).1) (sub_candidates (sub_CreateOffer s).1) came.
Proof.
  intros H. unfold sub_CreateOffer.
  pose proof (given_offer (sub_pc s)) as Hg. pose proof (remote_offer (sub_pc s)) as Hr.
  destruct (pc_CreateOffer (sub_pc s)) as [pc [o|]]; cbn [fst] in *.
  - pose proof (given_local pc o) as Hg2. pose proof (remote_local pc o) as Hr2.
    destruct (pc_SetLocalDescription pc o) as [pc2 ok]; cbn [fst] in *.
    unfold cand_ok in *. cbn. rewrite Hg2, Hr2, Hg, Hr. done.
  - unfold cand_ok in *. cbn. rewrite Hg, Hr. done.
Qed.

Lemma peer_step_cand p ev to_pub to_sub :
  peer_cand p to_pub to_sub ->
  peer_cand (peer_step p ev).1 (to_pub ++ trickled 0 [ev]) (to_sub ++ trickled 1 [ev]).
Proof.
  unfold peer_cand. destruct (p_publisher p) as [pub|] eqn:Ep; [|by intros []].
  destruct (p_subscriber p) as [s|] eqn:Es; [|by intros [_ []]]. intros [Hp Hs].
  destruct ev; cbn [peer_step trickled omap list_omap]; rewrite ?app_nil_r.
  - cbn. by rewrite Ep, Es.
  - rewrite Es. cbn [fmap option_fmap option_map default].
    destruct (sub_armed s); cbn [id fst]; [|by rewrite Ep, Es]. unfold negotiation_needed. rewrite Es.
    destruct (remoteAnswerPending p); [cbn; by rewrite Ep|].
    pose proof (create_offer_cand (disarm s) _ Hs) as H1.
    destruct (sub_CreateOffer (disarm s)) as [s' [o|]]; cbn; by rewrite Ep.
  - unfold p_Answer. rewrite Ep. case_bool_decide; cbn [fst]; [by rewrite Ep, Es|].
    pose proof (pub_answer_cand pub offer _ Hp) as H1.
    destruct (pub_Answer pub offer) as [pub' ans]. cbn. by rewrite Es.
  - unfold p_SetRemoteDescription, sub_SetRemoteDescription. rewrite Es.
    destruct (pc_SetRemoteDescription (sub_pc s) answer) as [pc ok] eqn:E.
    pose proof (cand_set _ _ _ _ _ _ E Hs) as H1. destruct ok; cbn; rewrite Ep; [|done].
    by destruct (negotiationPending p).
  - unfold p_Trickle. rewrite Es, Ep. destruct (target =? 0) eqn:E0; bool_prop.
    + subst. cbn [Z.eqb]. rewrite app_nil_r. pose proof (cand_add _ c _ _ Hp) as H1.
      unfold pub_AddICECandidate. destruct (pc_RemoteDescription (pub_pc pub)); [|cbn; by rewrite Es].
      destruct (pc_AddICECandidate (pub_pc pub) c) as [pc ok]. cbn. by rewrite Es.
    + rewrite app_nil_r. destruct (target =? 1); [|rewrite app_nil_r; cbn; by rewrite Ep, Es].
      pose proof (cand_add _ c _ _ Hs) as H1.
      unfold sub_AddICECandidate. destruct (pc_RemoteDescription (sub_pc s)); [|cbn; by rewrite Ep].
      destruct (pc_AddICECandidate (sub_pc s) c) as [pc ok]. cbn. by rewrite Ep.
  - cbn. rewrite Ep, Es. cbn. unfold pub_Close, sub_Close, cand_ok in *.
    split; [destruct (pub_closeOnce pub)|destruct (sub_closeOnce s)]; cbn; try done;
      by rewrite given_close, remote_close.
Qed.

Lemma trickled_cons target ev evs : trickled target (ev :: evs) = trickled target [ev] ++ trickled target evs.
Proof. unfold trickled. cbn. destruct ev; try done. by destruct (_ =? _). Qed.

(** C32. The candidates a client sends for one of its two connections are handed
    to that connection all, once each and in order, as soon as it has a
    remote description, however they interleave with offers, answers,
    negotiations and the end of the peer. *)
Theorem candidates_in_order (p : Peer PC) pid spc ppc dcs evs :
  p_publisher p = None -> forallb id dcs = true ->
  given spc = [] -> given ppc = [] ->
  exists pub s,
    let p' := (peer_run (p_Join p pid (Some spc) (Some ppc) dcs).1 evs).1 in
    p_publisher p' = Some pub /\ p_subscriber p' = Some s
    /\ given (pub_pc pub) ++ pub_candidates pub = trickled 0 evs
    /\ given (sub_pc s) ++ sub_candidates s = trickled 1 evs
    /\ (pc_RemoteDescription (pub_pc pub) = true -> given (pub_pc pub) = trickled 0 evs)
    /\ (pc_RemoteDescription (sub_pc s) = true -> given (sub_pc s) = trickled 1 evs).
Proof.
  intros Hn Hd Hs Hp.
  assert (forall evs q to_pub to_sub, peer_cand q to_pub to_sub ->
    peer_cand (peer_run q evs).1 (to_pub ++ trickled 0 evs) (to_sub ++ trickled 1 evs)) as Hrun.
  { clear Hn Hd Hs Hp. clear evs. induction evs as [|ev evs IH]; intros q to_pub to_sub H.
    { cbn. by rewrite !app_nil_r. }
    rewrite peer_run_cons, (trickled_cons 0 ev evs), (trickled_cons 1 ev evs), !app_assoc.
    by apply IH, peer_step_cand. }
  assert (peer_cand (p_Join p pid (Some spc) (Some ppc) dcs).1 [] []) as H0.
  { unfold p_Join. rewrite Hn, Hd. unfold peer_cand, cand_ok. cbn. by rewrite Hs, Hp. }
  specialize (Hrun evs _ _ _ H0). revert Hrun. unfold peer_cand. cbv zeta.
  destruct (peer_run _ evs) as [q os]. cbn [fst app].
  destruct (p_publisher q) as [pub|]; [|by intros []].
  destruct (p_subscriber q) as [s|]; [|by intros [_ []]]. intros [[H1 H2] [H3 H4]].
  exists pub, s. split_and!; try done.
  - intros E. rewrite <-H1, (H2 E). by rewrite app_nil_r.
  - intros E. rewrite <-H3, (H4 E). by rewrite app_nil_r.
Qed.
End candidates.
End run.

(** ** A concrete connection *)

(** It takes what it is given. *)
Record ex_pc := ExPC { x_given : list string; x_remote : bool }.
#[local] Instance ex_connection : PeerConnection ex_pc := {
  pc_SetRemoteDescription pc a := (ExPC (x_given pc) true, true);
  pc_SetLocalDescription pc a := (pc, true);
  pc_CreateOffer pc := (pc, Some "offer"%string);
  pc_CreateAnswer pc := (pc, Some "answer"%string);
  pc_AddICECandidate pc c := (ExPC (x_given pc ++ [c]) (x_remote pc), true);
  pc_RemoteDescription := x_remote;
  pc_SignalingState pc := Stable;
  pc_Close pc := (pc, true) }.

#[local] Instance ex_laws : CandidateLaws x_given.
Proof. split; done. Qed.

Definition ex_joined : Peer ex_pc :=
  (p_Join NewPeer "p" (Some (ExPC [] false)) (Some (ExPC [] false)) [true]).1.

(** Two requests: the second comes while the first one's offer is out. *)
Lemma request_served_witness :
  existsb is_offer (peer_run ex_joined (Request :: [RemoteAnswer "a"] ++ [Fire; RemoteAnswer "b"; Fire])).2
  = true.
Proof.
  apply (request_served ex_joined [RemoteAnswer "a"] "b").
  - intros pc. exists "offer"%string. done.
  - done.
  - by eexists.
Defined.

Lemma candidates_in_order_witness :
  exists pub,
    p_publisher (peer_run ex_joined [Trickle "a" 0; Trickle "b" 1; RemoteOffer "o"; Trickle "c" 0]).1 = Some pub
    /\ x_given (pub_pc pub) ++ pub_candidates pub = ["a"; "c"]%string.
Proof.
  destruct (candidates_in_order x_given NewPeer "p" (ExPC [] false) (ExPC [] false) [true]
    [Trickle "a" 0; Trickle "b" 1; RemoteOffer "o"; Trickle "c" 0]) as (pub & s & Hp & _ & Hg & _).
  - reflexivity.
  - reflexivity.
  - reflexivity.
  - reflexivity.
  - exists pub. split; [exact Hp|exact Hg].
Defined.
