(* ===== verification/Router.v ===== *)
(** * Routers ([internal/sfu/router.go]) and the down tracks of a subscriber
      ([internal/sfu/subscriber.go])

    A [router] holds the receivers of one publisher, by track id; the three
    layers of a simulcast track share one.  [AddReceiver] is called for every
    track that arrives, [AddDownTracks] hangs the down tracks of a subscriber
    on the receivers.  Of the subscriber this file has the lists of down
    tracks and the reports about them; its connection is in [Peer]. *)

From stdpp Require Import gmap strings.
From S2P Require Import Prelude GoNum GoSlice GoFloat Nack Bucket Twcc Sequencer Rtp Buffer Factory Pacer SfuHelper DownTrack Receiver Layers.
#[local] Open Scope Z_scope.

(** ** The down tracks of a subscriber *)

(** A pointer to a down track: its address, with its id, which never changes.
    The down tracks themselves are in a store, [tracks]; the receivers'
    lists and the subscriber's name the same ones. *)
Record dt_ptr := MkPtr { e_id : string; e_ref : dt_ref }.

(** [s_negotiate]: whether [negotiate] was called *)
Record sub_tracks := MkSub {
  s_id : string;
  s_tracks : gmap string (list dt_ptr);
  s_negotiate : bool }.
#[export] Instance settable_sub_tracks : Settable sub_tracks := fun s =>
  MkSub (s_id s) (s_tracks s) (s_negotiate s).

Definition new_sub (id : string) : sub_tracks := MkSub id ∅ false.

Definition GetDownTracks (s : sub_tracks) (sid : string) : list dt_ptr :=
  default [] (s_tracks s !! sid).

Definition s_AddDownTrack (s : sub_tracks) (streamID : string) (track : dt_ptr) : sub_tracks :=
  match s_tracks s !! streamID with
  | Some dt => s <| s_tracks := <[streamID := dt ++ [track]]> (s_tracks s) |>
  | None => s <| s_tracks := <[streamID := [track]]> (s_tracks s) |>
  end.

(** The loop of [RemoveDownTrack] keeps the last index found. *)
Fixpoint last_index (a : nat) (i : nat) (index : option nat) (dts : list dt_ptr) : option nat :=
  match dts with
  | [] => index
  | dt :: dts =>
      last_index a (S i) (if decide (dt_addr (e_ref dt) = a) then Some i else index) dts
  end.

Definition RemoveDownTrack (s : sub_tracks) (streamID : string) (a : nat) : sub_tracks :=
  match s_tracks s !! streamID with
  | Some dts =>
      match last_index a 0 None dts with
      | Some index => s <| s_tracks := <[streamID := swap_remove dts index]> (s_tracks s) |>
      | None => s
      end
  | None => s
  end.

(** *** Reports *)

(** The packets of [sendStreamDownTracksReports]; [mid] is the transceiver's
    MID. *)
Definition stream_report (mid : DownTrack -> string) (ds : tracks) (s : sub_tracks)
    (streamID : string) : list rtcp_packet :=
  [SourceDescription (concat (map (fun dt =>
     if d_bound dt then CreateSourceDescriptionChunks dt (mid dt) else [])
     (omap (fun p => ds !! dt_addr (e_ref p)) (GetDownTracks s streamID))))].

(** The goroutine it starts, which writes the same packets every 20 ms: what
    is written from the turn [i] on *)
Fixpoint stream_writes (fuel : nat) (i : Z) (r : list rtcp_packet) : list (list rtcp_packet) :=
  match fuel with
  | O => []
  | S fuel => r :: (if 5 <? i then [] else stream_writes fuel (i + 1) r)
  end.

(** The loop of [downTracksReports] over the source descriptions: 15 chunks
    a packet, the sender reports with the first; [fuel] is the number of
    chunks. *)
Definition sdes_max : Z := 15.

Fixpoint report_loop {A} (fuel : nat) (sd : list A) (i j : Z) : go (list (list A)) :=
  if i <? len sd then
    match fuel with
    | O => mret []
    | S fuel =>
        let i := (j + 1) * sdes_max in
        let i := if len sd <=? i then len sd else i in
        nsd ← go_slice sd (j * sdes_max) i;
        rest ← report_loop fuel sd i (j + 1);
        mret (nsd :: rest)
    end
  else mret [].

(** What one round of [downTracksReports] writes, for the bound down tracks
    [dts] in the order of the map *)
Definition round_reports (mid : DownTrack -> string) (dts : list DownTrack) (now : Z)
  : go (list (list rtcp_packet)) :=
  let bound := filter (fun dt => d_bound dt = true) dts in
  let r := omap (fun dt => CreateSenderReport dt now) bound in
  let sd := concat (map (fun dt => CreateSourceDescriptionChunks dt (mid dt)) bound) in
  chunks ← report_loop (length sd) sd 0 0;
  mret (match map (fun c => [SourceDescription c]) chunks with
        | first :: rest => (r ++ first) :: rest
        | [] => []
        end).

(** What [WriteRTCP] answers: an error is logged, or it is one of [io.EOF]
    and [io.ErrClosedPipe], which ends the reports. *)
Inductive write_result := Written | WriteFailed | WriteClosed.

(** The messages of a round that are written, and whether the reports go on *)
Fixpoint write_msgs (msgs : list (list rtcp_packet)) (res : list write_result)
  : list (list rtcp_packet) * bool :=
  match msgs, res with
  | [], _ => ([], true)
  | m :: _, WriteClosed :: _ => ([m], false)
  | m :: msgs, _ => let s := write_msgs msgs (tail res) in (m :: s.1, s.2)
  end.

(** The outer loop of [downTracksReports]: a round every five seconds, with
    whether the connection is closed then, the down tracks, the time, and the
    answers of [WriteRTCP] *)
Record report_round := MkRound {
  rd_closed : bool;
  rd_tracks : list DownTrack;
  rd_now : Z;
  rd_results : list write_result }.

Fixpoint downTracksReports (mid : DownTrack -> string) (rounds : list report_round)
  : go (list (list rtcp_packet)) :=
  match rounds with
  | [] => mret []
  | rd :: rounds =>
      if rd_closed rd then mret []
      else
        msgs ← round_reports mid (rd_tracks rd) (rd_now rd);
        let w := write_msgs msgs (rd_results rd) in
        if w.2 then rest ← downTracksReports mid rounds; mret (w.1 ++ rest) else mret w.1
  end.

(** ** Routers *)

Record router := MkRouter {
  r_id : string;
  r_maxBandwidth : Z;
  r_bestQualityFirst : bool;
  r_twcc : option Responder;
  receivers : gmap string WebRTCReceiver }.
#[export] Instance settable_router : Settable router := fun r =>
  MkRouter (r_id r) (r_maxBandwidth r) (r_bestQualityFirst r) (r_twcc r) (receivers r).

Definition newRouter (tid : string) (maxBandwidth : Z) (best : bool) : router :=
  MkRouter tid maxBandwidth best None ∅.

(** The RTCP handler that [AddReceiver] gives the reader of a buffer: sender
    reports set the buffer's clock. *)
Definition on_rtcp (b : Buffer) (pkts : list rtcp_packet) (now : Z) : Buffer :=
  foldl (fun b pkt => match pkt with
    | SenderReport _ ntpTime rtpTime _ _ => SetSenderReportData b rtpTime ntpTime now
    | _ => b end) b pkts.

Section add_receiver.
Context (oor : float -> Z) (rtp_unmarshal : option bytes -> option rtp_packet)
  (GetExtension : rtp_packet -> Z -> option bytes) (audio_level : bytes -> option Z)
  (TransportCCURI : string).

(** [AddReceiver], for a track of the publisher's connection: the factory,
    the router, the receiver, whether it is to be published, and what
    binding the buffer does.  A missing buffer or reader is a nil pointer.
    The reader's handler is [on_rtcp] of the buffer, named by its SSRC;
    [rand] and [now] are for a new responder. *)
Definition AddReceiver (f : Factory) (r : router) (track : TrackRemote)
    (trackID streamID : string) (kind : RTPCodecType) (codec : RTPCodec) (params : RTPParameters)
    (pool : bytes) (rand now : Z)
  : go (Factory * router * WebRTCReceiver * bool * list buf_event) :=
  match GetBufferPair f (t_SSRC track) with
  | (Some ra, Some ba) =>
      let r := match kind, r_twcc r with
               | TypeVideo, None =>
                   r <| r_twcc := Some (NewTransportWideCCResponder (t_SSRC track) rand now) |>
               | _, _ => r
               end in
      let f := f <| rd_store := alter (fun rd => reader_OnPacket rd (t_SSRC track)) ra (rd_store f) |> in
      let '(recv, publish) :=
        match receivers r !! trackID with
        | Some recv => (recv, false)
        | None => (NewWebRTCReceiver track trackID streamID kind codec (r_id r), true)
        end in
      let recv := AddUpTrack recv track ba in
      let r := r <| receivers := <[trackID := recv]> (receivers r) |> in
      match buf_store f !! ba with
      | Some b =>
          s ← Bind oor rtp_unmarshal GetExtension audio_level TransportCCURI b false params
                (r_maxBandwidth r) pool now;
          mret (f <| buf_store := <[ba := s.1]> (buf_store f) |>, r, recv, publish, s.2)
      | None => Panic
      end
  | _ => Panic
  end.
End add_receiver.

Definition DeleteReceiver (r : router) (track : string) : router :=
  r <| receivers := delete track (receivers r) |>.

(** [addDownTrack]: the store, the subscriber and the receiver afterwards; [a] is the address of the new down track, [transceiver]
    whether pion accepts it; [false] is an error. *)
Definition addDownTrack (best : bool) (ds : tracks) (sub : sub_tracks) (recv : WebRTCReceiver)
    (a : nat) (transceiver : bool) (pool : bytes) (now : Z)
  : go (tracks * sub_tracks * WebRTCReceiver * bool) :=
  if existsb (fun dt => String.eqb (e_id dt) (w_trackID recv)) (GetDownTracks sub (w_streamID recv))
  then mret (ds, sub, recv, true)
  else if negb transceiver then mret (ds, sub, recv, false)
  else
    let downTrack := NewDownTrack (w_codec recv) (w_trackID recv) (w_streamID recv)
                       (DtRef a (s_id sub)) now in
    s ← AddDownTrack (MkRcv recv [] None) downTrack pool best;
    mret (<[a := s.2]> ds,
          s_AddDownTrack sub (w_streamID recv) (MkPtr (w_trackID recv) (DtRef a (s_id sub))),
          rv s.1, true).

(** [AddDownTracks] for the receivers [ids], with a new address each; the
    receivers are those of the router. *)
Fixpoint add_down_tracks (ds : tracks) (r : router) (s : sub_tracks) (ids : list string) (a : nat)
    (transceiver : string -> bool) (pool : bytes) (now : Z)
  : go (tracks * router * sub_tracks * bool) :=
  match ids with
  | [] => mret (ds, r, s <| s_negotiate := true |>, true)
  | id :: ids =>
      match receivers r !! id with
      | None => add_down_tracks ds r s ids (S a) transceiver pool now
      | Some recv =>
          t ← addDownTrack (r_bestQualityFirst r) ds s recv a (transceiver id) pool now;
          let '(ds, s, recv, ok) := t in
          if ok : bool
          then add_down_tracks ds (r <| receivers := <[id := recv]> (receivers r) |>) s ids (S a)
                 transceiver pool now
          else mret (ds, r, s, false)
      end
  end.

(** [recv] is the track id of the receiver given, [ids] the keys of
    [receivers] as the loop meets them. *)
Definition AddDownTracks (ds : tracks) (r : router) (s : sub_tracks) (recv : option string) (ids : list string)
    (a : nat) (transceiver : string -> bool) (pool : bytes) (now : Z)
  : go (tracks * router * sub_tracks * bool) :=
  match recv with
  | Some id => add_down_tracks ds r s [id] a transceiver pool now
  | None => if 0 <? len ids then add_down_tracks ds r s ids a transceiver pool now
            else mret (ds, r, s, true)
  end.

(** ** Reports: lemmas and properties *)

Lemma report_loop_spec {A} (sd : list A) fuel j i :
  0 <= j -> i = j * sdes_max \/ len sd <= i -> len sd - i <= Z.of_nat fuel ->
  exists l, report_loop fuel sd i j = Ok l
    /\ concat l = drop (Z.to_nat i) sd /\ Forall (fun c => 0 < len c <= sdes_max) l.
Proof.
  revert i j. induction fuel as [|fuel IH]; intros i j Hj Hi Hf; cbn [report_loop].
  { rewrite (proj2 (Z.ltb_ge i (len sd))) by lia. exists []. split; [done|].
    rewrite drop_ge; [done|]. unfold len in *. lia. }
  destruct (i <? len sd) eqn:E; bool_prop.
  2: { exists []. split; [done|]. rewrite drop_ge; [done|]. unfold len in *. lia. }
  destruct Hi as [->|]; [|lia]. unfold sdes_max in *.
  set (i' := if len sd <=? (j + 1) * 15 then len sd else (j + 1) * 15).
  assert (j * 15 < i' <= len sd /\ i' <= j * 15 + 15 /\ (i' = (j + 1) * 15 \/ len sd <= i')) as (H1 & H2 & H3)
    by (subst i'; destruct (len sd <=? (j + 1) * 15) eqn:E'; bool_prop; lia).
  rewrite go_slice_ok by lia. cbn [mbind go_bind].
  destruct (IH i' (j + 1)) as (l & -> & Hc & Hl); [lia|done|lia|].
  cbn [mbind go_bind mret go_ret]. eexists. split; [reflexivity|]. split.
  - cbn [concat]. rewrite Hc. unfold sub. unfold len in *.
    replace (Z.to_nat i') with (Z.to_nat (j * 15) + Z.to_nat (i' - j * 15))%nat by lia.
    rewrite <-drop_drop. apply take_drop.
  - constructor; [|done]. unfold len in *. rewrite length_sub by lia. lia.
Qed.

(** The source descriptions in a list of packets *)
Definition chunks_of (pkts : list rtcp_packet) : list (Z * list (Z * string)) :=
  concat (map (fun p => match p with SourceDescription c => c | _ => [] end) pkts).

Definition small_sdes (p : rtcp_packet) : Prop :=
  match p with SourceDescription c => 0 < len c <= sdes_max | _ => True end.

Lemma chunks_of_app a b : chunks_of (a ++ b) = chunks_of a ++ chunks_of b.
Proof. unfold chunks_of. by rewrite map_app, concat_app. Qed.

Lemma sender_reports_no_chunks now bs :
  chunks_of (omap (fun dt => CreateSenderReport dt now) bs) = []
  /\ Forall small_sdes (omap (fun dt => CreateSenderReport dt now) bs).
Proof.
  induction bs as [|b bs IH]; [done|]. cbn [omap list_omap].
  assert (CreateSenderReport b now = None \/ exists s n t p o,
    CreateSenderReport b now = Some (SenderReport s n t p o)) as [->|(s & n & t & p & o & ->)].
  { unfold CreateSenderReport. destruct (negb (d_bound b)); [by left|right; by eexists _, _, _, _, _]. }
  - exact IH.
  - destruct IH as [H1 H2]. split; [exact H1|by constructor].
Qed.

Lemma sdes_packets k :
  chunks_of (concat (map (fun c => [SourceDescription c]) k)) = concat k
  /\ (Forall (fun c => 0 < len c <= sdes_max) k ->
      Forall small_sdes (concat (map (fun c => [SourceDescription c]) k))).
Proof.
  induction k as [|c k [IH1 IH2]]; [done|]. cbn [map concat]. rewrite chunks_of_app. split.
  - rewrite IH1. unfold chunks_of. cbn. by rewrite app_nil_r.
  - intros [? ?]%Forall_cons. constructor; [done|auto].
Qed.

(** A round of reports terminates without a panic: it describes every bound
    down track, once and in order, never more than 15 chunks a packet and no
    empty packet; the sender reports of all of them go with the first
    packet. *)
Theorem round_reports_spec mid dts now :
  let bound := filter (fun dt => d_bound dt = true) dts in
  exists msgs,
    round_reports mid dts now = Ok msgs
    /\ chunks_of (concat msgs)
       = concat (map (fun dt => CreateSourceDescriptionChunks dt (mid dt)) bound)
    /\ Forall small_sdes (concat msgs)
    /\ match msgs with
       | [] => bound = []
       | first :: rest =>
           exists c, first = omap (fun dt => CreateSenderReport dt now) bound ++ [SourceDescription c]
             /\ Forall (fun m => exists c, m = [SourceDescription c]) rest
       end.
Proof.
  intros bound. unfold round_reports. fold bound.
  set (sd := concat (map (fun dt => CreateSourceDescriptionChunks dt (mid dt)) bound)).
  destruct (report_loop_spec sd (length sd) 0 0) as (l & -> & Hc & Hl);
    [lia|by left|unfold len; lia|]. cbn [mbind go_bind mret go_ret].
  change (drop (Z.to_nat 0) sd) with sd in Hc.
  destruct l as [|c l]; cbn [map].
  - exists []. split; [done|]. split; [exact Hc|]. split; [constructor|].
    destruct bound as [|b bs] eqn:Eb; [done|]. exfalso.
    assert (d_bound b = true) as Hb.
    { assert (b ∈ filter (fun dt => d_bound dt = true) dts) as Hin by (unfold bound in Eb; rewrite Eb; left).
      by apply list_elem_of_filter in Hin as [? _]. }
    subst sd. cbn in Hc. unfold CreateSourceDescriptionChunks in Hc. rewrite Hb in Hc. discriminate Hc.
  - eexists. split; [reflexivity|]. apply Forall_cons in Hl as [Hl0 Hl].
    destruct (sender_reports_no_chunks now bound) as [Hn1 Hn2]. destruct (sdes_packets l) as [Hk1 Hk2]. cbn [concat].
    split_and!.
    + rewrite !chunks_of_app, Hn1, Hk1. cbn. rewrite app_nil_r. exact Hc.
    + rewrite !Forall_app. split; [split; [done|by apply Forall_singleton]|auto].
    + exists c. split; [done|]. apply Forall_forall. intros m Hm.
      apply list_elem_of_fmap in Hm as (c' & -> & _). by exists c'.
Qed.

(** The reports of a new track are written seven times. *)
Lemma stream_writes_seven fuel r : (7 <= fuel)%nat -> stream_writes fuel 0 r = replicate 7 r.
Proof.
  intros H. replace fuel with (7 + (fuel - 7))%nat by lia. by destruct (fuel - 7)%nat.
Qed.

Lemma write_msgs_all msgs res : WriteClosed ∉ res -> write_msgs msgs res = (msgs, true).
Proof.
  revert res. induction msgs as [|m msgs IH]; intros res Hres; [done|]. cbn [write_msgs].
  destruct res as [|x res]; [by rewrite IH by done|].
  apply not_elem_of_cons in Hres as [Hx Hres]. destruct x; [by rewrite IH..|done].
Qed.

Lemma write_msgs_prefix msgs res : exists k, (write_msgs msgs res).1 = take k msgs.
Proof.
  revert res. induction msgs as [|m msgs IH]; intros res; [by exists 0%nat|]. cbn [write_msgs].
  destruct (IH (tail res)) as [k Hk].
  destruct res as [|[] res]; cbn [tail] in *; [exists (S k).. |by exists 1%nat]; cbv zeta; cbn [fst take]; by rewrite Hk.
Qed.

(** The chunks that describe the bound ones of some down tracks *)
Definition described (mid : DownTrack -> string) (dts : list DownTrack) : list (Z * list (Z * string)) :=
  concat (map (fun dt => CreateSourceDescriptionChunks dt (mid dt)) (filter (fun dt => d_bound dt = true) dts)).

Lemma Forall_concat_take {A} (P : A -> Prop) k (l : list (list A)) :
  Forall P (concat l) -> Forall P (concat (take k l)).
Proof.
  rewrite <-(take_drop k l) at 1. rewrite concat_app. by intros [? _]%Forall_app.
Qed.

(** C39. The reports to a subscriber, over its life: no round panics or writes an
    empty or an oversize description; while the connection lasts each round
    describes every track bound at that time, in order and once; and with
    the first round that finds the connection closed, or an answer that says
    so, they end. *)
Theorem reports_run mid rounds :
  exists msgs, downTracksReports mid rounds = Ok msgs
    /\ Forall small_sdes (concat msgs)
    /\ (Forall (fun rd => rd_closed rd = false /\ WriteClosed ∉ rd_results rd) rounds ->
        chunks_of (concat msgs) = concat (map (fun rd => described mid (rd_tracks rd)) rounds))
    /\ forall pre rd post, rounds = pre ++ rd :: post -> rd_closed rd = true ->
        downTracksReports mid pre = Ok msgs.
Proof.
  induction rounds as [|rd rounds (msgs & IH1 & IH2 & IH3 & IH4)]; cbn [downTracksReports].
  { exists []. split; [done|]. split; [constructor|]. split; [done|]. by intros []. }
  destruct (rd_closed rd) eqn:Ec.
  { exists []. split; [done|]. split; [constructor|]. split.
    - intros [[? _] _]%Forall_cons. congruence.
    - intros [|rd' pre] rd0 post [= <- E] _; [done|]. cbn. by rewrite Ec. }
  destruct (round_reports_spec mid (rd_tracks rd) (rd_now rd)) as (m & Hm & Hch & Hsm & _).
  rewrite Hm. cbn [mbind go_bind]. fold (described mid (rd_tracks rd)) in Hch.
  destruct (write_msgs m (rd_results rd)) as [w go_on] eqn:Ew. cbn [fst snd].
  destruct (write_msgs_prefix m (rd_results rd)) as [k Hk]. rewrite Ew in Hk. cbn in Hk. subst w.
  assert (Forall small_sdes (concat (take k m))) as Hs1 by (by apply Forall_concat_take).
  destruct go_on.
  - rewrite IH1. cbn [mbind go_bind mret go_ret]. eexists. split; [done|]. split; [|split].
    + rewrite concat_app. by apply Forall_app.
    + intros [[_ Hc] Hr]%Forall_cons. rewrite write_msgs_all in Ew by done. injection Ew as Ek.
      rewrite concat_app, chunks_of_app, <-Ek, Hch. cbn [map concat]. by rewrite IH3.
    + intros [|rd' pre] rd0 post [= <- E] Hcl; [congruence|]. cbn [downTracksReports].
      rewrite Ec, Hm. cbn [mbind go_bind]. rewrite Ew. cbn [fst snd]. by rewrite (IH4 pre rd0 post E Hcl).
  - eexists. split; [done|]. split; [done|]. split.
    + intros [[_ Hc] _]%Forall_cons. by rewrite write_msgs_all in Ew by done.
    + intros [|rd' pre] rd0 post [= <- E] Hcl; [congruence|]. cbn [downTracksReports].
      rewrite Ec, Hm. cbn [mbind go_bind]. by rewrite Ew.
Qed.

(** ** Down tracks: lemmas *)

(** How often the subscriber has a track *)
Definition times (s : sub_tracks) (stream id : string) : nat :=
  length (filter (fun dt => e_id dt = id) (GetDownTracks s stream)).

Lemma GetDownTracks_add s stream dt stream' :
  GetDownTracks (s_AddDownTrack s stream dt) stream'
  = GetDownTracks s stream' ++ if decide (stream' = stream) then [dt] else [].
Proof.
  unfold s_AddDownTrack, GetDownTracks. destruct (decide (stream' = stream)) as [->|Hn].
  - destruct (s_tracks s !! stream) as [l|] eqn:E;
      cbn [upd settable_sub_tracks eta_record s_tracks]; by rewrite lookup_insert_eq.
  - rewrite app_nil_r. destruct (s_tracks s !! stream) as [l|] eqn:E;
      cbn [upd settable_sub_tracks eta_record s_tracks]; by rewrite lookup_insert_ne.
Qed.

Lemma times_add s stream dt stream' id :
  times (s_AddDownTrack s stream dt) stream' id
  = (times s stream' id + if decide (stream' = stream /\ id = e_id dt) then 1 else 0)%nat.
Proof.
  unfold times. rewrite GetDownTracks_add, filter_app, length_app. f_equal.
  destruct (decide (stream' = stream)) as [->|Hn].
  - rewrite filter_cons, filter_nil.
    destruct (decide (e_id dt = id)) as [E|E], (decide (stream = stream /\ id = e_id dt)); naive_solver.
  - by rewrite decide_False by tauto.
Qed.

(** A receiver as [AddReceiver] and [AddDownTrack] make it *)
Record recv_ok (w : WebRTCReceiver) : Prop := {
  ro_up : length (upTracks w) = 3%nat;
  ro_down : length (downTracks w) = 3%nat;
  ro_none : forall k : nat, upTracks w !! k = Some None -> downTracks w !! k = Some None;
  ro_some : Exists (fun t => t <> None) (upTracks w);
  ro_plain : isSimulcast w = false -> exists t, upTracks w !! 0%nat = Some (Some t) }.

(** A down track of the peer is in one of the lists. *)
Definition hung_on (w : WebRTCReceiver) (peer : string) : Prop :=
  exists k l ref, downTracks w !! k = Some (Some l) /\ ref ∈ l /\ dt_peer ref = peer.

Record recv_step (w w' : WebRTCReceiver) : Prop := {
  st_trackID : w_trackID w' = w_trackID w;
  st_streamID : w_streamID w' = w_streamID w;
  st_ok : recv_ok w -> recv_ok w';
  st_hung : recv_ok w -> forall peer, hung_on w peer -> hung_on w' peer }.

#[export] Instance recv_step_preorder : PreOrder recv_step.
Proof.
  split; [by split|]. intros w1 w2 w3 [H1 H2 H3 H4] [H5 H6 H7 H8].
  split; [congruence..|auto|auto].
Qed.

Lemma NewWebRTCReceiver_ok track id stream kind codec pid ba :
  recv_ok (AddUpTrack (NewWebRTCReceiver track id stream kind codec pid) track ba).
Proof.
  split; cbn; rewrite ?length_insert; try done.
  - intros k. unfold rid_layer. repeat case_bool_decide; destruct k as [|[|[|k]]]; done.
  - unfold rid_layer. repeat case_bool_decide; cbn; [by right; right; left|by right; left|by left].
  - intros Hs. apply negb_false_iff in Hs. apply bool_decide_eq_true in Hs. rewrite Hs. by eexists.
Qed.

(** Another layer *)
Lemma AddUpTrack_step w track ba :
  upTracks w !! rid_layer (t_RID track) = Some None -> recv_step w (AddUpTrack w track ba).
Proof.
  intros Hn. split; [done|done| |].
  - intros [H1 H2 H3 H4 H5]. split; cbn; rewrite ?length_insert; try done.
    + intros k. destruct (decide (rid_layer (t_RID track) = k)) as [<-|Hne].
      * rewrite list_lookup_insert_eq by (by eapply lookup_lt_Some). done.
      * rewrite !list_lookup_insert_ne by done. apply H3.
    + apply Exists_exists. exists (Some track). split; [|done].
      apply list_elem_of_lookup. eexists. apply list_lookup_insert_eq. by eapply lookup_lt_Some.
    + intros Hs. destruct (H5 Hs) as [t Ht].
      destruct (decide (rid_layer (t_RID track) = 0%nat)) as [E|Hne].
      * rewrite E in Hn. congruence.
      * rewrite list_lookup_insert_ne by done. by exists t.
  - intros [H1 H2 H3 H4 H5] peer (k & l & ref & Hk & Hin). exists k, l, ref.
    split; [|done]. cbn. rewrite list_lookup_insert_ne; [done|].
    intros <-. apply H3 in Hn. congruence.
Qed.

(** Hanging a down track on a receiver: it is appended to the list of a layer
    that is there, and keeps its name. *)
Lemma AddDownTrack_shape w d pool best r' d' :
  recv_ok w -> AddDownTrack (MkRcv w [] None) d pool best = Ok (r', d') ->
  (exists (j : nat) t dts, upTracks w !! j = Some (Some t) /\ downTracks w !! j = Some dts
    /\ rv r' = w <| downTracks := <[j := Some (default [] dts ++ [d_ref d])]> (downTracks w) |>)
  /\ d_ref d' = d_ref d /\ d_id d' = d_id d /\ d_streamID d' = d_streamID d
  /\ d_closeOnce d' = d_closeOnce d.
Proof.
  intros [H1 H2 H3 H4 H5]. unfold AddDownTrack. cbn [rv].
  set (layer := if isSimulcast w then pick_layer best 0 0 (upTracks w) else 0).
  assert (exists (j : nat) t, layer = Z.of_nat j /\ upTracks w !! j = Some (Some t)) as (j & t & Hj & Ht).
  { subst layer. destruct (isSimulcast w) eqn:Es.
    - destruct (pick_layer_up best 0 0 _ H4) as (j & t & Hj & ->). exists j, t. split; [lia|done].
    - destruct (H5 eq_refl) as [t Ht]. by exists 0%nat, t. }
  clearbody layer. subst layer. unfold lock_layer. cbn [rv held]. rewrite bool_decide_false by done.
  pose proof (lookup_lt_Some _ _ _ Ht) as Hj. rewrite H1 in Hj.
  destruct (go_index_ok (downTracks w) (Z.of_nat j)) as (dts & -> & Hd); [unfold len; lia|].
  cbn [mbind go_bind mret go_ret]. intros [<- <-]%ok_pair_inj. rewrite Nat2Z.id in Hd.
  split.
  - exists j, t, dts. split; [done|]. split; [done|].
    cbn [set_layer upd settable_rcv eta_record rv]. rewrite Nat2Z.id. by destruct (isSimulcast w).
  - by destruct (isSimulcast w).
Qed.

Lemma AddDownTrack_step w d pool best r' d' :
  recv_ok w -> AddDownTrack (MkRcv w [] None) d pool best = Ok (r', d') ->
  recv_step w (rv r') /\ hung_on (rv r') (dt_peer (d_ref d)).
Proof.
  intros Hw Ha. destruct (AddDownTrack_shape _ _ _ _ _ _ Hw Ha) as [(j & t & dts & Ht & Hd & ->) _].
  destruct Hw as [H1 H2 H3 H4 H5]. pose proof (lookup_lt_Some _ _ _ Hd) as Hj. split.
  - split; [done|done| |].
    + intros _. split; cbn; rewrite ?length_insert; try done.
      intros k Hk. rewrite list_lookup_insert_ne; [by apply H3|]. intros ->. congruence.
    + intros _ peer (k & l & ref & Hk & Hin & Hp).
      destruct (decide (j = k)) as [<-|Hne].
      * exists j, (default [] dts ++ [d_ref d]), ref. cbn. split; [|split; [|done]].
        -- by apply list_lookup_insert_eq.
        -- rewrite Hk in Hd. injection Hd as <-. cbn. set_solver.
      * exists k, l, ref. cbn. rewrite list_lookup_insert_ne by done. done.
  - exists j, (default [] dts ++ [d_ref d]), (d_ref d). cbn. split; [|split; [set_solver|done]].
    by apply list_lookup_insert_eq.
Qed.

(** What hanging a subscriber on receivers does to its lists *)
Record sub_step (s s' : sub_tracks) : Prop := {
  ss_id : s_id s' = s_id s;
  ss_mono : forall stream id, (times s stream id <= times s' stream id)%nat;
  ss_once : forall stream id, (times s stream id <= 1)%nat -> (times s' stream id <= 1)%nat }.

#[export] Instance sub_step_preorder : PreOrder sub_step.
Proof.
  split; [by split|]. intros s1 s2 s3 [H1 H2 H3] [H4 H5 H6].
  split; [congruence| |auto]. intros stream id. etransitivity; [apply H2|apply H5].
Qed.

Lemma existsb_times s stream id :
  existsb (fun dt => String.eqb (e_id dt) id) (GetDownTracks s stream) = true
  <-> (0 < times s stream id)%nat.
Proof.
  unfold times. induction (GetDownTracks s stream) as [|dt l IH]; cbn [existsb].
  - cbn. split; [done|lia].
  - rewrite filter_cons, orb_true_iff, String.eqb_eq. case_decide; cbn [length]; [split; [lia|by left]|].
    rewrite IH. naive_solver.
Qed.

Lemma addDownTrack_step best ds s w a pool now ds' s' w' ok :
  recv_ok w -> addDownTrack best ds s w a true pool now = Ok (ds', s', w', ok) ->
  ok = true /\ recv_step w w' /\ sub_step s s'
  /\ (0 < times s' (w_streamID w) (w_trackID w))%nat
  /\ (forall stream id, (0 < times s' stream id)%nat -> (0 < times s stream id)%nat
      \/ (stream = w_streamID w /\ id = w_trackID w /\ hung_on w' (s_id s))).
Proof.
  intros Hw. unfold addDownTrack. destruct (existsb _ _) eqn:E.
  { intros [= <- <- <- <-]. apply existsb_times in E. split_and!; try done; by left. }
  cbn [negb].
  assert (times s (w_streamID w) (w_trackID w) = 0%nat) as H0.
  { destruct (times s (w_streamID w) (w_trackID w)) eqn:Et; [done|].
    rewrite (proj2 (existsb_times s (w_streamID w) (w_trackID w))) in E by lia. done. }
  destruct (AddDownTrack _ _ _ _) as [[r' d']|] eqn:Ea; [|done].
  cbn [mbind go_bind mret go_ret fst snd]. intros [= <- <- <- <-].
  apply AddDownTrack_step in Ea as [Hst Hh]; [|done].
  pose proof (times_add s (w_streamID w) (MkPtr (w_trackID w) (DtRef a (s_id s)))) as Ht.
  split; [done|]. split; [done|]. split; [|split].
  - split.
    + unfold s_AddDownTrack. by destruct (s_tracks s !! _).
    + intros stream id. rewrite Ht. lia.
    + intros stream id. rewrite Ht. cbn [e_id]. case_decide as Hc; [|lia].
      destruct Hc as [-> ->]. lia.
  - rewrite Ht. cbn [e_id]. rewrite decide_True by done. lia.
  - intros stream id. rewrite Ht. cbn [e_id]. case_decide as Hc; [|lia].
    destruct Hc as [-> ->]. by right.
Qed.

(** The receivers of a router: by track id, each as it should be *)
Definition receivers_ok (r : router) : Prop :=
  forall id w, receivers r !! id = Some w -> w_trackID w = id /\ recv_ok w.

Record router_step (r r' : router) : Prop := {
  rt_id : r_id r' = r_id r;
  rt_fwd : forall id w, receivers r !! id = Some w ->
    exists w', receivers r' !! id = Some w' /\ recv_step w w';
  rt_bwd : forall id w', receivers r' !! id = Some w' ->
    exists w, receivers r !! id = Some w /\ recv_step w w' }.

#[export] Instance router_step_preorder : PreOrder router_step.
Proof.
  split; [intros r; split; [done| |]; intros id w H; by exists w|].
  intros r1 r2 r3 [H1 H2 H3] [H4 H5 H6]. split; [congruence| |].
  - intros id w (w2 & Hw2 & S1)%H2. destruct (H5 id w2 Hw2) as (w3 & ? & S2).
    exists w3. split; [done|by etransitivity].
  - intros id w (w2 & Hw2 & S1)%H6. destruct (H3 id w2 Hw2) as (w3 & ? & S2).
    exists w3. split; [done|by etransitivity].
Qed.

Lemma router_step_ok r r' : router_step r r' -> receivers_ok r -> receivers_ok r'.
Proof.
  intros Hs Hr id w' (w & Hw & S)%(rt_bwd _ _ Hs). destruct (Hr id w Hw) as [H1 H2].
  split; [by rewrite (st_trackID _ _ S)|by apply (st_ok _ _ S)].
Qed.

Lemma router_insert_step r id w w' :
  receivers r !! id = Some w -> recv_step w w' ->
  router_step r (r <| receivers := <[id := w']> (receivers r) |>).
Proof.
  intros Hw S. split; [done| |]; cbn.
  - intros id0 w0 H0. destruct (decide (id = id0)) as [<-|Hn].
    + exists w'. rewrite lookup_insert_eq. split; [done|congruence].
    + exists w0. rewrite lookup_insert_ne by done. done.
  - intros id0 w0 [[<- <-]|[Hn H0]]%lookup_insert_Some; [by exists w|by exists w0].
Qed.

Lemma add_down_tracks_step ids ds r s a pool now ds' r' s' ok :
  receivers_ok r ->
  add_down_tracks ds r s ids a (fun _ => true) pool now = Ok (ds', r', s', ok) ->
  ok = true /\ router_step r r' /\ sub_step s s'
  /\ (forall id w, id ∈ ids -> receivers r !! id = Some w -> (0 < times s' (w_streamID w) id)%nat)
  /\ (forall stream id, (0 < times s' stream id)%nat -> (0 < times s stream id)%nat
      \/ (exists w', receivers r' !! id = Some w' /\ w_streamID w' = stream /\ hung_on w' (s_id s))).
Proof.
  revert ds r s a. induction ids as [|id ids IH]; intros ds r s a Hr; cbn [add_down_tracks].
  { intros [= <- <- <- <-]. split_and!; [done|done|by split| |by left].
    intros id w Hin. by apply elem_of_nil in Hin. }
  destruct (receivers r !! id) as [w|] eqn:Ew.
  2: { intros H. apply IH in H as (-> & H1 & H2 & H3 & H4); [|done]. split_and!; try done.
       intros id0 w0 [->|Hin]%elem_of_cons Hw0; [congruence|by apply H3]. }
  destruct (Hr id w Ew) as [Hid Hw].
  destruct (addDownTrack _ _ _ _ _ _ _ _) as [[[[ds1 s1] w1] ok1]|] eqn:Ea; [|done].
  cbn [mbind go_bind].
  destruct (addDownTrack_step _ _ _ _ _ _ _ _ _ _ _ Hw Ea) as (-> & S1 & T1 & C1 & R1).
  pose proof (router_insert_step r id w w1 Ew S1) as RS1. intros H.
  apply IH in H as (-> & RS2 & T2 & C2 & R2); [|by eapply router_step_ok].
  assert (router_step r r') as RS by (by etransitivity).
  split_and!; [done|done|by etransitivity| |].
  - intros id0 w0 Hin Hw0. destruct (decide (id0 = id)) as [->|Hn].
    + assert (w0 = w) as -> by congruence. rewrite Hid in C1.
      eapply Nat.lt_le_trans; [exact C1|apply T2].
    + apply elem_of_cons in Hin as [?|Hin]; [done|].
      apply C2; [done|]. cbn. by rewrite lookup_insert_ne.
  - intros stream id0 H0. destruct (R2 stream id0 H0) as [H1|(w' & ? & ? & Hh)].
    + destruct (R1 stream id0 H1) as [?|(-> & -> & Hh)]; [by left|]. right. rewrite Hid.
      destruct (rt_fwd _ _ RS2 id w1) as (w' & Hw' & S2); [cbn; by rewrite lookup_insert_eq|].
      exists w'. split_and!; [done| |].
      * by rewrite (st_streamID _ _ S2), (st_streamID _ _ S1).
      * apply (st_hung _ _ S2); [by apply (st_ok _ _ S1)|done].
    + right. exists w'. rewrite (ss_id _ _ T1) in Hh. done.
Qed.

Section add_receiver_lemmas.
Context (oor : float -> Z) (unm : option bytes -> option rtp_packet)
  (ext : rtp_packet -> Z -> option bytes) (lvl : bytes -> option Z) (uri : string).

Lemma AddReceiver_receivers f r track id stream kind codec params pool rand now f' r' w pub evs :
  AddReceiver oor unm ext lvl uri f r track id stream kind codec params pool rand now
    = Ok (f', r', w, pub, evs) ->
  exists ba, rtpBuffers f !! t_SSRC track = Some ba
    /\ w = AddUpTrack (default (NewWebRTCReceiver track id stream kind codec (r_id r))
             (receivers r !! id)) track ba
    /\ pub = bool_decide (receivers r !! id = None)
    /\ r_id r' = r_id r /\ receivers r' = <[id := w]> (receivers r).
Proof.
  unfold AddReceiver, GetBufferPair, GetRTCPReader, GetBuffer.
  destruct (rtcpReader f !! t_SSRC track) as [ra|]; [|done].
  destruct (rtpBuffers f !! t_SSRC track) as [ba|] eqn:Eb; [|done].
  set (r1 := match kind with TypeVideo => _ | _ => r end).
  assert (receivers r1 = receivers r /\ r_id r1 = r_id r) as [-> ->]
    by (subst r1; by destruct kind, (r_twcc r)).
  destruct (receivers r !! id) as [w0|] eqn:Ew.
  - destruct (buf_store _ !! ba) as [b|]; [|done].
    destruct (Bind _ _ _ _ _ _ _ _ _ _ _) as [s|]; [|done]. cbn [mbind go_bind mret go_ret].
    intros [= <- <- <- <- <-]. exists ba. split_and!; try done. subst r1. by destruct kind, (r_twcc r).
  - destruct (buf_store _ !! ba) as [b|]; [|done].
    destruct (Bind _ _ _ _ _ _ _ _ _ _ _) as [s|]; [|done]. cbn [mbind go_bind mret go_ret].
    intros [= <- <- <- <- <-]. exists ba. split_and!; try done. subst r1. by destruct kind, (r_twcc r).
Qed.
End add_receiver_lemmas.

(** ** The RTCP loop of a router *)

(** The channel [rtcpCh], whether [sendRTCP] still runs, and what it wrote to
    the publisher's connection *)
Record rtcp_loop := MkLoop {
  lp_ch : list (list rtcp_packet);
  lp_running : bool;
  lp_written : list (list rtcp_packet) }.

Definition new_loop : rtcp_loop := MkLoop [] true [].

(** A goroutine sends on the channel, when there is room; [sendRTCP] takes
    one message, or [Stop]'s, whichever [select] chooses.  The messages sent
    label the steps. *)
Inductive loop_step : rtcp_loop -> list (list rtcp_packet) -> rtcp_loop -> Prop :=
| lp_send ch run wr p :
    (length ch < rtcpCh_cap)%nat -> loop_step (MkLoop ch run wr) [p] (MkLoop (ch ++ [p]) run wr)
| lp_recv p ch wr : loop_step (MkLoop (p :: ch) true wr) [] (MkLoop ch true (wr ++ [p]))
| lp_stop ch wr : loop_step (MkLoop ch true wr) [] (MkLoop ch false wr).

Inductive loop_run : rtcp_loop -> list (list rtcp_packet) -> rtcp_loop -> Prop :=
| lr_nil l : loop_run l [] l
| lr_step l1 ps l2 qs l3 : loop_step l1 ps l2 -> loop_run l2 qs l3 -> loop_run l1 (ps ++ qs) l3.

Lemma loop_run_fifo l sent l' :
  loop_run l sent l' ->
  lp_written l' ++ lp_ch l' = lp_written l ++ lp_ch l ++ sent
  /\ ((length (lp_ch l) <= rtcpCh_cap)%nat -> (length (lp_ch l') <= rtcpCh_cap)%nat)
  /\ (lp_running l = false -> lp_running l' = false /\ lp_written l' = lp_written l).
Proof.
  induction 1 as [l|l1 ps l2 qs l3 Hs _ (IH1 & IH2 & IH3)]; [by rewrite app_nil_r|].
  rewrite IH1. destruct Hs as [ch run wr p Hc|p ch wr|ch wr]; cbn in *; split_and!; try done.
  - by rewrite <-!app_assoc.
  - intros _. apply IH2. rewrite length_app. cbn. unfold rtcpCh_cap in *. lia.
  - by rewrite <-!app_assoc.
  - intros Hl. apply IH2. lia.
Qed.

(** C40. What the receivers and buffers send reaches the publisher's connection in
    order, each message once.  Once [Stop] got through nothing more does, and
    the senders, who do not know, get stuck: after at most ten more messages
    no step is possible any more. *)
Theorem stop_strands_senders sent l more l' :
  loop_run new_loop sent l -> lp_running l = false -> loop_run l more l' ->
  sent = lp_written l ++ lp_ch l
  /\ lp_written l' = lp_written l
  /\ (length (lp_ch l) + length more <= rtcpCh_cap)%nat
  /\ ((length (lp_ch l) + length more = rtcpCh_cap)%nat -> forall p l'', ~ loop_step l' p l'').
Proof.
  intros H1 Hstop H2. destruct (loop_run_fifo _ _ _ H1) as (F1 & C1 & _).
  destruct (loop_run_fifo _ _ _ H2) as (F2 & C2 & S2). destruct (S2 Hstop) as [Hr Hw].
  cbn in F1, C1. rewrite Hw in F2. apply app_inv_head in F2.
  assert (length (lp_ch l) + length more = length (lp_ch l'))%nat as Hl by (by rewrite F2, length_app).
  split_and!; [done|done| |].
  - rewrite Hl. apply C2, C1. unfold rtcpCh_cap. lia.
  - rewrite Hl. intros Hfull p l'' Hs. destruct Hs; cbn in *; [lia|done|done].
Qed.

(** One message written, one stranded, and one sent after the stop *)
Lemma ex_stopped_run : loop_run new_loop [[]; []] (MkLoop [[]] false [[]]).
Proof.
  apply (lr_step _ [[]] (MkLoop [[]] true []) [[]]); [apply (lp_send []); cbn; unfold rtcpCh_cap; lia|].
  apply (lr_step _ [] (MkLoop [] true [[]]) [[]]); [apply (lp_recv [] [] [])|].
  apply (lr_step _ [[]] (MkLoop [[]] true [[]]) []); [apply (lp_send []); cbn; unfold rtcpCh_cap; lia|].
  apply (lr_step _ [] (MkLoop [[]] false [[]]) []); [apply lp_stop|]. apply lr_nil.
Qed.

Lemma ex_stopped_more : loop_run (MkLoop [[]] false [[]]) [[]] (MkLoop [[]; []] false [[]]).
Proof.
  apply (lr_step _ [[]] (MkLoop [[]; []] false [[]]) []); [|apply lr_nil].
  apply (lp_send [[]]). cbn. unfold rtcpCh_cap. lia.
Qed.

Lemma stop_strands_senders_witness :
  ([[]; []] : list (list rtcp_packet)) = lp_written (MkLoop [[]] false [[]]) ++ lp_ch (MkLoop [[]] false [[]])
  /\ (length (lp_ch (MkLoop [[]] false [[]])) + length ([[]] : list (list rtcp_packet)) <= rtcpCh_cap)%nat.
Proof.
  destruct (stop_strands_senders [[]; []] (MkLoop [[]] false [[]]) [[]] (MkLoop [[]; []] false [[]])
    ex_stopped_run eq_refl ex_stopped_more) as (H1 & _ & H2 & _).
  exact (conj H1 H2).
Defined.
