(* ===== verification/Links.v ===== *)
(** * The two ends of a down track

    A down track is named from two sides: by a list of its receiver, by its
    reference, and by a list of its subscriber, by a pointer; the track
    itself is in the store.  Here is what the operations of the router and
    the receiver keep between the three, address by address. *)

From stdpp Require Import gmap strings.
From S2P Require Import Prelude GoNum GoSlice GoFloat Nack Bucket Twcc Sequencer Rtp Buffer Factory Pacer SfuHelper DownTrack Receiver Layers Router.
#[local] Open Scope Z_scope.

(** The reference is in one of the receiver's lists. *)
Definition hangs (w : WebRTCReceiver) (ref : dt_ref) : Prop :=
  exists k l, downTracks w !! k = Some (Some l) /\ ref ∈ l.

(** The name of a down track: its reference, track and stream *)
Definition named (d : DownTrack) (ref : dt_ref) (id stream : string) : Prop :=
  d_ref d = ref /\ d_id d = id /\ d_streamID d = stream.

(** What hangs on a receiver, of track [id], is in the store and open. *)
Definition recv_linked (ds : tracks) (id : string) (w : WebRTCReceiver) : Prop :=
  w_closeOnce w = false /\ forall ref, hangs w ref ->
    exists d, ds !! dt_addr ref = Some d /\ named d ref id (w_streamID w) /\ d_closeOnce d = false.

(** What a subscriber points at is in the store, under the right name. *)
Definition sub_linked (ds : tracks) (s : sub_tracks) : Prop :=
  forall stream ptr, ptr ∈ GetDownTracks s stream ->
    exists d, ds !! dt_addr (e_ref ptr) = Some d /\ named d (e_ref ptr) (e_id ptr) stream
      /\ dt_peer (e_ref ptr) = s_id s.

Lemma hung_on_hangs w peer : hung_on w peer <-> exists ref, hangs w ref /\ dt_peer ref = peer.
Proof. unfold hung_on, hangs. naive_solver. Qed.

Lemma recv_linked_mono ds ds' id w : ds ⊆ ds' -> recv_linked ds id w -> recv_linked ds' id w.
Proof.
  intros Hle [H1 H2]. split; [done|]. intros ref (d & Hd & ?)%H2. exists d.
  split; [by eapply lookup_weaken|done].
Qed.

Lemma sub_linked_mono ds ds' s : ds ⊆ ds' -> sub_linked ds s -> sub_linked ds' s.
Proof. intros Hle H st ptr (d & Hd & ?)%H. exists d. split; [by eapply lookup_weaken|done]. Qed.

(** ** Hanging *)

Lemma AddUpTrack_hangs w track ba ref :
  upTracks w !! rid_layer (t_RID track) = Some None -> recv_ok w ->
  hangs (AddUpTrack w track ba) ref <-> hangs w ref.
Proof.
  intros Hn Hok. pose proof (ro_none _ Hok _ Hn) as Hd.
  split; intros (k & l & Hk & Hin); exists k, l; (split; [|done]); cbn in *.
  - destruct (decide (rid_layer (t_RID track) = k)) as [<-|Hne]; [|by rewrite list_lookup_insert_ne in Hk].
    rewrite list_lookup_insert_eq in Hk by (by eapply lookup_lt_Some).
    injection Hk as <-. by apply elem_of_nil in Hin.
  - rewrite list_lookup_insert_ne; [done|congruence].
Qed.

Lemma AddUpTrack_linked ds id w track ba :
  upTracks w !! rid_layer (t_RID track) = Some None -> recv_ok w ->
  recv_linked ds id w -> recv_linked ds id (AddUpTrack w track ba).
Proof.
  intros Hn Hok [H1 H2]. split; [done|]. intros ref Hin%AddUpTrack_hangs; [|done|done]. by apply H2.
Qed.

Lemma new_receiver_linked ds id track tid stream kind codec pid ba :
  recv_linked ds id (AddUpTrack (NewWebRTCReceiver track tid stream kind codec pid) track ba).
Proof.
  split; [done|]. intros ref (k & l & Hk & Hin). exfalso. revert Hk. cbn.
  unfold rid_layer. repeat case_bool_decide; destruct k as [|[|[|k]]]; cbn; intros [= <-];
    by apply elem_of_nil in Hin.
Qed.

Lemma addDownTrack_linked best ds s w a pool now ds' s' w' ok :
  recv_ok w -> ds !! a = None -> sub_linked ds s -> recv_linked ds (w_trackID w) w ->
  addDownTrack best ds s w a true pool now = Ok (ds', s', w', ok) ->
  ds ⊆ ds' /\ (forall b, b <> a -> ds' !! b = ds !! b)
  /\ sub_linked ds' s' /\ recv_linked ds' (w_trackID w) w'
  /\ (forall ref, hangs w ref -> hangs w' ref)
  /\ (forall stream ptr, ptr ∈ GetDownTracks s' stream -> ptr ∈ GetDownTracks s stream
      \/ (stream = w_streamID w /\ e_id ptr = w_trackID w /\ hangs w' (e_ref ptr))).
Proof.
  intros Hw Ha Hs Hr. unfold addDownTrack. destruct (existsb _ _).
  { intros [= <- <- <- <-]. split_and!; auto. }
  cbn [negb]. destruct (AddDownTrack _ _ _ _) as [[r' d']|] eqn:E; [|done].
  cbn [mbind go_bind mret go_ret fst snd]. intros [= <- <- <- <-].
  destruct (AddDownTrack_shape _ _ _ _ _ _ Hw E) as [(j & t & dts & _ & Hj & ->) (D1 & D2 & D3 & D4)].
  cbn [NewDownTrack d_ref d_id d_streamID d_closeOnce] in *.
  set (ref0 := DtRef a (s_id s)) in *.
  set (w' := w <| downTracks := _ |>).
  assert (forall ref, hangs w' ref <-> hangs w ref \/ ref = ref0) as Hh.
  { intros ref. split.
    - intros (k & l & Hk & Hin). cbn in Hk. destruct (decide (j = k)) as [<-|Hne].
      + rewrite list_lookup_insert_eq in Hk by (by eapply lookup_lt_Some). injection Hk as <-.
        apply elem_of_app in Hin as [Hin|?%list_elem_of_singleton]; [|by right]. left.
        destruct dts as [l|]; [by exists j, l|]. by apply elem_of_nil in Hin.
      + rewrite list_lookup_insert_ne in Hk by done. left. by exists k, l.
    - assert (forall l, downTracks w' !! j = Some (Some l) -> l = default [] dts ++ [ref0]) as Hl.
      { intros l. cbn. rewrite list_lookup_insert_eq by (by eapply lookup_lt_Some). congruence. }
      assert (downTracks w' !! j = Some (Some (default [] dts ++ [ref0]))) as Hw'
        by (cbn; apply list_lookup_insert_eq; by eapply lookup_lt_Some).
      intros [(k & l & Hk & Hin)| ->]; [|exists j, (default [] dts ++ [ref0]); set_solver].
      destruct (decide (j = k)) as [<-|Hne].
      + exists j, (default [] dts ++ [ref0]). split; [done|]. rewrite Hj in Hk. injection Hk as ->. set_solver.
      + exists k, l. cbn. by rewrite list_lookup_insert_ne. }
  assert (ds ⊆ <[a := d']> ds) as Hle by (by apply insert_subseteq).
  split_and!; [done| | | | |].
  - intros b Hb. by rewrite lookup_insert_ne.
  - intros stream ptr. rewrite GetDownTracks_add. intros [Hin|Hin]%elem_of_app.
    + destruct (Hs stream ptr Hin) as (d & Hd & ? & ?). exists d. split; [by eapply lookup_weaken|].
      split; [done|]. unfold s_AddDownTrack. by destruct (s_tracks s !! _).
    + destruct (decide (stream = w_streamID w)) as [->|]; [|by apply elem_of_nil in Hin].
      apply list_elem_of_singleton in Hin as ->. exists d'. cbn. rewrite lookup_insert_eq.
      split; [done|]. split; [by split_and!|]. unfold s_AddDownTrack. by destruct (s_tracks s !! _).
  - split; [apply Hr|]. intros ref [Hin| ->]%Hh.
    + destruct Hr as [_ Hr]. destruct (Hr ref Hin) as (d & Hd & ?). exists d.
      split; [by eapply lookup_weaken|done].
    + exists d'. cbn. rewrite lookup_insert_eq. split; [done|]. by split_and!.
  - intros ref Hin. apply Hh. by left.
  - intros stream ptr. rewrite GetDownTracks_add. intros [Hin|Hin]%elem_of_app; [by left|].
    destruct (decide (stream = w_streamID w)) as [->|]; [|by apply elem_of_nil in Hin].
    apply list_elem_of_singleton in Hin as ->. right. split_and!; [done|done|]. apply Hh. by right.
Qed.

Definition router_linked (ds : tracks) (r : router) : Prop :=
  forall id w, receivers r !! id = Some w -> recv_linked ds id w.

(** Receivers only gain down tracks. *)
Definition router_hangs (r r' : router) : Prop :=
  forall id w, receivers r !! id = Some w -> exists w', receivers r' !! id = Some w'
    /\ w_streamID w' = w_streamID w /\ forall ref, hangs w ref -> hangs w' ref.

#[export] Instance router_hangs_preorder : PreOrder router_hangs.
Proof.
  split; [intros r id w Hw; by exists w|]. intros r1 r2 r3 H1 H2 id w Hw.
  destruct (H1 id w Hw) as (w2 & Hw2 & E2 & F2). destruct (H2 id w2 Hw2) as (w3 & Hw3 & E3 & F3).
  exists w3. split_and!; [done|congruence|auto].
Qed.

Lemma add_down_tracks_linked ids ds r s a pool now ds' r' s' ok :
  receivers_ok r -> (forall b, (a <= b)%nat -> ds !! b = None) ->
  sub_linked ds s -> router_linked ds r ->
  add_down_tracks ds r s ids a (fun _ => true) pool now = Ok (ds', r', s', ok) ->
  ds ⊆ ds' /\ sub_linked ds' s' /\ router_linked ds' r' /\ router_hangs r r'
  /\ forall stream ptr, ptr ∈ GetDownTracks s' stream -> ptr ∈ GetDownTracks s stream
      \/ exists w', receivers r' !! e_id ptr = Some w' /\ w_streamID w' = stream /\ hangs w' (e_ref ptr).
Proof.
  revert ds r s a. induction ids as [|id ids IH]; intros ds r s a Hr Ha Hs Hl; cbn [add_down_tracks].
  { intros [= <- <- <- <-]. split_and!; [done|done|done|done|by left]. }
  destruct (receivers r !! id) as [w|] eqn:Ew.
  2: { intros H. apply IH in H; [done|done| |done|done]. intros b Hb. apply Ha. lia. }
  destruct (Hr id w Ew) as [Hid Hw].
  destruct (addDownTrack _ _ _ _ _ _ _ _) as [[[[ds1 s1] w1] ok1]|] eqn:Ea; [|done]. cbn [mbind go_bind].
  destruct (addDownTrack_step _ _ _ _ _ _ _ _ _ _ _ Hw Ea) as (-> & S1 & _).
  rewrite <-Hid in Ew. pose proof (Hl _ _ Ew) as Hlw.
  destruct (addDownTrack_linked _ _ _ _ _ _ _ _ _ _ _ Hw (Ha a (le_n a)) Hs Hlw Ea)
    as (L1 & L2 & L3 & L4 & L5 & L6).
  rewrite Hid in *. set (r1 := r <| receivers := <[id := w1]> (receivers r) |>).
  assert (router_linked ds1 r1) as Hl1.
  { intros id0 w0. cbn [r1 upd settable_router eta_record receivers].
    intros [[<- <-]|[_ H0]]%lookup_insert_Some; [done|]. eapply recv_linked_mono; [done|auto]. }
  assert (router_hangs r r1) as Hh1.
  { intros id0 w0 H0. cbn. destruct (decide (id = id0)) as [<-|Hn].
    - exists w1. rewrite lookup_insert_eq. replace w0 with w by congruence.
      split_and!; [done|apply (st_streamID _ _ S1)|done].
    - exists w0. by rewrite lookup_insert_ne. }
  intros H. apply IH in H as (M1 & M2 & M3 & M4 & M5); [| | |done|done].
  - split_and!; [by etransitivity|done|done|by etransitivity|].
    intros stream ptr Hp. destruct (M5 stream ptr Hp) as [Hp1|?]; [|by right].
    destruct (L6 stream ptr Hp1) as [?|(-> & Hid' & Hh)]; [by left|]. right.
    destruct (M4 id w1) as (w' & Hw' & Est & Fh); [cbn; by rewrite lookup_insert_eq|].
    exists w'. rewrite Hid'. split_and!; [done| |by apply Fh]. by rewrite Est, (st_streamID _ _ S1).
  - eapply router_step_ok; [by eapply router_insert_step|done].
  - intros b Hb. rewrite L2 by lia. apply Ha. lia.
Qed.

(** ** Removing *)

Definition at_addr (a : nat) (ptr : dt_ptr) : Prop := dt_addr (e_ref ptr) = a.
#[export] Instance at_addr_dec a ptr : Decision (at_addr a ptr).
Proof. unfold at_addr. apply _. Defined.

Lemma last_index_spec a dts i index :
  match last_index a i index dts with
  | Some k => index = Some k /\ Forall (fun p => ~ at_addr a p) dts
      \/ exists j ptr, k = (i + j)%nat /\ dts !! j = Some ptr /\ at_addr a ptr
  | None => index = None /\ Forall (fun p => ~ at_addr a p) dts
  end.
Proof.
  revert i index. induction dts as [|p dts IH]; intros i index; cbn [last_index].
  { destruct index; [left|]; done. }
  specialize (IH (S i) (if decide (dt_addr (e_ref p) = a) then Some i else index)).
  destruct (last_index _ _ _ _) as [k|].
  - destruct IH as [[Hi Hf]|(j & ptr & -> & Hj & Hp)].
    + destruct (decide (dt_addr (e_ref p) = a)) as [Ha|Ha].
      * right. exists 0%nat, p. injection Hi as <-. split; [lia|done].
      * left. split; [done|]. by constructor.
    + right. exists (S j), ptr. split; [lia|done].
  - destruct IH as [Hi Hf]. destruct (decide (dt_addr (e_ref p) = a)) as [Ha|Ha]; [done|].
    split; [done|]. by constructor.
Qed.

Lemma filter_keeps_all {A} (P : A -> Prop) `{forall x, Decision (P x)} l : Forall P l -> filter P l = l.
Proof. induction 1; [done|]. rewrite filter_cons, decide_True by done. by f_equal. Qed.

Lemma filter_submseteq {A} (P : A -> Prop) `{forall x, Decision (P x)} l k :
  l ⊆+ k -> filter P l ⊆+ filter P k.
Proof.
  intros [x Hx]%submseteq_Permutation. rewrite Hx, filter_app. apply submseteq_inserts_r. done.
Qed.

(** [RemoveDownTrack] takes out the pointer of the address, which the
    subscriber has once. *)
Lemma RemoveDownTrack_spec s stream a :
  (length (filter (at_addr a) (GetDownTracks s stream)) <= 1)%nat ->
  s_id (RemoveDownTrack s stream a) = s_id s
  /\ (forall stream', stream' <> stream ->
       GetDownTracks (RemoveDownTrack s stream a) stream' = GetDownTracks s stream')
  /\ GetDownTracks (RemoveDownTrack s stream a) stream
     ≡ₚ filter (fun p => ~ at_addr a p) (GetDownTracks s stream).
Proof.
  unfold RemoveDownTrack, GetDownTracks. intros Hone.
  destruct (s_tracks s !! stream) as [dts|] eqn:E.
  2: { split_and!; [done|done|]. by rewrite E. }
  cbn [default id] in *. pose proof (last_index_spec a dts 0 None) as Hl.
  destruct (last_index a 0 None dts) as [k|].
  - destruct Hl as [[? _]|(j & ptr & -> & Hj & Hp)]; [done|]. cbn [Nat.add].
    cbn [upd settable_sub_tracks eta_record s_id s_tracks]. split_and!; [done| |].
    + intros stream' Hn. by rewrite lookup_insert_ne.
    + rewrite lookup_insert_eq. cbn [default id].
      pose proof (swap_remove_Permutation dts j ptr Hj) as Hperm.
      generalize dependent (swap_remove dts j). intros l Hperm. rewrite Hperm in Hone |- *.
      rewrite filter_cons, decide_True in Hone by done. cbn [length] in Hone.
      rewrite filter_cons, decide_False by (intros Hf; by apply Hf). rewrite filter_keeps_all; [done|].
      apply Forall_forall. intros p Hin Hpa.
      assert (p ∈ filter (at_addr a) l) as Hf by (by apply list_elem_of_filter).
      destruct (filter _ _); [by apply elem_of_nil in Hf|]. cbn in Hone. lia.
  - destruct Hl as [_ Hf]. split_and!; [done|done|]. rewrite E. cbn. by rewrite filter_keeps_all.
Qed.

(** ** Closing *)

Lemma concat_hangs w ref : ref ∈ concat (map (default []) (downTracks w)) <-> hangs w ref.
Proof.
  unfold hangs. rewrite list_elem_of_In, in_concat. split.
  - intros (x & (o & <- & Ho)%in_map_iff & Hin). apply list_elem_of_In, list_elem_of_lookup in Ho as [k Hk].
    apply list_elem_of_In in Hin. destruct o as [x|]; [by exists k, x|by apply elem_of_nil in Hin].
  - intros (k & x & Hk & Hin). exists x. split; [|by apply list_elem_of_In].
    apply in_map_iff. exists (Some x). split; [done|]. apply list_elem_of_In. by eapply list_elem_of_lookup_2.
Qed.

(** Closing the down tracks of a list: those that were open run their
    handlers, and of the others only the flag changes. *)
Lemma close_all_spec ds l ds' cl :
  close_all ds l = (ds', cl) ->
  (forall ref, ref ∈ cl -> ref ∈ l)
  /\ (forall ref d, ref ∈ l -> ds !! dt_addr ref = Some d -> d_closeOnce d = false ->
      exists ref', ref' ∈ cl /\ dt_addr ref' = dt_addr ref)
  /\ (forall b d, ds !! b = Some d -> exists d', ds' !! b = Some d'
      /\ named d' (d_ref d) (d_id d) (d_streamID d)
      /\ (d_closeOnce d' = d_closeOnce d \/ exists ref, ref ∈ l /\ dt_addr ref = b)).
Proof.
  revert ds ds' cl. induction l as [|x l IH]; intros ds ds' cl; cbn [close_all].
  { intros [= <- <-]. split_and!; [done|by intros ? ? ?%elem_of_nil|].
    intros b d Hd. exists d. split; [done|]. split; [done|by left]. }
  destruct (ds !! dt_addr x) as [dx|] eqn:Ex.
  2: { intros H. destruct (IH _ _ _ H) as (H1 & H2 & H3). split_and!.
       - intros ref Hin. right. auto.
       - intros ref d [->|Hin]%elem_of_cons; [congruence|]. by apply H2.
       - intros b d Hd. destruct (H3 b d Hd) as (d' & ? & ? & Hc). exists d'. split_and!; try done.
         destruct Hc as [?|(ref & ? & ?)]; [by left|right]. exists ref. split; [by right|done]. }
  unfold d_Close. destruct (d_closeOnce dx) eqn:Ec.
  - rewrite insert_id by done. destruct (close_all ds l) as [ds1 cl1] eqn:E1. intros [= <- <-].
    destruct (IH _ _ _ E1) as (H1 & H2 & H3). split_and!.
    + intros ref Hin. right. auto.
    + intros ref d [->|Hin]%elem_of_cons; [congruence|]. by apply H2.
    + intros b d Hd. destruct (H3 b d Hd) as (d' & ? & ? & Hc). exists d'. split_and!; try done.
      destruct Hc as [?|(ref & ? & ?)]; [by left|right]. exists ref. split; [by right|done].
  - set (dx' := dx <| d_closeOnce := true |>).
    destruct (close_all (<[dt_addr x := dx']> ds) l) as [ds1 cl1] eqn:E1. intros [= <- <-].
    destruct (IH _ _ _ E1) as (H1 & H2 & H3). split_and!.
    + intros ref [->|Hin]%elem_of_cons; [by left|right; auto].
    + intros ref d Hin Hd Hc. destruct (decide (dt_addr ref = dt_addr x)) as [He|He].
      * exists x. split; [by left|done].
      * apply elem_of_cons in Hin as [->|Hin]; [done|].
        destruct (H2 ref d Hin) as (ref' & ? & ?); [by rewrite lookup_insert_ne|done|].
        exists ref'. split; [by right|done].
    + intros b d Hd. destruct (decide (dt_addr x = b)) as [<-|He].
      * destruct (H3 (dt_addr x) dx') as (d' & Hd' & Hn & _); [by rewrite lookup_insert_eq|].
        exists d'. replace d with dx by congruence. split_and!; [done|exact Hn|].
        right. exists x. split; [by left|done].
      * destruct (H3 b d) as (d' & ? & ? & Hc); [by rewrite lookup_insert_ne|].
        exists d'. split_and!; try done.
        destruct Hc as [?|(ref & ? & ?)]; [by left|right]. exists ref. split; [by right|done].
Qed.

(** ** [AddDownTracks], with one receiver or all *)

Record tracks_added (ds : tracks) (r : router) (s : sub_tracks) (ids : list string)
    (ds' : tracks) (r' : router) (s' : sub_tracks) : Prop := {
  ta_router : router_step r r';
  ta_sub : sub_step s s';
  ta_done : forall id w, id ∈ ids -> receivers r !! id = Some w -> (0 < times s' (w_streamID w) id)%nat;
  ta_store : ds ⊆ ds';
  ta_sub_linked : sub_linked ds' s';
  ta_router_linked : router_linked ds' r';
  ta_hangs : router_hangs r r';
  ta_ptrs : forall stream ptr, ptr ∈ GetDownTracks s' stream -> ptr ∈ GetDownTracks s stream
    \/ exists w', receivers r' !! e_id ptr = Some w' /\ w_streamID w' = stream /\ hangs w' (e_ref ptr) }.

Lemma AddDownTracks_added ds r s recv ids a pool now ds' r' s' ok :
  receivers_ok r -> (forall b, (a <= b)%nat -> ds !! b = None) ->
  sub_linked ds s -> router_linked ds r ->
  AddDownTracks ds r s recv ids a (fun _ => true) pool now = Ok (ds', r', s', ok) ->
  tracks_added ds r s (match recv with Some id => [id] | None => ids end) ds' r' s'.
Proof.
  intros Hr Ha Hs Hl. unfold AddDownTracks.
  assert (forall ids0, add_down_tracks ds r s ids0 a (fun _ => true) pool now = Ok (ds', r', s', ok) ->
    tracks_added ds r s ids0 ds' r' s') as H.
  { intros ids0 H. destruct (add_down_tracks_step _ _ _ _ _ _ _ _ _ _ _ Hr H) as (_ & H1 & H2 & H3 & _).
    destruct (add_down_tracks_linked _ _ _ _ _ _ _ _ _ _ _ Hr Ha Hs Hl H) as (H4 & H5 & H6 & H7 & H8).
    by split. }
  destruct recv as [id|]; [apply H|]. destruct (0 <? len ids) eqn:El; [apply H|].
  intros [= <- <- <- _]. destruct ids as [|x l].
  - split; try done; [by intros ? ? ?%elem_of_nil|by left].
  - exfalso. rewrite len_cons in El. bool_prop. pose proof (len_nonneg l). lia.
Qed.
