(* ===== verification/Session.v ===== *)
(** * Sessions ([internal/sfu/session.go], [sfu.go])

    The peers of a session, and the table of sessions of an [SFU]: a session
    is made when a peer asks for its id and none is open, and closes when its
    last peer leaves.  What the peers of a session do to each other's tracks
    is in [Room], their data channels are in [Channels]. *)

From stdpp Require Import gmap strings.
From S2P Require Import Prelude.
#[local] Open Scope Z_scope.

(** ** Data *)

(** The peers are identified by their ids; what they own is in [room]. *)
Record session := MkSession {
  sess_id : string;
  peers : gset string;
  fanOutDCs : list string;
  dataChannels : list string;
  sess_closed : bool }.
#[export] Instance settable_session : Settable session := fun s =>
  MkSession (sess_id s) (peers s) (fanOutDCs s) (dataChannels s) (sess_closed s).

Definition NewSession (id : string) (dcs : list string) : session := MkSession id ∅ [] dcs false.

Definition AddPeer (s : session) (pid : string) : session := s <| peers := {[pid]} ∪ peers s |>.

(** The parts of [RemovePeer]: the peer is taken out under the lock; without
    the lock, the session is found to be empty and open; it is marked as
    closed, and then the close handler runs, which is always set
    ([newSession]). *)
Definition rp_delete (s : session) (pid : string) : session := s <| peers := peers s ∖ {[pid]} |>.
Definition rp_last (s : session) : bool := (bool_decide (peers s = ∅) && negb (sess_closed s))%bool.
Definition rp_close (s : session) : session := s <| sess_closed := true |>.

(** [RemovePeer], nothing else coming between its parts; whether the close
    handler runs.  With other goroutines in between it is [leave] and
    [depart], below. *)
Definition RemovePeer (s : session) (pid : string) : session * bool :=
  let s := rp_delete s pid in
  if rp_last s then (rp_close s, true) else (s, false).

(** ** The SFU's sessions *)

(** The values are the sessions made so far, by address. *)
Record SFU := MkSFU {
  sessions : gmap string nat;
  sess_store : list session;
  sfu_dcs : list string }.
#[export] Instance settable_SFU : Settable SFU := fun s =>
  MkSFU (sessions s) (sess_store s) (sfu_dcs s).

Definition NewSFU : SFU := MkSFU ∅ [] [].

Definition NewDatachannel (s : SFU) (label : string) : SFU := s <| sfu_dcs := sfu_dcs s ++ [label] |>.

Definition newSession (s : SFU) (id : string) : SFU * nat :=
  let a := length (sess_store s) in
  (s <| sess_store := sess_store s ++ [NewSession id (sfu_dcs s)] |>
     <| sessions := <[id := a]> (sessions s) |>, a).

Definition getSession (s : SFU) (id : string) : option nat := sessions s !! id.

Definition GetSession (s : SFU) (sid : string) : SFU * nat :=
  match getSession s sid with Some a => (s, a) | None => newSession s sid end.

(** A change of the session at an address *)
Definition on_session (f : session -> session) (a : nat) (s : SFU) : SFU :=
  s <| sess_store := alter f a (sess_store s) |>.

Definition sfu_AddPeer (s : SFU) (a : nat) (pid : string) : SFU := on_session (fun se => AddPeer se pid) a s.

(** The close handler of the session at [a]: it takes out of the table what
    the table has under the session's id. *)
Definition close_handler (s : SFU) (a : nat) : SFU :=
  match sess_store s !! a with
  | Some se => s <| sessions := delete (sess_id se) (sessions s) |>
  | None => s
  end.

(** [RemovePeer] on the session at [a] with its handler, nothing else coming
    between *)
Definition sfu_RemovePeer (s : SFU) (a : nat) (pid : string) : SFU :=
  match sess_store s !! a with
  | Some se =>
      let '(se', close) := RemovePeer se pid in
      let s := s <| sess_store := <[a := se']> (sess_store s) |> in
      if close : bool then close_handler s a else s
  | None => s
  end.

(** [RemovePeer] in steps: the peer leaves, and what is left to do, one part
    at a time; other goroutines run in between. *)
Inductive departure := DpTest (a : nat) | DpClose (a : nat) | DpHandler (a : nat).

Definition leave (s : SFU) (a : nat) (pid : string) : SFU * departure :=
  (on_session (fun se => rp_delete se pid) a s, DpTest a).

Definition depart (s : SFU) (t : departure) : SFU * option departure :=
  match t with
  | DpTest a => (s, match sess_store s !! a with
                    | Some se => if rp_last se then Some (DpClose a) else None
                    | None => None
                    end)
  | DpClose a => (on_session rp_close a s, Some (DpHandler a))
  | DpHandler a => (close_handler s a, None)
  end.

(** ** Properties of the table of sessions *)

(** What the peers' goroutines do with the SFU, one whole call after the
    other: [og_Get] is a [GetSession] that is not disturbed between its two
    critical sections, [og_Remove] a [RemovePeer] not disturbed between its
    parts.  Calls that overlap are in [Server]. *)
Inductive sfu_op :=
| og_Get (sid : string)
| og_Add (a : nat) (pid : string)
| og_Remove (a : nat) (pid : string)
| og_Channel (label : string).

Definition sfu_do (s : SFU) (o : sfu_op) : SFU :=
  match o with
  | og_Get sid => (GetSession s sid).1
  | og_Add a pid => sfu_AddPeer s a pid
  | og_Remove a pid => sfu_RemovePeer s a pid
  | og_Channel label => NewDatachannel s label
  end.

(** The table holds the sessions that are not closed, each under its id. *)
Definition table_ok (s : SFU) : Prop :=
  forall id a, sessions s !! id = Some a
    <-> exists se, sess_store s !! a = Some se /\ sess_id se = id /\ sess_closed se = false.

#[local] Ltac sfu_cbn := cbn [upd settable_SFU settable_session eta_record sessions sess_store
  sfu_dcs sess_id sess_closed peers AddPeer on_session fst snd].

(** The close handler, when the session was just written *)
Lemma close_handler_insert s a se' :
  (a < length (sess_store s))%nat ->
  close_handler (s <| sess_store := <[a := se']> (sess_store s) |>) a
  = s <| sess_store := <[a := se']> (sess_store s) |> <| sessions := delete (sess_id se') (sessions s) |>.
Proof. intros H. unfold close_handler. sfu_cbn. by rewrite list_lookup_insert_eq. Qed.

Lemma close_handler_store s a : sess_store (close_handler s a) = sess_store s.
Proof. unfold close_handler. by destruct (sess_store s !! a). Qed.

Lemma table_ok_keep s s' :
  sessions s' = sessions s ->
  (forall a id b, (exists se, sess_store s' !! a = Some se /\ sess_id se = id /\ sess_closed se = b)
    <-> exists se, sess_store s !! a = Some se /\ sess_id se = id /\ sess_closed se = b) ->
  table_ok s -> table_ok s'.
Proof. intros Hs Hb H id a. rewrite Hs, (H id a). symmetry. apply Hb. Qed.

Lemma newSession_ok s id :
  table_ok s -> sessions s !! id = None -> table_ok (newSession s id).1.
Proof.
  intros H Hn id' a. unfold newSession. sfu_cbn. destruct (decide (id' = id)) as [->|Hne].
  - rewrite lookup_insert_eq. split.
    + intros [= <-]. exists (NewSession id (sfu_dcs s)). by rewrite list_lookup_middle.
    + intros (se & [Hl|[Hge Hl]]%lookup_app_Some & Hid & Hc).
      * enough (sessions s !! id = Some a) by congruence. apply H. by exists se.
      * apply list_lookup_singleton_Some in Hl as [Hl _]. f_equal. lia.
  - rewrite lookup_insert_ne by done. rewrite (H id' a). split.
    + intros (se & Hl & Hid & Hc). exists se. split; [by apply lookup_app_l_Some|done].
    + intros (se & [Hl|[Hge Hl]]%lookup_app_Some & Hid & Hc); [by exists se|].
      apply list_lookup_singleton_Some in Hl as [_ <-]. cbn in Hid. congruence.
Qed.

Lemma RemovePeer_cases se pid :
  let '(se', close) := RemovePeer se pid in
  sess_id se' = sess_id se /\ peers se' = peers se ∖ {[pid]}
  /\ ((close = true /\ sess_closed se = false /\ sess_closed se' = true /\ peers se' = ∅)
      \/ (close = false /\ sess_closed se' = sess_closed se
          /\ (sess_closed se = true \/ peers se' <> ∅))).
Proof.
  unfold RemovePeer, rp_last, rp_close, rp_delete. sfu_cbn. case_bool_decide; cbn; [|by auto 8].
  destruct (sess_closed se) eqn:E; cbn; rewrite ?E; auto 8.
Qed.

Lemma sfu_do_ok s o : table_ok s -> table_ok (sfu_do s o).
Proof.
  intros H. destruct o as [sid|a pid|a pid|label]; cbn [sfu_do].
  - unfold GetSession, getSession. destruct (sessions s !! sid) eqn:E; [done|]. by apply newSession_ok.
  - apply (table_ok_keep s); [done| |done]. intros a' id b. unfold sfu_AddPeer. sfu_cbn.
    destruct (decide (a = a')) as [<-|Hn]; [|by rewrite list_lookup_alter_ne].
    rewrite list_lookup_alter_eq. destruct (sess_store s !! a); cbn; split; intros (se & Hl & ?); try done.
    + injection Hl as <-. by eexists.
    + injection Hl as <-. by eexists.
  - unfold sfu_RemovePeer. destruct (sess_store s !! a) as [se|] eqn:E; [|done].
    pose proof (RemovePeer_cases se pid) as Hr. destruct (RemovePeer se pid) as [se' close].
    destruct Hr as (Hid & _ & Hc). pose proof (lookup_lt_Some _ _ _ E) as Hlt.
    destruct Hc as [(-> & Hop & Hcl & _)|(-> & Hsame & _)].
    + rewrite close_handler_insert by done. rewrite Hid.
      intros id a'. sfu_cbn. rewrite lookup_delete_Some, (H id a').
      assert (sessions s !! sess_id se = Some a) as Ha by (apply H; by exists se).
      split.
      * intros [Hne (se0 & Hl & <- & Hc)]. exists se0.
        rewrite list_lookup_insert_ne; [done|]. intros ->. congruence.
      * intros (se0 & [(-> & <- & _)|[Hne Hl]]%list_lookup_insert_Some & Hid0 & Hc); [congruence|].
        split; [|by exists se0]. intros He. apply Hne.
        enough (sessions s !! sess_id se = Some a') by congruence. apply H. exists se0. by rewrite He.
    + apply (table_ok_keep s); [done| |done]. intros a' id b. sfu_cbn.
      destruct (decide (a = a')) as [<-|Hn]; [|by rewrite list_lookup_insert_ne].
      rewrite list_lookup_insert_eq by done. rewrite E.
      split; intros (x & [= <-] & ? & ?); eexists; (split; [done|split; congruence]).
  - by apply (table_ok_keep s).
Qed.

(** For calls of [GetSession], [AddPeer] and [RemovePeer] that do not
    overlap, each finished before the next begins: at any time there is at
    most one open session per id, the table holds exactly the open ones, and
    [GetSession] returns the open session of the id, or a new one with no
    peers and the data channels configured so far.  What overlapping calls may
    do is said by [join_while_closing], [second_close_drops_open] and
    [late_joiner_orphaned], and what holds for them too by
    [closed_sessions_leave] of [Server]. *)
Theorem one_open_session ops sid :
  let s := foldl sfu_do NewSFU ops in
  (forall a a' se se', sess_store s !! a = Some se -> sess_store s !! a' = Some se' ->
     sess_id se = sess_id se' -> sess_closed se = false -> sess_closed se' = false -> a = a')
  /\ exists se, sess_store (GetSession s sid).1 !! (GetSession s sid).2 = Some se
       /\ sess_id se = sid /\ sess_closed se = false
       /\ (sess_store s !! (GetSession s sid).2 = Some se
           \/ ((forall a se', sess_store s !! a = Some se' -> sess_id se' = sid -> sess_closed se' = true)
               /\ se = NewSession sid (sfu_dcs s))).
Proof.
  intros s. assert (table_ok s) as H.
  { subst s. assert (table_ok NewSFU) as H by (intros id a; cbn; split; [done|intros (? & ? & _); done]).
    revert H. generalize NewSFU. induction ops as [|o ops IH]; intros s0 H; [done|].
    cbn. by apply IH, sfu_do_ok. }
  split.
  - intros a a' se se' Ha Ha' Hid Hc Hc'.
    enough (Some a = Some a') by congruence.
    transitivity (sessions s !! sess_id se); [symmetry|rewrite Hid]; apply H; by eexists.
  - unfold GetSession, getSession. destruct (sessions s !! sid) as [a|] eqn:E.
    + apply H in E as (se & Hl & Hid & Hc). exists se. cbn. split_and!; try done. by left.
    + exists (NewSession sid (sfu_dcs s)). unfold newSession. sfu_cbn.
      rewrite list_lookup_middle by done. split_and!; try done. right. split; [|done].
      intros a se' Hl Hid. destruct (sess_closed se') eqn:Hc; [done|].
      enough (sessions s !! sid = Some a) by congruence. apply H. by exists se'.
Qed.

(** A closed session stays closed. *)
Lemma closed_stays a ops s0 se0 :
  table_ok s0 -> sess_store s0 !! a = Some se0 -> sess_closed se0 = true ->
  table_ok (foldl sfu_do s0 ops)
  /\ exists se', sess_store (foldl sfu_do s0 ops) !! a = Some se' /\ sess_closed se' = true.
Proof.
  revert s0 se0. induction ops as [|o ops IH]; intros s0 se0 H0 Hl Hc; [cbn; eauto|].
  assert (exists se', sess_store (sfu_do s0 o) !! a = Some se' /\ sess_closed se' = true) as (se' & Hl' & Hc').
  { destruct o as [sid|b pid|b pid|label]; cbn [sfu_do]; [| | |by exists se0].
    - unfold GetSession, getSession, newSession. destruct (sessions s0 !! sid); [by exists se0|].
      exists se0. sfu_cbn. split; [by apply lookup_app_l_Some|done].
    - unfold sfu_AddPeer. sfu_cbn. destruct (decide (b = a)) as [->|Hn].
      + rewrite list_lookup_alter_eq, Hl. by eexists.
      + rewrite list_lookup_alter_ne by done. by exists se0.
    - unfold sfu_RemovePeer. destruct (sess_store s0 !! b) as [seb|] eqn:E; [|by exists se0].
      pose proof (RemovePeer_cases seb pid) as Hr. destruct (RemovePeer seb pid) as [se' close].
      assert (exists se1, <[b := se']> (sess_store s0) !! a = Some se1 /\ sess_closed se1 = true) as ?.
      { destruct (decide (b = a)) as [->|Hn].
        - rewrite list_lookup_insert_eq by (by eapply lookup_lt_Some). exists se'. split; [done|].
          destruct Hr as (_ & _ & [(_ & ? & _)|(_ & -> & _)]); congruence.
        - rewrite list_lookup_insert_ne by done. by exists se0. }
      destruct close; [rewrite close_handler_store|]; done. }
  cbn [foldl]. by apply (IH _ se'); [apply sfu_do_ok|..].
Qed.

(** C35. A peer that has got its session, but has not been added to it, when the
    last peer leaves ends up alone: its session is closed and out of the
    table, it stays so whatever it does, and who asks for the id afterwards
    gets another session. *)
Theorem late_joiner_orphaned s sid a se p q ops :
  table_ok s -> GetSession s sid = (s, a) -> sess_store s !! a = Some se -> peers se = {[p]} -> p <> q ->
  let s' := foldl sfu_do s ([og_Remove a p; og_Add a q] ++ ops) in
  (exists se', sess_store s' !! a = Some se' /\ sess_closed se' = true
     /\ (ops = [] -> peers se' = {[q]}))
  /\ (forall sid', sessions s' !! sid' <> Some a)
  /\ (GetSession s' sid).2 <> a.
Proof.
  intros H Hg Ha Hp Hne s'.
  assert (sess_closed se = false) as Hop.
  { unfold GetSession, getSession in Hg. destruct (sessions s !! sid) as [a0|] eqn:E.
    - injection Hg as ->. apply H in E as (? & ? & _ & ?). congruence.
    - exfalso. unfold newSession in Hg. injection Hg as Hs _.
      apply (f_equal (fun s => length (sess_store s))) in Hs. revert Hs. sfu_cbn.
      rewrite length_app. cbn. lia. }
  set (s1 := foldl sfu_do s [og_Remove a p; og_Add a q]).
  assert (exists se1, sess_store s1 !! a = Some se1 /\ sess_closed se1 = true /\ peers se1 = {[q]}) as (se1 & H1 & Hc1 & Hp1).
  { subst s1. cbn [foldl sfu_do]. unfold sfu_RemovePeer. rewrite Ha.
    pose proof (RemovePeer_cases se p) as Hr. destruct (RemovePeer se p) as [se' close].
    destruct Hr as (_ & Hpe & Hc). rewrite Hp in Hpe.
    destruct Hc as [(-> & _ & Hcl & He)|(_ & _ & [?|He])]; [|congruence|set_solver].
    unfold sfu_AddPeer. sfu_cbn. rewrite close_handler_store. sfu_cbn.
    rewrite list_lookup_alter_eq, list_lookup_insert_eq by (by eapply lookup_lt_Some).
    eexists. split; [reflexivity|]. sfu_cbn. split; [done|]. rewrite He. set_solver. }
  assert (table_ok s1) as Hs1 by (subst s1; cbn [foldl]; by apply sfu_do_ok, sfu_do_ok).
  destruct (closed_stays a ops s1 se1 Hs1 H1 Hc1) as (Hok & se' & Hl & Hc).
  assert (s' = foldl sfu_do s1 ops) as Hs' by (subst s' s1; by rewrite foldl_app).
  rewrite <-Hs' in Hok, Hl.
  assert (forall sid', sessions s' !! sid' <> Some a) as Hno
    by (intros sid' (se0 & ? & _ & ?)%Hok; congruence).
  split_and!; [|done|].
  - exists se'. split_and!; [done..|]. intros ->. change (foldl sfu_do s1 []) with s1 in Hs'. congruence.
  - unfold GetSession, getSession. clearbody s'. destruct (sessions s' !! sid) as [b|] eqn:E; cbn.
    + intros ->. by apply (Hno sid).
    + intros Hb. apply lookup_lt_Some in Hl. lia.
Qed.

Lemma late_joiner_orphaned_witness :
  let s := foldl sfu_do NewSFU [og_Get "room"; og_Add 0 "p"] in
  let s' := foldl sfu_do s [og_Remove 0 "p"; og_Add 0 "q"; og_Get "room"; og_Add 1 "r"] in
  GetSession s "room" = (s, 0%nat)
  /\ (exists se', sess_store s' !! 0%nat = Some se' /\ sess_closed se' = true)
  /\ (GetSession s' "room").2 <> 0%nat.
Proof.
  intros s s'.
  destruct (late_joiner_orphaned s "room" 0 (MkSession "room" {["p"%string]} [] [] false) "p" "q"
    [og_Get "room"; og_Add 1 "r"]) as ((se' & H1 & H2 & _) & _ & H3).
  - apply sfu_do_ok, sfu_do_ok. intros id a. cbn. split; [done|intros (? & ? & _); done].
  - reflexivity.
  - reflexivity.
  - reflexivity.
  - discriminate.
  - split; [reflexivity|]. split; [by exists se'|exact H3].
Defined.

(** Two goroutines that both find no session each create one; the first one
    drops out of the table at once, and when its last peer leaves it takes
    the second out too. *)
Theorem racing_creation s sid p :
  let '(s1, a) := newSession s sid in
  let '(s2, b) := newSession s1 sid in
  a <> b
  /\ getSession s2 sid = Some b
  /\ getSession (sfu_RemovePeer (sfu_AddPeer s2 a p) a p) sid = None
  /\ exists se, sess_store (sfu_RemovePeer (sfu_AddPeer s2 a p) a p) !! b = Some se
       /\ sess_closed se = false.
Proof.
  unfold newSession, getSession. sfu_cbn.
  set (n := length (sess_store s)). set (x := NewSession sid (sfu_dcs s)).
  assert (length (sess_store s ++ [x]) = S n) as -> by (rewrite length_app; cbn; lia).
  assert (((sess_store s ++ [x]) ++ [x]) !! n = Some x) as Hn
    by (rewrite <-app_assoc; cbn; by rewrite list_lookup_middle).
  split; [lia|]. split; [by rewrite lookup_insert_eq|].
  unfold sfu_AddPeer, sfu_RemovePeer. sfu_cbn. rewrite list_lookup_alter_eq, Hn. cbn [fmap option_fmap option_map].
  pose proof (RemovePeer_cases (AddPeer x p) p) as Hr. destruct (RemovePeer (AddPeer x p) p) as [se' close].
  destruct Hr as (Hid & Hpe & [(-> & _)|(_ & _ & [?|Hp])]); [|done|cbn in Hpe; set_solver].
  - split.
    + unfold close_handler. sfu_cbn. rewrite list_lookup_insert_eq
        by (apply lookup_lt_is_Some; rewrite list_lookup_alter_eq, Hn; by eexists).
      sfu_cbn. rewrite Hid. by rewrite lookup_delete_eq.
    + exists x. split; [|done]. rewrite close_handler_store. sfu_cbn. rewrite list_lookup_insert_ne, list_lookup_alter_ne by lia.
      rewrite list_lookup_middle; [done|]. rewrite length_app. cbn. lia.
Qed.

(** ** Departures that overlap with other calls *)

(** Run to its end with nothing in between, a departure is [RemovePeer]. *)
Fixpoint depart_all (fuel : nat) (s : SFU) (t : departure) : SFU :=
  match fuel, depart s t with
  | S fuel, (s', Some t') => depart_all fuel s' t'
  | _, (s', _) => s'
  end.

Lemma on_session_comp f g a s : on_session f a (on_session g a s) = on_session (fun x => f (g x)) a s.
Proof. unfold on_session. sfu_cbn. f_equal. apply list_eq. intros i. destruct (decide (i = a)) as [->|Hn].
  - rewrite !list_lookup_alter_eq. by destruct (sess_store s !! a).
  - by rewrite !list_lookup_alter_ne.
Qed.

Lemma on_session_insert f a s se :
  sess_store s !! a = Some se -> on_session f a s = s <| sess_store := <[a := f se]> (sess_store s) |>.
Proof.
  intros H. unfold on_session. sfu_cbn. f_equal. apply list_eq. intros i. destruct (decide (i = a)) as [->|Hn].
  - rewrite list_lookup_alter_eq, H, list_lookup_insert_eq; [done|by eapply lookup_lt_Some].
  - by rewrite list_lookup_alter_ne, list_lookup_insert_ne.
Qed.

Lemma on_session_lookup f a s se : sess_store s !! a = Some se -> sess_store (on_session f a s) !! a = Some (f se).
Proof. intros H. unfold on_session. sfu_cbn. by rewrite list_lookup_alter_eq, H. Qed.

Lemma depart_undisturbed s a pid :
  is_Some (sess_store s !! a) -> depart_all 2 (leave s a pid).1 (leave s a pid).2 = sfu_RemovePeer s a pid.
Proof.
  intros [se H]. unfold leave, sfu_RemovePeer, RemovePeer. cbn [fst snd depart_all depart]. rewrite H.
  rewrite (on_session_lookup _ _ _ _ H). destruct (rp_last (rp_delete se pid)).
  - cbn [depart_all depart]. rewrite on_session_comp. by rewrite (on_session_insert _ _ _ _ H).
  - by rewrite (on_session_insert _ _ _ _ H).
Qed.

(** What holds of the table at any time, however the calls overlap: an entry
    is a session with the id, and if it is closed its handler is still to
    run. *)
Definition table_known (s : SFU) (ds : list departure) : Prop :=
  forall id a, sessions s !! id = Some a ->
    exists se, sess_store s !! a = Some se /\ sess_id se = id /\ (sess_closed se = true -> DpHandler a ∈ ds).

Lemma table_known_mono s ds ds' :
  (forall a, DpHandler a ∈ ds -> DpHandler a ∈ ds') -> table_known s ds -> table_known s ds'.
Proof. intros Hd H id a Ha. destruct (H id a Ha) as (se & ? & ? & ?). exists se. auto. Qed.

Lemma table_known_session s ds f a :
  (forall se, sess_id (f se) = sess_id se) ->
  (forall se, sess_closed (f se) = true -> sess_closed se = true \/ DpHandler a ∈ ds) ->
  table_known s ds -> table_known (on_session f a s) ds.
Proof.
  intros Hid Hcl H id b Hb. destruct (H id b Hb) as (se & Hse & Hi & Hc). unfold on_session. sfu_cbn.
  destruct (decide (b = a)) as [->|Hn].
  - rewrite list_lookup_alter_eq, Hse. exists (f se). split; [done|]. rewrite Hid. split; [done|].
    intros [?|?]%Hcl; auto.
  - rewrite list_lookup_alter_ne by done. by exists se.
Qed.

Lemma table_known_new s ds id : table_known s ds -> table_known (newSession s id).1 ds.
Proof.
  intros H id' a. unfold newSession. sfu_cbn. intros [[<- <-]|[Hn Ha]]%lookup_insert_Some.
  - exists (NewSession id (sfu_dcs s)). by rewrite list_lookup_middle.
  - destruct (H id' a Ha) as (se & ? & ?). exists se. split; [by apply lookup_app_l_Some|done].
Qed.

Lemma table_known_depart s l1 t l2 :
  table_known s (l1 ++ t :: l2) -> table_known (depart s t).1 (l1 ++ option_list (depart s t).2 ++ l2).
Proof.
  intros H. destruct t as [a|a|a]; cbn [depart fst snd].
  - eapply table_known_mono, H. intros b. set_solver.
  - apply table_known_session; [done|intros se _; right; set_solver|].
    eapply table_known_mono, H. intros b. set_solver.
  - unfold close_handler. intros id b. destruct (sess_store s !! a) as [sa|] eqn:Ea; sfu_cbn.
    + intros [Hne Hb]%lookup_delete_Some. destruct (H id b Hb) as (se & Hse & Hi & Hc). exists se.
      split; [done|]. split; [done|]. intros Hd%Hc. assert (b <> a) by congruence. set_solver.
    + intros Hb. destruct (H id b Hb) as (se & Hse & Hi & Hc). exists se.
      split; [done|]. split; [done|]. intros Hd%Hc. assert (b <> a) by congruence. set_solver.
Qed.

(** A session that is closed, with its handler done *)
Definition gone (s : SFU) (a : nat) (ps : gset string) : Prop :=
  (exists se, sess_store s !! a = Some se /\ sess_closed se = true /\ peers se = ps)
  /\ forall sid, getSession s sid <> Some a.

Lemma GetSession_known s sid a : sessions s !! sid = Some a -> GetSession s sid = (s, a).
Proof. unfold GetSession, getSession. by intros ->. Qed.

Lemma rp_last_empty se : peers se = ∅ -> sess_closed se = false -> rp_last se = true.
Proof. intros Hp Hc. unfold rp_last. rewrite Hp, Hc. by rewrite bool_decide_eq_true_2. Qed.

(** What is closed for good stays so. *)
Lemma table_ok_close s a se f :
  table_ok s -> sess_store s !! a = Some se -> sess_closed se = false ->
  sess_id (f se) = sess_id se -> sess_closed (f se) = true ->
  table_ok (close_handler (on_session f a s) a)
  /\ sess_store (close_handler (on_session f a s) a) !! a = Some (f se)
  /\ sessions (close_handler (on_session f a s) a) = delete (sess_id se) (sessions s).
Proof.
  intros H Ha Hc Hid Hcl. rewrite close_handler_store, (on_session_lookup _ _ _ _ Ha).
  assert (sessions (close_handler (on_session f a s) a) = delete (sess_id se) (sessions s)) as Hs
    by (unfold close_handler; by rewrite (on_session_lookup _ _ _ _ Ha), Hid).
  split_and!; [|done|done]. intros id b. rewrite Hs, close_handler_store, lookup_delete_Some, (H id b).
  unfold on_session. sfu_cbn. destruct (decide (b = a)) as [->|Hn].
  - rewrite list_lookup_alter_eq, Ha. split; intros H0.
    + destruct H0 as [Hne (se0 & [= <-] & ? & _)]. congruence.
    + destruct H0 as (se0 & [= <-] & _ & ?). congruence.
  - rewrite list_lookup_alter_ne by done. split; [tauto|]. intros Hb. split; [|done]. intros Heq.
    destruct Hb as (se0 & Hb & Hid0 & Hc0). apply Hn.
    enough (Some b = Some a) by congruence. transitivity (sessions s !! id); [symmetry|]; apply H; by eexists.
Qed.

(** C36. A peer that joins while the session is being closed, without any
    interruption of its own: once the last peer is out and the test has
    passed, the table still has the session; after that it is closed and
    taken out of the table with the new peer in it, who stays there alone,
    while all who ask for the id afterwards get another session. *)
Theorem join_while_closing s a se p q ops :
  table_ok s -> sess_store s !! a = Some se -> sess_closed se = false -> peers se = {[p]} ->
  let s1 := (leave s a p).1 in
  let s2 := sfu_AddPeer (GetSession s1 (sess_id se)).1 (GetSession s1 (sess_id se)).2 q in
  let s3 := (depart s2 (DpClose a)).1 in
  let s4 := (depart s3 (DpHandler a)).1 in
  depart s1 (leave s a p).2 = (s1, Some (DpClose a))
  /\ GetSession s1 (sess_id se) = (s1, a)
  /\ gone s4 a {[q]}
  /\ exists ps, gone (foldl sfu_do s4 ops) a ps.
Proof.
  intros H Ha Hc Hp s1 s2 s3 s4.
  assert (sess_store s1 !! a = Some (rp_delete se p)) as Ha1 by (by apply (on_session_lookup (fun se => rp_delete se p))).
  assert (sessions s1 !! sess_id se = Some a) as Ht by (apply H; by exists se).
  pose proof (GetSession_known _ _ _ Ht) as Hg. set (f := fun x => rp_close (AddPeer (rp_delete x p) q)).
  assert (s4 = close_handler (on_session f a s) a) as E4
    by (subst s4 s3 s2; rewrite Hg; subst s1; unfold sfu_AddPeer, leave; cbn [fst snd depart];
        by rewrite !on_session_comp).
  destruct (table_ok_close s a se f H Ha Hc eq_refl eq_refl) as (Hok & Hl & _). rewrite <-E4 in Hok, Hl.
  assert (forall s' se', table_ok s' -> sess_store s' !! a = Some se' -> sess_closed se' = true ->
    forall sid, getSession s' sid <> Some a) as Hno by (intros s' se' Hs Hx Hy sid (? & ? & _ & ?)%Hs; congruence).
  split_and!.
  - unfold leave. cbn [snd depart]. rewrite Ha1, rp_last_empty; [done| |done].
    unfold rp_delete. sfu_cbn. rewrite Hp. set_solver.
  - done.
  - split; [|by eapply Hno]. exists (f se). split; [done|]. split; [done|].
    unfold f, rp_close, rp_delete, AddPeer. sfu_cbn. rewrite Hp. set_solver.
  - destruct (closed_stays a ops s4 (f se) Hok Hl eq_refl) as (Hok' & se' & Hl' & Hc'). exists (peers se').
    split; [by exists se'|by eapply Hno].
Qed.

(** The last two peers of a session leave at the same time, and both find it
    empty and open: the handler runs twice, and the second time it takes out
    of the table the session that was made in between, which is open and has
    a peer; the next one to ask for the id gets yet another. *)
Theorem second_close_drops_open s a se p p' q :
  table_ok s -> sess_store s !! a = Some se -> sess_closed se = false -> peers se = {[p; p']} ->
  let s1 := (leave (leave s a p).1 a p').1 in
  let s2 := (depart (depart s1 (DpClose a)).1 (DpHandler a)).1 in
  let b := (GetSession s2 (sess_id se)).2 in
  let s3 := sfu_AddPeer (GetSession s2 (sess_id se)).1 b q in
  let s4 := (depart (depart s3 (DpClose a)).1 (DpHandler a)).1 in
  depart s1 (DpTest a) = (s1, Some (DpClose a))
  /\ (exists se', sess_store s4 !! b = Some se' /\ sess_id se' = sess_id se
        /\ sess_closed se' = false /\ peers se' = {[q]})
  /\ getSession s3 (sess_id se) = Some b
  /\ getSession s4 (sess_id se) = None
  /\ (GetSession s4 (sess_id se)).2 <> b.
Proof.
  intros H Ha Hc Hp s1 s2 b s3 s4.
  assert (sess_store s1 !! a = Some (rp_delete (rp_delete se p) p')) as Ha1
    by (by apply (on_session_lookup (fun se => rp_delete se p')), (on_session_lookup (fun se => rp_delete se p))).
  assert (peers (rp_delete (rp_delete se p) p') = ∅) as He by (unfold rp_delete; sfu_cbn; rewrite Hp; set_solver).
  set (f := fun x => rp_close (rp_delete (rp_delete x p) p')).
  assert (s2 = close_handler (on_session f a s) a) as E2
    by (subst s2 s1; unfold leave; cbn [fst depart]; by rewrite !on_session_comp).
  destruct (table_ok_close s a se f H Ha Hc eq_refl eq_refl) as (_ & Hl & Hs). rewrite <-E2 in Hl, Hs.
  pose proof (lookup_lt_Some _ _ _ Hl) as Hlt. set (x := NewSession (sess_id se) (sfu_dcs s2)).
  assert (GetSession s2 (sess_id se) = newSession s2 (sess_id se)) as Hg
    by (unfold GetSession, getSession; by rewrite Hs, lookup_delete_eq).
  assert (b = length (sess_store s2)) as Hb by (subst b; by rewrite Hg).
  assert (b <> a) as Hba by lia.
  assert (sess_store s3 !! a = Some (f se) /\ sess_store s3 !! b = Some (AddPeer x q)
    /\ sessions s3 = <[sess_id se := b]> (sessions s2)) as (H3a & H3b & H3s).
  { subst s3. rewrite Hg. clearbody b. subst b. unfold newSession, sfu_AddPeer. sfu_cbn. split_and!; [| |done].
    - rewrite list_lookup_alter_ne by done. by apply lookup_app_l_Some.
    - by rewrite list_lookup_alter_eq, list_lookup_middle. }
  assert (sess_store s4 !! b = Some (AddPeer x q) /\ sessions s4 = delete (sess_id se) (sessions s3)) as [H4b H4s].
  { subst s4. cbn [depart fst]. rewrite close_handler_store. split.
    - unfold on_session. sfu_cbn. by rewrite list_lookup_alter_ne.
    - unfold close_handler. by rewrite (on_session_lookup _ _ _ _ H3a). }
  assert (sessions s4 !! sess_id se = None) as H4n by (rewrite H4s; apply lookup_delete_eq).
  split_and!.
  - cbn [depart]. by rewrite Ha1, rp_last_empty.
  - exists (AddPeer x q). split_and!; try done. cbn. set_solver.
  - unfold getSession. by rewrite H3s, lookup_insert_eq.
  - done.
  - unfold GetSession, getSession. rewrite H4n. unfold newSession. cbn [snd].
    apply lookup_lt_Some in H4b. lia.
Qed.

(** A room with the peers of [l] *)
Definition ex_room (l : list string) : SFU := foldl sfu_do NewSFU (og_Get "room" :: map (og_Add 0) l).

Lemma ex_room_ok l : table_ok (ex_room l).
Proof.
  unfold ex_room. assert (table_ok NewSFU) as H by (intros id a; cbn; split; [done|intros (? & ? & _); done]).
  revert H. generalize (og_Get "room" :: map (og_Add 0) l), NewSFU. intros ops. induction ops as [|o ops IH]; [done|].
  intros s H. by apply IH, sfu_do_ok.
Qed.

Lemma join_while_closing_witness :
  let s1 := (leave (ex_room ["p"%string]) 0 "p").1 in
  let s4 := (depart (depart (sfu_AddPeer s1 0 "q") (DpClose 0)).1 (DpHandler 0)).1 in
  depart s1 (DpTest 0) = (s1, Some (DpClose 0)) /\ gone s4 0 {["q"%string]}.
Proof.
  destruct (join_while_closing (ex_room ["p"%string]) 0 (MkSession "room" {["p"%string]} [] [] false) "p" "q" [])
    as (H1 & H2 & H3 & _).
  - apply ex_room_ok.
  - vm_compute. reflexivity.
  - reflexivity.
  - reflexivity.
  - cbn [sess_id] in *. rewrite H2 in H3. split; [exact H1|exact H3].
Defined.

Lemma second_close_drops_open_witness :
  let s1 := (leave (leave (ex_room ["q"%string; "p"%string]) 0 "p").1 0 "q").1 in
  let s2 := (depart (depart s1 (DpClose 0)).1 (DpHandler 0)).1 in
  let s3 := sfu_AddPeer (GetSession s2 "room").1 1 "r" in
  getSession s3 "room" = Some 1%nat
  /\ getSession (depart (depart s3 (DpClose 0)).1 (DpHandler 0)).1 "room" = None.
Proof.
  destruct (second_close_drops_open (ex_room ["q"%string; "p"%string]) 0
    (MkSession "room" {["p"%string; "q"%string]} [] [] false) "p" "q" "r") as (_ & _ & H1 & H2 & _).
  - apply ex_room_ok.
  - vm_compute. reflexivity.
  - reflexivity.
  - reflexivity.
  - split; [exact H1|exact H2].
Defined.
