(* ===== verification/Room.v ===== *)
(** * Rooms ([internal/sfu/session.go] with [router.go], [subscriber.go])

    The peers of a session subscribe to each other: a peer that joins is hung
    on the receivers of every other peer ([Subscribe]), a new track is offered
    to every other peer ([Publish]).  Both take a snapshot of the peers and
    then work through it, each step under the lock of one router, so joins
    and publications interleave; [room_step] is that interleaving, with the
    tracks that end and the peers that leave. *)

From stdpp Require Import gmap strings.
From S2P Require Import Prelude GoNum GoSlice GoFloat Nack Bucket Twcc Sequencer Rtp Buffer Factory Pacer SfuHelper DownTrack Receiver Layers Router Links Session.
#[local] Open Scope Z_scope.

(** ** Rooms: a session with its peers' routers, subscribers and tracks *)

Record room := MkRoom {
  rm_session : session;
  routers : gmap string router;
  subs : gmap string sub_tracks;
  downs : gmap nat DownTrack }.
#[export] Instance settable_room : Settable room := fun s =>
  MkRoom (rm_session s) (routers s) (subs s) (downs s).

(** What is under way: [Subscribe] of a peer, [Publish] of a router's track;
    nothing before the snapshot of the peers is taken, then the peers left *)
Inductive task :=
| TSubscribe (p : string) (todo : option (list string))
| TPublish (q id : string) (todo : option (list string)).

(** [AddDownTracks] of the router of [q] for the subscriber of [p]; pion
    accepts every transceiver. *)
Definition hang (s : room) (q p : string) (recv : option string) (ids : list string)
    (a : nat) (pool : bytes) (now : Z) : go room :=
  match routers s !! q, subs s !! p with
  | Some r, Some sub =>
      t ← AddDownTracks (downs s) r sub recv ids a (fun _ => true) pool now;
      let '(ds, r, sub, _) := t in
      mret (s <| routers := <[q := r]> (routers s) |> <| subs := <[p := sub]> (subs s) |>
              <| downs := ds |>)
  | _, _ => mret s
  end.

(** The close handler of a down track: pion takes the track out of the
    connection, and the subscriber drops its pointer and asks to negotiate. *)
Definition close_down_track (stream : string) (su : gmap string sub_tracks) (ref : dt_ref)
  : gmap string sub_tracks :=
  alter (fun t => (RemoveDownTrack t stream (dt_addr ref)) <| s_negotiate := true |>) (dt_peer ref) su.

(** A track ends: [writeRTP] closes the receiver's down tracks, and the
    receiver is taken out of the router. *)
Definition end_track (s : room) (q id : string) : room :=
  match routers s !! q with
  | Some r =>
      match receivers r !! id with
      | Some w =>
          let '(_, ds, closed) := writeRTP_end w (downs s) in
          s <| routers := <[q := DeleteReceiver r id]> (routers s) |>
            <| subs := foldl (close_down_track (w_streamID w)) (subs s) closed |>
            <| downs := ds |>
      | None => s
      end
  | None => s
  end.

(** The snapshot that [Subscribe] and [Publish] take, in any order: all peers
    but the one itself *)
Definition snapshot (s : room) (p : string) (ps : list string) : Prop :=
  ps ≡ₚ elements (peers (rm_session s) ∖ {[p]}).

#[local] Ltac room_cbn :=
  cbn [rm_session routers subs downs peers AddPeer upd settable_room settable_session eta_record].

Section rooms.
Context (oor : float -> Z) (unm : option bytes -> option rtp_packet)
  (ext : rtp_packet -> Z -> option bytes) (lvl : bytes -> option Z) (uri : string).

(** The steps of a room.  Tracks of different publishers differ in their id
    or in their stream's id; new down tracks have new addresses; a track ends
    after it was offered to everybody. *)
Inductive room_step : room * list task -> room * list task -> Prop :=
| rm_join s ts pid maxbw best :
    routers s !! pid = None ->
    room_step (s, ts)
      (s <| rm_session := AddPeer (rm_session s) pid |>
         <| routers := <[pid := newRouter pid maxbw best]> (routers s) |>
         <| subs := <[pid := new_sub pid]> (subs s) |>, TSubscribe pid None :: ts)
| rm_track s ts q r f track id stream kind codec params pool rand now f' r' w evs :
    routers s !! q = Some r ->
    AddReceiver oor unm ext lvl uri f r track id stream kind codec params pool rand now
      = Ok (f', r', w, true, evs) ->
    (forall q' r0 w0, routers s !! q' = Some r0 -> receivers r0 !! id = Some w0 ->
       w_streamID w0 = stream -> q' = q) ->
    room_step (s, ts) (s <| routers := <[q := r']> (routers s) |>, TPublish q id None :: ts)
| rm_layer s ts q r f track id stream kind codec params pool rand now f' r' w w0 evs :
    routers s !! q = Some r -> receivers r !! id = Some w0 ->
    upTracks w0 !! rid_layer (t_RID track) = Some None ->
    AddReceiver oor unm ext lvl uri f r track id stream kind codec params pool rand now
      = Ok (f', r', w, false, evs) ->
    room_step (s, ts) (s <| routers := <[q := r']> (routers s) |>, ts)
| rm_snap_sub s ts1 ts2 p ps :
    snapshot s p ps ->
    room_step (s, ts1 ++ TSubscribe p None :: ts2) (s, ts1 ++ TSubscribe p (Some ps) :: ts2)
| rm_snap_pub s ts1 ts2 q id ps :
    snapshot s q ps ->
    room_step (s, ts1 ++ TPublish q id None :: ts2) (s, ts1 ++ TPublish q id (Some ps) :: ts2)
| rm_subscribe s ts1 ts2 p q qs r ids a pool now s' :
    routers s !! q = Some r -> ids ≡ₚ elements (dom (receivers r)) ->
    (forall b, (a <= b)%nat -> downs s !! b = None) ->
    hang s q p None ids a pool now = Ok s' ->
    room_step (s, ts1 ++ TSubscribe p (Some (q :: qs)) :: ts2)
              (s', ts1 ++ TSubscribe p (Some qs) :: ts2)
| rm_publish s ts1 ts2 q id p ps a pool now s' :
    (forall b, (a <= b)%nat -> downs s !! b = None) ->
    hang s q p (Some id) [] a pool now = Ok s' ->
    room_step (s, ts1 ++ TPublish q id (Some (p :: ps)) :: ts2)
              (s', ts1 ++ TPublish q id (Some ps) :: ts2)
| rm_sub_done s ts1 ts2 p : room_step (s, ts1 ++ TSubscribe p (Some []) :: ts2) (s, ts1 ++ ts2)
| rm_pub_done s ts1 ts2 q id : room_step (s, ts1 ++ TPublish q id (Some []) :: ts2) (s, ts1 ++ ts2)
| rm_end s ts q id :
    Forall (fun t => match t with TPublish q' id' _ => q' <> q \/ id' <> id | _ => True end) ts ->
    room_step (s, ts) (end_track s q id, ts)
| rm_leave s ts pid :
    room_step (s, ts) (s <| rm_session := (RemovePeer (rm_session s) pid).1 |>, ts).

Definition new_room (id : string) : room := MkRoom (NewSession id []) ∅ ∅ ∅.

(** ** The invariant *)

(** Work that will hang [p] on track [id] of [q] *)
Definition covers (p q id : string) (t : task) : Prop :=
  match t with
  | TSubscribe p' todo => p' = p /\ match todo with None => True | Some qs => q ∈ qs end
  | TPublish q' id' todo => q' = q /\ id' = id /\ match todo with None => True | Some ps => p ∈ ps end
  end.

Definition not_self (t : task) : Prop :=
  match t with
  | TSubscribe p (Some qs) => p ∉ qs
  | TPublish q _ (Some ps) => q ∉ ps
  | _ => True
  end.

(** Track [id] of stream [st] is one of [q]'s, and [p] is hung on it. *)
Definition real (s : room) (p st id : string) : Prop :=
  exists q r w, q <> p /\ routers s !! q = Some r /\ receivers r !! id = Some w
    /\ w_streamID w = st /\ hung_on w p.

Record room_inv (s : room) (ts : list task) : Prop := {
  rm_peers : forall p, p ∈ peers (rm_session s) -> is_Some (routers s !! p);
  rm_subs : forall p, is_Some (routers s !! p) <-> is_Some (subs s !! p);
  rm_sid : forall p sub, subs s !! p = Some sub -> s_id sub = p;
  rm_recv : forall q r, routers s !! q = Some r -> receivers_ok r;
  rm_uniq : forall q q' r r' id w w', routers s !! q = Some r -> routers s !! q' = Some r' ->
    receivers r !! id = Some w -> receivers r' !! id = Some w' -> w_streamID w = w_streamID w' -> q = q';
  rm_once : forall p sub st id, subs s !! p = Some sub -> (times sub st id <= 1)%nat;
  lk_sub : forall p sub, subs s !! p = Some sub -> sub_linked (downs s) sub;
  lk_recv : forall q r, routers s !! q = Some r -> router_linked (downs s) r;
  lk_hung : forall p sub st ptr, subs s !! p = Some sub -> ptr ∈ GetDownTracks sub st ->
    exists q r w, q <> p /\ routers s !! q = Some r /\ receivers r !! e_id ptr = Some w
      /\ w_streamID w = st /\ hangs w (e_ref ptr);
  rm_self : Forall not_self ts;
  rm_cover : forall p q r id w sub, p ∈ peers (rm_session s) -> q ∈ peers (rm_session s) -> p <> q ->
    routers s !! q = Some r -> receivers r !! id = Some w -> subs s !! p = Some sub ->
    (0 < times sub (w_streamID w) id)%nat \/ Exists (covers p q id) ts }.

Lemma new_room_inv id : room_inv (new_room id) [].
Proof. split; cbn; try done; intros; try set_solver. by rewrite !lookup_empty. Qed.

Lemma times_pos sub st id :
  (0 < times sub st id)%nat <-> exists ptr, ptr ∈ GetDownTracks sub st /\ e_id ptr = id.
Proof.
  unfold times. split.
  - destruct (filter _ _) as [|ptr l] eqn:E; cbn; [lia|]. intros _.
    assert (ptr ∈ filter (fun dt => e_id dt = id) (GetDownTracks sub st)) as H by (rewrite E; left).
    apply list_elem_of_filter in H as [? ?]. by exists ptr.
  - intros (ptr & Hin & Hid).
    assert (ptr ∈ filter (fun dt => e_id dt = id) (GetDownTracks sub st)) as H by (by apply list_elem_of_filter).
    destruct (filter _ _); [by apply elem_of_nil in H|cbn; lia].
Qed.

Lemma rm_real s ts p sub st id :
  room_inv s ts -> subs s !! p = Some sub -> (0 < times sub st id)%nat -> real s p st id.
Proof.
  intros Hs Hp (ptr & Hin & <-)%times_pos.
  destruct (lk_hung _ _ Hs p sub st ptr Hp Hin) as (q & r & w & Hne & Hr & Hw & Hst & Hh).
  exists q, r, w. split_and!; try done. apply hung_on_hangs. exists (e_ref ptr). split; [done|].
  destruct (lk_sub _ _ Hs p sub Hp st ptr Hin) as (d & _ & _ & ->). by apply (rm_sid _ _ Hs).
Qed.

(** Routers only gain receivers, layers and down tracks. *)
Definition routers_grow (s s' : room) : Prop :=
  forall q r, routers s !! q = Some r -> exists r', routers s' !! q = Some r' /\ router_hangs r r'.

Lemma hung_mono s s' ts p sub st ptr :
  room_inv s ts -> routers_grow s s' -> subs s !! p = Some sub -> ptr ∈ GetDownTracks sub st ->
  exists q r w, q <> p /\ routers s' !! q = Some r /\ receivers r !! e_id ptr = Some w
      /\ w_streamID w = st /\ hangs w (e_ref ptr).
Proof.
  intros Hs Hg Hp Hin. destruct (lk_hung _ _ Hs p sub st ptr Hp Hin) as (q & r & w & Hne & Hr & Hw & Hst & Hh).
  destruct (Hg q r Hr) as (r' & Hr' & Hf). destruct (Hf _ w Hw) as (w' & Hw' & Est & Fh).
  exists q, r', w'. split_and!; [done..|congruence|auto].
Qed.

Lemma insert_grow s s' q r r' :
  routers s !! q = Some r -> routers s' = <[q := r']> (routers s) -> router_hangs r r' -> routers_grow s s'.
Proof.
  intros Hq Hs Hf q0 r0 H0. rewrite Hs. destruct (decide (q = q0)) as [<-|Hn].
  - exists r'. rewrite lookup_insert_eq. split; [done|]. by replace r0 with r by congruence.
  - exists r0. by rewrite lookup_insert_ne.
Qed.

(** ** One step of work *)

(** The room when [p] has got down tracks from the router of [q] *)
Definition hung_room (s : room) (q p : string) (r' : router) (sub' : sub_tracks) (ds : tracks) : room :=
  s <| routers := <[q := r']> (routers s) |> <| subs := <[p := sub']> (subs s) |> <| downs := ds |>.

Section hung.
Context (s : room) (ts : list task) (q p : string) (ids : list string) (r r' : router) (sub sub' : sub_tracks)
  (ds : tracks) (Hs : room_inv s ts) (Hqp : q <> p) (Hq : routers s !! q = Some r) (Hp : subs s !! p = Some sub)
  (TA : tracks_added (downs s) r sub ids ds r' sub').
#[local] Abbreviation s' := (hung_room s q p r' sub' ds).

Lemma hung_routers q0 r0 id w :
  routers s' !! q0 = Some r0 -> receivers r0 !! id = Some w ->
  exists r1 w1, routers s !! q0 = Some r1 /\ receivers r1 !! id = Some w1 /\ recv_step w1 w.
Proof.
  change (routers s') with (<[q := r']> (routers s)).
  intros [[<- <-]|[Hn H0]]%lookup_insert_Some Hw; [|by exists r0, w].
  destruct (rt_bwd _ _ (ta_router _ _ _ _ _ _ _ TA) id w Hw) as (w1 & ? & ?). by exists r, w1.
Qed.

Lemma hung_subs p0 sub0 :
  subs s' !! p0 = Some sub0 -> exists sub1, subs s !! p0 = Some sub1 /\ sub_step sub1 sub0.
Proof.
  change (subs s') with (<[p := sub']> (subs s)).
  intros [[<- <-]|[Hn H0]]%lookup_insert_Some; [|by exists sub0].
  exists sub. split; [done|apply TA].
Qed.

Lemma hung_room_inv : room_inv s' ts.
Proof.
  pose proof (ta_router _ _ _ _ _ _ _ TA) as RS. pose proof (rm_sid _ _ Hs p sub Hp) as Hid.
  assert (routers_grow s s') as Hg by (apply (insert_grow s s' q r r'); [done|reflexivity|apply TA]).
  split.
  - intros p0 H0. apply (rm_peers _ _ Hs) in H0. apply lookup_insert_is_Some'. by right.
  - intros p0. cbn. rewrite !lookup_insert_is_Some'. rewrite (rm_subs _ _ Hs).
    split; (intros [<-|?]; [|by right]).
    + right. rewrite <-(rm_subs _ _ Hs). by eexists.
    + right. by eexists.
  - intros p0 sub0 H0. destruct (hung_subs p0 sub0 H0) as (sub1 & H1 & SS1).
    rewrite (ss_id _ _ SS1). by apply (rm_sid _ _ Hs).
  - intros q0 r0. change (routers s') with (<[q := r']> (routers s)).
    intros [[<- <-]|[Hn H0]]%lookup_insert_Some; [|by eapply rm_recv].
    eapply router_step_ok; [exact RS|by eapply rm_recv].
  - intros q0 q1 r0 r1 id w0 w1 H0 H1 Hw0 Hw1 Heq.
    destruct (hung_routers _ _ _ _ H0 Hw0) as (r2 & w2 & ? & ? & S2).
    destruct (hung_routers _ _ _ _ H1 Hw1) as (r3 & w3 & ? & ? & S3).
    apply (rm_uniq _ _ Hs q0 q1 r2 r3 id w2 w3); try done.
    by rewrite <-(st_streamID _ _ S2), <-(st_streamID _ _ S3).
  - intros p0 sub0 st id H0. destruct (hung_subs p0 sub0 H0) as (sub1 & H1 & SS1).
    apply (ss_once _ _ SS1). by apply (rm_once _ _ Hs p0).
  - intros p0 sub0. change (subs s') with (<[p := sub']> (subs s)).
    intros [[<- <-]|[Hn H0]]%lookup_insert_Some; [apply TA|].
    eapply sub_linked_mono; [apply TA|by apply (lk_sub _ _ Hs p0)].
  - intros q0 r0. change (routers s') with (<[q := r']> (routers s)).
    intros [[<- <-]|[Hn H0]]%lookup_insert_Some; [apply TA|].
    intros id w Hw. eapply recv_linked_mono; [apply TA|by apply (lk_recv _ _ Hs q0 r0)].
  - intros p0 sub0 st ptr. change (subs s') with (<[p := sub']> (subs s)).
    intros [[<- <-]|[Hn H0]]%lookup_insert_Some Hin.
    + destruct (ta_ptrs _ _ _ _ _ _ _ TA st ptr Hin) as [Hin'|(w' & Hw' & Hst & Hh)];
        [by eapply hung_mono|].
      exists q, r', w'. split_and!; try done. cbn. by rewrite lookup_insert_eq.
    + by eapply hung_mono.
  - apply Hs.
  - intros p0 q0 r0 id w sub0 Hp0 Hq0 Hne H0 Hw Hs0.
    destruct (hung_routers _ _ _ _ H0 Hw) as (r1 & w1 & H1 & Hw1 & S1).
    destruct (hung_subs p0 sub0 Hs0) as (sub1 & Hs1 & SS1).
    destruct (rm_cover _ _ Hs p0 q0 r1 id w1 sub1 Hp0 Hq0 Hne H1 Hw1 Hs1) as [Ht|?]; [left|by right].
    rewrite (st_streamID _ _ S1). eapply Nat.lt_le_trans; [exact Ht|apply SS1].
Qed.
End hung.

Lemma hang_keeps s ts q p recv ids a pool now s' :
  room_inv s ts -> q <> p -> (forall b, (a <= b)%nat -> downs s !! b = None) ->
  hang s q p recv ids a pool now = Ok s' ->
  room_inv s' ts /\ rm_session s' = rm_session s
  /\ (forall r', routers s' !! q = Some r' -> exists r, routers s !! q = Some r /\ router_step r r')
  /\ forall r w id sub, routers s' !! q = Some r -> receivers r !! id = Some w ->
       subs s' !! p = Some sub -> id ∈ match recv with Some i => [i] | None => ids end ->
       (0 < times sub (w_streamID w) id)%nat.
Proof.
  intros Hs Hqp Ha. unfold hang.
  destruct (routers s !! q) as [r|] eqn:Hq.
  2: { intros [= <-]. split_and!; [done|done| |]; intros; congruence. }
  destruct (subs s !! p) as [sub|] eqn:Hp.
  2: { intros [= <-]. split_and!; [done|done|intros r' Hr'; exists r'; split; [congruence|reflexivity]|]. intros. congruence. }
  destruct (AddDownTracks _ _ _ _ _ _ _ _ _) as [[[[ds r'] sub'] ok]|] eqn:E; [|done].
  cbn [mbind go_bind mret go_ret]. intros [= <-].
  apply AddDownTracks_added in E as TA;
    [|by eapply rm_recv|done|by eapply lk_sub|by eapply lk_recv]. clear E.
  pose proof (ta_router _ _ _ _ _ _ _ TA) as RS.
  split; [by eapply (hung_room_inv s ts q p _ r r' sub sub' ds)|]. split; [done|]. split.
  - intros r0. cbn. rewrite lookup_insert_eq. intros [= <-]. by exists r.
  - intros r0 w id sub0. cbn. rewrite !lookup_insert_eq. intros [= <-] Hw [= <-] Hin.
    destruct (rt_bwd _ _ RS id w Hw) as (w1 & Hw1 & S1). rewrite (st_streamID _ _ S1).
    by apply (ta_done _ _ _ _ _ _ _ TA).
Qed.

(** Work that is done, or split up, may be replaced. *)
Lemma retask s ts ts' :
  room_inv s ts -> Forall not_self ts' ->
  (forall p q r id w sub, p ∈ peers (rm_session s) -> q ∈ peers (rm_session s) -> p <> q ->
     routers s !! q = Some r -> receivers r !! id = Some w -> subs s !! p = Some sub ->
     Exists (covers p q id) ts ->
     (0 < times sub (w_streamID w) id)%nat \/ Exists (covers p q id) ts') ->
  room_inv s ts'.
Proof.
  intros Hs Hn Hc. pose proof Hs as []. split; try done.
  intros p q r id w sub Hp Hq Hne Hr Hw Hsub.
  destruct (rm_cover _ _ Hs p q r id w sub Hp Hq Hne Hr Hw Hsub) as [?|He]; [by left|].
  by apply (Hc p q r id w sub).
Qed.

Lemma covers_split p q id ts1 t ts2 :
  Exists (covers p q id) (ts1 ++ t :: ts2)
  <-> covers p q id t \/ Exists (covers p q id) (ts1 ++ ts2).
Proof. rewrite !Exists_app, Exists_cons. tauto. Qed.

Lemma not_self_split ts1 t ts2 :
  Forall not_self (ts1 ++ t :: ts2) <-> not_self t /\ Forall not_self (ts1 ++ ts2).
Proof. rewrite !Forall_app, Forall_cons. tauto. Qed.

Lemma snapshot_spec s p ps q :
  snapshot s p ps -> q ∈ ps <-> q ∈ peers (rm_session s) /\ q <> p.
Proof. intros ->. rewrite elem_of_elements. set_solver. Qed.

(** A router gains a layer, or a track that is going to be published. *)
Lemma router_gains s ts ts' q r r' :
  room_inv s ts -> routers s !! q = Some r -> receivers_ok r' -> Forall not_self ts' ->
  (forall t, t ∈ ts -> t ∈ ts') ->
  router_hangs r r' -> router_linked (downs s) r' ->
  (forall id w', receivers r' !! id = Some w' ->
     (exists w, receivers r !! id = Some w /\ recv_step w w')
     \/ (TPublish q id None ∈ ts' /\ forall q' r0 w0, routers s !! q' = Some r0 ->
           receivers r0 !! id = Some w0 -> w_streamID w0 = w_streamID w' -> q' = q)) ->
  room_inv (s <| routers := <[q := r']> (routers s) |>) ts'.
Proof.
  intros Hs Hq Hok Hself Hts Hfwd Hlk Hbwd. set (s' := s <| routers := <[q := r']> (routers s) |>).
  assert (routers_grow s s') as Hg by (by apply (insert_grow s s' q r r')). subst s'.
  split.
  - intros p Hp. apply lookup_insert_is_Some'. right. by apply (rm_peers _ _ Hs).
  - intros p. cbn. rewrite lookup_insert_is_Some', (rm_subs _ _ Hs).
    split; [|by right]. intros [<-|?]; [|done]. rewrite <-(rm_subs _ _ Hs). by eexists.
  - apply Hs.
  - intros q0 r0. room_cbn.
    intros [[<- <-]|[Hn H0]]%lookup_insert_Some; [done|by eapply rm_recv].
  - assert (forall q0 q1 r0 r1 id w0 w1, <[q := r']> (routers s) !! q0 = Some r0 ->
      routers s !! q1 = Some r1 -> receivers r0 !! id = Some w0 -> receivers r1 !! id = Some w1 ->
      w_streamID w0 = w_streamID w1 -> q0 = q1) as Hu.
    { intros q0 q1 r0 r1 id w0 w1 [[<- <-]|[Hn H0]]%lookup_insert_Some H1 Hw0 Hw1 Heq.
      - destruct (Hbwd id w0 Hw0) as [(w2 & Hw2 & S)|[_ Hu]].
        + apply (rm_uniq _ _ Hs q q1 r r1 id w2 w1); try done. by rewrite <-(st_streamID _ _ S).
        + symmetry. by apply (Hu q1 r1 w1).
      - by apply (rm_uniq _ _ Hs q0 q1 r0 r1 id w0 w1). }
    intros q0 q1 r0 r1 id w0 w1. room_cbn. intros H0 H1 Hw0 Hw1 Heq.
    apply lookup_insert_Some in H1 as [[<- <-]|[Hn H1]]; [|by eapply Hu].
    apply lookup_insert_Some in H0 as [[<- <-]|[Hn H0]]; [done|].
    symmetry. eapply (Hu q q0 r' r0 id w1 w0); try done. by rewrite lookup_insert_eq.
  - apply Hs.
  - apply Hs.
  - intros q0 r0. room_cbn. intros [[<- <-]|[Hn H0]]%lookup_insert_Some; [done|by apply (lk_recv _ _ Hs q0)].
  - intros p sub st ptr Hp Hin. by eapply hung_mono.
  - done.
  - intros p q0 r0 id w sub Hp Hq0 Hne. room_cbn.
    assert (forall x, Exists (covers p q0 x) ts -> Exists (covers p q0 x) ts') as Hin.
    { intros x (t & Ht & Hc)%Exists_exists. apply Exists_exists. exists t. auto. }
    intros [[<- <-]|[Hn H0]]%lookup_insert_Some Hw Hsub.
    + destruct (Hbwd id w Hw) as [(w1 & Hw1 & S)|[Hpub _]].
      * rewrite (st_streamID _ _ S).
        destruct (rm_cover _ _ Hs p q r id w1 sub Hp Hq0 Hne Hq Hw1 Hsub); auto.
      * right. apply Exists_exists. by exists (TPublish q id None).
    + destruct (rm_cover _ _ Hs p q0 r0 id w sub Hp Hq0 Hne H0 Hw Hsub); auto.
Qed.

Lemma newRouter_empty tid maxbw best id : receivers (newRouter tid maxbw best) !! id = None.
Proof. apply lookup_empty. Qed.

Lemma GetDownTracks_new pid st : GetDownTracks (new_sub pid) st = [].
Proof. unfold GetDownTracks, new_sub. cbn. by rewrite lookup_empty. Qed.

Lemma join_inv s ts pid maxbw best :
  room_inv s ts -> routers s !! pid = None ->
  room_inv (s <| rm_session := AddPeer (rm_session s) pid |>
              <| routers := <[pid := newRouter pid maxbw best]> (routers s) |>
              <| subs := <[pid := new_sub pid]> (subs s) |>) (TSubscribe pid None :: ts).
Proof.
  intros Hs Hn. set (s' := s <| rm_session := _ |> <| routers := _ |> <| subs := _ |>).
  assert (routers_grow s s') as Hg.
  { intros q r Hq. exists r. split; [|reflexivity].
    cbn. rewrite lookup_insert_ne; [done|congruence]. }
  subst s'. assert (subs s !! pid = None) as Hn'.
  { apply eq_None_not_Some. rewrite <-(rm_subs _ _ Hs), Hn. by intros []. }
  split.
  - intros p. cbn. rewrite elem_of_union, elem_of_singleton, lookup_insert_is_Some'.
    intros [->|Hp]; [by left|right]. by apply (rm_peers _ _ Hs).
  - intros p. cbn. rewrite !lookup_insert_is_Some', (rm_subs _ _ Hs). done.
  - intros p sub. room_cbn. intros [[<- <-]|[_ H0]]%lookup_insert_Some; [done|by apply (rm_sid _ _ Hs)].
  - intros q r. room_cbn. intros [[<- <-]|[_ H0]]%lookup_insert_Some; [|by eapply rm_recv].
    intros id w Hw. by rewrite newRouter_empty in Hw.
  - intros q q' r r' id w w'. room_cbn.
    intros [[<- <-]|[_ H0]]%lookup_insert_Some [[<- <-]|[_ H1]]%lookup_insert_Some Hw Hw' Heq; try done.
    by apply (rm_uniq _ _ Hs q q' r r' id w w').
  - intros p sub st id. room_cbn. intros [[<- <-]|[_ H0]]%lookup_insert_Some.
    + unfold times. rewrite GetDownTracks_new. cbn. lia.
    + by apply (rm_once _ _ Hs p).
  - intros p sub. room_cbn. intros [[<- <-]|[_ H0]]%lookup_insert_Some; [|by apply (lk_sub _ _ Hs p)].
    intros st ptr Hin. rewrite GetDownTracks_new in Hin. by apply elem_of_nil in Hin.
  - intros q r. room_cbn. intros [[<- <-]|[_ H0]]%lookup_insert_Some; [|by apply (lk_recv _ _ Hs q)].
    intros id w Hw. by rewrite newRouter_empty in Hw.
  - intros p sub st ptr. room_cbn. intros [[<- <-]|[_ H0]]%lookup_insert_Some Hin.
    + rewrite GetDownTracks_new in Hin. by apply elem_of_nil in Hin.
    + exact (hung_mono _ _ _ _ _ _ _ Hs Hg H0 Hin).
  - constructor; [done|apply Hs].
  - intros p q r id w sub. room_cbn.
    rewrite !elem_of_union, !elem_of_singleton. intros Hp Hq Hne.
    intros [[<- <-]|[Hq' H0]]%lookup_insert_Some Hw; [by rewrite newRouter_empty in Hw|].
    intros [[<- <-]|[Hp' H1]]%lookup_insert_Some.
    + right. by left.
    + destruct Hp as [->|Hp]; [done|]. destruct Hq as [->|Hq]; [done|].
      destruct (rm_cover _ _ Hs p q r id w sub Hp Hq Hne H0 Hw H1); [by left|right; by right].
Qed.

(** A snapshot replaces "everybody" by the peers there are. *)
Lemma snap_inv s ts1 ts2 t t' :
  room_inv s (ts1 ++ t :: ts2) -> not_self t' ->
  (forall p q id, p ∈ peers (rm_session s) -> q ∈ peers (rm_session s) -> p <> q ->
     covers p q id t -> covers p q id t') ->
  room_inv s (ts1 ++ t' :: ts2).
Proof.
  intros Hs Hn Hc. apply (retask s (ts1 ++ t :: ts2)); [done| |].
  - pose proof (rm_self _ _ Hs) as H. apply not_self_split in H as [_ ?]. by apply not_self_split.
  - intros p q r id w sub Hp Hq Hne _ _ _ He. right.
    apply covers_split in He as [He|He]; apply covers_split; [left|by right]. by apply Hc.
Qed.

(** A piece of work that was done is not needed any more. *)
Lemma work_inv s s' ts1 ts2 t t' q p recv ids a pool now :
  room_inv s (ts1 ++ t :: ts2) -> q <> p -> not_self t' ->
  (forall b, (a <= b)%nat -> downs s !! b = None) ->
  hang s q p recv ids a pool now = Ok s' ->
  (forall r, routers s !! q = Some r -> recv = None -> ids ≡ₚ elements (dom (receivers r))) ->
  (forall p' q' id, covers p' q' id t -> covers p' q' id t'
     \/ (p' = p /\ q' = q /\ match recv with Some i => id = i | None => True end)) ->
  room_inv s' (ts1 ++ t' :: ts2).
Proof.
  intros Hs Hne Hn Ha Hh Hids Hc.
  destruct (hang_keeps _ _ _ _ _ _ _ _ _ _ Hs Hne Ha Hh) as (Hs' & _ & Hback & Hdone).
  apply (retask s' (ts1 ++ t :: ts2)); [done| |].
  - pose proof (rm_self _ _ Hs) as H. apply not_self_split in H as [_ ?]. by apply not_self_split.
  - intros p' q' r id w sub Hp Hq Hne' Hr Hw Hsub He. rewrite covers_split in He |- *.
    destruct He as [He|He]; [|by auto]. destruct (Hc p' q' id He) as [?|(-> & -> & Hid)]; [by auto|].
    left. apply (Hdone r w id sub Hr Hw Hsub). destruct recv as [i|]; [subst; by left|].
    destruct (Hback r Hr) as (r0 & Hr0 & RS). destruct (rt_bwd _ _ RS id w Hw) as (w0 & Hw0 & _).
    rewrite (Hids r0 Hr0 eq_refl), elem_of_elements, elem_of_dom. by eexists.
Qed.

(** ** A track ends *)

Definition address_once (t : sub_tracks) : Prop :=
  forall st a, (length (filter (at_addr a) (GetDownTracks t st)) <= 1)%nat.

Lemma length_filter_impl {A} (P Q : A -> Prop) `{forall x, Decision (P x)} `{forall x, Decision (Q x)} l :
  (forall x, x ∈ l -> P x -> Q x) -> (length (filter P l) <= length (filter Q l))%nat.
Proof.
  induction l as [|x l IH]; intros Hi; [done|]. rewrite !filter_cons.
  assert (length (filter P l) <= length (filter Q l))%nat by (apply IH; intros y Hy; apply Hi; by right).
  case_decide as HP; case_decide as HQ; cbn [length]; try lia. exfalso. apply HQ, Hi; [left|done].
Qed.

Lemma linked_address_once ds t :
  sub_linked ds t -> (forall st id, (times t st id <= 1)%nat) -> address_once t.
Proof.
  intros Hl Ho st a. destruct (ds !! a) as [d|] eqn:Ed.
  - etransitivity; [|apply (Ho st (d_id d))]. apply length_filter_impl. intros ptr Hin Ha.
    destruct (Hl st ptr Hin) as (d' & Hd' & (_ & Hid & _) & _). unfold at_addr in Ha. congruence.
  - etransitivity; [apply (length_filter_impl _ (fun _ => False))|].
    + intros ptr Hin Ha. destruct (Hl st ptr Hin) as (d' & Hd' & _). unfold at_addr in Ha. congruence.
    + assert (forall l : list dt_ptr, filter (fun _ => False) l = []) as ->; [|cbn; lia].
      induction l as [|x l IH]; [done|]. rewrite filter_cons. by case_decide.
Qed.

(** What closing the down tracks [cl] of a receiver does to subscriber [p] *)
Record dropped (cl : list dt_ref) (stream p : string) (t t' : sub_tracks) : Prop := {
  dr_id : s_id t' = s_id t;
  dr_sub : forall st, GetDownTracks t' st ⊆+ GetDownTracks t st;
  dr_keep : forall st ptr, ptr ∈ GetDownTracks t st ->
    st <> stream \/ (forall ref, ref ∈ cl -> dt_peer ref = p -> ~ at_addr (dt_addr ref) ptr) ->
    ptr ∈ GetDownTracks t' st;
  dr_gone : forall ref ptr, ref ∈ cl -> dt_peer ref = p -> ptr ∈ GetDownTracks t' stream ->
    ~ at_addr (dt_addr ref) ptr }.

Lemma close_down_tracks_dropped stream cl su p t :
  su !! p = Some t -> address_once t ->
  exists t', foldl (close_down_track stream) su cl !! p = Some t' /\ dropped cl stream p t t'.
Proof.
  revert su t. induction cl as [|ref cl IH]; intros su t Ht Ho; cbn [foldl].
  { exists t. split; [done|]. split; try done. by intros ? ? ?%elem_of_nil. }
  destruct (decide (dt_peer ref = p)) as [Hp|Hp].
  - set (t1 := (RemoveDownTrack t stream (dt_addr ref)) <| s_negotiate := true |>).
    assert (close_down_track stream su ref !! p = Some t1) as H1
      by (unfold close_down_track; rewrite Hp, lookup_alter_eq, Ht; done).
    destruct (RemoveDownTrack_spec t stream (dt_addr ref) (Ho _ _)) as (R1 & R2 & R3).
    change (GetDownTracks (RemoveDownTrack t stream (dt_addr ref))) with (GetDownTracks t1) in R2, R3.
    assert (forall st, GetDownTracks t1 st ⊆+ GetDownTracks t st) as Hsub.
    { intros st. destruct (decide (st = stream)) as [->|Hn]; [|by rewrite R2].
      rewrite R3. apply sublist_submseteq, sublist_filter. }
    assert (address_once t1) as Ho1.
    { intros st a. etransitivity; [|apply (Ho st a)]. apply submseteq_length. by apply filter_submseteq. }
    destruct (IH _ _ H1 Ho1) as (t' & Ht' & [D1 D2 D3 D4]). exists t'. split; [done|]. split.
    + by rewrite D1.
    + intros st. by rewrite D2.
    + intros st ptr Hin Hc. apply D3.
      * destruct (decide (st = stream)) as [->|Hn]; [|by rewrite R2].
        rewrite R3. apply list_elem_of_filter. split; [|done].
        destruct Hc as [?|Hc]; [done|]. apply (Hc ref); [left|done].
      * destruct Hc as [?|Hc]; [by left|right]. intros ref' Hin'. apply Hc. by right.
    + intros ref' ptr [->|Hin]%elem_of_cons Hp' Hptr; [|by apply D4].
      assert (ptr ∈ GetDownTracks t1 stream) as H by (by eapply elem_of_submseteq).
      rewrite R3 in H. by apply list_elem_of_filter in H as [? _].
  - assert (close_down_track stream su ref !! p = Some t) as H1
      by (unfold close_down_track; by rewrite lookup_alter_ne).
    destruct (IH _ _ H1 Ho) as (t' & Ht' & [D1 D2 D3 D4]). exists t'. split; [done|]. split; try done.
    + intros st ptr Hin Hc. apply D3; [done|]. destruct Hc as [?|Hc]; [by left|right].
      intros ref' Hin'. apply Hc. by right.
    + intros ref' ptr [->|Hin]%elem_of_cons Hp' Hptr; [done|by apply (D4 ref')].
Qed.

Lemma close_down_tracks_dom stream cl su p :
  is_Some (foldl (close_down_track stream) su cl !! p) <-> is_Some (su !! p).
Proof.
  revert su. induction cl as [|ref cl IH]; intros su; [done|]. cbn [foldl]. rewrite IH.
  unfold close_down_track. apply lookup_alter_is_Some.
Qed.

Section ending.
Context (s : room) (ts : list task) (q id : string) (r : router) (w : WebRTCReceiver)
  (ds : tracks) (cl : list dt_ref).
Context (Hs : room_inv s ts) (Hq : routers s !! q = Some r) (Hw : receivers r !! id = Some w)
  (Ecl : close_all (downs s) (concat (map (default []) (downTracks w))) = (ds, cl)).

Let st0 := w_streamID w.

(** What [close_all_spec] says of what hung on the receiver *)
Lemma ended_closed :
  (forall ref, ref ∈ cl -> hangs w ref)
  /\ (forall ref, hangs w ref -> ref ∈ cl)
  /\ (forall b d, downs s !! b = Some d -> exists d', ds !! b = Some d'
      /\ named d' (d_ref d) (d_id d) (d_streamID d)
      /\ (d_closeOnce d' = d_closeOnce d \/ exists ref, hangs w ref /\ dt_addr ref = b)).
Proof.
  destruct (lk_recv _ _ Hs q r Hq id w Hw) as [_ Hlw].
  destruct (close_all_spec _ _ _ _ Ecl) as (C1 & C2 & C3). pose proof (concat_hangs w) as Hl.
  assert (forall ref, ref ∈ cl -> hangs w ref) as C1' by (intros ref Hin; by apply Hl, C1).
  split_and!; [done| |].
  - intros ref Hh. destruct (Hlw ref Hh) as (d & Hd & (Hr & _) & Hc).
    destruct (C2 ref d) as (ref' & Hin & Ha); [by apply Hl|done|done|].
    destruct (Hlw ref' (C1' ref' Hin)) as (d' & Hd' & (Hr' & _) & _).
    rewrite Ha, Hd in Hd'. injection Hd' as <-. by replace ref with ref' by congruence.
  - intros b d Hd. destruct (C3 b d Hd) as (d' & ? & ? & Hc). exists d'. split_and!; [done..|].
    destruct Hc as [?|(ref & ? & ?)]; [by left|right]. exists ref. split; [by apply Hl|done].
Qed.

Lemma ended_subs p t' :
  foldl (close_down_track st0) (subs s) cl !! p = Some t' ->
  exists t, subs s !! p = Some t /\ dropped cl st0 p t t'.
Proof.
  intros Ht'. assert (is_Some (subs s !! p)) as [t Ht]
    by (apply (close_down_tracks_dom st0 cl); by exists t').
  destruct (close_down_tracks_dropped st0 cl (subs s) p t Ht) as (t1 & H1 & D).
  - eapply linked_address_once; [by eapply lk_sub|]. intros. by eapply rm_once.
  - exists t. split; [done|]. by replace t' with t1 by congruence.
Qed.

Lemma ended_routers q' r' :
  <[q := DeleteReceiver r id]> (routers s) !! q' = Some r' ->
  exists r0, routers s !! q' = Some r0 /\ forall id' w', receivers r' !! id' = Some w' ->
    receivers r0 !! id' = Some w' /\ ~ (q' = q /\ id' = id).
Proof.
  intros [[<- <-]|[Hn H]]%lookup_insert_Some.
  - exists r. split; [done|]. cbn. intros id' w' [Hn Hw']%lookup_delete_Some. split; [done|]. naive_solver.
  - exists r'. split; [done|]. intros id' w' Hw'. split; [done|]. naive_solver.
Qed.

(** A down track at an address of the receiver that ended is of that track. *)
Lemma ended_same q0 r0 w0 id0 d a :
  routers s !! q0 = Some r0 -> receivers r0 !! id0 = Some w0 ->
  downs s !! a = Some d -> d_id d = id0 -> d_streamID d = w_streamID w0 ->
  (exists ref, hangs w ref /\ dt_addr ref = a) -> q0 = q /\ id0 = id.
Proof.
  intros H0 Hw0 Hd Hid Hst (ref & Hh & <-). destruct (lk_recv _ _ Hs q r Hq id w Hw) as [_ Hlw].
  destruct (Hlw ref Hh) as (d' & Hd' & (_ & Hid' & Hst') & _).
  rewrite Hd in Hd'. injection Hd' as <-. assert (id0 = id) as -> by congruence.
  split; [|done]. by apply (rm_uniq _ _ Hs q0 q r0 r id w0 w); [..|congruence].
Qed.

Lemma ended_sub_linked p t' :
  foldl (close_down_track st0) (subs s) cl !! p = Some t' -> sub_linked ds t'.
Proof.
  intros (t & Ht & D)%ended_subs st ptr Hin.
  assert (ptr ∈ GetDownTracks t st) as Hin' by (eapply elem_of_submseteq; [done|apply D]).
  destruct (lk_sub _ _ Hs p t Ht st ptr Hin') as (d & Hd & (Hn1 & Hn2 & Hn3) & Hp).
  destruct ended_closed as (_ & _ & C3). destruct (C3 _ _ Hd) as (d' & Hd' & (N1 & N2 & N3) & _).
  exists d'. split; [done|]. split; [split_and!; congruence|]. by rewrite (dr_id _ _ _ _ _ D).
Qed.

Lemma ended_router_linked q' r' :
  <[q := DeleteReceiver r id]> (routers s) !! q' = Some r' -> router_linked ds r'.
Proof.
  intros H id' w' Hw'. destruct (ended_routers q' r' H) as (r0 & H0 & Hf). destruct (Hf _ _ Hw') as [Hw0 Hne].
  destruct (lk_recv _ _ Hs q' r0 H0 id' w' Hw0) as [L1 L2]. split; [done|]. intros ref Hin.
  destruct (L2 ref Hin) as (d & Hd & (Hn1 & Hn2 & Hn3) & Hc).
  destruct ended_closed as (_ & _ & C3). destruct (C3 _ _ Hd) as (d' & Hd' & (N1 & N2 & N3) & Hcl).
  exists d'. split; [done|]. split; [split_and!; congruence|]. destruct Hcl as [->|Ha]; [done|].
  exfalso. apply Hne. by apply (ended_same q' r0 w' id' d (dt_addr ref)).
Qed.

Lemma ended_hung p t' st ptr :
  foldl (close_down_track st0) (subs s) cl !! p = Some t' -> ptr ∈ GetDownTracks t' st ->
  exists q0 r0 w0, q0 <> p /\ <[q := DeleteReceiver r id]> (routers s) !! q0 = Some r0
    /\ receivers r0 !! e_id ptr = Some w0 /\ w_streamID w0 = st /\ hangs w0 (e_ref ptr).
Proof.
  intros (t & Ht & D)%ended_subs Hin.
  assert (ptr ∈ GetDownTracks t st) as Hin' by (eapply elem_of_submseteq; [done|apply D]).
  destruct (lk_hung _ _ Hs p t st ptr Ht Hin') as (q0 & r0 & w0 & Hne & H0 & Hw0 & Hst & Hh).
  destruct (lk_sub _ _ Hs p t Ht st ptr Hin') as (d & Hd & _ & Hp). rewrite (rm_sid _ _ Hs p t Ht) in Hp.
  destruct (decide (q0 = q)) as [->|Hnq].
  - replace r0 with r in * by congruence. destruct (decide (e_id ptr = id)) as [Hid|Hn].
    + exfalso. rewrite Hid in Hw0. replace w0 with w in * by congruence.
      destruct ended_closed as (_ & C2 & _).
      apply (dr_gone _ _ _ _ _ D (e_ref ptr) ptr (C2 _ Hh) Hp); [|done]. unfold st0. by rewrite Hst.
    + exists q, (DeleteReceiver r id), w0. split_and!; try done; [by rewrite lookup_insert_eq|].
      cbn. by rewrite lookup_delete_ne.
  - exists q0, r0, w0. split_and!; try done. by rewrite lookup_insert_ne.
Qed.

Lemma ended_times p t t' q' r0 id' w' :
  subs s !! p = Some t -> dropped cl st0 p t t' ->
  routers s !! q' = Some r0 -> receivers r0 !! id' = Some w' -> ~ (q' = q /\ id' = id) ->
  (0 < times t (w_streamID w') id')%nat -> (0 < times t' (w_streamID w') id')%nat.
Proof.
  intros Ht D H0 Hw0 Hne (ptr & Hin & Hid)%times_pos. apply times_pos. exists ptr. split; [|done].
  apply (dr_keep _ _ _ _ _ D); [done|]. right. intros ref Hcl Hpeer Ha.
  destruct (lk_sub _ _ Hs p t Ht _ ptr Hin) as (d & Hd & (Hn1 & Hn2 & Hn3) & _).
  apply Hne, (ended_same q' r0 w' id' d (dt_addr (e_ref ptr))); [done|done|done|congruence|done|].
  exists ref. split; [by apply ended_closed|done].
Qed.
End ending.

Lemma end_track_inv s ts q id : room_inv s ts -> room_inv (end_track s q id) ts.
Proof.
  intros Hs. unfold end_track.
  destruct (routers s !! q) as [r|] eqn:Hq; [|done]. destruct (receivers r !! id) as [w|] eqn:Hw; [|done].
  destruct (lk_recv _ _ Hs q r Hq id w Hw) as [Hopen _]. unfold writeRTP_end. rewrite Hopen.
  unfold closeTracks. cbn [downTracks upd settable_WebRTCReceiver eta_record].
  destruct (close_all (downs s) _) as [ds cl] eqn:Ecl. cbn [fst snd]. split; room_cbn.
  - intros p Hp. apply lookup_insert_is_Some'. right. by apply (rm_peers _ _ Hs).
  - intros p. rewrite lookup_insert_is_Some', close_down_tracks_dom, <-(rm_subs _ _ Hs p).
    split; [|by right]. intros [<-|?]; [by eexists|done].
  - intros p t' (t & Ht & D)%(ended_subs s ts w cl Hs). rewrite (dr_id _ _ _ _ _ D). by apply (rm_sid _ _ Hs).
  - intros q' r' H id' w'. destruct (ended_routers s q id r Hq q' r' H) as (r0 & H0 & Hf). intros [Hw' _]%Hf.
    by apply (rm_recv _ _ Hs q' r0 H0).
  - intros q1 q2 r1 r2 id' w1 w2 H1 H2 Hw1 Hw2.
    destruct (ended_routers s q id r Hq q1 r1 H1) as (r3 & H3 & Hf1), (ended_routers s q id r Hq q2 r2 H2) as (r4 & H4 & Hf2).
    destruct (Hf1 _ _ Hw1) as [Hw3 _], (Hf2 _ _ Hw2) as [Hw4 _]. by apply (rm_uniq _ _ Hs q1 q2 r3 r4 id').
  - intros p t' st id' (t & Ht & D)%(ended_subs s ts w cl Hs). etransitivity; [|by apply (rm_once _ _ Hs p t st id')].
    unfold times. by apply submseteq_length, filter_submseteq, (dr_sub _ _ _ _ _ D).
  - intros p t'. by apply (ended_sub_linked s ts q id r w ds cl).
  - intros q' r'. by apply (ended_router_linked s ts q id r w ds cl).
  - intros p t' st ptr. by apply (ended_hung s ts q id r w ds cl).
  - apply Hs.
  - intros p q' r' id' w' t' Hp Hq' Hne H Hw' (t & Ht & D)%(ended_subs s ts w cl Hs).
    destruct (ended_routers s q id r Hq q' r' H) as (r0 & H0 & Hf). destruct (Hf _ _ Hw') as [Hw0 Hnid].
    destruct (rm_cover _ _ Hs p q' r0 id' w' t Hp Hq' Hne H0 Hw0 Ht) as [Hpos|?]; [left|by right].
    by apply (ended_times s ts q id r w ds cl Hs Hq Hw Ecl p t t' q' r0).
Qed.

(** The first and the further layers of a track *)
Lemma track_inv s ts q r f track id stream kind codec params pool rand now f' r' w evs :
  room_inv s ts -> routers s !! q = Some r ->
  AddReceiver oor unm ext lvl uri f r track id stream kind codec params pool rand now = Ok (f', r', w, true, evs) ->
  (forall q' r0 w0, routers s !! q' = Some r0 -> receivers r0 !! id = Some w0 -> w_streamID w0 = stream -> q' = q) ->
  room_inv (s <| routers := <[q := r']> (routers s) |>) (TPublish q id None :: ts).
Proof.
  intros Hs Hq Hadd Huniq. apply AddReceiver_receivers in Hadd as (ba & _ & Hw & Hpub & _ & Hr').
  symmetry in Hpub. apply bool_decide_eq_true in Hpub. rewrite Hpub in Hw. cbn [default] in Hw.
  apply (router_gains s ts _ q r r'); try done.
  + intros id0 w0. rewrite Hr'. intros [[<- <-]|[_ Hx]]%lookup_insert_Some; [|by eapply rm_recv].
    rewrite Hw. split; [done|apply NewWebRTCReceiver_ok].
  + constructor; [done|apply Hs].
  + intros t Ht. by right.
  + intros id0 w0 Hx. exists w0. rewrite Hr', lookup_insert_ne; [done|congruence].
  + intros id0 w0. rewrite Hr'. intros [[<- <-]|[_ Hx]]%lookup_insert_Some;
      [rewrite Hw; apply new_receiver_linked|by eapply lk_recv].
  + intros id0 w0. rewrite Hr'. intros [[<- <-]|[_ Hx]]%lookup_insert_Some; [right|left; by exists w0].
    split; [by left|]. rewrite Hw. done.
Qed.

Lemma layer_inv s ts q r f track id stream kind codec params pool rand now f' r' w w0 evs :
  room_inv s ts -> routers s !! q = Some r -> receivers r !! id = Some w0 ->
  upTracks w0 !! rid_layer (t_RID track) = Some None ->
  AddReceiver oor unm ext lvl uri f r track id stream kind codec params pool rand now = Ok (f', r', w, false, evs) ->
  room_inv (s <| routers := <[q := r']> (routers s) |>) ts.
Proof.
  intros Hs Hq Hw0 Hup Hadd. apply AddReceiver_receivers in Hadd as (ba & _ & Hw & _ & _ & Hr').
  rewrite Hw0 in Hw. cbn [default] in Hw.
  assert (recv_step w0 w) as S by (rewrite Hw; by apply AddUpTrack_step).
  apply (router_gains s ts _ q r r'); try done.
  + intros id0 w1. rewrite Hr'. intros [[<- <-]|[_ Hx]]%lookup_insert_Some; [|by eapply rm_recv].
    destruct (rm_recv _ _ Hs q r ltac:(done) id w0 Hw0) as [Hx Hy].
    split; [by rewrite (st_trackID _ _ S)|by apply (st_ok _ _ S)].
  + apply Hs.
  + intros id0 w1 Hx. rewrite Hr'. destruct (decide (id = id0)) as [<-|Hn].
    * exists w. rewrite lookup_insert_eq. replace w1 with w0 by congruence.
      split_and!; [done|apply (st_streamID _ _ S)|]. intros ref Hin. rewrite Hw.
      apply AddUpTrack_hangs; [done| |done]. by apply (rm_recv _ _ Hs q r ltac:(done) id w0).
    * exists w1. by rewrite lookup_insert_ne.
  + intros id0 w1. rewrite Hr'. intros [[<- <-]|[_ Hx]]%lookup_insert_Some; [|by eapply lk_recv].
    rewrite Hw. apply AddUpTrack_linked; [done| |by eapply lk_recv].
    by apply (rm_recv _ _ Hs q r ltac:(done) id w0).
  + intros id0 w1. rewrite Hr'. intros [[<- <-]|[_ Hx]]%lookup_insert_Some; left; [by exists w0|by exists w1].
Qed.

Lemma room_step_inv st st' : room_step st st' -> room_inv st.1 st.2 -> room_inv st'.1 st'.2.
Proof.
  destruct 1; cbn [fst snd]; intros Hs.
  - by apply join_inv.
  - by eapply track_inv.
  - by eapply layer_inv.
  - eapply snap_inv; [done| |].
    + cbn. rewrite (snapshot_spec s p ps p) by done. tauto.
    + intros p0 q0 id _ Hq Hne [-> _]. split; [done|]. apply (snapshot_spec s p0 ps); auto.
  - eapply snap_inv; [done| |].
    + cbn. rewrite (snapshot_spec s q ps q) by done. tauto.
    + intros p0 q0 id0 Hp _ Hne (-> & -> & _). split_and!; [done..|]. apply (snapshot_spec s q0 ps); auto.
  - pose proof (rm_self _ _ Hs) as Hself. apply not_self_split in Hself as [Hself _]. cbn in Hself.
    eapply (work_inv s s' ts1 ts2); [done| | |done|done| |].
    + intros ->. apply Hself. by left.
    + intros Hin. apply Hself. by right.
    + intros r0 Hr0 _. congruence.
    + intros p' q' id [-> [->|Hin]%elem_of_cons]; [by right|by left].
  - pose proof (rm_self _ _ Hs) as Hself. apply not_self_split in Hself as [Hself _]. cbn in Hself.
    eapply (work_inv s s' ts1 ts2); [done| | |done|done|done|].
    + intros ->. apply Hself. by left.
    + intros Hin. apply Hself. by right.
    + intros p' q' id' (-> & -> & [->|Hin]%elem_of_cons); [by right|by left].
  - eapply retask; [done| |].
    + pose proof (rm_self _ _ Hs) as Hself. by apply not_self_split in Hself as [_ ?].
    + intros p0 q0 r id w sub _ _ _ _ _ _ [[_ Hin]|He]%covers_split; [by apply elem_of_nil in Hin|by right].
  - eapply retask; [done| |].
    + pose proof (rm_self _ _ Hs) as Hself. by apply not_self_split in Hself as [_ ?].
    + intros p0 q0 r id0 w sub _ _ _ _ _ _ [(_ & _ & Hin)|He]%covers_split; [by apply elem_of_nil in Hin|by right].
  - by apply end_track_inv.
  - assert (forall p, p ∈ peers (RemovePeer (rm_session s) pid).1 -> p ∈ peers (rm_session s)) as Hsub.
    { intros p. unfold RemovePeer, rp_delete, rp_close. destruct (rp_last _); cbn; set_solver. }
    pose proof Hs as []. split; try done.
    + intros p Hp. by apply (rm_peers _ _ Hs), Hsub.
    + intros p q r id w sub Hp Hq. apply (rm_cover _ _ Hs); by apply Hsub.
Qed.

Lemma room_reach id s ts : rtc room_step (new_room id, []) (s, ts) -> room_inv s ts.
Proof.
  intros Hrun. change s with ((s, ts).1). change ts with ((s, ts).2).
  assert (forall st st', rtc room_step st st' -> room_inv st.1 st.2 -> room_inv st'.1 st'.2) as H.
  { induction 1 as [|st1 st2 st3 Hstep _ IH]; [done|]. intros H. by apply IH, (room_step_inv st1). }
  apply (H _ _ Hrun), new_room_inv.
Qed.

(** C3. However joins, new tracks, further layers, tracks that end and leaving
    peers interleave, step by step, as long as peers have distinct ids, no two
    publishers have tracks with the same id in streams with the same id, pion
    accepts every transceiver, and a track ends after it was offered to
    everybody, with its close handlers, in one step ([late_offer_orphans] is
    the other case): once the work under way is done, every peer of the
    session has every track of every other peer exactly once, and its down
    track hangs on the receiver of that track; and at any time no peer has a
    track twice, and none has one of its own. *)
Theorem full_mesh id s ts :
  rtc room_step (new_room id, []) (s, ts) ->
  (forall p q r tid w sub, ts = [] ->
     p ∈ peers (rm_session s) -> q ∈ peers (rm_session s) -> p <> q ->
     routers s !! q = Some r -> receivers r !! tid = Some w -> subs s !! p = Some sub ->
     times sub (w_streamID w) tid = 1%nat /\ hung_on w p)
  /\ (forall p sub st tid, subs s !! p = Some sub ->
     (times sub st tid <= 1)%nat /\ ((0 < times sub st tid)%nat -> real s p st tid)).
Proof.
  intros Hs%room_reach. split.
  - intros p q r tid w sub -> Hp Hq Hne Hr Hw Hsub.
    destruct (rm_cover _ _ Hs p q r tid w sub Hp Hq Hne Hr Hw Hsub) as [Ht|He]; [|by apply Exists_nil in He].
    pose proof (rm_once _ _ Hs p sub (w_streamID w) tid Hsub). split; [lia|].
    destruct (rm_real _ _ p sub _ tid Hs Hsub Ht) as (q' & r' & w' & _ & Hr' & Hw' & Hst & Hh).
    assert (q' = q) as -> by (eapply (rm_uniq _ _ Hs); done). congruence.
  - intros p sub st tid Hsub. split; [by apply (rm_once _ _ Hs p)|]. by eapply rm_real.
Qed.
End rooms.

(** Two peers, ["a"] and ["b"]: the track of ["a"] is published while ["b"]
    subscribes, and both offer it to ["b"]. *)
Definition ex_track : TrackRemote := MkTrackRemote EmptyString 99.

Definition ex_added : go (Factory * router * WebRTCReceiver * bool * list buf_event) :=
  AddReceiver (fun _ => 0) Buffer.ex_unmarshal Buffer.ex_ext Buffer.ex_level "twcc"
    (GetOrNew (GetOrNew NewBufferFactory RTPBufferPacket 99).1 RTCPBufferPacket 99).1
    (newRouter "a" 1500 true) ex_track "t" "st" TypeAudio
    (MkRTPCodec "audio/OPUS" 48000 EmptyString 111)
    (MkParams [MkCodec "audio/OPUS" 48000 []] []) Buffer.ex_pool 7 0.

Definition ex_joined (s : room) (pid : string) : room :=
  s <| rm_session := AddPeer (rm_session s) pid |>
    <| routers := <[pid := newRouter pid 1500 true]> (routers s) |>
    <| subs := <[pid := new_sub pid]> (subs s) |>.

Definition ex_r1 : router := match ex_added with Ok t => t.1.1.1.2 | Panic => newRouter "a" 0 true end.
Definition ex_s1 : room := ex_joined (ex_joined (new_room "room") "a") "b".
Definition ex_s2 : room := ex_s1 <| routers := <["a"%string := ex_r1]> (routers ex_s1) |>.
Definition ex_hang (s : room) (recv : option string) (ids : list string) (a : nat) : room :=
  match hang s "a" "b" recv ids a Buffer.ex_pool 0 with Ok s' => s' | Panic => s end.
Definition ex_s3 : room := ex_hang ex_s2 (Some "t"%string) [] 5.
Definition ex_s4 : room := ex_hang ex_s3 None ["t"%string] 6.

Lemma ex_added_ok : exists f w evs, ex_added = Ok (f, ex_r1, w, true, evs) /\ w_streamID w = "st"%string.
Proof.
  unfold ex_r1. destruct ex_added as [[[[[f r] w] b] evs]|] eqn:E.
  - exists f, w, evs. split.
    + do 2 f_equal. revert E. unfold ex_added. 
      enough (match ex_added with Ok t => t.1.2 = true | _ => True end) as H
        by (intros E; unfold ex_added in H; rewrite E in H; by rewrite <-H).
      by vm_compute.
    + enough (match ex_added with Ok t => w_streamID t.1.1.2 = "st"%string | _ => True end) as H
        by (by rewrite E in H). by vm_compute.
  - exfalso. enough (match ex_added with Ok t => True | _ => False end) as H by (by rewrite E in H).
    by vm_compute.
Qed.

Lemma ex_hang_ok s recv ids a :
  is_ok (hang s "a" "b" recv ids a Buffer.ex_pool 0) = true ->
  hang s "a" "b" recv ids a Buffer.ex_pool 0 = Ok (ex_hang s recv ids a).
Proof. unfold ex_hang. by destruct (hang _ _ _ _ _ _ _ _). Qed.

Abbreviation ex_room_step := (room_step (fun _ => 0) Buffer.ex_unmarshal Buffer.ex_ext Buffer.ex_level "twcc").

Lemma ex_publish_run :
  rtc ex_room_step (new_room "room", []) (ex_s2, [TPublish "a" "t" None; TSubscribe "b" None]).
Proof.
  eapply rtc_l; [by eapply (rm_join _ _ _ _ _ _ _ "a" 1500 true); vm_compute|].
  eapply rtc_l; [by eapply (rm_snap_sub _ _ _ _ _ _ [] [] "a" []); vm_compute|].
  eapply rtc_l; [by eapply (rm_sub_done _ _ _ _ _ _ [] [])|].
  eapply rtc_l; [by eapply (rm_join _ _ _ _ _ _ _ "b" 1500 true); vm_compute|].
  change (rtc ex_room_step (ex_s1, [TSubscribe "b" None])
    (ex_s2, [TPublish "a" "t" None; TSubscribe "b" None])).
  destruct ex_added_ok as (f & w & evs & Ha & Hst).
  eapply rtc_l; [|reflexivity].
  eapply (rm_track _ _ _ _ _ ex_s1 _ "a" (newRouter "a" 1500 true)); [by vm_compute|exact Ha|].
  intros q' r0 w0. unfold ex_s1, ex_joined. room_cbn.
  intros [[<- <-]|[_ [[<- <-]|[_ H]]%lookup_insert_Some]]%lookup_insert_Some Hw; done.
Qed.

Lemma ex_mesh_run : rtc ex_room_step (new_room "room", []) (ex_s4, []).
Proof.
  etransitivity; [exact ex_publish_run|].
  eapply rtc_l; [by eapply (rm_snap_pub _ _ _ _ _ _ [] _ "a" "t" ["b"%string]); vm_compute|].
  eapply rtc_l; [by eapply (rm_snap_sub _ _ _ _ _ _ [_] [] "b" ["a"%string]); vm_compute|].
  eapply rtc_l.
  { eapply (rm_publish _ _ _ _ _ _ [] _ "a" "t" "b" [] 5 Buffer.ex_pool 0 ex_s3);
      [intros b _; apply lookup_empty|]. apply ex_hang_ok. by vm_compute. }
  eapply rtc_l.
  { eapply (rm_subscribe _ _ _ _ _ _ [_] [] "b" "a" []) with (ids := ["t"%string]) (a := 6%nat);
      [..|apply ex_hang_ok]; [reflexivity|by vm_compute| |by vm_compute].
    intros b Hb. apply not_elem_of_dom.
    assert (dom (downs ex_s3) = {[5%nat]}) as -> by (by apply (bool_decide_unpack _); vm_compute).
    rewrite elem_of_singleton. lia. }
  eapply rtc_l; [by eapply (rm_pub_done _ _ _ _ _ _ [] _)|].
  eapply rtc_l; [by eapply (rm_sub_done _ _ _ _ _ _ [] [])|]. reflexivity.
Qed.

Lemma full_mesh_witness :
  exists r w sub, routers ex_s4 !! "a"%string = Some r /\ receivers r !! "t"%string = Some w
    /\ subs ex_s4 !! "b"%string = Some sub
    /\ times sub (w_streamID w) "t" = 1%nat /\ hung_on w "b".
Proof.
  destruct (full_mesh _ _ _ _ _ "room" ex_s4 [] ex_mesh_run) as [H _].
  assert (exists r w sub, routers ex_s4 !! "a"%string = Some r /\ receivers r !! "t"%string = Some w
    /\ subs ex_s4 !! "b"%string = Some sub) as (r & w & sub & Hr & Hw & Hs)
    by (eexists _, _, _; split; [vm_compute; reflexivity|split; vm_compute; reflexivity]).
  exists r, w, sub. split; [done|]. split; [done|]. split; [done|].
  apply (H "b"%string "a"%string r); try done.
Defined.

