(* ===== verification/LateOffer.v ===== *)
(** * A track that ends while it is being offered ([session.go], [router.go],
      [receiver.go])

    [Publish] works through its list of peers with the receiver it was given.
    If the track ends meanwhile, the receiver is closed and leaves the
    router, but the remaining peers still get down tracks on it.  Here is
    what becomes of such a down track: nothing that happens in the room
    afterwards closes it or takes it from its subscriber, and the duplicate
    test of [addDownTrack] keeps that peer from ever getting a track of the
    same ids again. *)

From stdpp Require Import gmap strings.
From S2P Require Import Prelude GoNum GoSlice GoFloat Nack Bucket Twcc Sequencer Rtp Buffer Factory Pacer SfuHelper DownTrack Receiver Layers Router Links Session Room.
#[local] Open Scope Z_scope.

(** ** What [addDownTrack] adds to a receiver *)

Lemma addDownTrack_adds best ds s w a pool now ds' s' w' ok :
  recv_ok w -> addDownTrack best ds s w a true pool now = Ok (ds', s', w', ok) ->
  (forall b, b <> a -> ds' !! b = ds !! b)
  /\ (forall st ptr, ptr ∈ GetDownTracks s st -> ptr ∈ GetDownTracks s' st)
  /\ s_id s' = s_id s
  /\ (forall ref, hangs w' ref -> hangs w ref
      \/ (ref = DtRef a (s_id s) /\ times s (w_streamID w) (w_trackID w) = 0%nat)).
Proof.
  intros Hw H. pose proof (addDownTrack_step _ _ _ _ _ _ _ _ _ _ _ Hw H) as (_ & _ & [Hid _ _] & _).
  revert H. unfold addDownTrack. destruct (existsb _ _) eqn:E.
  { intros [= <- <- <- _]. split_and!; auto. }
  cbn [negb]. destruct (AddDownTrack _ _ _ _) as [[r' d']|] eqn:Ea; [|done].
  cbn [mbind go_bind mret go_ret fst snd]. intros [= <- <- <- _].
  destruct (AddDownTrack_shape _ _ _ _ _ _ Hw Ea) as [(j & t & dts & _ & Hj & ->) _].
  split; [intros b Hb; by rewrite lookup_insert_ne|]. split.
  { intros st ptr Hin. rewrite GetDownTracks_add. apply elem_of_app. by left. }
  split; [by unfold s_AddDownTrack; destruct (s_tracks s !! _)|].
  assert (times s (w_streamID w) (w_trackID w) = 0%nat) as H0.
  { destruct (times s (w_streamID w) (w_trackID w)) eqn:Et; [done|].
    rewrite (proj2 (existsb_times s (w_streamID w) (w_trackID w))) in E by lia. done. }
  intros ref (k & l & Hk & Hin). cbn in Hk. destruct (decide (j = k)) as [<-|Hne].
  - rewrite list_lookup_insert_eq in Hk by (by eapply lookup_lt_Some). injection Hk as <-.
    apply elem_of_app in Hin as [Hin|Hin%list_elem_of_singleton]; [left|by right].
    destruct dts as [l|]; [by exists j, l|]. by apply elem_of_nil in Hin.
  - rewrite list_lookup_insert_ne in Hk by done. left. by exists k, l.
Qed.

(** A pointer to another track stays. *)
Lemma RemoveDownTrack_keeps s stream b st ptr :
  ptr ∈ GetDownTracks s st -> ~ at_addr b ptr -> ptr ∈ GetDownTracks (RemoveDownTrack s stream b) st.
Proof.
  intros Hin Hb. unfold RemoveDownTrack. destruct (s_tracks s !! stream) as [dts|] eqn:E; [|done].
  pose proof (last_index_spec b dts 0 None) as Hl. destruct (last_index b 0 None dts) as [k|]; [|done].
  destruct Hl as [[? _]|(j & x & -> & Hj & Hx)]; [done|]. cbn [Nat.add].
  unfold GetDownTracks in *. cbn [upd settable_sub_tracks eta_record s_tracks].
  destruct (decide (stream = st)) as [<-|Hn]; [|by rewrite lookup_insert_ne].
  rewrite lookup_insert_eq. rewrite E in Hin. cbn [default id] in *.
  rewrite (swap_remove_Permutation dts j x Hj) in Hin. apply elem_of_cons in Hin as [->|?]; done.
Qed.

Lemma close_down_tracks_keep stream cl (su : gmap string sub_tracks) p sub st ptr :
  su !! p = Some sub -> ptr ∈ GetDownTracks sub st ->
  (forall ref, ref ∈ cl -> ~ at_addr (dt_addr ref) ptr) ->
  exists sub', foldl (close_down_track stream) su cl !! p = Some sub' /\ s_id sub' = s_id sub
    /\ ptr ∈ GetDownTracks sub' st.
Proof.
  revert su sub. induction cl as [|ref cl IH]; intros su sub Hp Hin Hcl; [by exists sub|]. cbn [foldl].
  assert (exists sub1, close_down_track stream su ref !! p = Some sub1 /\ s_id sub1 = s_id sub
    /\ ptr ∈ GetDownTracks sub1 st) as (sub1 & H1 & H2 & H3).
  { unfold close_down_track. destruct (decide (dt_peer ref = p)) as [<-|Hn].
    - rewrite lookup_alter_eq, Hp. cbn. eexists. split; [reflexivity|]. split.
      + unfold RemoveDownTrack. destruct (s_tracks sub !! stream); [|done]. by destruct (last_index _ _ _ _).
      + apply (RemoveDownTrack_keeps sub stream (dt_addr ref) st ptr Hin). apply Hcl. by left.
    - rewrite lookup_alter_ne by done. by exists sub. }
  destruct (IH _ _ H1 H3) as (sub2 & H4 & H5 & H6); [intros r Hr; apply Hcl; by right|].
  exists sub2. split; [done|]. split; [congruence|done].
Qed.

(** ** The invariant of such a track

    [haunted]: the subscriber [p] points at the down track [a] of track [id]
    of stream [st]; the track is open, hangs on no receiver of the room, and
    no receiver of these ids has a down track of [p]. *)
Record haunted (p : string) (a : nat) (st id : string) (s : room) : Prop := {
  hz_router : is_Some (routers s !! p);
  hz_ptr : exists sub, subs s !! p = Some sub /\ s_id sub = p
    /\ MkPtr id (DtRef a p) ∈ GetDownTracks sub st;
  hz_open : exists d, downs s !! a = Some d /\ d_closeOnce d = false;
  hz_ids : forall q sub, subs s !! q = Some sub -> s_id sub = q;
  hz_ok : forall q r, routers s !! q = Some r -> receivers_ok r;
  hz_away : forall q r i w ref, routers s !! q = Some r -> receivers r !! i = Some w -> hangs w ref ->
    dt_addr ref <> a;
  hz_shut : forall q r w, routers s !! q = Some r -> receivers r !! id = Some w -> w_streamID w = st ->
    ~ hung_on w p }.

#[local] Ltac room_cbn :=
  cbn [rm_session routers subs downs peers AddPeer upd settable_room settable_session eta_record].

(** ** Every step of a room keeps it *)

Lemma add_down_tracks_adds ids ds r s a pool now ds' r' s' ok :
  receivers_ok r -> add_down_tracks ds r s ids a (fun _ => true) pool now = Ok (ds', r', s', ok) ->
  (forall b, (b < a)%nat -> ds' !! b = ds !! b)
  /\ (forall st ptr, ptr ∈ GetDownTracks s st -> ptr ∈ GetDownTracks s' st)
  /\ s_id s' = s_id s
  /\ forall i w', receivers r' !! i = Some w' -> exists w, receivers r !! i = Some w
       /\ w_streamID w' = w_streamID w
       /\ forall ref, hangs w' ref -> hangs w ref
            \/ ((a <= dt_addr ref)%nat /\ dt_peer ref = s_id s /\ times s (w_streamID w) i = 0%nat).
Proof.
  revert ds r s a. induction ids as [|id ids IH]; intros ds r s a Hr; cbn [add_down_tracks].
  { intros [= <- <- <- _]. split_and!; try done. intros i w' Hw'. exists w'. split_and!; auto. }
  destruct (receivers r !! id) as [w|] eqn:Ew.
  2: { intros H. apply IH in H as (H1 & H2 & H3 & H4); [|done]. split_and!; [|done..|].
       - intros b Hb. apply H1. lia.
       - intros i w' Hw'. destruct (H4 i w' Hw') as (w & ? & ? & Hf). exists w. split_and!; [done..|].
         intros ref Hh. destruct (Hf ref Hh) as [?|(? & ? & ?)]; [by left|right]. split_and!; [lia|done|done]. }
  destruct (Hr id w Ew) as [Hid Hw].
  destruct (addDownTrack _ _ _ _ _ _ _ _) as [[[[ds1 s1] w1] ok1]|] eqn:Ea; [|done]. cbn [mbind go_bind].
  destruct (addDownTrack_step _ _ _ _ _ _ _ _ _ _ _ Hw Ea) as (-> & S1 & T1 & _).
  destruct (addDownTrack_adds _ _ _ _ _ _ _ _ _ _ _ Hw Ea) as (A1 & A2 & A3 & A4).
  intros H. apply IH in H as (H1 & H2 & H3 & H4); [|by eapply router_step_ok; [eapply router_insert_step|]].
  split_and!; [intros b Hb; rewrite H1 by lia; apply A1; lia|auto|congruence|].
  intros i w' Hw'. destruct (H4 i w' Hw') as (w2 & Hw2 & Est & Hf). cbn in Hw2.
  assert (forall x, times s1 (w_streamID x) i = 0%nat -> times s (w_streamID x) i = 0%nat) as Hz.
  { intros x H0. pose proof (ss_mono _ _ T1 (w_streamID x) i). lia. }
  apply lookup_insert_Some in Hw2 as [[<- <-]|[Hn Hw2]].
  - exists w. split; [done|]. split; [rewrite Est; apply (st_streamID _ _ S1)|].
    intros ref Hh. destruct (Hf ref Hh) as [Hh1|(? & ? & Ht)].
    + destruct (A4 ref Hh1) as [?|[-> Ht]]; [by left|right]. cbn. rewrite Hid in Ht. auto.
    + right. rewrite (st_streamID _ _ S1) in Ht. split_and!; [lia|congruence|by apply Hz].
  - exists w2. split_and!; [done..|]. intros ref Hh. destruct (Hf ref Hh) as [?|(? & ? & Ht)]; [by left|right].
    split_and!; [lia|congruence|by apply Hz].
Qed.

Lemma hang_haunted p a st id s q p' recv ids a0 pool now s' :
  haunted p a st id s -> (forall b, (a0 <= b)%nat -> downs s !! b = None) ->
  hang s q p' recv ids a0 pool now = Ok s' -> haunted p a st id s'.
Proof.
  intros Hz Ha. unfold hang. destruct (routers s !! q) as [r|] eqn:Hq; [|by intros [= <-]].
  destruct (subs s !! p') as [sub|] eqn:Hp; [|by intros [= <-]].
  destruct (AddDownTracks _ _ _ _ _ _ _ _ _) as [[[[ds r'] sub'] ok]|] eqn:E; [|done].
  cbn [mbind go_bind mret go_ret]. intros [= <-].
  pose proof (hz_ok _ _ _ _ _ Hz q r Hq) as Hok.
  destruct (hz_open _ _ _ _ _ Hz) as (d & Hd & Hcl). destruct (hz_ptr _ _ _ _ _ Hz) as (sub0 & Hs0 & Hid0 & Hin0).
  assert (a < a0)%nat as Hlt by (destruct (le_lt_dec a0 a) as [Hle|]; [apply Ha in Hle; congruence|done]).
  assert (exists l, add_down_tracks (downs s) r sub l a0 (fun _ => true) pool now = Ok (ds, r', sub', ok)
    \/ ds = downs s /\ r' = r /\ sub' = sub) as (l & Hadd).
  { unfold AddDownTracks in E. destruct recv as [i|]; [exists [i]; by left|].
    destruct (0 <? len ids); [exists ids; by left|]. injection E as -> -> -> _. exists []. by right. }
  assert (router_step r r' /\ (forall b, (b < a0)%nat -> ds !! b = downs s !! b)
    /\ (forall st ptr, ptr ∈ GetDownTracks sub st -> ptr ∈ GetDownTracks sub' st) /\ s_id sub' = s_id sub
    /\ forall i w', receivers r' !! i = Some w' -> exists w, receivers r !! i = Some w
         /\ w_streamID w' = w_streamID w
         /\ forall ref, hangs w' ref -> hangs w ref
              \/ ((a0 <= dt_addr ref)%nat /\ dt_peer ref = s_id sub /\ times sub (w_streamID w) i = 0%nat))
    as (RS & H1 & H2 & H3 & H4).
  { destruct Hadd as [Hadd|(-> & -> & ->)].
    - split; [by apply add_down_tracks_step in Hadd as (_ & ? & _)|by eapply add_down_tracks_adds].
    - split_and!; try done. intros i w' Hw'. exists w'. split_and!; auto. }
  clear E Hadd. split; room_cbn.
  - apply lookup_insert_is_Some'. right. apply Hz.
  - destruct (decide (p' = p)) as [->|Hn].
    + exists sub'. rewrite lookup_insert_eq. replace sub0 with sub in * by congruence.
      split_and!; [done|congruence|auto].
    + exists sub0. by rewrite lookup_insert_ne.
  - exists d. by rewrite H1.
  - intros q0 sub1 [[<- <-]|[_ H0]]%lookup_insert_Some; [rewrite H3|]; by apply (hz_ids _ _ _ _ _ Hz).
  - intros q0 r0 [[<- <-]|[_ H0]]%lookup_insert_Some; [by eapply router_step_ok|by eapply hz_ok].
  - intros q0 r0 i w ref [[<- <-]|[_ H0]]%lookup_insert_Some Hw Hh; [|by eapply hz_away].
    destruct (H4 i w Hw) as (w0 & Hw0 & _ & Hf). destruct (Hf ref Hh) as [?|(? & _)]; [by eapply hz_away|lia].
  - intros q0 r0 w [[<- <-]|[_ H0]]%lookup_insert_Some Hw Hst; [|by eapply hz_shut].
    destruct (H4 id w Hw) as (w0 & Hw0 & Est & Hf). rewrite hung_on_hangs. intros (ref & Hh & Hp').
    destruct (Hf ref Hh) as [Hh0|(_ & Hp2 & Ht)].
    + apply (hz_shut _ _ _ _ _ Hz q r w0 Hq Hw0); [congruence|]. apply hung_on_hangs. by exists ref.
    + assert (p' = p) as -> by (rewrite <-(hz_ids _ _ _ _ _ Hz p' sub Hp); congruence).
      replace sub0 with sub in * by congruence. rewrite <-Est, Hst in Ht.
      assert (0 < times sub st id)%nat; [|lia]. apply times_pos. by eexists.
Qed.

Lemma end_haunted p a st id s q i : haunted p a st id s -> haunted p a st id (end_track s q i).
Proof.
  intros Hz. unfold end_track. destruct (routers s !! q) as [r|] eqn:Hq; [|done].
  destruct (receivers r !! i) as [w|] eqn:Hw; [|done].
  destruct (writeRTP_end w (downs s)) as [[w' ds] cl] eqn:E.
  assert ((forall ref, ref ∈ cl -> dt_addr ref <> a)
    /\ exists d, ds !! a = Some d /\ d_closeOnce d = false) as [Hcl Hopen].
  { destruct (hz_open _ _ _ _ _ Hz) as (d & Hd & Hc). unfold writeRTP_end in E. destruct (w_closeOnce w).
    { injection E as <- <- <-. split; [by intros ref ?%elem_of_nil|by exists d]. }
    unfold closeTracks in E. cbn [downTracks upd settable_WebRTCReceiver eta_record] in E.
    destruct (close_all (downs s) _) as [ds' cl'] eqn:Ec. injection E as _ <- <-.
    destruct (close_all_spec _ _ _ _ Ec) as (C1 & _ & C3).
    assert (forall ref, ref ∈ concat (map (default []) (downTracks w)) -> dt_addr ref <> a) as Hl
      by (intros ref Hr%concat_hangs; by eapply hz_away).
    split; [intros ref Hr; by apply Hl, C1|]. destruct (C3 a d Hd) as (d' & Hd' & _ & [He|(ref & Hr & Ha)]).
    - exists d'. split; [done|congruence].
    - by destruct (Hl ref Hr). }
  assert (forall q0 r0, <[q := DeleteReceiver r i]> (routers s) !! q0 = Some r0 ->
    exists r1, routers s !! q0 = Some r1 /\ forall j w0, receivers r0 !! j = Some w0 -> receivers r1 !! j = Some w0)
    as Hback.
  { intros q0 r0 [[<- <-]|[_ H0]]%lookup_insert_Some; [|by exists r0].
    exists r. split; [done|]. cbn. by intros j w0 [_ ?]%lookup_delete_Some. }
  split; room_cbn.
  - apply lookup_insert_is_Some'. right. apply Hz.
  - destruct (hz_ptr _ _ _ _ _ Hz) as (sub & Hs & Hid & Hin).
    destruct (close_down_tracks_keep (w_streamID w) cl (subs s) p sub st _ Hs Hin) as (sub' & H1 & H2 & H3).
    { intros ref Hr Ha. unfold at_addr in Ha. cbn in Ha. by apply (Hcl ref Hr). }
    exists sub'. split_and!; [done|congruence|done].
  - done.
  - intros q0 sub0 H0. revert H0. pose proof (hz_ids _ _ _ _ _ Hz q0) as Hi.
    generalize dependent (subs s). clear. intros su Hi. revert su Hi.
    induction cl as [|ref cl IH]; intros su Hi H; [by apply Hi|]. cbn [foldl] in H. revert H. apply IH.
    intros sub1. unfold close_down_track. destruct (decide (dt_peer ref = q0)) as [<-|Hn].
    + rewrite lookup_alter_eq. intros (sub2 & Hs2 & ->)%fmap_Some. rewrite <-(Hi _ Hs2).
      unfold RemoveDownTrack. cbn. destruct (s_tracks sub2 !! _); [|done]. by destruct (last_index _ _ _ _).
    + rewrite lookup_alter_ne by done. apply Hi.
  - intros q0 r0 (r1 & H1 & Hf)%Hback j w0 Hw0. by apply (hz_ok _ _ _ _ _ Hz q0 r1 H1), Hf.
  - intros q0 r0 j w0 ref (r1 & H1 & Hf)%Hback Hw0. by apply (hz_away _ _ _ _ _ Hz q0 r1 j w0 ref H1), Hf.
  - intros q0 r0 w0 (r1 & H1 & Hf)%Hback Hw0. by apply (hz_shut _ _ _ _ _ Hz q0 r1 w0 H1), Hf.
Qed.

Section runs.
Context (oor : float -> Z) (unm : option bytes -> option rtp_packet)
  (ext : rtp_packet -> Z -> option bytes) (lvl : bytes -> option Z) (uri : string).
#[local] Abbreviation room_step := (room_step oor unm ext lvl uri).

(** A router gains a receiver, or a layer of one, without down tracks. *)
Lemma gain_haunted p a st id s q r r' :
  haunted p a st id s -> routers s !! q = Some r ->
  (forall i w', receivers r' !! i = Some w' -> (w_trackID w' = i /\ recv_ok w')
     /\ ((forall ref, ~ hangs w' ref) \/ exists w, receivers r !! i = Some w /\ w_streamID w' = w_streamID w
          /\ forall ref, hangs w' ref -> hangs w ref)) ->
  haunted p a st id (s <| routers := <[q := r']> (routers s) |>).
Proof.
  intros Hz Hq Hg. split; room_cbn; try apply Hz.
  - apply lookup_insert_is_Some'. right. apply Hz.
  - intros q0 r0 [[<- <-]|[_ H0]]%lookup_insert_Some; [|by eapply hz_ok]. intros i w Hw. by apply Hg.
  - intros q0 r0 i w ref [[<- <-]|[_ H0]]%lookup_insert_Some Hw Hh; [|by eapply hz_away].
    destruct (Hg i w Hw) as [_ [Hn|(w0 & Hw0 & _ & Hf)]]; [by destruct (Hn ref)|]. by eapply hz_away, Hf.
  - intros q0 r0 w [[<- <-]|[_ H0]]%lookup_insert_Some Hw Hst; [|by eapply hz_shut].
    rewrite hung_on_hangs. intros (ref & Hh & Hp).
    destruct (Hg id w Hw) as [_ [Hn|(w0 & Hw0 & Est & Hf)]]; [by apply (Hn ref)|].
    apply (hz_shut _ _ _ _ _ Hz q r w0 Hq Hw0); [congruence|]. apply hung_on_hangs. exists ref. auto.
Qed.

Lemma step_haunted p a st id t t' : room_step t t' -> haunted p a st id t.1 -> haunted p a st id t'.1.
Proof.
  destruct 1; cbn [fst]; intros Hz; try done.
  - destruct (hz_router _ _ _ _ _ Hz) as [r0 Hr0]. assert (pid <> p) as Hn by congruence. split; room_cbn.
    + apply lookup_insert_is_Some'. right. by exists r0.
    + destruct (hz_ptr _ _ _ _ _ Hz) as (sub & ? & ? & ?). exists sub. by rewrite lookup_insert_ne.
    + apply Hz.
    + intros q sub [[<- <-]|[_ H0]]%lookup_insert_Some; [done|by apply Hz].
    + intros q r [[<- <-]|[_ H0]]%lookup_insert_Some; [|by eapply hz_ok].
      intros i w Hw. by rewrite newRouter_empty in Hw.
    + intros q r i w ref [[<- <-]|[_ H0]]%lookup_insert_Some; [|by eapply hz_away].
      intros Hw. by rewrite newRouter_empty in Hw.
    + intros q r w [[<- <-]|[_ H0]]%lookup_insert_Some; [|by eapply hz_shut].
      intros Hw. by rewrite newRouter_empty in Hw.
  - match goal with H : AddReceiver _ _ _ _ _ _ _ _ _ _ _ _ _ _ _ _ = _ |- _ =>
      apply AddReceiver_receivers in H as (ba & _ & Hw & Hpub & _ & Hr') end.
    symmetry in Hpub. apply bool_decide_eq_true in Hpub. rewrite Hpub in Hw. cbn [default] in Hw.
    apply (gain_haunted _ _ _ _ _ _ r); [done..|]. intros i w'. rewrite Hr'.
    intros [[<- <-]|[_ Hx]]%lookup_insert_Some.
    + rewrite Hw. split; [split; [done|apply NewWebRTCReceiver_ok]|left]. intros ref Hh.
      destruct (new_receiver_linked ∅ id0 track id0 stream kind codec (r_id r) ba) as [_ Hl].
      by destruct (Hl ref Hh) as (? & ? & _).
    + split; [by apply (hz_ok _ _ _ _ _ Hz q r)|right]. by exists w'.
  - match goal with H : AddReceiver _ _ _ _ _ _ _ _ _ _ _ _ _ _ _ _ = _ |- _ =>
      apply AddReceiver_receivers in H as (ba & _ & Hw & _ & _ & Hr') end.
    match goal with H : receivers r !! id0 = Some _ |- _ => rename H into Hw0 end.
    rewrite Hw0 in Hw. cbn [default] in Hw.
    destruct (hz_ok _ _ _ _ _ Hz q r ltac:(done) id0 w0 Hw0) as [Hx Hy].
    assert (recv_step w0 w) as S by (rewrite Hw; by apply AddUpTrack_step).
    apply (gain_haunted _ _ _ _ _ _ r); [done..|]. intros i w'. rewrite Hr'.
    intros [[<- <-]|[_ Hi]]%lookup_insert_Some.
    + split; [split; [by rewrite (st_trackID _ _ S)|by apply (st_ok _ _ S)]|right]. exists w0.
      split_and!; [done|apply (st_streamID _ _ S)|]. intros ref. rewrite Hw. by apply AddUpTrack_hangs.
    + split; [by apply (hz_ok _ _ _ _ _ Hz q r)|right]. by exists w'.
  - by eapply hang_haunted.
  - by eapply hang_haunted.
  - by apply end_haunted.
  - by destruct Hz; split.
Qed.

(** ** The late offer *)

(** [Publish] of track [id] of [q] reaches the peer [p] with the receiver [w]
    of before, after [end_track]; nobody else knows the receiver any more. *)
Definition late_offer (s : room) (q id p : string) (w : WebRTCReceiver) (best : bool) (a : nat)
    (pool : bytes) (now : Z) : go room :=
  let s1 := end_track s q id in
  match subs s1 !! p with
  | Some sub =>
      t ← addDownTrack best (downs s1) sub (writeRTP_end w (downs s)).1.1 a true pool now;
      let sub := if (t.2 : bool) then t.1.1.2 <| s_negotiate := true |> else t.1.1.2 in
      mret (s1 <| subs := <[p := sub]> (subs s1) |> <| downs := t.1.1.1 |>)
  | None => mret s1
  end.

Lemma closed_receiver w ds :
  recv_ok w -> w_closeOnce w = false -> let wd := (writeRTP_end w ds).1.1 in
  recv_ok wd /\ w_trackID wd = w_trackID w /\ w_streamID wd = w_streamID w /\ w_codec wd = w_codec w.
Proof.
  intros [H1 H2 H3 H4 H5] Hc. unfold writeRTP_end. rewrite Hc. cbn. split; [|done]. split; cbn; try done.
  - by rewrite length_map.
  - intros k Hk. rewrite list_lookup_fmap, (H3 k Hk). done.
Qed.

Lemma end_track_unfold s ts q id r w :
  room_inv s ts -> routers s !! q = Some r -> receivers r !! id = Some w ->
  exists ds cl, close_all (downs s) (concat (map (default []) (downTracks w))) = (ds, cl)
    /\ end_track s q id = s <| routers := <[q := DeleteReceiver r id]> (routers s) |>
         <| subs := foldl (close_down_track (w_streamID w)) (subs s) cl |> <| downs := ds |>.
Proof.
  intros Hs Hq Hw. destruct (lk_recv _ _ Hs q r Hq id w Hw) as [Hopen _].
  unfold end_track. rewrite Hq, Hw. unfold writeRTP_end. rewrite Hopen.
  unfold closeTracks. cbn [downTracks upd settable_WebRTCReceiver eta_record].
  destruct (close_all _ _) as [ds cl]. by exists ds, cl.
Qed.

Lemma AddDownTrack_total w d pool best :
  recv_ok w -> exists s, AddDownTrack (MkRcv w [] None) d pool best = Ok s.
Proof.
  intros [H1 H2 H3 H4 H5]. unfold AddDownTrack. cbn [rv].
  set (layer := if isSimulcast w then pick_layer best 0 0 (upTracks w) else 0).
  assert (exists (j : nat) t, layer = Z.of_nat j /\ upTracks w !! j = Some (Some t)) as (j & t & Hj & Ht).
  { subst layer. destruct (isSimulcast w) eqn:Es.
    - destruct (pick_layer_up best 0 0 _ H4) as (j & t & Hj & ->). exists j, t. split; [lia|done].
    - destruct (H5 eq_refl) as [t Ht]. by exists 0%nat, t. }
  clearbody layer. subst layer. pose proof (lookup_lt_Some _ _ _ Ht) as Hj. rewrite H1 in Hj.
  unfold lock_layer. cbn [rv held]. rewrite bool_decide_false by done.
  destruct (go_index_ok (downTracks w) (Z.of_nat j)) as (dts & -> & _); [unfold len; lia|]. by eexists.
Qed.

Lemma late_offer_haunts s ts q id r w p sub best a pool now :
  room_inv s ts -> routers s !! q = Some r -> receivers r !! id = Some w -> subs s !! p = Some sub ->
  times sub (w_streamID w) id = 0%nat -> downs (end_track s q id) !! a = None ->
  exists s2, late_offer s q id p w best a pool now = Ok s2 /\ haunted p a (w_streamID w) id s2.
Proof.
  intros Hs Hq Hw Hp Ht. destruct (rm_recv _ _ Hs q r Hq id w Hw) as [Hid Hok].
  destruct (lk_recv _ _ Hs q r Hq id w Hw) as [Hopen _].
  destruct (closed_receiver w (downs s) Hok Hopen) as (Wok & Wid & Wst & _). unfold late_offer.
  set (wd := (writeRTP_end w (downs s)).1.1) in *.
  destruct (end_track_unfold s ts q id r w Hs Hq Hw) as (ds & cl & Ecl & Es).
  pose proof (end_track_inv s ts q id Hs) as Hs1. rewrite Es in *. clear Es. room_cbn. intros Ha.
  set (s1 := s <| routers := _ |> <| subs := _ |> <| downs := _ |>) in *.
  destruct (proj2 (close_down_tracks_dom (w_streamID w) cl (subs s) p)) as [sub1 Hp1]; [by exists sub|].
  destruct (ended_subs s ts w cl Hs p sub1 Hp1) as (t & Ht' & D).
  replace t with sub in D by congruence. clear t Ht'.
  assert (times sub1 (w_streamID w) id = 0%nat) as Ht1.
  { enough (times sub1 (w_streamID w) id <= times sub (w_streamID w) id)%nat by lia.
    apply submseteq_length, filter_submseteq, (dr_sub _ _ _ _ _ D). }
  pose proof (rm_sid _ _ Hs1 p sub1 Hp1) as Hid1. rewrite Hp1.
  unfold addDownTrack. rewrite Wid, Wst, Hid.
  destruct (existsb _ _) eqn:Ee; [apply existsb_times in Ee; lia|]. clear Ee. cbn [negb].
  destruct (AddDownTrack_total wd (NewDownTrack (w_codec wd) id (w_streamID w) (DtRef a (s_id sub1)) now) pool best Wok)
    as ([r' d'] & Ea). rewrite Ea.
  cbn [mbind go_bind mret go_ret fst snd]. eexists. split; [reflexivity|].
  destruct (AddDownTrack_shape _ _ _ _ _ _ Wok Ea) as (_ & _ & _ & _ & Hopen'). rewrite Hid1. split; room_cbn.
  - apply lookup_insert_is_Some'. right. apply (rm_subs _ _ Hs). by exists sub.
  - eexists. rewrite lookup_insert_eq. split; [done|]. split; [by unfold s_AddDownTrack; destruct (s_tracks sub1 !! _)|].
    change (MkPtr id (DtRef a p) ∈ GetDownTracks
      (s_AddDownTrack sub1 (w_streamID w) (MkPtr id (DtRef a p))) (w_streamID w)).
    rewrite GetDownTracks_add, decide_True by done. apply elem_of_app. right. by left.
  - exists d'. by rewrite lookup_insert_eq.
  - intros q0 sub0 [[<- <-]|[_ H0]]%lookup_insert_Some; [|by apply (rm_sid _ _ Hs1)].
    unfold s_AddDownTrack. by destruct (s_tracks sub1 !! _).
  - apply (rm_recv _ _ Hs1).
  - intros q0 r0 i w0 ref H0 Hw0 Hh. destruct (lk_recv _ _ Hs1 q0 r0 H0 i w0 Hw0) as [_ Hl].
    destruct (Hl ref Hh) as (d0 & Hd0 & _). cbn in Hd0. congruence.
  - intros q0 r0 w0 H0 Hw0 Hst. exfalso. destruct (ended_routers s q id r Hq q0 r0 H0) as (r1 & H1 & Hf).
    destruct (Hf id w0 Hw0) as [Hw1 Hne]. apply Hne. split; [|done].
    by apply (rm_uniq _ _ Hs q0 q r1 r id w0 w).
Qed.

(** C18. A track that ends while it is being offered: the offer to the next peer
    still succeeds, on the closed receiver; and whatever happens in the room
    afterwards, that peer keeps the down track, which nothing closes, and no
    receiver of a track with these ids, whoever publishes it, ever serves
    that peer. *)
Theorem late_offer_orphans name s ts q id r w p sub best a pool now :
  rtc room_step (new_room name, []) (s, ts) ->
  routers s !! q = Some r -> receivers r !! id = Some w -> subs s !! p = Some sub ->
  times sub (w_streamID w) id = 0%nat -> downs (end_track s q id) !! a = None ->
  exists s2, late_offer s q id p w best a pool now = Ok s2
    /\ forall ts2 s3 ts3, rtc room_step (s2, ts2) (s3, ts3) ->
         (exists sub3 d, subs s3 !! p = Some sub3 /\ MkPtr id (DtRef a p) ∈ GetDownTracks sub3 (w_streamID w)
            /\ downs s3 !! a = Some d /\ d_closeOnce d = false)
         /\ forall q3 r3 w3, routers s3 !! q3 = Some r3 -> receivers r3 !! id = Some w3 ->
              w_streamID w3 = w_streamID w -> ~ hung_on w3 p.
Proof.
  intros Hs%room_reach Hq Hw Hp Ht Ha.
  destruct (late_offer_haunts s ts q id r w p sub best a pool now Hs Hq Hw Hp Ht Ha) as (s2 & Hl & Hz).
  exists s2. split; [done|]. intros ts2 s3 ts3 Hrun.
  assert (forall t t', rtc room_step t t' -> haunted p a (w_streamID w) id t.1 ->
    haunted p a (w_streamID w) id t'.1) as Hrtc.
  { induction 1 as [|t1 t2 t3 Hstep _ IH]; [done|]. intros H. by apply IH, (step_haunted _ _ _ _ t1). }
  destruct (Hrtc _ _ Hrun Hz) as [_ (sub3 & ? & _ & ?) (d & ? & ?) _ _ _ Hshut]. cbn [fst] in *.
  split; [by exists sub3, d|done].
Qed.
End runs.

(** In the room of [Room], ["a"] publishes a track, which ends before it is
    offered to ["b"]. *)
Definition ex_gone : WebRTCReceiver :=
  default (NewWebRTCReceiver ex_track "t" "st" TypeAudio (MkRTPCodec "audio/OPUS" 48000 EmptyString 111) "a")
    (receivers ex_r1 !! "t"%string).

Lemma late_offer_orphans_witness :
  exists s2, late_offer ex_s2 "a" "t" "b" ex_gone true 5 Buffer.ex_pool 0 = Ok s2
    /\ exists sub3 d, subs s2 !! "b"%string = Some sub3
         /\ MkPtr "t" (DtRef 5 "b") ∈ GetDownTracks sub3 (w_streamID ex_gone)
         /\ downs s2 !! 5%nat = Some d /\ d_closeOnce d = false.
Proof.
  destruct (late_offer_orphans (fun _ => 0) Buffer.ex_unmarshal Buffer.ex_ext Buffer.ex_level "twcc" "room" ex_s2
    [TPublish "a" "t" None; TSubscribe "b" None] "a" "t" ex_r1 ex_gone "b" (new_sub "b") true 5 Buffer.ex_pool 0
    ex_publish_run) as (s2 & H1 & H2).
  - reflexivity.
  - vm_compute. reflexivity.
  - reflexivity.
  - reflexivity.
  - vm_compute. reflexivity.
  - exists s2. split; [exact H1|]. by destruct (H2 [] s2 [] (rtc_refl _ _)) as [H _].
Defined.
