(* ===== verification/Channels.v ===== *)
(** * Data channels ([internal/sfu/datachannel.go], and of
      [session.go] and [subscriber.go] what concerns them)

    A data channel that a publisher opens is fanned out: every other peer of
    the session gets a channel of the same label on its subscriber
    connection, now or when it joins, and what arrives on one is sent to all
    the others.  The channels configured on the SFU instead run a chain of
    middlewares and then the application's callback.

    The channels are objects of pion, by address; callbacks and middlewares
    are names, interpreted by the parameters of a section. *)

From stdpp Require Import gmap strings.
From S2P Require Import Prelude GoNum GoSlice Session.
#[local] Open Scope Z_scope.

(** ** Data *)

(** [webrtc.DataChannelMessage] *)
Record dc_message := MkMsg { IsString : bool; msg_data : bytes }.

(** What [OnMessage] of a channel was given: [onMessage] of the session, for
    an origin and a label; or the chain of a configured channel, for a peer,
    with the middlewares it was made with *)
Inductive on_message :=
| OnSession (origin label : string)
| OnChain (peer : string) (dc : nat) (mws : list nat).

(** [webrtc.DataChannel]; [ch_sent] lists what [Send] and [SendText] were
    given, which the message's kind tells apart. *)
Record channel := MkChannel {
  ch_label : string;
  ch_open : bool;
  ch_handler : option on_message;
  ch_sent : list dc_message }.
#[export] Instance settable_channel : Settable channel := fun c =>
  MkChannel (ch_label c) (ch_open c) (ch_handler c) (ch_sent c).

Record DataChannel := MkDataChannel {
  Label : string;
  middlewares : list nat;
  dc_onMessage : option nat }.
#[export] Instance settable_DataChannel : Settable DataChannel := fun d =>
  MkDataChannel (Label d) (middlewares d) (dc_onMessage d).

(** A session, the [channels] of its peers' subscribers, the channels made
    so far, the configured ones, and the peers that [negotiate] was called
    for *)
Record channels_state := MkChans {
  cs_session : session;
  cs_channels : gmap string (gmap string nat);
  cs_chans : list channel;
  cs_dcs : list DataChannel;
  cs_negotiated : list string }.
#[export] Instance settable_channels_state : Settable channels_state := fun s =>
  MkChans (cs_session s) (cs_channels s) (cs_chans s) (cs_dcs s) (cs_negotiated s).

Record ProcessArgs := MkArgs { arg_peer : string; arg_message : dc_message; arg_channel : nat }.

(** ** Middlewares *)

Definition Use (dc : DataChannel) (mws : list nat) : DataChannel :=
  dc <| middlewares := middlewares dc ++ mws |>.

Definition dc_OnMessage (dc : DataChannel) (fn : nat) : DataChannel := dc <| dc_onMessage := Some fn |>.

(** The loop of [chain], for the [i] first middlewares *)
Fixpoint chain_loop {P} (mws : list (P -> P)) (i : nat) (h : P) : P :=
  match i with
  | O => h
  | S i => chain_loop mws i (match mws !! i with Some m => m h | None => h end)
  end.

Definition chain {P} (mws : list (P -> P)) (last : P) : P :=
  match mws !! (length mws - 1)%nat with
  | None => last
  | Some m => chain_loop mws (length mws - 1) (m last)
  end.

(** [chainHandler]; [Process] of [Middlewares], and [ProcessFunc], make one.
    A [MessageProcessor] is what its [Process] does. *)
Record chainHandler (P : Type) := MkChain {
  ch_middlewares : list (P -> P);
  ch_Last : P;
  ch_current : P }.
Arguments MkChain {P}.
Arguments ch_current {P}.

Definition mws_Process {P} (mws : list (P -> P)) (h : P) : chainHandler P := MkChain mws h (chain mws h).

(** [Process] of a chain handler *)
Definition chain_Process {P} (c : chainHandler P) : P := ch_current c.

(** ** Channels of subscribers *)

Definition get_channel (s : channels_state) (pid label : string) : option nat :=
  default ∅ (cs_channels s !! pid) !! label.

Definition put_channel (s : channels_state) (pid label : string) (a : nat) : channels_state :=
  s <| cs_channels := <[pid := <[label := a]> (default ∅ (cs_channels s !! pid))]> (cs_channels s) |>.

Definition ch_OnMessage (s : channels_state) (a : nat) (h : on_message) : channels_state :=
  s <| cs_chans := alter (fun c => c <| ch_handler := Some h |>) a (cs_chans s) |>.

(** [CreateDataChannel]: the new channel is not open yet. *)
Definition create_channel (s : channels_state) (label : string) : channels_state * nat :=
  (s <| cs_chans := cs_chans s ++ [MkChannel label false None []] |>, length (cs_chans s)).

(** [AddDataChannel] of the subscriber of [pid]; [created] is whether pion
    creates the channel. *)
Definition AddDataChannel (s : channels_state) (pid label : string) (created : bool)
  : channels_state * option nat :=
  match get_channel s pid label with
  | Some a => (s, Some a)
  | None => if created then
              let '(s, a) := create_channel s label in (put_channel s pid label a, Some a)
            else (s, None)
  end.

(** [AddDatachannel] of the subscriber of [pid], for a configured channel;
    [false] is an error. *)
Definition sub_AddDatachannel (s : channels_state) (pid : string) (dc : nat) (created : bool)
  : channels_state * bool :=
  match cs_dcs s !! dc with
  | None => (s, false)
  | Some d =>
      if created then
        let '(s, a) := create_channel s (Label d) in
        let s := ch_OnMessage s a (OnChain pid dc (middlewares d)) in
        (put_channel s pid (Label d) a, true)
      else (s, false)
  end.

(** ** Channels of sessions *)

(** What [Subscribe] and [AddDatachannel] do for one peer and one label *)
Definition offer_channel (s : channels_state) (pid label : string) (created : bool)
  : channels_state * bool :=
  match AddDataChannel s pid label created with
  | (s, Some a) => (ch_OnMessage s a (OnSession pid label), true)
  | (s, None) => (s, false)
  end.

(** [AddDatachannel], under the session's lock: the peers to offer it to;
    the owner that is not in the session is a nil pointer. [order] is the
    order in which the loop meets the peers. *)
Definition take_channel (s : channels_state) (owner : string) (a : nat) (label : string)
    (order : list string) : go (channels_state * list string) :=
  let s := s <| cs_session := (cs_session s) <| fanOutDCs := fanOutDCs (cs_session s) ++ [label] |> |> in
  if bool_decide (owner ∈ peers (cs_session s))
  then mret (put_channel s owner label a, filter (fun p => p <> owner) order)
  else Panic.

(** One turn of its loop: an error leaves out the negotiation. *)
Definition offer_to (s : channels_state) (pid label : string) (created : bool) : channels_state :=
  match offer_channel s pid label created with
  | (s, true) => s <| cs_negotiated := cs_negotiated s ++ [pid] |>
  | (s, false) => s
  end.

Definition AddDatachannel (s : channels_state) (owner : string) (a : nat) (label : string)
    (order : list string) (created : string -> bool) : go channels_state :=
  t ← take_channel s owner a label order;
  let s := ch_OnMessage t.1 a (OnSession owner label) in
  mret (foldl (fun s p => offer_to s p label (created p)) s t.2).

(** The handler of the publisher's [OnDataChannel]; [a] is the channel that
    pion hands over. *)
Definition APIChannelLabel : string := "mini-sfu".

Definition OnDataChannel (s : channels_state) (id : string) (a : nat) (label : string)
    (order : list string) (created : string -> bool) : go channels_state :=
  if String.eqb label APIChannelLabel then mret s else AddDatachannel s id a label order created.

(** ** Messages *)

Definition getDataChannels (s : channels_state) (origin label : string) (order : list string) : list nat :=
  omap (fun pid =>
    if decide (origin = pid) then None
    else match get_channel s pid label with
         | Some a => match cs_chans s !! a with
                     | Some c => if ch_open c then Some a else None
                     | None => None
                     end
         | None => None
         end) order.

Definition send (s : channels_state) (a : nat) (msg : dc_message) : channels_state :=
  s <| cs_chans := alter (fun c => c <| ch_sent := ch_sent c ++ [msg] |>) a (cs_chans s) |>.

Definition onMessage (s : channels_state) (origin label : string) (msg : dc_message)
    (order : list string) : channels_state :=
  foldl (fun s a => send s a msg) s (getDataChannels s origin label order).

Section messages.
Context (mw : nat -> (ProcessArgs -> channels_state -> channels_state) ->
                     ProcessArgs -> channels_state -> channels_state)
  (callback : nat -> ProcessArgs -> list nat -> channels_state -> channels_state).

(** The end of the chain of a configured channel *)
Definition dc_last (pid : string) (dc : nat) (order : list string) (args : ProcessArgs)
    (s : channels_state) : channels_state :=
  match cs_dcs s !! dc with
  | Some d => match dc_onMessage d with
              | Some f => callback f args (getDataChannels s pid (Label d) order) s
              | None => s
              end
  | None => s
  end.

(** A message arrives on a channel. *)
Definition arrive (s : channels_state) (a : nat) (msg : dc_message) (order : list string) : channels_state :=
  match cs_chans s !! a with
  | Some c =>
      match ch_handler c with
      | Some (OnSession origin label) => onMessage s origin label msg order
      | Some (OnChain pid dc mws) =>
          chain_Process (mws_Process (map mw mws) (dc_last pid dc order)) (MkArgs pid msg a) s
      | None => s
      end
  | None => s
  end.
End messages.

(** ** The chain *)

Lemma chain_loop_spec {P} (mws : list (P -> P)) i h :
  (i <= length mws)%nat -> chain_loop mws i h = foldr (fun m h => m h) h (take i mws).
Proof.
  revert h. induction i as [|i IH]; intros h Hi; [done|]. cbn [chain_loop].
  destruct (lookup_lt_is_Some_2 mws i) as [m Hm]; [lia|]. rewrite Hm, IH by lia.
  by rewrite (take_S_r _ _ _ Hm), foldr_app.
Qed.

(** [chain] nests the middlewares in the order they were registered: the
    first one is called first, and what it calls is the rest of the chain,
    the last handler at the end. *)
Theorem chain_nests {P} (mws : list (P -> P)) (last : P) :
  chain mws last = foldr (fun m h => m h) last mws.
Proof.
  unfold chain. destruct (mws !! (length mws - 1)%nat) as [m|] eqn:Hm.
  - rewrite chain_loop_spec by lia. pose proof (lookup_lt_Some _ _ _ Hm) as Hlt.
    replace mws with (take (S (length mws - 1)) mws) at 3 by (apply take_ge; lia).
    by rewrite (take_S_r _ _ _ Hm), foldr_app.
  - apply lookup_ge_None in Hm. destruct mws; [done|]. cbn in Hm. lia.
Qed.

(** ** The interleaving of joins and channels *)

(** What is under way: the channels of [Subscribe], and the loop of
    [AddDatachannel] *)
Inductive channel_task :=
| CSubscribe (p : string) (todo : option (list string))
| COffer (label : string) (todo : list string).

(** The channel that pion hands to [OnDataChannel] *)
Definition incoming (s : channels_state) (label : string) (is_open : bool) : channels_state :=
  s <| cs_chans := cs_chans s ++ [MkChannel label is_open None []] |>.

Definition set_open (s : channels_state) (a : nat) (b : bool) : channels_state :=
  s <| cs_chans := alter (fun c => c <| ch_open := b |>) a (cs_chans s) |>.

(** Steps; pion creates every channel it is asked for. *)
Inductive channel_step : channels_state * list channel_task -> channels_state * list channel_task -> Prop :=
| ct_configured s ts p dc :
    p ∉ peers (cs_session s) ->
    channel_step (s, ts) ((sub_AddDatachannel s p dc true).1, ts)
| ct_join s ts p :
    p ∉ peers (cs_session s) ->
    channel_step (s, ts)
      (s <| cs_session := AddPeer (cs_session s) p |>, CSubscribe p None :: ts)
| ct_snapshot s ts1 ts2 p :
    channel_step (s, ts1 ++ CSubscribe p None :: ts2)
                 (s, ts1 ++ CSubscribe p (Some (fanOutDCs (cs_session s))) :: ts2)
| ct_subscribe s ts1 ts2 p l ls :
    channel_step (s, ts1 ++ CSubscribe p (Some (l :: ls)) :: ts2)
                 ((offer_channel s p l true).1, ts1 ++ CSubscribe p (Some ls) :: ts2)
| ct_subscribed s ts1 ts2 p :
    channel_step (s, ts1 ++ CSubscribe p (Some []) :: ts2) (s, ts1 ++ ts2)
| ct_take s ts owner label is_open order s' ps :
    order ≡ₚ elements (peers (cs_session s)) ->
    take_channel (incoming s label is_open) owner (length (cs_chans s)) label order = Ok (s', ps) ->
    channel_step (s, ts)
      (ch_OnMessage s' (length (cs_chans s)) (OnSession owner label), COffer label ps :: ts)
| ct_offer s ts1 ts2 l p ps :
    channel_step (s, ts1 ++ COffer l (p :: ps) :: ts2)
                 (offer_to s p l true, ts1 ++ COffer l ps :: ts2)
| ct_offered s ts1 ts2 l : channel_step (s, ts1 ++ COffer l [] :: ts2) (s, ts1 ++ ts2)
| ct_leave s ts p :
    channel_step (s, ts) (s <| cs_session := (RemovePeer (cs_session s) p).1 |>, ts)
| ct_state s ts a b : channel_step (s, ts) (set_open s a b, ts)
| ct_message s ts origin label msg order :
    channel_step (s, ts) (onMessage s origin label msg order, ts).

Definition new_channels (id : string) (dcs : list DataChannel) : channels_state :=
  MkChans (NewSession id (map Label dcs)) ∅ [] dcs [].

(** [p] has a channel that passes on what arrives for [l]. *)
Definition has_channel (s : channels_state) (p l : string) : Prop :=
  exists a, get_channel s p l = Some a /\ (cs_chans s !! a) ≫= ch_handler = Some (OnSession p l).

Definition will_offer (p l : string) (t : channel_task) : Prop :=
  match t with
  | CSubscribe p' todo => p' = p /\ match todo with None => True | Some ls => l ∈ ls end
  | COffer l' ps => l' = l /\ p ∈ ps
  end.

Record channels_inv (s : channels_state) (ts : list channel_task) : Prop := {
  cv_addr : forall p l a, get_channel s p l = Some a -> (a < length (cs_chans s))%nat;
  cv_inj : forall p l p' l' a, get_channel s p l = Some a -> get_channel s p' l' = Some a ->
    p = p' /\ l = l';
  cv_cover : forall p l, p ∈ peers (cs_session s) -> l ∈ fanOutDCs (cs_session s) ->
    has_channel s p l \/ Exists (will_offer p l) ts }.

#[local] Ltac cs_cbn := cbn [upd settable_channels_state settable_channel settable_session eta_record
  cs_session cs_channels cs_chans cs_dcs cs_negotiated fst snd peers fanOutDCs
  ch_label ch_open ch_handler ch_sent].

Lemma get_put s p l a p' l' :
  get_channel (put_channel s p l a) p' l'
  = if decide (p = p' /\ l = l') then Some a else get_channel s p' l'.
Proof.
  unfold get_channel, put_channel. cs_cbn. destruct (decide (p = p')) as [<-|Hp].
  - rewrite lookup_insert_eq. cbn. destruct (decide (l = l')) as [<-|Hl].
    + rewrite lookup_insert_eq. by rewrite decide_True.
    + rewrite lookup_insert_ne by done. by rewrite decide_False by naive_solver.
  - rewrite lookup_insert_ne by done. by rewrite decide_False by naive_solver.
Qed.

(** Changes of single channels that keep what [has_channel] looks at *)
Lemma alter_handler s a h p l :
  has_channel s p l -> (get_channel s p l = Some a -> h = OnSession p l) ->
  has_channel (ch_OnMessage s a h) p l.
Proof.
  intros (b & Hb & Hh) Ha. exists b. split; [done|]. unfold ch_OnMessage. cs_cbn.
  destruct (decide (a = b)) as [->|Hn]; [|by rewrite list_lookup_alter_ne].
  rewrite list_lookup_alter_eq. destruct (cs_chans s !! b); [|done]. cbn. by rewrite Ha.
Qed.

Lemma send_keeps s msg bs :
  let s' := foldl (fun s a => send s a msg) s bs in
  cs_session s' = cs_session s /\ cs_channels s' = cs_channels s
  /\ length (cs_chans s') = length (cs_chans s)
  /\ (forall a, (cs_chans s' !! a) ≫= ch_handler = (cs_chans s !! a) ≫= ch_handler)
  /\ (NoDup bs -> forall a, cs_chans s' !! a
      = (fun c => if decide (a ∈ bs) then c <| ch_sent := ch_sent c ++ [msg] |> else c) <$> cs_chans s !! a).
Proof.
  revert s. induction bs as [|b bs IH]; intros s; cbn [foldl].
  - split_and!; try done. intros _ a.
    destruct (cs_chans s !! a); [|done]. cbn [fmap option_fmap option_map].
    by rewrite decide_False by apply not_elem_of_nil.
  - destruct (IH (send s b msg)) as (H1 & H2 & H3 & H4 & H5). split_and!; [done|done| | |].
    + rewrite H3. unfold send. cs_cbn. apply length_alter.
    + intros a. rewrite H4. unfold send. cs_cbn. destruct (decide (b = a)) as [->|Hn].
      * rewrite list_lookup_alter_eq. by destruct (cs_chans s !! a).
      * by rewrite list_lookup_alter_ne.
    + intros [Hb Hnd]%NoDup_cons a. rewrite H5 by done. unfold send. cs_cbn.
      destruct (decide (b = a)) as [->|Hn].
      * rewrite list_lookup_alter_eq. destruct (cs_chans s !! a); [|done].
        cbn [fmap option_fmap option_map]. rewrite decide_False by done. by rewrite decide_True by left.
      * rewrite list_lookup_alter_ne by done. destruct (cs_chans s !! a); [|done].
        cbn [fmap option_fmap option_map]. destruct (decide (a ∈ bs)) as [Hi|Hi].
        -- by rewrite decide_True by (by right).
        -- rewrite decide_False; [done|]. by intros [->|?]%elem_of_cons.
Qed.

(** Steps that leave the tables alone, or only add to them *)
Lemma inv_same_chans s s' ts :
  cs_session s' = cs_session s -> cs_channels s' = cs_channels s ->
  length (cs_chans s') = length (cs_chans s) ->
  (forall a, (cs_chans s' !! a) ≫= ch_handler = (cs_chans s !! a) ≫= ch_handler) ->
  channels_inv s ts -> channels_inv s' ts.
Proof.
  intros H1 H2 H3 H4 Hs.
  assert (forall p l, get_channel s' p l = get_channel s p l) as Hg
    by (intros p l; unfold get_channel; by rewrite H2).
  split.
  - intros p l a. rewrite Hg, H3. apply Hs.
  - intros p l p' l' a. rewrite !Hg. apply Hs.
  - intros p l. rewrite H1. intros Hp Hl. destruct (cv_cover _ _ Hs p l Hp Hl) as [(a & Ha & Hh)|?]; [left|by right].
    exists a. by rewrite Hg, H4.
Qed.

(** A new channel takes a place in the table. *)
Lemma fresh_channel_inv s ts l0 o h0 p l h :
  channels_inv s ts -> (h = Some (OnSession p l) \/ p ∉ peers (cs_session s)) ->
  let s' := put_channel (s <| cs_chans := cs_chans s ++ [MkChannel l0 o h h0] |>) p l (length (cs_chans s)) in
  channels_inv s' ts /\ (h = Some (OnSession p l) -> has_channel s' p l).
Proof.
  intros Hs Hh s'.
  assert (forall p' l', get_channel s' p' l' = if decide (p = p' /\ l = l') then Some (length (cs_chans s))
    else get_channel s p' l') as Hg by (intros p' l'; subst s'; by rewrite get_put).
  assert (cs_chans s' = cs_chans s ++ [MkChannel l0 o h h0]) as Hc by done.
  assert (h = Some (OnSession p l) -> has_channel s' p l) as Hhas.
  { intros ->. exists (length (cs_chans s)). rewrite Hg, decide_True by done. split; [done|].
    by rewrite Hc, list_lookup_middle. }
  split; [|done]. split.
  - intros p' l' a. rewrite Hg, Hc, length_app. cbn. case_decide; [intros [= <-]; lia|].
    intros ?%(cv_addr _ _ Hs). lia.
  - intros p1 l1 p2 l2 a. rewrite !Hg. case_decide as H1; case_decide as H2.
    + naive_solver.
    + intros [= <-] ?%(cv_addr _ _ Hs). lia.
    + intros ?%(cv_addr _ _ Hs) [= <-]. lia.
    + apply (cv_inj _ _ Hs).
  - intros p' l'. change (cs_session s') with (cs_session s). intros Hp Hl.
    destruct (decide (p = p' /\ l = l')) as [[<- <-]|Hn].
    + destruct Hh as [Hh|?]; [left; auto|done].
    + destruct (cv_cover _ _ Hs p' l' Hp Hl) as [(a & Ha & Hx)|?]; [left|by right].
      exists a. rewrite Hg, decide_False by done. split; [done|].
      rewrite Hc, lookup_app_l; [done|]. by apply (cv_addr _ _ Hs p' l').
Qed.

Lemma alter_last {A} (f : A -> A) (l : list A) x : alter f (length l) (l ++ [x]) = l ++ [f x].
Proof. by rewrite alter_app_r_alt, Nat.sub_diag by lia. Qed.

(** The new channel of [fresh_channel_inv], its handler set afterwards *)
Lemma fresh_handler s l0 o h0 p l h :
  ch_OnMessage (put_channel (s <| cs_chans := cs_chans s ++ [MkChannel l0 o None h0] |>) p l (length (cs_chans s)))
    (length (cs_chans s)) h
  = put_channel (s <| cs_chans := cs_chans s ++ [MkChannel l0 o (Some h) h0] |>) p l (length (cs_chans s)).
Proof. unfold ch_OnMessage, put_channel. cs_cbn. by rewrite alter_last. Qed.

Lemma offer_channel_inv s ts p l :
  channels_inv s ts ->
  let s' := (offer_channel s p l true).1 in
  (offer_channel s p l true).2 = true /\ channels_inv s' ts /\ has_channel s' p l
  /\ cs_session s' = cs_session s.
Proof.
  intros Hs s'. subst s'. unfold offer_channel, AddDataChannel.
  destruct (get_channel s p l) as [a|] eqn:E; unfold create_channel; cbn [fst snd].
  - assert (forall p' l', get_channel s p' l' = Some a -> OnSession p l = OnSession p' l') as Hh.
    { intros p' l' H. by destruct (cv_inj _ _ Hs p l p' l' a E H) as [-> ->]. }
    split_and!; [done| | |done].
    + split; [| |].
      * intros p' l' b Hb. unfold ch_OnMessage. cs_cbn. rewrite length_alter.
        by apply (cv_addr _ _ Hs p' l' b).
      * apply (cv_inj _ _ Hs).
      * intros p' l' Hp Hl. destruct (cv_cover _ _ Hs p' l' Hp Hl) as [H|?]; [left|by right].
        apply alter_handler; [done|apply Hh].
    + exists a. split; [done|]. unfold ch_OnMessage. cs_cbn. rewrite list_lookup_alter_eq.
      destruct (lookup_lt_is_Some_2 (cs_chans s) a) as [c ->]; [|done]. by apply (cv_addr _ _ Hs p l).
  - rewrite fresh_handler.
    destruct (fresh_channel_inv s ts l false [] p l (Some (OnSession p l)) Hs) as [H1 H2]; [by left|].
    split_and!; [done|done|auto|done].
Qed.

Lemma sub_AddDatachannel_inv s ts p dc :
  channels_inv s ts -> p ∉ peers (cs_session s) -> channels_inv (sub_AddDatachannel s p dc true).1 ts.
Proof.
  intros Hs Hp. unfold sub_AddDatachannel. destruct (cs_dcs s !! dc) as [d|]; [|done].
  cbn [create_channel fst].
  change (put_channel (ch_OnMessage ?x ?a ?h) ?p ?l ?a) with (ch_OnMessage (put_channel x p l a) a h).
  rewrite fresh_handler. apply fresh_channel_inv; [done|by right].
Qed.

(** Work is replaced by work that covers as much, or was done. *)
Lemma channels_retask s s' ts ts' :
  channels_inv s' ts -> cs_session s' = cs_session s ->
  (forall p l, p ∈ peers (cs_session s) -> l ∈ fanOutDCs (cs_session s) ->
     Exists (will_offer p l) ts -> has_channel s' p l \/ Exists (will_offer p l) ts') ->
  channels_inv s' ts'.
Proof.
  intros [H1 H2 H3] Hss Hc. split; [done|done|]. intros p l Hp Hl.
  destruct (H3 p l Hp Hl) as [?|He]; [by left|]. rewrite Hss in Hp, Hl. by apply Hc.
Qed.

Lemma will_split p l ts1 t ts2 :
  Exists (will_offer p l) (ts1 ++ t :: ts2) <-> will_offer p l t \/ Exists (will_offer p l) (ts1 ++ ts2).
Proof. rewrite !Exists_app, Exists_cons. tauto. Qed.

Lemma take_channel_inv s ts owner label is_open order s' ps :
  channels_inv s ts -> order ≡ₚ elements (peers (cs_session s)) ->
  take_channel (incoming s label is_open) owner (length (cs_chans s)) label order = Ok (s', ps) ->
  channels_inv (ch_OnMessage s' (length (cs_chans s)) (OnSession owner label)) (COffer label ps :: ts).
Proof.
  intros Hs Ho. unfold take_channel, incoming. cs_cbn. case_bool_decide as Hown; [|done].
  cbn [mret go_ret]. intros [= <- <-].
  set (s1 := s <| cs_session := (cs_session s) <| fanOutDCs := fanOutDCs (cs_session s) ++ [label] |> |>).
  assert (channels_inv s1 (CSubscribe owner (Some [label]) :: COffer label (filter (fun p => p <> owner) order) :: ts)) as H1.
  { destruct Hs as [Ha Hi Hc]. split; [exact Ha|exact Hi|]. intros p l. subst s1. cs_cbn. intros Hp Hl.
    apply elem_of_app in Hl as [Hl| ->%list_elem_of_singleton].
    - destruct (Hc p l Hp Hl) as [?|?]; [by left|]. right. by do 2 right.
    - right. destruct (decide (p = owner)) as [->|Hn]; [by left; cbn; split; [|left]|].
      right. left. split; [done|]. apply list_elem_of_filter. split; [done|].
      rewrite Ho. by apply elem_of_elements. }
  pose proof (fresh_handler s1 label is_open [] owner label (OnSession owner label)) as Hf.
  destruct (fresh_channel_inv s1 _ label is_open [] owner label (Some (OnSession owner label)) H1) as [H2 H3];
    [by left|].
  rewrite <-Hf in H2, H3.
  apply (channels_retask s1 _ _ _ H2); [done|].
  intros p l _ _ [[<- ->%list_elem_of_singleton]|He]%Exists_cons; [left; auto|by right].
Qed.

Lemma channel_step_inv st st' : channel_step st st' -> channels_inv st.1 st.2 -> channels_inv st'.1 st'.2.
Proof.
  destruct 1 as [s ts p dc Hp|s ts p Hp|s ts1 ts2 p|s ts1 ts2 p l ls|s ts1 ts2 p
    |s ts owner label o order s' ps Ho Ht|s ts1 ts2 l p ps|s ts1 ts2 l|s ts p|s ts a b|s ts origin l msg order];
    cbn [fst snd]; intros Hs.
  - by apply sub_AddDatachannel_inv.
  - destruct Hs as [Ha Hi Hc]. split; [exact Ha|exact Hi|]. intros p' l. cs_cbn.
    intros [->%elem_of_singleton|Hp']%elem_of_union Hl; [right; by left|].
    destruct (Hc p' l Hp' Hl) as [?|?]; [by left|right; by right].
  - apply (channels_retask s _ _ _ Hs); [done|]. intros p' l _ Hl [[-> _]|He]%will_split; right;
      apply will_split; [by left|by right].
  - destruct (offer_channel_inv s _ p l Hs) as (_ & H1 & H2 & H3).
    apply (channels_retask s _ _ _ H1); [done|].
    intros p' l' _ _ [[-> [->|Hin]%elem_of_cons]|He]%will_split; [by left|right..]; apply will_split; [by left|by right].
  - apply (channels_retask s _ _ _ Hs); [done|].
    intros p' l' _ _ [[-> Hin]|He]%will_split; [by apply elem_of_nil in Hin|by right].
  - by eapply take_channel_inv.
  - destruct (offer_channel_inv s _ p l Hs) as (H0 & H1 & H2 & H3). unfold offer_to.
    destruct (offer_channel s p l true) as [s1 b]. cbn in H0. subst b. cbn in H1, H2, H3.
    apply (inv_same_chans s1); try done.
    apply (channels_retask s _ _ _ H1); [done|].
    intros p' l' _ _ [[-> [->|Hin]%elem_of_cons]|He]%will_split; [by left|right..]; apply will_split; [by left|by right].
  - apply (channels_retask s _ _ _ Hs); [done|].
    intros p' l' _ _ [[-> Hin]|He]%will_split; [by apply elem_of_nil in Hin|by right].
  - destruct Hs as [Ha Hi Hc]. split; [exact Ha|exact Hi|]. intros p' l. cs_cbn. intros Hp' Hl.
    pose proof (RemovePeer_cases (cs_session s) p) as Hr.
    assert (fanOutDCs (RemovePeer (cs_session s) p).1 = fanOutDCs (cs_session s)) as Hf
      by (unfold RemovePeer; by destruct (rp_last _)).
    rewrite Hf in Hl. destruct (RemovePeer (cs_session s) p) as [se' cl]. destruct Hr as (_ & Hr & _).
    cbn in Hp'. rewrite Hr in Hp'. apply Hc; [set_solver|done].
  - apply (inv_same_chans s); try done; unfold set_open; cs_cbn; [apply length_alter|].
    intros c. destruct (decide (a = c)) as [->|Hn]; [|by rewrite list_lookup_alter_ne].
    rewrite list_lookup_alter_eq. by destruct (cs_chans s !! c).
  - destruct (send_keeps s msg (getDataChannels s origin l order)) as (H1 & H2 & H3 & H4 & _).
    by apply (inv_same_chans s).
Qed.

Lemma channels_reachable id dcs s ts :
  rtc channel_step (new_channels id dcs, []) (s, ts) -> channels_inv s ts.
Proof.
  intros Hrun.
  assert (forall st st', rtc channel_step st st' -> channels_inv st.1 st.2 -> channels_inv st'.1 st'.2) as H.
  { induction 1 as [|st1 st2 st3 Hstep _ IH]; [done|]. intros H. by apply IH, (channel_step_inv st1). }
  apply (H _ _ Hrun). split; cbn; intros; set_solver.
Qed.

Lemma getDataChannels_spec s ts origin label order :
  channels_inv s ts -> NoDup order ->
  NoDup (getDataChannels s origin label order)
  /\ forall a, a ∈ getDataChannels s origin label order <->
       exists p c, p ∈ order /\ p <> origin /\ get_channel s p label = Some a
         /\ cs_chans s !! a = Some c /\ ch_open c = true.
Proof.
  intros Hs Hnd. unfold getDataChannels. set (f := fun pid => _).
  assert (forall p a, f p = Some a <-> exists c, p <> origin /\ get_channel s p label = Some a
    /\ cs_chans s !! a = Some c /\ ch_open c = true) as Hf.
  { intros p a. subst f. cbn beta. destruct (decide (origin = p)) as [->|Hn]; [naive_solver|].
    destruct (get_channel s p label) as [b|]; [|naive_solver].
    destruct (cs_chans s !! b) as [c|] eqn:Hc; [|naive_solver].
    destruct (ch_open c) eqn:Ho; naive_solver congruence. }
  split.
  - induction Hnd as [|p ps Hp Hnd IH]; [constructor|]. cbn [omap list_omap].
    destruct (f p) as [a|] eqn:E; [|done]. constructor; [|done].
    intros (q & Hq & Hfq)%list_elem_of_omap. apply Hf in E as (_ & _ & E & _), Hfq as (_ & _ & Hfq & _).
    destruct (cv_inj _ _ Hs p label q label a E Hfq) as [-> _]. done.
  - intros a. rewrite list_elem_of_omap. setoid_rewrite Hf. naive_solver.
Qed.

(** C17. However joins, leaving peers, channels opened by publishers, and messages
    interleave, step by step: once the work under way is done, each peer of
    the session has a channel for each label fanned out, and a message that
    arrives on it is sent, once, on the open channel of that label of each
    other peer of the session, and on no other channel. *)
Theorem channel_fan_out mw callback id dcs s p label :
  rtc channel_step (new_channels id dcs, []) (s, []) ->
  p ∈ peers (cs_session s) -> label ∈ fanOutDCs (cs_session s) ->
  exists a, get_channel s p label = Some a
    /\ forall msg order, order ≡ₚ elements (peers (cs_session s)) ->
       forall q l b c, get_channel s q l = Some b -> cs_chans s !! b = Some c ->
         cs_chans (arrive mw callback s a msg order) !! b
         = Some (if decide (l = label /\ q <> p /\ q ∈ peers (cs_session s) /\ ch_open c = true)
                 then c <| ch_sent := ch_sent c ++ [msg] |> else c).
Proof.
  intros Hrun Hp Hl. pose proof (channels_reachable _ _ _ _ Hrun) as Hs.
  destruct (cv_cover _ _ Hs p label Hp Hl) as [(a & Ha & Hh)|He]; [|by apply Exists_nil in He].
  exists a. split; [done|]. intros msg order Ho q l b c Hb Hc.
  unfold arrive. destruct (cs_chans s !! a) as [ca|]; [|done]. cbn in Hh. rewrite Hh.
  assert (NoDup order) as Hnd by (rewrite Ho; apply NoDup_elements).
  destruct (getDataChannels_spec s [] p label order Hs Hnd) as [Hnd' Hin].
  unfold onMessage. destruct (send_keeps s msg (getDataChannels s p label order)) as (_ & _ & _ & _ & H5).
  rewrite (H5 Hnd' b), Hc. cbn [fmap option_fmap option_map]. f_equal.
  assert (b ∈ getDataChannels s p label order
    <-> l = label /\ q <> p /\ q ∈ peers (cs_session s) /\ ch_open c = true) as Hiff.
  { rewrite Hin. setoid_rewrite Ho. setoid_rewrite elem_of_elements. split.
    - intros (p' & c' & ? & ? & Hp' & Hc' & Hop). destruct (cv_inj _ _ Hs p' label q l b Hp' Hb) as [-> ->].
      naive_solver congruence.
    - intros (-> & ? & ? & ?). by exists q, c. }
  destruct (decide (b ∈ _)) as [H1|H1]; case_decide as H2; try done; tauto.
Qed.

(** ["a"] opens ["chat"] while ["b"] joins; both offer it to ["b"]. *)
Definition ex_j1 : channels_state :=
  let s := new_channels "room" [] in
  let s := s <| cs_session := AddPeer (cs_session s) "a" |> in
  s <| cs_session := AddPeer (cs_session s) "b" |>.
Definition ex_j2 : channels_state :=
  match take_channel (incoming ex_j1 "chat" true) "a" 0 "chat" (elements (peers (cs_session ex_j1))) with
  | Ok (s, _) => ch_OnMessage s 0 (OnSession "a" "chat") | Panic => ex_j1 end.
Definition ex_j3 : channels_state :=
  set_open (offer_channel (offer_to ex_j2 "b" "chat" true) "b" "chat" true).1 1 true.

Lemma ex_channels_run : rtc channel_step (new_channels "room" [], []) (ex_j3, []).
Proof.
  eapply rtc_l; [apply (ct_join _ _ "a"); by vm_compute|].
  eapply rtc_l; [apply (ct_snapshot _ [] [] "a")|]. eapply rtc_l; [apply (ct_subscribed _ [] [])|].
  eapply rtc_l.
  { apply (ct_join _ _ "b"). enough (bool_decide ("b"%string ∈ ({["a"%string]} : gset string)) = false) as H.
    - apply bool_decide_eq_false in H. set_solver.
    - by vm_compute. }
  change (rtc channel_step (ex_j1, [CSubscribe "b" None]) (ex_j3, [])).
  eapply rtc_l.
  { eapply (ct_take ex_j1 _ "a" "chat" true _ _ ["b"%string]); [reflexivity|vm_compute; reflexivity]. }
  eapply rtc_l; [apply (ct_offer _ [] _)|].
  eapply rtc_l; [apply (ct_offered _ [] _)|].
  eapply rtc_l; [apply (ct_snapshot _ [] _)|].
  eapply rtc_l; [apply (ct_subscribe _ [] _ "b" "chat" [])|].
  eapply rtc_l; [apply (ct_subscribed _ [] _)|].
  eapply rtc_l; [apply (ct_state _ _ 1 true)|]. reflexivity.
Qed.

Lemma channel_fan_out_witness :
  (cs_chans (arrive (fun _ h => h) (fun _ _ _ s => s) ex_j3 0 (MkMsg true [104; 105]) ["a"%string; "b"%string])
     !! 1%nat) ≫= (fun c => Some (ch_sent c)) = Some [MkMsg true [104; 105]].
Proof.
  destruct (channel_fan_out (fun _ h => h) (fun _ _ _ s => s) "room" [] ex_j3 "a" "chat" ex_channels_run)
    as (a & Ha & H); [by apply (bool_decide_unpack _); vm_compute|by left|].
  assert (a = 0%nat) as -> by (vm_compute in Ha; congruence).
  rewrite (H (MkMsg true [104; 105]) ["a"%string; "b"%string] ltac:(vm_compute; reflexivity)
    "b"%string "chat"%string 1%nat (MkChannel "chat" true (Some (OnSession "b" "chat")) []));
    [|vm_compute; reflexivity..].
  rewrite decide_True; [reflexivity|]. split_and!; [done|done|by apply (bool_decide_unpack _); vm_compute|done].
Defined.

(** A configured channel runs, for a peer, the middlewares there were when
    the peer joined - whatever was added since - nested in their order, the
    first one outermost, around the callback set last, which gets the open
    channels of the other peers. *)
Theorem configured_channel_runs_chain mw callback s p dc d s1 s2 a msg order :
  cs_dcs s !! dc = Some d ->
  sub_AddDatachannel s p dc true = (s1, true) ->
  get_channel s1 p (Label d) = Some a ->
  (cs_chans s2 !! a) ≫= ch_handler = (cs_chans s1 !! a) ≫= ch_handler ->
  arrive mw callback s2 a msg order
  = foldr (fun m h => mw m h)
      (fun args w => match cs_dcs w !! dc with
         | Some d2 => match dc_onMessage d2 with
                      | Some f => callback f args (getDataChannels w p (Label d2) order) w
                      | None => w
                      end
         | None => w
         end)
      (middlewares d) (MkArgs p msg a) s2.
Proof.
  intros Hd Ha Hg Hh. unfold sub_AddDatachannel in Ha. rewrite Hd in Ha.
  unfold create_channel in Ha. injection Ha as <-. rewrite get_put, decide_True in Hg by done.
  injection Hg as <-. revert Hh. unfold put_channel, ch_OnMessage. cs_cbn.
  rewrite alter_last, list_lookup_middle by done. cbn. intros Hh.
  unfold arrive. destruct (cs_chans s2 !! _) as [c|]; [|done]. cbn in Hh. rewrite Hh. unfold chain_Process, mws_Process. cbn [ch_current]. rewrite chain_nests.
  assert (forall last l, foldr (fun m h => m h) last (map mw l) = foldr (fun m h => mw m h) last l) as Hf
    by (intros last l; induction l as [|m l IH]; [done|]; cbn; by rewrite IH).
  by rewrite Hf.
Qed.

Lemma configured_channel_runs_chain_witness :
  let mw i h args w := h args (send w 1 (MkMsg true [i])) in
  let s := new_channels "room" [MkDataChannel "api" [1; 2]%nat None] in
  let s1 := (sub_AddDatachannel s "a" 0 true).1 in
  let s2 := s1 <| cs_dcs := [MkDataChannel "api" [1; 2; 3]%nat (Some 9%nat)] |> in
  arrive (fun i => mw (Z.of_nat i)) (fun f args dcs w => send w 0 (MkMsg false [Z.of_nat f])) s2 0
    (MkMsg true [7]) []
  = send (send (send s2 1 (MkMsg true [1])) 1 (MkMsg true [2])) 0 (MkMsg false [9]).
Proof.
  intros mw s s1 s2.
  rewrite (configured_channel_runs_chain _ _ s "a" 0 (MkDataChannel "api" [1; 2]%nat None) s1 s2 0);
    vm_compute; reflexivity.
Defined.
