(* ===== verification/Signal.v ===== *)
(** * Signalling ([signal/signal.go])

    One websocket connection has one peer; its messages are requests, each
    handled by [Handle], which may reply, and the negotiation of the
    subscriber notifies the client of offers in between.  [conn_run] is the
    life of a connection.  JSON stands for what the client sends: how it is
    decoded is a parameter. *)

From stdpp Require Import gmap strings.
From S2P Require Import Prelude Peer.
#[local] Open Scope Z_scope.

(** ** Data *)

(** Why a request is answered with an error: its parameters were not
    understood, or the peer returned one *)
Inductive reply_error := BadParams | PeerError (e : sfu_error).

Inductive reply := ReplyWithError (e : reply_error) | ReplyAnswer (answer : sdp).

Section signal.
Context {PC : Type} {PP : PeerConnection PC}.
Context {json : Type} (parse_join : json -> option (string * sdp)) (parse_negotiation : json -> option sdp)
  (parse_trickle : json -> option (candidate * Z)).

(** [jsonrpc2.Request]: its parameters may be absent, a nil pointer. *)
Record Request := MkRequest { Method : string; Params : option json }.

(** What the world gives a [Join]: the new id, the connections pion makes,
    whether the session's configured channels open *)
Record join_world := MkWorld { jw_pid : string; jw_sub : option PC; jw_pub : option PC; jw_dcs : list bool }.

(** [*req.Params] *)
Definition params (req : Request) : go json :=
  match Params req with Some j => mret j | None => Panic end.

Definition reply_if (e : option sfu_error) : list reply :=
  match e with Some e => [ReplyWithError (PeerError e)] | None => [] end.

(** The answer, or the error, of [Answer] *)
Definition reply_answer (r : sdp + sfu_error) : list reply :=
  match r with inl a => [ReplyAnswer a] | inr e => [ReplyWithError (PeerError e)] end.

(** [Handle]: the peer afterwards and the replies *)
Definition Handle (p : Peer PC) (req : Request) (w : join_world) : go (Peer PC * list reply) :=
  if String.eqb (Method req) "join" then
    j ← params req;
    match parse_join j with
    | None => mret (p, [ReplyWithError BadParams])
    | Some (sid, offer) =>
        let p := p <| p_onOffer := true |> in
        match p_Join p (jw_pid w) (jw_sub w) (jw_pub w) (jw_dcs w) with
        | (p, Some err) => mret (p, [ReplyWithError (PeerError err)])
        | (p, None) => let '(p, answer) := p_Answer p offer in mret (p, reply_answer answer)
        end
    end
  else if String.eqb (Method req) "offer" then
    j ← params req;
    match parse_negotiation j with
    | None => mret (p, [ReplyWithError BadParams])
    | Some desc => let '(p, answer) := p_Answer p desc in mret (p, reply_answer answer)
    end
  else if String.eqb (Method req) "answer" then
    j ← params req;
    match parse_negotiation j with
    | None => mret (p, [ReplyWithError BadParams])
    | Some desc => let '(p, err) := p_SetRemoteDescription p desc in mret (p, reply_if err)
    end
  else if String.eqb (Method req) "trickle" then
    j ← params req;
    match parse_trickle j with
    | None => mret (p, [ReplyWithError BadParams])
    | Some (c, target) => let '(p, err) := p_Trickle p c target in mret (p, reply_if err)
    end
  else mret (p, []).

(** ** The life of a connection *)

(** A request of the client, a call of the subscriber's [negotiate], the
    debouncer's timer *)
Inductive conn_event :=
| Message (req : Request) (w : join_world)
| Negotiate
| Timer.

(** What the client is sent *)
Inductive conn_out := Reply (m : string) (r : reply) | NotifyOffer (offer : sdp) (told : bool).

Definition conn_step (p : Peer PC) (ev : conn_event) : go (Peer PC * list conn_out) :=
  match ev with
  | Message req w =>
      t ← Handle p req w;
      mret (t.1, map (Reply (Method req)) t.2)
  | Negotiate => mret ((peer_step p Peer.Request).1, [])
  | Timer =>
      let '(p, obs) := peer_step p Fire in
      mret (p, omap (fun o => match o with Offered o told => Some (NotifyOffer o told) | _ => None end) obs)
  end.

Fixpoint conn_run (p : Peer PC) (evs : list conn_event) : go (Peer PC * list (list conn_out)) :=
  match evs with
  | [] => mret (p, [])
  | ev :: evs =>
      t ← conn_step p ev;
      t' ← conn_run t.1 evs;
      mret (t'.1, t.2 :: t'.2)
  end.

(** ** Replies *)

Definition known (m : string) : Prop := m ∈ ["join"; "offer"; "answer"; "trickle"]%string.

Definition is_error (r : reply) : Prop := match r with ReplyWithError _ => True | _ => False end.

Lemma known_cases m :
  known m <-> m = "join"%string \/ m = "offer"%string \/ m = "answer"%string \/ m = "trickle"%string.
Proof. unfold known. rewrite !elem_of_cons, elem_of_nil. tauto. Qed.

(** [Handle] is defined on every request that has parameters, and replies at
    most once: exactly once to a join or an offer, to an answer or a
    candidate only with an error; a request of another method is never
    answered.  A request of the four methods without parameters is a nil
    pointer. *)
Theorem handle_replies p req w :
  (known (Method req) /\ Params req = None -> Handle p req w = Panic)
  /\ (~ (known (Method req) /\ Params req = None) ->
      exists p' rs, Handle p req w = Ok (p', rs) /\ (length rs <= 1)%nat
        /\ (Method req = "join"%string \/ Method req = "offer"%string -> length rs = 1%nat)
        /\ (Method req = "answer"%string \/ Method req = "trickle"%string -> Forall is_error rs)
        /\ (~ known (Method req) -> p' = p /\ rs = [])).
Proof.
  destruct req as [m j]. cbn [Method Params]. rewrite known_cases.
  assert (forall r, length (reply_answer r) = 1%nat) as Hra by (by intros []).
  assert (forall e, (length (reply_if e) <= 1)%nat /\ Forall is_error (reply_if e)) as Hri
    by (intros []; cbn; repeat constructor).
  split.
  - intros [[-> |[-> |[-> | ->]]] ->]; reflexivity.
  - intros Hn. unfold Handle, params. cbn [Method Params].
    destruct (String.eqb_spec m "join") as [->|H1];
      [|destruct (String.eqb_spec m "offer") as [->|H2];
        [|destruct (String.eqb_spec m "answer") as [->|H3];
          [|destruct (String.eqb_spec m "trickle") as [->|H4]]]].
    5: { exists p, []. split; [reflexivity|]. cbn [length].
         split_and!; [lia|by intros [|]|constructor|done]. }
    all: destruct j as [j|]; [cbn [mbind go_bind mret go_ret]|exfalso; apply Hn; auto].
    1: destruct (parse_join j) as [[sid o]|]; [destruct (p_Join _ _ _ _ _) as [p1 [e|]];
         [|destruct (p_Answer p1 o) as [p2 r]]|].
    4: destruct (parse_negotiation j) as [o|]; [destruct (p_Answer p o) as [p2 r]|].
    6: destruct (parse_negotiation j) as [o|];
         [destruct (p_SetRemoteDescription p o) as [p2 e]; destruct (Hri e)|].
    8: destruct (parse_trickle j) as [[c t]|]; [destruct (p_Trickle p c t) as [p2 e]; destruct (Hri e)|].
    all: eexists _, _; (split; [reflexivity|]); rewrite ?Hra; cbn [length];
      split_and!; first [done|lia|by intros [|]|by repeat constructor|tauto
                        |intros Hk; exfalso; apply Hk, known_cases; auto].
Qed.

(** ** The protocol of a connection *)

Definition has_pub (p : Peer PC) : Prop := is_Some (p_publisher p).

(** The client is told of offers as soon as there is a connection to make them. *)
Definition told_ok (p : Peer PC) : Prop :=
  p_closed p = false /\ (is_Some (p_subscriber p) -> p_onOffer p = true).

(** What the operations of a peer keep *)
Record peer_kept (p p' : Peer PC) : Prop := {
  pk_pub : has_pub p' <-> has_pub p;
  pk_sub : is_Some (p_subscriber p') <-> is_Some (p_subscriber p);
  pk_onOffer : p_onOffer p' = p_onOffer p;
  pk_closed : p_closed p' = p_closed p }.

#[local] Ltac kept :=
  split; unfold has_pub; cbn [upd settable_Peer eta_record p_publisher p_subscriber p_onOffer p_closed fst];
  repeat match goal with H : p_publisher _ = _ |- _ => rewrite H | H : p_subscriber _ = _ |- _ => rewrite H end;
  first [done|split; intros _; by eexists].

Lemma p_Answer_kept p o : peer_kept p (p_Answer p o).1.
Proof.
  unfold p_Answer. destruct (p_publisher p) as [pub|] eqn:E; [|by split]. case_bool_decide; [by split|].
  destruct (pub_Answer pub o). kept.
Qed.

Lemma p_SetRemoteDescription_kept p a : peer_kept p (p_SetRemoteDescription p a).1.
Proof.
  unfold p_SetRemoteDescription. destruct (p_subscriber p) as [s|] eqn:E; [|by split].
  destruct (sub_SetRemoteDescription s a) as [s' []]; kept.
Qed.

Lemma p_Trickle_kept p c t : peer_kept p (p_Trickle p c t).1.
Proof.
  unfold p_Trickle. destruct (p_subscriber p) as [s|] eqn:E; [|by split].
  destruct (p_publisher p) as [pub|] eqn:E'; [|by split].
  destruct (t =? 0); [|destruct (t =? 1); [|by split]].
  - destruct (pub_AddICECandidate pub c). kept.
  - destruct (sub_AddICECandidate s c). kept.
Qed.

Lemma peer_step_kept p ev : ev <> CloseEvent -> peer_kept p (peer_step p ev).1.
Proof.
  intros Hne. destruct ev as [| |o|a|c t|]; cbn [peer_step fst]; [| | | |apply p_Trickle_kept|done].
  - destruct (p_subscriber p) eqn:E; kept.
  - destruct (default _ _); [|by split]. unfold negotiation_needed.
    destruct (p_subscriber p) as [s|] eqn:E; [|by split]. destruct (remoteAnswerPending p); [kept|].
    destruct (sub_CreateOffer (disarm s)) as [s' [o|]]; kept.
  - apply p_Answer_kept.
  - pose proof (p_SetRemoteDescription_kept p a) as H.
    by destruct (p_SetRemoteDescription p a) as [p' []].
Qed.

Lemma p_Join_cases p pid sub pub dcs :
  let '(p', e) := p_Join p pid sub pub dcs in
  p_onOffer p' = p_onOffer p /\ p_closed p' = p_closed p
  /\ (has_pub p -> p' = p /\ e = Some ErrTransportExists)
  /\ (~ has_pub p -> has_pub p' -> is_Some sub /\ is_Some pub)
  /\ (e = None -> has_pub p').
Proof.
  unfold p_Join, has_pub. destruct (p_publisher p) as [x|] eqn:E.
  { split_and!; try done. intros Hn. destruct Hn. by eexists. }
  destruct sub as [spc|], pub as [ppc|]; try destruct (forallb id dcs); cbn; rewrite ?E;
    split_and!; try done; intros; try (by eexists); by destruct (is_Some_None (A := Publisher PC)).
Qed.

Definition answered (rs : list reply) : Prop := Exists (fun r => ~ is_error r) rs.

Lemma answered_reply r : answered (reply_answer r) <-> exists a, r = inl a.
Proof.
  unfold answered. destruct r; cbn; rewrite Exists_cons, Exists_nil; cbn; naive_solver.
Qed.

Lemma reply_if_answered e : ~ answered (reply_if e).
Proof. unfold answered. destruct e; cbn; rewrite ?Exists_cons, Exists_nil; cbn; tauto. Qed.

Lemma bad_answered e : ~ answered [ReplyWithError e].
Proof. unfold answered. rewrite Exists_cons, Exists_nil. cbn. tauto. Qed.

Lemma p_Answer_pub p o p' a : p_Answer p o = (p', inl a) -> has_pub p.
Proof. unfold p_Answer, has_pub. destruct (p_publisher p); [by eexists|done]. Qed.

Definition makes (w : join_world) : Prop := is_Some (jw_sub w) /\ is_Some (jw_pub w).

(** What a request does to the transports *)
Lemma Handle_transports p req w p' rs :
  Handle p req w = Ok (p', rs) -> told_ok p ->
  told_ok p' /\ (has_pub p -> has_pub p')
  /\ (has_pub p' -> has_pub p \/ (Method req = "join"%string /\ makes w))
  /\ (answered rs -> has_pub p' /\ (Method req = "join"%string -> ~ has_pub p)).
Proof.
  intros H [Hcl Htold]. unfold Handle, params in H.
  assert (forall p1, peer_kept p p1 -> told_ok p1 /\ (has_pub p <-> has_pub p1)) as Hk.
  { intros p1 [H1 H2 H3 H4]. unfold told_ok. rewrite H1, H2, H3, H4. done. }
  assert (told_ok p /\ (has_pub p <-> has_pub p)) as Hsame by done.
  destruct (String.eqb_spec (Method req) "join") as [Em|Em];
    [|destruct (String.eqb_spec (Method req) "offer");
      [|destruct (String.eqb_spec (Method req) "answer");
        [|destruct (String.eqb_spec (Method req) "trickle")]]].
  5: { injection H as <- <-. split_and!; try tauto. by intros ?%Exists_nil. }
  all: destruct (Params req) as [j|]; [cbn [mbind go_bind mret go_ret] in H|done].
  - destruct (parse_join j) as [[sid o]|].
    2: { injection H as <- <-. split_and!; try tauto. by intros ?%bad_answered. }
    pose proof (p_Join_cases (p <| p_onOffer := true |>) (jw_pid w) (jw_sub w) (jw_pub w) (jw_dcs w)) as HJ.
    destruct (p_Join _ _ _ _ _) as [p1 e]. destruct HJ as (Ho & Hc & Hex & Hnew & Hok).
    change (has_pub (p <| p_onOffer := true |>)) with (has_pub p) in Hex, Hnew.
    change (p_closed (p <| p_onOffer := true |>)) with (p_closed p) in Hc.
    change (p_onOffer (p <| p_onOffer := true |>)) with true in Ho.
    assert (told_ok p1) as Ht1 by (split; [congruence|by rewrite Ho]).
    assert (Decision (has_pub p)) as Hd by (unfold has_pub; apply _).
    assert (has_pub p -> has_pub p1) as Hfwd by (intros Hp; by destruct (Hex Hp) as [-> _]).
    assert (has_pub p1 -> has_pub p \/ (Method req = "join"%string /\ makes w)) as Hbwd
      by (intros H1; destruct (decide (has_pub p)); [by left|right; unfold makes; auto]).
    destruct e as [err|].
    + injection H as <- <-. split_and!; try done. all: by intros ?%bad_answered.
    + pose proof (p_Answer_kept p1 o) as [K1 K2 K3 K4].
      destruct (p_Answer p1 o) as [p2 r]. injection H as <- <-. cbn [fst] in K1, K2, K3, K4.
      rewrite !K1. split_and!; [|done|done|].
      * destruct Ht1 as [? ?]. unfold told_ok. by rewrite K2, K3, K4.
      * intros _. split; [by apply Hok|]. intros _ Hp. by destruct (Hex Hp).
  - destruct (parse_negotiation j) as [o|].
    2: { injection H as <- <-. split_and!; try tauto. by intros ?%bad_answered. }
    pose proof (Hk _ (p_Answer_kept p o)) as [Ht Hp]. pose proof (p_Answer_pub p o) as Hpub.
    destruct (p_Answer p o) as [p1 r]. injection H as <- <-. cbn [fst] in Ht, Hp. split_and!; try tauto.
    intros (a & ->)%answered_reply. split; [|done]. apply Hp. by apply (Hpub p1 a).
  - destruct (parse_negotiation j) as [o|].
    2: { injection H as <- <-. split_and!; try tauto. by intros ?%bad_answered. }
    pose proof (Hk _ (p_SetRemoteDescription_kept p o)) as [Ht Hp].
    destruct (p_SetRemoteDescription p o) as [p1 e0]. injection H as <- <-. cbn [fst] in Ht, Hp. split_and!; try tauto.
    by intros ?%reply_if_answered.
  - destruct (parse_trickle j) as [[c t]|].
    2: { injection H as <- <-. split_and!; try tauto. by intros ?%bad_answered. }
    pose proof (Hk _ (p_Trickle_kept p c t)) as [Ht Hp].
    destruct (p_Trickle p c t) as [p1 e0]. injection H as <- <-. cbn [fst] in Ht, Hp. split_and!; try tauto.
    by intros ?%reply_if_answered.
Qed.

(** A join that pion gave both connections *)
Definition joins (ev : conn_event) : Prop :=
  match ev with Message req w => Method req = "join"%string /\ makes w | _ => False end.

Lemma conn_step_spec p ev p' out :
  conn_step p ev = Ok (p', out) -> told_ok p ->
  told_ok p' /\ (has_pub p -> has_pub p') /\ (has_pub p' -> has_pub p \/ joins ev)
  /\ (forall m a, Reply m (ReplyAnswer a) ∈ out -> has_pub p' /\ (m = "join"%string -> ~ has_pub p))
  /\ (forall o told, NotifyOffer o told ∈ out -> told = true).
Proof.
  intros H Ht.
  assert (forall p1, peer_kept p p1 -> told_ok p1 /\ (has_pub p <-> has_pub p1)) as Hk.
  { destruct Ht as [Hc Ho]. intros p1 [H1 H2 H3 H4]. unfold told_ok. by rewrite H1, H2, H3, H4. }
  destruct ev as [req w| |]; cbn [conn_step] in H.
  - destruct (Handle p req w) as [[p1 rs]|] eqn:E; [|done]. injection H as <- <-. cbn [fst snd].
    destruct (Handle_transports _ _ _ _ _ E Ht) as (H1 & H2 & H3 & H4). split_and!; [done..| |].
    + intros m a (r & [= -> <-] & Hr)%list_elem_of_fmap. apply H4. apply Exists_exists.
      exists (ReplyAnswer a). split; [done|]. by intros [].
    + by intros o told (r & ? & _)%list_elem_of_fmap.
  - injection H as <- <-.
    destruct (Hk _ (peer_step_kept p Peer.Request ltac:(done))) as [H1 H2].
    split_and!; [exact H1|exact (proj1 H2)|intros Hp; left; exact (proj2 H2 Hp)|by intros ? ? ?%elem_of_nil..].
  - destruct (Hk _ (peer_step_kept p Fire ltac:(done))) as [H1 H2].
    destruct Ht as [Hc Ho].
    assert (forall o told, Offered o told ∈ (peer_step p Fire).2 -> told = true) as Htold.
    { intros o told. cbn [peer_step]. destruct (default _ _); [|by intros ?%elem_of_nil].
      unfold negotiation_needed. destruct (p_subscriber p) as [s|] eqn:E; [|by intros ?%elem_of_nil].
      destruct (remoteAnswerPending p); [by intros ?%elem_of_nil|].
      destruct (sub_CreateOffer (disarm s)) as [s' [o'|]]; [|by intros ?%elem_of_nil].
      intros [= _ ->]%list_elem_of_singleton. by rewrite Hc, Ho. }
    destruct (peer_step p Fire) as [p1 obs]. injection H as <- <-. cbn [fst snd] in *.
    split_and!; [exact H1|exact (proj1 H2)|intros Hp; left; exact (proj2 H2 Hp)| |].
    + intros m a ([] & _ & ?)%list_elem_of_omap; done.
    + intros o told ([] & Hin & Heq)%list_elem_of_omap; [|done]. injection Heq as -> ->. by eapply Htold.
Qed.

Lemma conn_run_spec evs p p' outs :
  conn_run p evs = Ok (p', outs) -> told_ok p ->
  (forall i l o told, outs !! i = Some l -> NotifyOffer o told ∈ l -> told = true)
  /\ (forall i l m a, outs !! i = Some l -> Reply m (ReplyAnswer a) ∈ l ->
       has_pub p \/ exists k ev, (k <= i)%nat /\ evs !! k = Some ev /\ joins ev)
  /\ (has_pub p -> forall i l a, outs !! i = Some l -> ~ Reply "join" (ReplyAnswer a) ∈ l)
  /\ (forall i j l l' a b, (i < j)%nat -> outs !! i = Some l -> outs !! j = Some l' ->
       Reply "join" (ReplyAnswer a) ∈ l -> ~ Reply "join" (ReplyAnswer b) ∈ l').
Proof.
  revert p outs. induction evs as [|ev evs IH]; intros p outs; cbn [conn_run].
  { intros [= <- <-] _. split_and!; by intros. }
  destruct (conn_step p ev) as [[p1 out]|] eqn:E; [|done]. cbn [mbind go_bind mret go_ret fst snd].
  destruct (conn_run p1 evs) as [[p2 outs']|] eqn:E'; [|done]. intros [= <- <-] Ht.
  destruct (conn_step_spec _ _ _ _ E Ht) as (H1 & H2 & H3 & H4 & H5).
  destruct (IH _ _ E' H1) as (I1 & I2 & I3 & I4). split_and!.
  - intros [|i] l o told; cbn; [intros [= <-]; apply H5|apply I1].
  - intros [|i] l m a; cbn.
    + intros [= <-] Hin. destruct (H4 m a Hin) as [Hp _].
      destruct (H3 Hp) as [?|?]; [by left|right]. exists 0%nat, ev. by split_and!.
    + intros Hl Hin. destruct (I2 i l m a Hl Hin) as [Hp|(k & ev' & ? & ? & ?)].
      * destruct (H3 Hp) as [?|?]; [by left|right]. exists 0%nat, ev. split_and!; [lia|done..].
      * right. exists (S k), ev'. split_and!; [lia|done..].
  - intros Hp [|i] l a; cbn; [intros [= <-] Hin; by apply (H4 "join"%string a Hin)|]. apply I3; auto.
  - intros [|i] [|j] l l' a b Hij; cbn; try lia.
    + intros [= <-] Hl' Hin. apply (I3 (proj1 (H4 "join"%string a Hin)) j l' b Hl').
    + apply I4. lia.
Qed.

(** C25. On a connection, whatever the client sends and however the negotiation of
    the subscriber is interleaved: the client is told of every offer; nothing
    is answered before a join that pion gave both connections; and one join
    at most is answered. *)
Theorem connection_protocol evs p' outs :
  conn_run NewPeer evs = Ok (p', outs) ->
  (forall i l o told, outs !! i = Some l -> NotifyOffer o told ∈ l -> told = true)
  /\ (forall i l m a, outs !! i = Some l -> Reply m (ReplyAnswer a) ∈ l ->
       exists k ev, (k <= i)%nat /\ evs !! k = Some ev /\ joins ev)
  /\ (forall i j l l' a b, (i < j)%nat -> outs !! i = Some l -> outs !! j = Some l' ->
       Reply "join" (ReplyAnswer a) ∈ l -> ~ Reply "join" (ReplyAnswer b) ∈ l').
Proof.
  intros H. assert (told_ok NewPeer) as Ht by (split; [done|]; by intros []).
  destruct (conn_run_spec _ _ _ _ H Ht) as (H1 & H2 & _ & H3). split_and!; [done| |done].
  intros i l m a Hl Hin. destruct (H2 i l m a Hl Hin) as [[]|?]; done.
Qed.
End signal.

(** A client that joins twice, with an offer of the subscriber in between *)
Lemma connection_protocol_witness :
  let join := Message (MkRequest "join" (Some "v=0"%string))
                (MkWorld "p" (Some (ExPC [] false)) (Some (ExPC [] false)) [true]) in
  exists p' outs,
    conn_run (PP := ex_connection) (fun j => Some ("room"%string, j)) (fun j => Some j) (fun _ => None)
      NewPeer [join; Negotiate; Timer; join] = Ok (p', outs)
    /\ (exists l a, outs !! 0%nat = Some l /\ Reply "join" (ReplyAnswer a) ∈ l)
    /\ (exists l o, outs !! 2%nat = Some l /\ l = [NotifyOffer o true])
    /\ forall l b, outs !! 3%nat = Some l -> ~ Reply "join" (ReplyAnswer b) ∈ l.
Proof.
  intros join. eexists _, _. split; [vm_compute; reflexivity|].
  match goal with |- (exists l a, ?outs !! 0%nat = _ /\ _) /\ _ =>
    destruct (connection_protocol (PP := ex_connection) (fun j => Some ("room"%string, j)) (fun j => Some j)
      (fun _ => None) [join; Negotiate; Timer; join] _ outs ltac:(vm_compute; reflexivity)) as (_ & _ & H) end.
  split; [eexists _, _; split; [reflexivity|]; by left|].
  split; [eexists _, _; split; reflexivity|].
  intros l b Hl. eapply (H 0%nat 3%nat); [lia|reflexivity|exact Hl|by left].
Defined.
