(* ===== verification/Config.v ===== *)
(** * Configuration ([main.go]: [load]; [internal/sfu/sfu.go]:
      [NewWebRTCTransportConfig])

    The configuration is read by viper, checked by [load], and turned into
    the settings of pion's connections.  Ports are [uint16]. *)

From stdpp Require Import strings.
From S2P Require Import Prelude GoNum GoSlice.
#[local] Open Scope Z_scope.

(** ** Data *)

Record Config := MkConfig {
  IceLite : bool;
  NAT1To1IPs : list string;
  ICEPortRange : list Z;
  SDPSemantics : string }.

Inductive Semantics := UnifiedPlan | UnifiedPlanWithFallback | PlanB.

(** [webrtc.SettingEngine], and the configuration of the connections: the
    ports are those [SetEphemeralUDPPortRange] was given. *)
Record WebRTCTransportConfig := MkTransport {
  se_ports : option (Z * Z);
  se_lite : bool;
  se_nat : list string;
  tc_semantics : Semantics }.

Definition portRangeLimit : Z := 100.

(** ** Loading *)

(** The checks of [load], after the file was read: [conf] is [None] when that
    fails.  The difference of the ports is a [uint16]. *)
Definition load (conf : option Config) : go bool :=
  match conf with
  | None => mret false
  | Some c =>
      if 2 <? len (ICEPortRange c) then mret false
      else if len (ICEPortRange c) =? 0 then mret true
      else
        hi ← go_index (ICEPortRange c) 1;
        lo ← go_index (ICEPortRange c) 0;
        mret (negb (u16 (hi - lo) <? portRangeLimit))
  end.

(** ** Settings *)

Section transport.
(** pion: whether [SetEphemeralUDPPortRange] takes a range *)
Context (SetEphemeralUDPPortRange : Z -> Z -> bool).

Definition icePorts (c : Config) : Z * Z :=
  match ICEPortRange c with [a; b] => (a, b) | _ => (0, 0) end.

(** [log.Panicf] is a panic. *)
Definition NewWebRTCTransportConfig (c : Config) : go WebRTCTransportConfig :=
  let '(icePortStart, icePortEnd) := icePorts c in
  let sdpSemantics :=
    if String.eqb (SDPSemantics c) "unified-plan-with-fallback" then UnifiedPlanWithFallback
    else if String.eqb (SDPSemantics c) "plan-b" then PlanB else UnifiedPlan in
  let nat := if 0 <? len (NAT1To1IPs c) then NAT1To1IPs c else [] in
  if negb (icePortStart =? 0) || negb (icePortEnd =? 0) then
    if SetEphemeralUDPPortRange icePortStart icePortEnd
    then mret (MkTransport (Some (icePortStart, icePortEnd)) (IceLite c) nat sdpSemantics)
    else Panic
  else mret (MkTransport None (IceLite c) nat sdpSemantics).

(** [parse], after the flags were read: the configuration is loaded before
    the help is asked for. *)
Definition parse (help : bool) (conf : option Config) : go bool :=
  ok ← load conf;
  if negb ok then mret false else if help then mret false else mret true.

(** What [main] does with the configuration: [None] when it shows the help
    and exits instead of starting *)
Definition start (help : bool) (conf : option Config) : go (option WebRTCTransportConfig) :=
  ok ← parse help conf;
  match conf with
  | Some c => if ok : bool then t ← NewWebRTCTransportConfig c; mret (Some t) else mret None
  | None => mret None
  end.

(** ** Properties *)

(** pion refuses a range that is upside down, and takes the others. *)
Hypothesis port_range : forall a b, SetEphemeralUDPPortRange a b = negb (b <? a).

(** Starting, for ports in range: without a port range the SFU starts, with
    one port, or with a range upside down that is not within 99 of a full
    turn of 16 bits, it panics; a range of 100 ports or more is used as it
    is, the others are refused. *)
Theorem start_ports c :
  Forall (fun p => 0 <= p < 65536) (ICEPortRange c) ->
  match ICEPortRange c with
  | [] => exists t, start false (Some c) = Ok (Some t) /\ se_ports t = None
  | [_] => start false (Some c) = Panic
  | [a; b] =>
      if a + 100 <=? b then exists t, start false (Some c) = Ok (Some t) /\ se_ports t = Some (a, b)
      else if (b <? a) && (a - b <=? 65436) then start false (Some c) = Panic
      else start false (Some c) = Ok None
  | _ => start false (Some c) = Ok None
  end.
Proof.
  intros Hp. unfold start, parse, load, NewWebRTCTransportConfig, icePorts.
  destruct (ICEPortRange c) as [|a [|b [|x l]]].
  - cbn. by eexists.
  - reflexivity.
  - apply Forall_cons in Hp as [Ha Hp]. apply Forall_cons in Hp as [Hb _].
    change (2 <? len [a; b]) with false. change (len [a; b] =? 0) with false. cbn [go_index].
    change (go_index [a; b] 1) with (Ok b). change (go_index [a; b] 0) with (Ok a).
    cbn [mbind go_bind mret go_ret]. unfold portRangeLimit, u16. rewrite port_range.
    destruct (a + 100 <=? b) eqn:E1; bool_prop.
    + rewrite Z.mod_small by lia. rewrite (proj2 (Z.ltb_ge (b - a) 100)) by lia. cbn [negb].
      rewrite (proj2 (Z.eqb_neq b 0)) by lia. rewrite orb_true_r.
      rewrite (proj2 (Z.ltb_ge b a)) by lia. by eexists.
    + destruct (b <? a) eqn:E2; bool_prop; cbn [andb].
      * replace (b - a) with (b - a + 65536 + (-1) * 65536) by lia. rewrite Z_mod_plus_full, Z.mod_small by lia.
        destruct (a - b <=? 65436) eqn:E3; bool_prop.
        -- rewrite (proj2 (Z.ltb_ge _ 100)) by lia. cbn [negb].
           rewrite (proj2 (Z.eqb_neq a 0)) by lia. reflexivity.
        -- rewrite (proj2 (Z.ltb_lt _ 100)) by lia. reflexivity.
      * rewrite Z.mod_small by lia. rewrite (proj2 (Z.ltb_lt (b - a) 100)) by lia. reflexivity.
  - assert (2 <? len (a :: b :: x :: l) = true) as -> by (apply Z.ltb_lt; rewrite !len_cons; pose proof (len_nonneg l); lia).
    reflexivity.
Qed.
End transport.

(** The ports the wrong way round *)
Lemma start_ports_witness :
  start (fun a b => negb (b <? a)) false (Some (MkConfig false [] [60000; 50000] EmptyString)) = Panic.
Proof.
  apply (start_ports (fun a b => negb (b <? a)) ltac:(done) (MkConfig false [] [60000; 50000] EmptyString)).
  cbn. repeat (apply Forall_cons; split; [lia|]). by apply Forall_nil.
Defined.
