(* ===== verification/Server.v ===== *)
(** * The life of the connections ([main.go], the constructors of
      [publisher.go] and [subscriber.go], [peer.go])

    A websocket connection has a peer; its requests are handled one after
    the other, the first thing that happens after its end is the deferred
    [Close] of the peer.  [Join] looks for the session, makes it if there is
    none, makes the two connections and enters the session; [Close] takes the
    peer out of the session, tests whether it was the last one, marks the
    session as closed and takes it out of the table.  Each of these is a
    critical section of its own, between which other connections run:
    [server_step] is the interleaving of all of them, with the ICE state
    changes of the connections, whose handlers are registered by the
    constructors. *)

From stdpp Require Import gmap strings.
From S2P Require Import Prelude Peer Session Signal.
From S2P Require Channels.
#[local] Open Scope Z_scope.

(** ** Construction of the connections *)

(** [webrtc.ICEConnectionState] *)
Inductive ICEConnectionState :=
| ICENew | ICEChecking | ICEConnected | ICECompleted | ICEDisconnected | ICEFailed | ICEClosed.

Section construction.
Context {PC : Type} {PP : PeerConnection PC}.
(** A media engine, and what [NewPeerConnection] of an API with it returns *)
Context {ME : Type} (NewPeerConnection : ME -> option PC).

(** With the media engine, if it could be made; [inr] is the error. *)
Definition NewSubscriber (id : string) (me : option ME) : Peer.Subscriber PC + sfu_error :=
  match me with
  | None => inr errPeerConnectionInitFailed
  | Some me =>
      match NewPeerConnection me with
      | None => inr errPC
      | Some pc => inl (MkSubscriber id pc [] false false)
      end
  end.

Definition NewPublisher (id : string) (me : option ME) : Peer.Publisher PC + sfu_error :=
  match me with
  | None => inr errPeerConnectionInitFailed
  | Some me =>
      match NewPeerConnection me with
      | None => inr errPeerConnectionInitFailed
      | Some pc => inl (MkPublisher id pc [] false)
      end
  end.

(** The handlers of ICE state changes; the publisher passes the state on to
    its peer's handler, which nobody sets. *)
Definition sub_ice (s : Peer.Subscriber PC) (st : ICEConnectionState) : Peer.Subscriber PC :=
  match st with ICEFailed | ICEClosed => sub_Close s | _ => s end.
Definition pub_ice (p : Peer.Publisher PC) (st : ICEConnectionState) : Peer.Publisher PC :=
  match st with ICEFailed | ICEClosed => pub_Close p | _ => p end.

(** The handlers of a connection's own candidates, which [Join] registers:
    what the client is told, with the target.  The callback is set together
    with [OnOffer]; the last candidate of an agent is nil. *)
Definition on_candidate (p : Peer.Peer PC) (c : option candidate) (target : Z) : option (candidate * Z) :=
  match c with
  | None => None
  | Some c => if (p_onOffer p && negb (p_closed p))%bool then Some (c, target) else None
  end.

(** [Join]'s calls of the two constructors, with the subscriber's engine and
    the publisher's: what [p_Join] is given *)
Definition join_world_of (pid : string) (sub_me pub_me : option ME) (dcs : list bool) : join_world :=
  MkWorld pid
    (match NewSubscriber pid sub_me with inl s => Some (sub_pc s) | inr _ => None end)
    (match NewPublisher pid pub_me with inl p => Some (pub_pc p) | inr _ => None end) dcs.

End construction.

Section server.
Context {PC : Type} {PP : PeerConnection PC}.
Context {json : Type} (parse_join : json -> option (string * sdp)) (parse_negotiation : json -> option sdp)
  (parse_trickle : json -> option (candidate * Z)).
Context {ME : Type} (NewPeerConnection : ME -> option PC).
#[local] Abbreviation request := (Signal.Request (json := json)).
#[local] Abbreviation Handle := (Handle parse_join parse_negotiation parse_trickle).
#[local] Abbreviation conn_step := (conn_step parse_join parse_negotiation parse_trickle).

(** ** States and steps *)

(** [cn_sess] is the peer's session and [cn_sid] the id it asked for,
    [cn_joining] the request to join that is being handled (no session yet
    means that the table had none and it is to be made), [cn_in] whether the
    peer was added to the session and not removed, [cn_open] whether the
    websocket is connected. *)
Record conn := MkConn {
  cn_peer : Peer.Peer PC;
  cn_sess : option nat;
  cn_sid : string;
  cn_joining : option request;
  cn_in : bool;
  cn_open : bool }.

(** With what is left to do of the calls of [RemovePeer] that have begun *)
Record server := MkServer { sv_sfu : SFU; sv_conns : gmap nat conn; sv_leaving : list departure }.

(** [main]: the SFU with the channel that every session has, and no
    connection *)
Definition start_server : server := MkServer (NewDatachannel NewSFU Channels.APIChannelLabel) ∅ [].

(** The session that handling the request would join *)
Definition wants_join (p : Peer.Peer PC) (req : request) : option string :=
  if String.eqb (Method req) "join" then
    match p_publisher p with
    | Some _ => None
    | None => fst <$> (Params req ≫= parse_join)
    end
  else None.

(** Whether [Join] gets as far as entering the session *)
Definition enters (p : Peer.Peer PC) (w : join_world) : bool :=
  match (p_Join (p <| p_onOffer := true |>) (jw_pid w) (jw_sub w) (jw_pub w) (jw_dcs w)).2 with
  | None => true
  | Some _ => false
  end.

(** A websocket connects. *)
Inductive connects : server -> server -> Prop :=
| sv_connect s n :
    sv_conns s !! n = None ->
    connects s (MkServer (sv_sfu s) (<[n := MkConn NewPeer None EmptyString None false true]> (sv_conns s)) (sv_leaving s)).

(** The sections of [Join]: the two of [GetSession], the session is looked
    up, and made if there was none; the rest of the request is handled, and
    the peer entered, with an id that no other peer has. *)
Inductive looks_up : server -> nat -> server -> Prop :=
| sv_lookup s n c req sid :
    sv_conns s !! n = Some c -> cn_open c = true -> cn_joining c = None ->
    wants_join (cn_peer c) req = Some sid ->
    looks_up s n (MkServer (sv_sfu s)
      (<[n := MkConn (cn_peer c) (getSession (sv_sfu s) sid) sid (Some req) false true]> (sv_conns s))
      (sv_leaving s)).

Inductive creates : server -> nat -> server -> Prop :=
| sv_create s n c req :
    sv_conns s !! n = Some c -> cn_joining c = Some req -> cn_sess c = None ->
    creates s n (MkServer (newSession (sv_sfu s) (cn_sid c)).1
      (<[n := MkConn (cn_peer c) (Some (newSession (sv_sfu s) (cn_sid c)).2) (cn_sid c) (Some req) false true]>
         (sv_conns s))
      (sv_leaving s)).

Inductive finishes : server -> nat -> server -> Prop :=
| sv_finish s n c req a pid sub_me pub_me dcs p' rs :
    sv_conns s !! n = Some c -> cn_joining c = Some req -> cn_sess c = Some a ->
    pid <> EmptyString -> (forall m c', sv_conns s !! m = Some c' -> p_id (cn_peer c') <> pid) ->
    let w := join_world_of NewPeerConnection pid sub_me pub_me dcs in
    Handle (cn_peer c) req w = Ok (p', rs) ->
    finishes s n (MkServer
      (if enters (cn_peer c) w then sfu_AddPeer (sv_sfu s) a pid else sv_sfu s)
      (<[n := MkConn p' (Some a) (cn_sid c) None (enters (cn_peer c) w) true]> (sv_conns s))
      (sv_leaving s)).

(** The end of the websocket: [Close], with the first part of [RemovePeer].
    Its other parts, which come before the connections of the peer are
    closed in the code, but touch the sessions only, are steps of their
    own. *)
Inductive disconnects : server -> server -> Prop :=
| sv_disconnect s n c :
    sv_conns s !! n = Some c -> cn_open c = true -> cn_joining c = None ->
    let conns := <[n := MkConn (p_Close (cn_peer c)) (cn_sess c) (cn_sid c) None false false]> (sv_conns s) in
    disconnects s
      (match cn_sess c with
       | Some a => let l := leave (sv_sfu s) a (p_id (cn_peer c)) in
                   MkServer l.1 conns (l.2 :: sv_leaving s)
       | None => MkServer (sv_sfu s) conns (sv_leaving s)
       end).

Inductive departs : server -> server -> Prop :=
| sv_depart s l1 t l2 :
    sv_leaving s = l1 ++ t :: l2 ->
    departs s (MkServer (depart (sv_sfu s) t).1 (sv_conns s)
                 (l1 ++ option_list (depart (sv_sfu s) t).2 ++ l2)).

(** Other messages, the debouncer and the ICE agents *)
Inductive other_step : server -> server -> Prop :=
| sv_event s n c ev p' out :
    sv_conns s !! n = Some c -> cn_open c = true -> cn_joining c = None ->
    match ev with Message req _ => wants_join (cn_peer c) req = None | _ => True end ->
    conn_step (cn_peer c) ev = Ok (p', out) ->
    other_step s (MkServer (sv_sfu s)
      (<[n := MkConn p' (cn_sess c) (cn_sid c) None (cn_in c) true]> (sv_conns s)) (sv_leaving s))
| sv_sub_ice s n c st :
    sv_conns s !! n = Some c ->
    let p := cn_peer c in
    other_step s (MkServer (sv_sfu s)
      (<[n := MkConn (p <| p_subscriber := (fun x => sub_ice x st) <$> p_subscriber p |>)
                (cn_sess c) (cn_sid c) (cn_joining c) (cn_in c) (cn_open c)]> (sv_conns s)) (sv_leaving s))
| sv_pub_ice s n c st :
    sv_conns s !! n = Some c ->
    let p := cn_peer c in
    other_step s (MkServer (sv_sfu s)
      (<[n := MkConn (p <| p_publisher := (fun x => pub_ice x st) <$> p_publisher p |>)
                (cn_sess c) (cn_sid c) (cn_joining c) (cn_in c) (cn_open c)]> (sv_conns s)) (sv_leaving s)).

Inductive server_step : server -> server -> Prop :=
| st_connect s s' : connects s s' -> server_step s s'
| st_lookup s n s' : looks_up s n s' -> server_step s s'
| st_create s n s' : creates s n s' -> server_step s s'
| st_finish s n s' : finishes s n s' -> server_step s s'
| st_disconnect s s' : disconnects s s' -> server_step s s'
| st_depart s s' : departs s s' -> server_step s s'
| st_other s s' : other_step s s' -> server_step s s'.

(** Nothing happens between the sections of a join, nor between those of a
    departure. *)
Inductive serial_step : server -> server -> Prop :=
| ss_connect s s' : connects s s' -> serial_step s s'
| ss_join s n s1 s' : looks_up s n s1 -> finishes s1 n s' -> serial_step s s'
| ss_first s n s1 s2 s' : looks_up s n s1 -> creates s1 n s2 -> finishes s2 n s' -> serial_step s s'
| ss_leave s s1 s' : disconnects s s1 -> rtc departs s1 s' -> sv_leaving s' = [] -> serial_step s s'
| ss_other s s' : other_step s s' -> serial_step s s'.

Lemma serial_steps s s' : serial_step s s' -> rtc server_step s s'.
Proof.
  intros [s0 s1 H|s0 n s1 s2 H1 H2|s0 n s1 s2 s3 H1 H2 H3|s0 s1 s2 H1 H2 _|s0 s1 H].
  - apply rtc_once. by apply st_connect.
  - eapply rtc_l; [by eapply st_lookup|]. apply rtc_once. by eapply st_finish.
  - eapply rtc_l; [by eapply st_lookup|]. eapply rtc_l; [by eapply st_create|]. apply rtc_once. by eapply st_finish.
  - eapply rtc_l; [by eapply st_disconnect|]. eapply rtc_congruence with (f := id); [|done]. intros. by apply st_depart.
  - apply rtc_once. by apply st_other.
Qed.

(** ** What a request does to the id of the peer *)

Lemma p_Answer_id (p : Peer.Peer PC) o : p_id (p_Answer p o).1 = p_id p.
Proof.
  unfold p_Answer. destruct (p_publisher p) as [pub|]; [|done]. case_bool_decide; [done|].
  by destruct (pub_Answer pub o).
Qed.

Lemma peer_step_id (p : Peer.Peer PC) ev : p_id (peer_step p ev).1 = p_id p.
Proof.
  destruct ev as [| |o|a|c t|]; cbn [peer_step fst]; [done| |apply p_Answer_id| | |done].
  - destruct (default _ _); [|done]. unfold negotiation_needed.
    destruct (p_subscriber p) as [s|]; [|done]. destruct (remoteAnswerPending p); [done|].
    by destruct (sub_CreateOffer (disarm s)) as [s' [o|]].
  - unfold p_SetRemoteDescription. destruct (p_subscriber p) as [s|]; [|done].
    by destruct (sub_SetRemoteDescription s a) as [s' []].
  - unfold p_Trickle. destruct (p_subscriber p) as [s|]; [|done]. destruct (p_publisher p) as [pub|]; [|done].
    destruct (t =? 0); [by destruct (pub_AddICECandidate pub c)|].
    destruct (t =? 1); [by destruct (sub_AddICECandidate s c)|done].
Qed.

Lemma Handle_id p req w p' rs :
  Handle p req w = Ok (p', rs) ->
  match wants_join p req with
  | None => p_id p' = p_id p /\ (has_pub p -> has_pub p')
  | Some _ => p_id p' = jw_pid w /\ (enters p w = true -> has_pub p')
  end.
Proof.
  unfold Signal.Handle, wants_join, params. destruct (String.eqb (Method req) "join").
  - destruct (Params req) as [j|]; [|done]. cbn [mbind go_bind mret go_ret option_bind].
    destruct (parse_join j) as [[sid o]|] eqn:Ej.
    2: { intros [= <- <-]. by destruct (p_publisher p). }
    unfold enters, p_Join. change (p_publisher (p <| p_onOffer := true |>)) with (p_publisher p).
    destruct (p_publisher p) as [pub|] eqn:E; cbn [fmap option_fmap option_map].
    { by intros [= <- <-]. }
    destruct (jw_sub w) as [spc|]; [|by intros [= <- <-]].
    destruct (jw_pub w) as [ppc|]; [|by intros [= <- <-]].
    destruct (forallb id (jw_dcs w)); [|by intros [= <- <-]].
    match goal with |- context [p_Answer ?x o] => set (p1 := x) end.
    pose proof (p_Answer_id p1 o) as Hid. pose proof (pk_pub _ _ (p_Answer_kept p1 o)) as Hk.
    destruct (p_Answer p1 o) as [p2 r]. intros [= <- <-]. cbn [fst] in *. split; [exact Hid|].
    intros _. apply Hk. by eexists.
  - assert (forall ev, peer_kept p (peer_step p ev).1 ->
      p_id (peer_step p ev).1 = p_id p /\ (has_pub p -> has_pub (peer_step p ev).1)) as Hk.
    { intros ev Hk. split; [apply peer_step_id|]. apply (pk_pub _ _ Hk). }
    destruct (String.eqb (Method req) "offer").
    { destruct (Params req) as [j|]; [|done]. cbn [mbind go_bind mret go_ret].
      destruct (parse_negotiation j) as [o|]; [|by intros [= <- <-]].
      pose proof (Hk (RemoteOffer o) (p_Answer_kept p o)) as H. cbn [peer_step fst] in H.
      destruct (p_Answer p o). by intros [= <- <-]. }
    destruct (String.eqb (Method req) "answer").
    { destruct (Params req) as [j|]; [|done]. cbn [mbind go_bind mret go_ret].
      destruct (parse_negotiation j) as [o|]; [|by intros [= <- <-]].
      pose proof (Hk (RemoteAnswer o) (peer_step_kept p (RemoteAnswer o) ltac:(done))) as H. cbn [peer_step] in H.
      destruct (p_SetRemoteDescription p o) as [p1 [e|]]; by intros [= <- <-]. }
    destruct (String.eqb (Method req) "trickle"); [|by intros [= <- <-]].
    destruct (Params req) as [j|]; [|done]. cbn [mbind go_bind mret go_ret].
    destruct (parse_trickle j) as [[c t]|]; [|by intros [= <- <-]].
    pose proof (Hk (Peer.Trickle c t) (p_Trickle_kept p c t)) as H. cbn [peer_step fst] in H.
    destruct (p_Trickle p c t). by intros [= <- <-].
Qed.

Lemma conn_step_id p ev p' out :
  match ev with Message req _ => wants_join p req = None | _ => True end ->
  conn_step p ev = Ok (p', out) -> p_id p' = p_id p /\ (has_pub p -> has_pub p').
Proof.
  intros Hj H. destruct ev as [req w| |]; cbn [Signal.conn_step] in H.
  - destruct (Handle p req w) as [[p1 rs]|] eqn:E; [|done]. injection H as <- _.
    apply Handle_id in E. by rewrite Hj in E.
  - injection H as <- _. split; [exact (peer_step_id p Peer.Request)|].
    apply (pk_pub _ _ (peer_step_kept p Peer.Request ltac:(done))).
  - pose proof (peer_step_id p Fire) as Hid.
    pose proof (pk_pub _ _ (peer_step_kept p Fire ltac:(done))) as Hk.
    destruct (peer_step p Fire) as [p1 obs]. injection H as <- _. split; [exact Hid|apply Hk].
Qed.

(** ** The sessions' peers *)

Lemma GetSession_store s sid a se :
  sess_store (GetSession s sid).1 !! a = Some se ->
  sess_store s !! a = Some se \/ peers se = ∅ /\ a = length (sess_store s).
Proof.
  unfold GetSession, getSession, newSession. destruct (sessions s !! sid); [by left|].
  cbn. intros [?|[Hge H]]%lookup_app_Some; [by left|right].
  apply list_lookup_singleton_Some in H as [H <-]. split; [done|lia].
Qed.

Lemma GetSession_keeps s sid a se :
  sess_store s !! a = Some se -> sess_store (GetSession s sid).1 !! a = Some se.
Proof.
  unfold GetSession, getSession, newSession. destruct (sessions s !! sid); [done|].
  cbn. intros H. by apply lookup_app_l_Some.
Qed.

Lemma GetSession_open s sid :
  table_ok s -> exists se, sess_store (GetSession s sid).1 !! (GetSession s sid).2 = Some se
    /\ sess_id se = sid /\ sess_closed se = false.
Proof.
  intros Ht. unfold GetSession, getSession. destruct (sessions s !! sid) as [a|] eqn:E.
  - apply Ht in E as (se & ? & ? & ?). by exists se.
  - eexists. cbn. split; [by apply list_lookup_middle|done].
Qed.

Lemma AddPeer_store s a pid b se :
  sess_store (sfu_AddPeer s a pid) !! b = Some se ->
  exists se0, sess_store s !! b = Some se0 /\ sess_id se = sess_id se0 /\ sess_closed se = sess_closed se0
    /\ peers se = if decide (b = a) then {[pid]} ∪ peers se0 else peers se0.
Proof.
  unfold sfu_AddPeer, on_session. cbn [upd settable_SFU eta_record sess_store]. destruct (decide (b = a)) as [->|Hn].
  - rewrite list_lookup_alter_eq. intros (se0 & -> & ->)%fmap_Some. by exists se0.
  - rewrite list_lookup_alter_ne by done. intros H. by exists se.
Qed.

Lemma RemovePeer_store s a pid b se :
  sess_store (sfu_RemovePeer s a pid) !! b = Some se ->
  exists se0, sess_store s !! b = Some se0
    /\ peers se = (if decide (b = a) then peers se0 ∖ {[pid]} else peers se0)
    /\ (sess_closed se = sess_closed se0 \/ peers se = ∅).
Proof.
  unfold sfu_RemovePeer. destruct (sess_store s !! a) as [sa|] eqn:E.
  2: { intros H. exists se. rewrite decide_False by congruence. auto. }
  pose proof (RemovePeer_cases sa pid) as Hr. destruct (RemovePeer sa pid) as [se' close].
  destruct Hr as (Hid & Hp & Hc).
  assert (<[a := se']> (sess_store s) !! b = Some se -> exists se0, sess_store s !! b = Some se0
    /\ peers se = (if decide (b = a) then peers se0 ∖ {[pid]} else peers se0)
    /\ (sess_closed se = sess_closed se0 \/ peers se = ∅)) as Hx.
  { intros [(<- & <- & _)|[Hn H]]%list_lookup_insert_Some.
    - exists sa. rewrite decide_True by done. split_and!; [done..|].
      destruct Hc as [(_ & _ & _ & ->)|(_ & -> & _)]; auto.
    - exists se. rewrite decide_False by done. auto. }
  destruct close; [rewrite close_handler_store|]; exact Hx.
Qed.

Lemma on_session_store f a s b se :
  sess_store (on_session f a s) !! b = Some se ->
  exists se0, sess_store s !! b = Some se0 /\ se = if decide (b = a) then f se0 else se0.
Proof.
  unfold on_session. cbn [upd settable_SFU eta_record sess_store]. destruct (decide (b = a)) as [->|Hn].
  - rewrite list_lookup_alter_eq. intros (se0 & -> & ->)%fmap_Some. by exists se0.
  - rewrite list_lookup_alter_ne by done. intros H. by exists se.
Qed.

Lemma depart_store s t b se :
  sess_store (depart s t).1 !! b = Some se ->
  exists se0, sess_store s !! b = Some se0 /\ sess_id se = sess_id se0 /\ peers se = peers se0.
Proof.
  destruct t as [a|a|a]; cbn [depart fst]; [intros H; by exists se| |rewrite close_handler_store; intros H; by exists se].
  intros (se0 & H & ->)%on_session_store. exists se0. by case_decide.
Qed.

(** ** The invariant *)

Definition member (c : conn) (a : nat) (pid : string) : Prop :=
  cn_in c = true /\ cn_sess c = Some a /\ p_id (cn_peer c) = pid.

(** [Close] was called: the publisher's and the subscriber's connections, if
    there are any, are closed. *)
Definition shut (p : Peer.Peer PC) : Prop :=
  p_closed p = true
  /\ (forall x, p_publisher p = Some x -> pub_closeOnce x = true)
  /\ (forall x, p_subscriber p = Some x -> sub_closeOnce x = true).

Record conn_ok (f : SFU) (c : conn) : Prop := {
  ck_sess : forall a, cn_sess c = Some a ->
    exists se, sess_store f !! a = Some se /\ sess_id se = cn_sid c;
  ck_in : cn_in c = true -> cn_open c = true /\ cn_joining c = None /\ has_pub (cn_peer c)
    /\ is_Some (cn_sess c) /\ p_id (cn_peer c) <> EmptyString;
  ck_joining : forall req, cn_joining c = Some req -> cn_open c = true /\ cn_in c = false
    /\ wants_join (cn_peer c) req = Some (cn_sid c);
  ck_closed : cn_open c = false -> shut (cn_peer c) }.

Record srv_inv (s : server) : Prop := {
  iv_table : table_known (sv_sfu s) (sv_leaving s);
  iv_conn : forall n c, sv_conns s !! n = Some c -> conn_ok (sv_sfu s) c;
  iv_id : forall n m c c', sv_conns s !! n = Some c -> sv_conns s !! m = Some c' ->
    cn_in c = true -> p_id (cn_peer c) = p_id (cn_peer c') -> n = m;
  iv_mem : forall a se pid, sess_store (sv_sfu s) !! a = Some se ->
    (pid ∈ peers se <-> exists n c, sv_conns s !! n = Some c /\ member c a pid) }.

(** The other connections' members of a session *)
Definition others (s : server) (n a : nat) (pid : string) : Prop :=
  exists m c, m <> n /\ sv_conns s !! m = Some c /\ member c a pid.

Lemma peers_split s n c a se pid :
  srv_inv s -> sv_conns s !! n = Some c -> sess_store (sv_sfu s) !! a = Some se ->
  (pid ∈ peers se <-> member c a pid \/ others s n a pid).
Proof.
  intros Hs Hn Ha. rewrite (iv_mem _ Hs a se pid Ha). split.
  - intros (m & c' & Hm & Hc). destruct (decide (m = n)) as [->|]; [|right; by exists m, c'].
    left. by replace c with c' by congruence.
  - intros [H|(m & c' & _ & H)]; [by exists n, c|by exists m, c'].
Qed.

(** Sessions stay where they are, under their ids. *)
Definition sfu_ext (f f' : SFU) : Prop :=
  forall a se, sess_store f !! a = Some se -> exists se', sess_store f' !! a = Some se' /\ sess_id se' = sess_id se.

Lemma on_session_ext g a f : (forall se, sess_id (g se) = sess_id se) -> sfu_ext f (on_session g a f).
Proof.
  intros Hg b se Hb. unfold on_session. cbn [upd settable_SFU eta_record sess_store]. destruct (decide (b = a)) as [->|Hn].
  - rewrite list_lookup_alter_eq, Hb. by eexists.
  - rewrite list_lookup_alter_ne by done. by exists se.
Qed.

Lemma newSession_ext f id : sfu_ext f (newSession f id).1.
Proof. intros a se Ha. exists se. split; [by apply lookup_app_l_Some|done]. Qed.

Lemma depart_ext f t : sfu_ext f (depart f t).1.
Proof.
  destruct t as [a|a|a]; cbn [depart fst]; [by intros b se ?; exists se|by apply on_session_ext|].
  intros b se Hb. rewrite close_handler_store. by exists se.
Qed.

Lemma conn_ok_ext f f' c : sfu_ext f f' -> conn_ok f c -> conn_ok f' c.
Proof.
  intros Hf [H1 H2 H3 H4]. split; try done. intros a Ha. destruct (H1 a Ha) as (se & Hse & Hid).
  destruct (Hf a se Hse) as (se' & ? & ?). exists se'. split; [done|congruence].
Qed.

Lemma inv_update s n c' f' l' :
  srv_inv s -> table_known f' l' -> sfu_ext (sv_sfu s) f' -> conn_ok f' c' ->
  (forall m c, m <> n -> sv_conns s !! m = Some c -> p_id (cn_peer c) = p_id (cn_peer c') ->
     cn_in c = false /\ cn_in c' = false) ->
  (forall a se pid, sess_store f' !! a = Some se ->
     (pid ∈ peers se <-> member c' a pid \/ others s n a pid)) ->
  srv_inv (MkServer f' (<[n := c']> (sv_conns s)) l').
Proof.
  intros Hs Ht Hf Hc Hid Hmem. split; cbn [sv_sfu sv_conns sv_leaving]; [done| | |].
  - intros m c [[<- <-]|[Hn Hm]]%lookup_insert_Some; [done|].
    eapply conn_ok_ext; [done|]. by apply (iv_conn _ Hs m).
  - intros n1 m c1 c2 [[<- <-]|[Hn Hn1]]%lookup_insert_Some [[<- <-]|[Hm Hm1]]%lookup_insert_Some Hin Heq;
      [done| | |by eapply iv_id].
    + destruct (Hid m c2) as [_ ?]; [congruence|done|done|congruence].
    + destruct (Hid n1 c1) as [? _]; [congruence|done|done|congruence].
  - intros a se pid Ha. rewrite (Hmem a se pid Ha). split.
    + intros [H|(m & c & Hn & Hm & H)].
      * exists n, c'. by rewrite lookup_insert_eq.
      * exists m, c. by rewrite lookup_insert_ne.
    + intros (m & c & [[<- <-]|[Hn Hm]]%lookup_insert_Some & H); [by left|right; by exists m, c].
Qed.

(** A change that the SFU does not see *)
Lemma inv_local s n c c' :
  srv_inv s -> sv_conns s !! n = Some c -> conn_ok (sv_sfu s) c' ->
  p_id (cn_peer c') = p_id (cn_peer c) -> cn_in c' = cn_in c -> cn_sess c' = cn_sess c ->
  srv_inv (MkServer (sv_sfu s) (<[n := c']> (sv_conns s)) (sv_leaving s)).
Proof.
  intros Hs Hn Hc Hid Hin Hse. apply inv_update; try done; [apply Hs|by intros a se ?; exists se| |].
  - intros m c0 Hne Hm Heq. rewrite Hin. rewrite Hid in Heq. split.
    + destruct (cn_in c0) eqn:E; [|done]. destruct Hne. by apply (iv_id _ Hs m n c0 c).
    + destruct (cn_in c) eqn:E; [|done]. destruct Hne. symmetry. by apply (iv_id _ Hs n m c c0).
  - intros a se pid Ha. rewrite (peers_split s n c a se pid Hs Hn Ha).
    unfold member. by rewrite Hid, Hin, Hse.
Qed.

Lemma start_inv : srv_inv start_server.
Proof.
  by split.
Qed.

Lemma connects_inv s s' : srv_inv s -> connects s s' -> srv_inv s'.
Proof.
  intros Hs H. destruct H as [s0 n Hn]. apply inv_update; try done; [apply Hs|by intros a se ?; exists se| |].
  - intros m c _ Hm Heq. split; [|done]. destruct (cn_in c) eqn:E; [|done].
    destruct (ck_in _ _ (iv_conn _ Hs m c Hm) E) as (_ & _ & _ & _ & ?). done.
  - intros a se pid Ha. rewrite (iv_mem _ Hs a se pid Ha). split.
    + intros (m & c & Hm & H). right. exists m, c. split; [congruence|done].
    + intros [[? _]|(m & c & _ & H)]; [done|by exists m, c].
Qed.

Lemma wants_join_out f c req sid : conn_ok f c -> wants_join (cn_peer c) req = Some sid -> cn_in c = false.
Proof.
  intros Hc Hw. destruct (cn_in c) eqn:E; [|done]. destruct (ck_in _ _ Hc E) as (_ & _ & [pub Hp] & _).
  unfold wants_join in Hw. rewrite Hp in Hw. by destruct (String.eqb _ _).
Qed.

Lemma looks_up_inv s n s' : srv_inv s -> looks_up s n s' -> srv_inv s'.
Proof.
  intros Hs H. destruct H as [s0 n0 c req sid Hn Hop Hj Hw]. pose proof (iv_conn _ Hs n0 c Hn) as Hc.
  pose proof (wants_join_out _ _ _ _ Hc Hw) as Hin.
  apply inv_update; try done; [apply Hs|by intros a se ?; exists se| | |].
  - split; cbn; try done.
    + intros a Ha. destruct (iv_table _ Hs sid a Ha) as (se & ? & ? & _). by exists se.
    + by intros req' [= <-].
  - intros m c0 Hne Hm Heq. split; [|done]. destruct (cn_in c0) eqn:E; [|done].
    destruct Hne. by apply (iv_id _ Hs m n0 c0 c).
  - intros a se' pid Ha. rewrite (peers_split s0 n0 c a se' pid Hs Hn Ha). unfold member. rewrite Hin. cbn. naive_solver.
Qed.

Lemma creates_inv s n s' : srv_inv s -> creates s n s' -> srv_inv s'.
Proof.
  intros Hs H. destruct H as [s0 n0 c req Hn Hj Hse]. pose proof (iv_conn _ Hs n0 c Hn) as Hc.
  destruct (ck_joining _ _ Hc _ Hj) as (Hop & Hin & Hw).
  apply inv_update; try done; [by apply table_known_new, Hs|by apply newSession_ext| | |].
  - split; cbn; try done.
    + intros a [= <-]. eexists. cbn. split; [by apply list_lookup_middle|done].
    + by intros req' [= <-].
  - intros m c0 Hne Hm Heq. split; [|done]. destruct (cn_in c0) eqn:E; [|done].
    destruct Hne. by apply (iv_id _ Hs m n0 c0 c).
  - intros a se pid. cbn [newSession fst upd settable_SFU eta_record sess_store].
    intros [Ha|[Hge Ha]]%lookup_app_Some.
    + rewrite (peers_split s0 n0 c a se pid Hs Hn Ha). unfold member. rewrite Hin. cbn. naive_solver.
    + apply list_lookup_singleton_Some in Ha as [Ha <-]. cbn [peers NewSession].
      split; [set_solver|]. intros [[? _]|(m & c' & _ & Hm & _ & Hs' & _)]; [done|].
      destruct (ck_sess _ _ (iv_conn _ Hs m c' Hm) _ Hs') as (se0 & Hl & _).
      apply lookup_lt_Some in Hl. lia.
Qed.

Lemma finishes_inv s n s' : srv_inv s -> finishes s n s' -> srv_inv s'.
Proof.
  intros Hs H. destruct H as [s0 n0 c req a pid m1 m2 dcs p' rs Hn Hj Ha Hne Hfresh w HH].
  pose proof (iv_conn _ Hs n0 c Hn) as Hc.
  destruct (ck_joining _ _ Hc _ Hj) as (Hop & Hin & Hw).
  pose proof (Handle_id _ _ _ _ _ HH) as Hid. rewrite Hw in Hid. destruct Hid as [Hid Hpub].
  change (jw_pid w) with pid in Hid.
  assert (conn_ok (sv_sfu s0) (MkConn p' (Some a) (cn_sid c) None (enters (cn_peer c) w) true)) as Hok.
  { split; cbn; try done.
    - intros b [= <-]. by apply (ck_sess _ _ Hc).
    - intros He. split_and!; try done; [by apply Hpub|by rewrite Hid]. }
  assert (forall m c0, m <> n0 -> sv_conns s0 !! m = Some c0 -> p_id (cn_peer c0) <> p_id p') as Hot
    by (intros m c0 _ Hm; rewrite Hid; by eapply Hfresh).
  destruct (enters (cn_peer c) w) eqn:He; apply inv_update; try done.
  - apply table_known_session; [done|by left|apply Hs].
  - by apply on_session_ext.
  - eapply conn_ok_ext; [by apply on_session_ext|done].
  - intros m c0 Hm Hl Heq. by destruct (Hot m c0 Hm Hl).
  - intros b se q (se0 & Hb & _ & _ & ->)%AddPeer_store.
    pose proof (peers_split s0 n0 c b se0 q Hs Hn Hb) as Hm. unfold member in Hm at 1. rewrite Hin in Hm.
    unfold member at 1. cbn. rewrite Hid. case_decide as Hd; [|naive_solver].
    rewrite elem_of_union, elem_of_singleton, Hm. naive_solver.
  - apply Hs.
  - intros b se ?. by exists se.
  - intros m c0 Hm Hl Heq. by destruct (Hot m c0 Hm Hl).
  - intros b se q Hb. rewrite (peers_split s0 n0 c b se q Hs Hn Hb). unfold member. rewrite Hin. cbn. naive_solver.
Qed.

Lemma shut_ice p st :
  shut p -> shut (p <| p_subscriber := (fun x => sub_ice x st) <$> p_subscriber p |>)
  /\ shut (p <| p_publisher := (fun x => pub_ice x st) <$> p_publisher p |>).
Proof.
  intros (H1 & H2 & H3). split; (split; [done|]); cbn; (split; [try exact H2|try exact H3]).
  - intros x (y & Hy & ->)%fmap_Some. specialize (H3 y Hy). unfold sub_ice, sub_Close. destruct st; by rewrite ?H3.
  - intros x (y & Hy & ->)%fmap_Some. specialize (H2 y Hy). unfold pub_ice, pub_Close. destruct st; by rewrite ?H2.
Qed.

Lemma p_Close_shut p : shut (p_Close p).
Proof.
  split; [done|]. split; cbn.
  - intros x (y & _ & ->)%fmap_Some. unfold pub_Close. by destruct (pub_closeOnce y) eqn:E; rewrite ?E.
  - intros x (y & _ & ->)%fmap_Some. unfold sub_Close. by destruct (sub_closeOnce y) eqn:E; rewrite ?E.
Qed.

Lemma other_step_inv s s' : srv_inv s -> other_step s s' -> srv_inv s'.
Proof.
  intros Hs H. destruct H as [s n c ev p' out Hn Hop Hj Hev Hst|s n c st Hn p|s n c st Hn p];
    pose proof (iv_conn _ Hs n c Hn) as Hc; try subst p.
  - destruct (conn_step_id _ _ _ _ Hev Hst) as [Hid Hpub].
    apply (inv_local s n c); try done. destruct Hc as [H1 H2 H3 H4]. split; cbn; try done.
    intros Hin. destruct (H2 Hin) as (? & ? & ? & ? & ?). rewrite Hid. auto.
  - apply (inv_local s n c); try done. destruct Hc as [H1 H2 H3 H4]. split; try done.
    intros Ho. by apply (shut_ice (cn_peer c) st), H4.
  - apply (inv_local s n c); try done. destruct Hc as [H1 H2 H3 H4]. split; try done.
    + intros Hin. destruct (H2 Hin) as (? & ? & [pub Hp] & ? & ?). split_and!; try done.
      unfold has_pub. cbn. rewrite Hp. by eexists.
    + intros req Hq. destruct (H3 req Hq) as (? & ? & Hw). split_and!; try done.
      cbn [cn_peer cn_sid]. rewrite <-Hw. unfold wants_join. cbn [upd settable_Peer eta_record p_publisher].
      by destruct (p_publisher (cn_peer c)).
    + intros Ho. by apply (shut_ice (cn_peer c) st), H4.
Qed.

Lemma shut_conn f c : conn_ok f c -> conn_ok f (MkConn (p_Close (cn_peer c)) (cn_sess c) (cn_sid c) None false false).
Proof. intros Hc. split; cbn; try done; [apply Hc|intros _; apply p_Close_shut]. Qed.

Lemma disconnects_inv s s' : srv_inv s -> disconnects s s' -> srv_inv s'.
Proof.
  intros Hs H. destruct H as [s n c Hn Hop Hj conns]. pose proof (iv_conn _ Hs n c Hn) as Hc. subst conns.
  assert (forall m c0, m <> n -> sv_conns s !! m = Some c0 ->
    p_id (cn_peer c0) = p_id (cn_peer (MkConn (p_Close (cn_peer c)) (cn_sess c) (cn_sid c) None false false)) ->
    cn_in c0 = false /\ false = false) as Hoid.
  { intros m c0 Hne Hm Heq. split; [|done]. destruct (cn_in c0) eqn:E; [|done].
    destruct Hne. by apply (iv_id _ Hs m n c0 c). }
  assert (forall a pid, others s n a pid -> pid <> p_id (cn_peer c)) as Hot.
  { intros a pid (m & c0 & Hne & Hm & Hin & _ & <-) Heq. destruct Hne. by apply (iv_id _ Hs m n c0 c). }
  assert (forall a pid, ~ member (MkConn (p_Close (cn_peer c)) (cn_sess c) (cn_sid c) None false false) a pid)
    as Hno by (by intros a pid [? _]).
  destruct (cn_sess c) as [b|] eqn:Es; rewrite <-Es in *; apply inv_update; try done.
  - apply table_known_session; [done|by left|]. eapply table_known_mono, Hs. intros x. set_solver.
  - by apply on_session_ext.
  - eapply conn_ok_ext; [by apply on_session_ext|by apply shut_conn].
  - intros a se pid (se0 & Ha & ->)%on_session_store.
    pose proof (peers_split s n c a se0 pid Hs Hn Ha) as Hm. specialize (Hot a pid). specialize (Hno a pid).
    unfold member in Hm at 1. rewrite Es in *. case_decide as Hd; cbn [rp_delete upd settable_session eta_record peers].
    + rewrite elem_of_difference, elem_of_singleton, Hm. naive_solver.
    + rewrite Hm. naive_solver.
  - apply Hs.
  - by intros a se ?; exists se.
  - by apply shut_conn.
  - intros a se pid Ha. pose proof (peers_split s n c a se pid Hs Hn Ha) as Hm. specialize (Hno a pid).
    unfold member in Hm at 1. rewrite Es in *. rewrite Hm. naive_solver.
Qed.

Lemma departs_inv s s' : srv_inv s -> departs s s' -> srv_inv s'.
Proof.
  intros Hs H. destruct H as [s l1 t l2 Hl]. split; cbn [sv_sfu sv_conns sv_leaving].
  - apply table_known_depart. rewrite <-Hl. apply Hs.
  - intros n c Hn. eapply conn_ok_ext; [apply depart_ext|by apply (iv_conn _ Hs n)].
  - apply Hs.
  - intros a se pid (se0 & Ha & _ & ->)%depart_store. by apply Hs.
Qed.

Lemma server_step_inv s s' : srv_inv s -> server_step s s' -> srv_inv s'.
Proof.
  intros Hs H. destruct H; [by eapply connects_inv|by eapply looks_up_inv|by eapply creates_inv
    |by eapply finishes_inv|by eapply disconnects_inv|by eapply departs_inv|by eapply other_step_inv].
Qed.

Lemma server_run_inv s s' : srv_inv s -> rtc server_step s s' -> srv_inv s'.
Proof. intros Hs H. induction H as [|s0 s1 s2 H _ IH]; [done|]. by apply IH, (server_step_inv s0). Qed.

(** ** Properties *)

(** C6. However the connections interleave, with joins that fail, joins that are
    interrupted between their two sections, and connections whose ICE agents
    fail: the peers of each session are exactly those of the websockets that
    are connected and whose join entered it; and a websocket that has
    disconnected leaves its peer in no session, both its connections closed,
    and no candidate is sent to it any more. *)
Theorem membership s :
  rtc server_step start_server s ->
  (forall a se pid, sess_store (sv_sfu s) !! a = Some se ->
     (pid ∈ peers se <-> exists n c, sv_conns s !! n = Some c /\ cn_open c = true /\ member c a pid))
  /\ (forall n c, sv_conns s !! n = Some c -> cn_open c = false ->
       shut (cn_peer c) /\ (forall cand t, on_candidate (cn_peer c) cand t = None)
       /\ forall a se, sess_store (sv_sfu s) !! a = Some se -> p_id (cn_peer c) ∉ peers se).
Proof.
  intros Hrun. pose proof (server_run_inv _ _ start_inv Hrun) as Hs. split.
  - intros a se pid Ha. rewrite (iv_mem _ Hs a se pid Ha). split.
    + intros (n & c & Hn & Hm). exists n, c. split; [done|]. split; [|done].
      by apply (ck_in _ _ (iv_conn _ Hs n c Hn)), Hm.
    + intros (n & c & Hn & _ & Hm). by exists n, c.
  - intros n c Hn Ho. pose proof (iv_conn _ Hs n c Hn) as Hc. pose proof (ck_closed _ _ Hc Ho) as Hsh.
    split; [done|]. split.
    { intros [cand|] t; [|done]. unfold on_candidate. destruct Hsh as (-> & _). by rewrite andb_false_r. }
    intros a se Ha (m & c' & Hm & Hin & _ & Hid)%(iv_mem _ Hs a se _ Ha).
    assert (m = n) as -> by (by apply (iv_id _ Hs m n c' c)). replace c' with c in Hin by congruence.
    destruct (ck_in _ _ Hc Hin). congruence.
Qed.

(** What a serial run keeps: the table has the open sessions, and a session
    that has a peer is open. *)
Record serial_ok (f : SFU) : Prop := {
  so_table : table_ok f;
  so_open : forall a se, sess_store f !! a = Some se -> peers se <> ∅ -> sess_closed se = false }.

Lemma GetSession_serial f sid :
  serial_ok f -> serial_ok (GetSession f sid).1
  /\ exists se, sess_store (GetSession f sid).1 !! (GetSession f sid).2 = Some se /\ sess_closed se = false.
Proof.
  intros [Ht Ho]. split; [split; [exact (sfu_do_ok f (og_Get sid) Ht)|]|].
  - intros b se [Hb|[Hp _]]%GetSession_store Hne; [by apply (Ho b)|done].
  - destruct (GetSession_open f sid Ht) as (se & ? & _ & ?). by exists se.
Qed.

Lemma AddPeer_serial f a se pid :
  serial_ok f -> sess_store f !! a = Some se -> sess_closed se = false -> serial_ok (sfu_AddPeer f a pid).
Proof.
  intros [Ht Ho] Ha Hc. split; [exact (sfu_do_ok f (og_Add a pid) Ht)|].
  intros b se' (se0 & Hb & _ & -> & Hp)%AddPeer_store Hne. case_decide as Hd; [congruence|].
  apply (Ho b); congruence.
Qed.

Lemma RemovePeer_serial f a pid : serial_ok f -> serial_ok (sfu_RemovePeer f a pid).
Proof.
  intros [Ht Ho]. split; [exact (sfu_do_ok f (og_Remove a pid) Ht)|].
  intros b se (se0 & Hb & Hp & [->|?])%RemovePeer_store Hne; [|done].
  apply (Ho b se0 Hb). case_decide; [set_solver|congruence].
Qed.

Lemma finishes_serial s n s' c :
  serial_ok (sv_sfu s) -> finishes s n s' -> sv_conns s !! n = Some c ->
  (forall a, cn_sess c = Some a -> exists se, sess_store (sv_sfu s) !! a = Some se /\ sess_closed se = false) ->
  serial_ok (sv_sfu s') /\ sv_leaving s' = sv_leaving s.
Proof.
  intros Hs H Hc Hse. destruct H as [s0 n0 c0 req a pid m1 m2 dcs p' rs Hn Hj Ha _ _ w HH]. split; [|done].
  replace c with c0 in * by congruence. destruct (Hse a Ha) as (se & Hl & Ho). cbn [sv_sfu].
  destruct (enters _ w); [by apply (AddPeer_serial _ a se)|done].
Qed.

Definition departure_rank (t : departure) : nat :=
  match t with DpTest _ => 2 | DpClose _ => 1 | DpHandler _ => 0 end.

Lemma departs_one s t s' :
  rtc departs s s' -> sv_leaving s = [t] -> sv_leaving s' = [] ->
  sv_sfu s' = depart_all (departure_rank t) (sv_sfu s) t.
Proof.
  intros H. revert t. induction H as [s|s s1 s' Hst Hrun IH]; intros t Hl Hn; [congruence|].
  destruct Hst as [s l1 u l2 Hl1]. rewrite Hl in Hl1.
  destruct l1 as [|? [|]]; [|done..]. injection Hl1 as <- <-. cbn [sv_leaving sv_sfu app] in *.
  destruct (depart (sv_sfu s) t) as [f o] eqn:E. cbn [fst snd] in *. destruct o as [t1|]; cbn [option_list app] in *.
  - rewrite (IH t1) by done.
    destruct t as [a|a|a]; cbn [depart] in E; [|by injection E as <- <-|done].
    cbn [departure_rank depart_all depart]. destruct (sess_store (sv_sfu s) !! a) as [se|]; [|done].
    destruct (rp_last se); [|done]. by injection E as <- <-.
  - assert (s' = MkServer f (sv_conns s) []) as ->.
    { apply rtc_inv in Hrun as [<-|(y & Hy & _)]; [done|]. inversion Hy as [? l1 u l2 Hl1]. by destruct l1. }
    cbn [sv_sfu]. destruct (departure_rank t); cbn [depart_all]; by rewrite E.
Qed.

Lemma serial_step_ok s s' :
  srv_inv s -> serial_ok (sv_sfu s) -> sv_leaving s = [] -> serial_step s s' ->
  serial_ok (sv_sfu s') /\ sv_leaving s' = [].
Proof.
  intros Hs Ho Hl H. destruct H as [s s' H|s n s1 s' H1 H2|s n s1 s2 s' H1 H2 H3|s s1 s' H1 H2 H3|s s' H].
  - by destruct H.
  - destruct H1 as [s n c req sid Hn _ _ _]. rewrite <-Hl.
    refine (finishes_serial _ _ _ _ _ H2 (lookup_insert_eq _ _ _) _); [exact Ho|]. cbn [cn_sess sv_sfu]. intros a Ha.
    destruct (so_table _ Ho sid a) as [Ht _]. destruct (Ht Ha) as (se & ? & _ & ?). by exists se.
  - destruct H1 as [s n c req sid Hn _ _ _].
    inversion H2 as [s3 n3 c3 req3 Hn3 _ Hse E1 E2]. subst. cbn [sv_conns sv_sfu sv_leaving] in *.
    rewrite lookup_insert_eq in Hn3. injection Hn3 as <-. cbn [cn_sess cn_sid cn_peer] in *. rewrite <-Hl.
    assert (GetSession (sv_sfu s) sid = newSession (sv_sfu s) sid) as Hg by (unfold GetSession; by rewrite Hse).
    destruct (GetSession_serial (sv_sfu s) sid Ho) as [Ho1 (se & Hse1 & Hc1)]. rewrite Hg in *.
    refine (finishes_serial _ _ _ _ _ H3 (lookup_insert_eq _ _ _) _); [exact Ho1|]. cbn [cn_sess sv_sfu]. intros a [= <-]. by exists se.
  - split; [|done]. destruct H1 as [s n c Hn Hop Hj conns]. destruct (cn_sess c) as [a|] eqn:Es.
    + pose proof (iv_conn _ Hs n c Hn) as Hc. destruct (ck_sess _ _ Hc a Es) as (se & Hse & _).
      rewrite (departs_one _ (DpTest a) _ H2); [|cbn; by rewrite Hl|done].
      refine (eq_rect _ serial_ok _ _ (eq_sym (depart_undisturbed _ _ _ _))); [|by eexists].
      by apply RemovePeer_serial.
    + apply rtc_inv in H2 as [<-|(y & Hy & _)]; [done|].
      inversion Hy as [? l1 u l2 Hl1]. cbn [sv_leaving] in Hl1. rewrite Hl in Hl1. by destruct l1.
  - by destruct H as [s n c ev p' out Hn Hop Hj Hev Hst|s n c st Hn p|s n c st Hn p].
Qed.

(** C20. However the calls overlap, the table of sessions never keeps a closed
    session for good: an entry is a session with the id, and it is closed
    only while its close handler is still to run.  So whenever no departure
    is under way, who asks for an id gets an open session with this id. *)
Theorem closed_sessions_leave s :
  rtc server_step start_server s ->
  (forall sid a, getSession (sv_sfu s) sid = Some a ->
     exists se, sess_store (sv_sfu s) !! a = Some se /\ sess_id se = sid
       /\ (sess_closed se = true -> DpHandler a ∈ sv_leaving s))
  /\ (sv_leaving s = [] -> forall sid,
       exists se, sess_store (GetSession (sv_sfu s) sid).1 !! (GetSession (sv_sfu s) sid).2 = Some se
         /\ sess_id se = sid /\ sess_closed se = false).
Proof.
  intros Hrun. pose proof (iv_table _ (server_run_inv _ _ start_inv Hrun)) as Ht.
  split; [exact Ht|]. intros Hl sid. unfold GetSession. destruct (getSession (sv_sfu s) sid) as [a|] eqn:E.
  - destruct (Ht sid a E) as (se & ? & ? & Hc). exists se. split_and!; try done.
    destruct (sess_closed se); [|done]. rewrite Hl in Hc. by apply elem_of_nil in Hc; [|].
  - eexists. cbn. split; [by apply list_lookup_middle|done].
Qed.

(** C19. In the runs in which nothing comes between the sections of a join, nor
    between the parts of a departure ([closed_sessions_leave] is about all
    runs): every peer is in an open session with the id it asked for, which is
    the one that the table has under the id and the next to ask will get; so
    two peers are in the same session exactly if they asked for the same id. *)
Theorem same_room s :
  rtc serial_step start_server s ->
  (forall n c, sv_conns s !! n = Some c -> cn_in c = true ->
     exists a se, cn_sess c = Some a /\ sess_store (sv_sfu s) !! a = Some se
       /\ sess_id se = cn_sid c /\ sess_closed se = false /\ p_id (cn_peer c) ∈ peers se
       /\ getSession (sv_sfu s) (cn_sid c) = Some a)
  /\ (forall n m c c', sv_conns s !! n = Some c -> sv_conns s !! m = Some c' ->
       cn_in c = true -> cn_in c' = true -> (cn_sid c = cn_sid c' <-> cn_sess c = cn_sess c')).
Proof.
  intros Hrun. assert (srv_inv s /\ serial_ok (sv_sfu s) /\ sv_leaving s = []) as (Hs & Ho & _).
  { assert (srv_inv start_server /\ serial_ok (sv_sfu start_server) /\ sv_leaving start_server = []) as H0.
    { split; [exact start_inv|]. split; [|done]. split; [|by intros a se].
      intros id a. cbn. split; [done|by intros (? & ? & _)]. }
    revert H0. induction Hrun as [|s0 s1 s2 H _ IH]; [done|]. intros (H0 & H1 & H2). apply IH. split.
    - eapply server_run_inv; [exact H0|by apply serial_steps].
    - by eapply serial_step_ok. }
  assert (forall n c, sv_conns s !! n = Some c -> cn_in c = true ->
     exists a se, cn_sess c = Some a /\ sess_store (sv_sfu s) !! a = Some se
       /\ sess_id se = cn_sid c /\ sess_closed se = false /\ p_id (cn_peer c) ∈ peers se
       /\ getSession (sv_sfu s) (cn_sid c) = Some a) as Hin.
  { intros n c Hn Hi. pose proof (iv_conn _ Hs n c Hn) as Hc.
    destruct (ck_in _ _ Hc Hi) as (_ & _ & _ & [a Ha] & _).
    destruct (ck_sess _ _ Hc a Ha) as (se & Hse & Hid).
    assert (p_id (cn_peer c) ∈ peers se) as Hp by (apply (iv_mem _ Hs a se _ Hse); by exists n, c).
    assert (sess_closed se = false) as Hcl by (apply (so_open _ Ho a); [done|set_solver]).
    exists a, se. split_and!; try done. apply (so_table _ Ho). by exists se. }
  split; [done|]. intros n m c c' Hn Hm Hi Hi'.
  destruct (Hin n c Hn Hi) as (a & se & -> & Hse & Hid & _ & _ & Ht).
  destruct (Hin m c' Hm Hi') as (b & se' & -> & Hse' & Hid' & _ & _ & Ht'). split.
  - intros Heq. congruence.
  - intros [= ->]. congruence.
Qed.
End server.

(** ** Two clients in a room *)

Definition ex_join_req : Signal.Request (json := string) := MkRequest "join" (Some "v=0"%string).

(** The next steps of a run, from the state in normal form *)
#[local] Ltac norm_state :=
  match goal with |- rtc ?R ?s ?t =>
    let s' := eval vm_compute in s in
    refine (eq_ind s' (fun x => rtc R x t) _ s _); [|vm_compute; reflexivity] end.

Lemma fresh_id {PC} (conns : gmap nat (conn (PC := PC) (json := string))) pid :
  bool_decide (map_Forall (fun _ c => p_id (cn_peer c) <> pid) conns) = true ->
  forall m c, conns !! m = Some c -> p_id (cn_peer c) <> pid.
Proof. intros H. by apply bool_decide_eq_true in H. Qed.

#[local] Abbreviation ex_step := (server_step (PP := ex_connection) (fun j : string => Some ("room"%string, j))
  (fun j => Some j) (fun _ => None) (fun _ : unit => Some (ExPC [] false))).
#[local] Abbreviation ex_serial := (serial_step (PP := ex_connection) (fun j : string => Some ("room"%string, j))
  (fun j => Some j) (fun _ => None) (fun _ : unit => Some (ExPC [] false))).

#[local] Ltac ev := vm_compute; reflexivity.
#[local] Ltac ex_finishes n pid :=
  eapply (sv_finish _ _ _ _ _ n _ ex_join_req _ pid (Some tt) (Some tt) [true]);
    [ev|ev|ev|discriminate|apply fresh_id; ev|ev].

Lemma same_room_witness :
  exists s c c', rtc ex_serial start_server s
    /\ sv_conns s !! 0%nat = Some c /\ sv_conns s !! 1%nat = Some c'
    /\ p_id (cn_peer c) = "p"%string /\ p_id (cn_peer c') = "q"%string /\ cn_sess c = cn_sess c'.
Proof.
  eexists _, _, _.
  match goal with |- rtc _ _ ?s /\ _ => assert (rtc ex_serial start_server s) as Hrun end.
  { eapply rtc_l; [apply ss_connect, (sv_connect _ 0); ev|]. norm_state.
    eapply rtc_l; [apply ss_connect, (sv_connect _ 1); ev|]. norm_state.
    eapply rtc_l.
    { eapply (ss_first _ _ _ _ _ 0);
        [eapply (sv_lookup _ _ 0 _ ex_join_req "room"); ev|eapply (sv_create _ 0); ev|ex_finishes 0%nat "p"%string]. }
    norm_state. eapply rtc_l; [|norm_state; apply rtc_refl].
    eapply (ss_join _ _ _ _ _ 1); [eapply (sv_lookup _ _ 1 _ ex_join_req "room"); ev|ex_finishes 1%nat "q"%string]. }
  split; [exact Hrun|]. split; [ev|]. split; [ev|]. split; [ev|]. split; [ev|].
  destruct (same_room _ _ _ _ _ Hrun) as [_ H]. apply (H 0%nat 1%nat); ev.
Defined.

(** The first one leaves again, after the second one's ICE agent has failed:
    the second one is still in the session. *)
Lemma membership_witness :
  exists s c c' se, rtc ex_step start_server s
    /\ sv_conns s !! 0%nat = Some c /\ sv_conns s !! 1%nat = Some c' /\ cn_open c = false
    /\ (forall x, p_publisher (cn_peer c') = Some x -> pub_closeOnce x = true)
    /\ sess_store (sv_sfu s) !! 0%nat = Some se
    /\ p_id (cn_peer c) ∉ peers se /\ p_id (cn_peer c') ∈ peers se.
Proof.
  eexists _, _, _, _.
  match goal with |- rtc _ _ ?s /\ _ => assert (rtc ex_step start_server s) as Hrun end.
  { eapply rtc_l; [apply st_connect, (sv_connect _ 0); ev|]. norm_state.
    eapply rtc_l; [apply st_connect, (sv_connect _ 1); ev|]. norm_state.
    eapply rtc_l; [eapply st_lookup, (sv_lookup _ _ 0 _ ex_join_req "room"); ev|]. norm_state.
    eapply rtc_l; [eapply st_create, (sv_create _ 0); ev|]. norm_state.
    eapply rtc_l; [eapply st_lookup, (sv_lookup _ _ 1 _ ex_join_req "room"); ev|]. norm_state.
    eapply rtc_l; [eapply st_finish; ex_finishes 0%nat "p"%string|]. norm_state.
    eapply rtc_l; [eapply st_finish; ex_finishes 1%nat "q"%string|]. norm_state.
    eapply rtc_l; [eapply st_other, (sv_pub_ice _ _ _ _ 1 _ ICEFailed); ev|]. norm_state.
    eapply rtc_l; [eapply st_disconnect, (sv_disconnect _ 0); ev|]. norm_state.
    eapply rtc_l; [eapply st_depart, (sv_depart _ [] (DpTest 0) []); ev|]. norm_state. apply rtc_refl. }
  split; [exact Hrun|]. split; [ev|]. split; [ev|]. split; [ev|].
  split; [by vm_compute; intros x [= <-]|]. split; [ev|].
  destruct (membership _ _ _ _ _ Hrun) as [H1 H2]. split.
  - refine (proj2 (proj2 (H2 0%nat _ _ _)) 0%nat _ _); ev.
  - refine (proj2 (H1 0%nat _ _ _) _); [ev|]. exists 1%nat. eexists. split; [ev|]. split; [ev|].
    split_and!; ev.
Defined.

(** The only client leaves: the table still has its session after the test,
    with the handler to run once it is closed, and no session when the
    departure is over. *)
Lemma closed_sessions_leave_witness :
  exists s s', rtc ex_step start_server s /\ getSession (sv_sfu s) "room" = Some 0%nat
    /\ DpHandler 0 ∈ sv_leaving s
    /\ rtc ex_step start_server s' /\ getSession (sv_sfu s') "room" = None
    /\ exists se, sess_store (GetSession (sv_sfu s') "room").1 !! 1%nat = Some se /\ sess_closed se = false.
Proof.
  eexists _, _.
  match goal with |- rtc _ _ ?s /\ _ => assert (rtc ex_step start_server s) as Hrun end.
  { eapply rtc_l; [apply st_connect, (sv_connect _ 0); ev|]. norm_state.
    eapply rtc_l; [eapply st_lookup, (sv_lookup _ _ 0 _ ex_join_req "room"); ev|]. norm_state.
    eapply rtc_l; [eapply st_create, (sv_create _ 0); ev|]. norm_state.
    eapply rtc_l; [eapply st_finish; ex_finishes 0%nat "p"%string|]. norm_state.
    eapply rtc_l; [eapply st_disconnect, (sv_disconnect _ 0); ev|]. norm_state.
    eapply rtc_l; [eapply st_depart, (sv_depart _ [] (DpTest 0) []); ev|]. norm_state.
    eapply rtc_l; [eapply st_depart, (sv_depart _ [] (DpClose 0) []); ev|]. norm_state. apply rtc_refl. }
  match goal with |- _ /\ _ /\ _ /\ rtc _ _ ?s /\ _ => assert (rtc ex_step start_server s) as Hrun' end.
  { eapply rtc_r; [exact Hrun|]. eapply st_depart, (sv_depart _ [] (DpHandler 0) []). ev. }
  split; [exact Hrun|]. split; [ev|]. split.
  - destruct (closed_sessions_leave _ _ _ _ _ Hrun) as [H _].
    destruct (H "room"%string 0%nat) as (se & Hse & _ & Hc); [ev|]. apply Hc.
    revert Hse. vm_compute. by intros [= <-].
  - split; [exact Hrun'|]. split; [ev|].
    destruct (closed_sessions_leave _ _ _ _ _ Hrun') as [_ H].
    destruct (H eq_refl "room"%string) as (se & Hse & _ & Hc). exists se. split; [exact Hse|exact Hc].
Defined.
