(* ===== verification/Main.v ===== *)
(** * The process ([main.go])

    [main] reads the flags and the configuration, makes the SFU, and starts
    two listeners: the metrics, in a goroutine of their own, and the
    websockets.  Either one that cannot be bound ends the process; only
    while the second one listens are there connections ([Server]). *)

From stdpp Require Import gmap strings.
From S2P Require Import Prelude Peer Session Config Server.
#[local] Open Scope Z_scope.

(** ** Data *)

(** The flags, and what they are when they are not given *)
Record flags := Flags {
  f_file : string;
  f_addr : string;
  f_cert : string;
  f_key : string;
  f_metricsAddr : string;
  f_help : bool }.

Definition default_flags : flags := Flags "config.json" ":8765" EmptyString EmptyString ":8100" false.

(** Whether [ListenAndServeTLS] is called, instead of [ListenAndServe] *)
Definition serves_tls (fl : flags) : bool :=
  (negb (String.eqb (f_key fl) EmptyString) && negb (String.eqb (f_cert fl) EmptyString))%bool.

Inductive listener := Binding | Listening | Ended.

(** [startMetrics]: an address that cannot be bound is a panic ([None]), a
    server that stops is only logged. *)
Inductive metrics_step : listener -> option listener -> Prop :=
| ms_bound : metrics_step Binding (Some Listening)
| ms_refused : metrics_step Binding None
| ms_stopped : metrics_step Listening (Some Ended).

Section process.
Context {PC : Type} {PP : PeerConnection PC}.
Context {json : Type} (parse_join : json -> option (string * sdp)) (parse_negotiation : json -> option sdp)
  (parse_trickle : json -> option (candidate * Z)).
Context {ME : Type} (NewPeerConnection : ME -> option PC).
(** The file system and viper: the configuration in a file, if there is one
    that can be read; pion's test of a port range *)
Context (read_config : string -> option Config) (SetEphemeralUDPPortRange : Z -> Z -> bool).
#[local] Abbreviation server := (server (PC := PC) (json := json)).
#[local] Abbreviation server_step := (server_step parse_join parse_negotiation parse_trickle NewPeerConnection).

(** [Exited] shows the help and exits with -1; [Crashed] is a panic; else
    the two listeners, and the connections *)
Inductive process :=
| Exited
| Crashed
| Running (metrics http : listener) (s : server).

Definition main (fl : flags) : process :=
  match start SetEphemeralUDPPortRange (f_help fl) (read_config (f_file fl)) with
  | Panic => Crashed
  | Ok None => Exited
  | Ok (Some _) => Running Binding Binding start_server
  end.

(** The two goroutines and the connections: an error of the websocket
    listener, as a panic of [startMetrics], ends the process. *)
Inductive process_step : process -> process -> Prop :=
| ps_metrics m m' h s : metrics_step m (Some m') -> process_step (Running m h s) (Running m' h s)
| ps_metrics_refused m h s : metrics_step m None -> process_step (Running m h s) Crashed
| ps_http m s : process_step (Running m Binding s) (Running m Listening s)
| ps_http_failed m h s : h <> Ended -> process_step (Running m h s) Crashed
| ps_serve m s s' : server_step s s' -> process_step (Running m Listening s) (Running m Listening s').

(** ** Properties *)

(** What holds of a process that [main] started *)
Definition process_ok (p : process) : Prop :=
  match p with
  | Running _ h s => rtc server_step start_server s /\ h <> Ended /\ (h = Binding -> s = start_server)
  | _ => True
  end.

Lemma process_step_ok p q : process_step p q -> process_ok p -> process_ok q.
Proof.
  destruct 1; cbn; try done; [by intros (? & _)|].
  intros (Hs & _). split; [by eapply rtc_r|done].
Qed.

(** What has ended stays ended. *)
Lemma process_ended p q : process_step p q -> p <> Exited /\ p <> Crashed.
Proof. by destruct 1. Qed.

(** A process that runs was given a configuration that [load] accepts and
    pion can use, and no [-h]; its connections and sessions are those of a
    run of [server_step], there are none before the listener is up, and an
    error of that listener at any time, or of the metrics' at the start,
    ends it. *)
Theorem process_runs fl m h s :
  rtc process_step (main fl) (Running m h s) ->
  f_help fl = false
  /\ (exists t, start SetEphemeralUDPPortRange (f_help fl) (read_config (f_file fl)) = Ok (Some t))
  /\ rtc server_step start_server s /\ (h = Binding -> s = start_server)
  /\ process_step (Running m h s) Crashed.
Proof.
  intros Hrun. assert (process_ok (Running m h s)) as (H1 & H2 & H3).
  { assert (process_ok (main fl)) as H0.
    { unfold main. destruct (start _ _ _) as [[t|]|]; [|done..]. by split; [apply rtc_refl|]. }
    revert H0. induction Hrun as [|p q r Hst _ IH]; [done|]. intros H0. by apply IH, (process_step_ok p). }
  assert (exists t, start SetEphemeralUDPPortRange (f_help fl) (read_config (f_file fl)) = Ok (Some t)) as [t Ht].
  { unfold main in Hrun. destruct (start _ _ _) as [[t|]|]; [by exists t|..]; exfalso;
      apply rtc_inv in Hrun as [E|(q & Hq & _)]; try done; by apply process_ended in Hq as [? ?]. }
  split; [|split; [by exists t|]; split; [done|]; split; [done|by apply ps_http_failed]].
  unfold start, parse in Ht. destruct (f_help fl); [|done].
  destruct (read_config (f_file fl)) as [c|]; [|by destruct (load None) as [[]|]].
  by destruct (load (Some c)) as [[]|].
Qed.
End process.
